(* ===== verification/_CoqProject ===== *)
-Q . S2P
Prelude.v
Wire.v
Xmodem.v
GoStrings.v
Telnet.v
Limits.v
Registry.v
Input.v
Screen.v
Terminal.v
Base64.v
Sha256.v
GoTime.v
Vault.v
Sql.v
Users.v
Credentials.v
Boards.v
Mail.v
Sealed.v
Files.v
Uploads.v
AuditLog.v
SessionLog.v
GoNet.v
Bans.v
Rekey.v
Login.v
DoorStore.v
Doors.v
Releases.v
Relay.v
World.v
Widgets.v
MailScreens.v
BoardScreens.v
FileScreens.v
ProfileScreens.v
Apply.v
DoorScreens.v
SysOpScreens.v
Menu.v
Confine.v
Member.v
Gates.v
Sessions.v
Server.v
Shutdown.v
Sysopctl.v
Ssh.v
Migrate.v
Startup.v
Tool.v
Sound.v
Integrity.v
Watchdog.v
Supervise.v
Front.v
