(* ===== verification/Prelude.v ===== *)
(** * AdmiralBBS verification library

    A model of AdmiralBBS, a bulletin board in Go reached over Telnet and SSH, and
    what it promises, proved.  File names below are relative to the repository's
    src/.

    ** The program

    [cmd/admiralbbs] listens on two ports.  Telnet callers can only apply for
    membership.  SSH callers authenticate with a key ([transport]), then with a
    password or, the first time, a one-time token ([menu/login.go]), get a node
    and a place in the registries of who is online ([session]), a daily time
    budget, and the main menu: boards, mail, files, doors, profile, and for SysOps
    the control panel ([menu]).  The menus call the repositories of [store], which
    keep SQLite tables with columns sealed by [crypto]; every step is written to a
    chained audit trail ([audit]).  [cmd/sysopctl] and [cmd/rekey] work on the
    same database from the host.

    ** The files

    Ground: [Prelude] (bytes, machine integers, results, list lemmas, tactics),
    [Wire] (a peer's bytes and failing writes), [GoStrings], [GoTime], [GoNet],
    [Base64], [Sha256] (what the program uses of Go's library, written out), and
    [Sql] (a table with row ids, constraints, the statements used).

    Transports and session: [Telnet] transport/telnet.go; [Ssh] transport/ssh.go;
    [Limits] transport/limits.go as interleaved steps; [Registry]
    session/nodepool.go, presence.go, roster.go; [Input], [Terminal], [Watchdog]
    session/session.go, input.go, terminal.go; [Screen] screen/; [Xmodem]
    xfer/xmodem.go.

    Data: [Vault] crypto/vault.go and the sealing of store/store.go; [Migrate] the
    migrations of store/store.go; [Users] users.go, membership.go, anomalies.go;
    [Credentials] password.go, tokens.go, keys.go; [Boards] messages.go,
    readptr.go; [Mail] mail.go, blocks.go, reports.go; [Files] files.go, with
    [Uploads] its calls interleaved statement by statement; [Bans] bans.go;
    [DoorStore] doors.go, installed_doors.go, settings.go; [SessionLog] sessionlog.go; [AuditLog] audit/log.go; [Rekey] store/rekey.go with
    cmd/rekey/main.go.  [Sealed] holds abstract boards and mail, as plain lists,
    and that the sealed tables refine them.

    Screens: [Login] menu/login.go; [World] and [Widgets], the monad of screens
    and what they share; [MailScreens], [BoardScreens], [FileScreens],
    [ProfileScreens], [Apply], [DoorScreens], [SysOpScreens], [Menu], one per file
    of menu/; [Doors] doors/, with [Relay] the copying goroutines of bridge.go,
    [Releases] the downloads and [Supervise] the goroutines of install.go.

    The whole: [Confine], [Member], [Gates] (what a member, a SysOp and an
    applicant can bring about, over every screen), [Sessions] (the registries
    under interleaved sessions), [Server] (both handlers from connection to
    close, the budget), [Startup] (the start of cmd/admiralbbs/main.go, with Open of
    store/store.go), [Shutdown] (its signal handler against sessions inside Emit),
    [Sysopctl] the commands of cmd/sysopctl/main.go and [Tool] its main; [Sound]
    and [Integrity], the constraints of store/migrations over the whole database,
    kept by every operation and by the whole life of an installation; [Front],
    from an accepted connection to the menu.

    ** How code became definitions

    A repository is a function on its table, returning Go's pair of value and
    error as a [result] with the table as the code left it, also on errors.  A
    screen is a [World.flow]: state passing over one caller's world (input left,
    output, all tables, the member record the screens share by pointer, audit
    trail, clock) that may stop with [Hangup], with [Crash] where Go panics, or
    with [OutOfFuel].  Where goroutines share state ([Limits], [Sessions],
    [Supervise], [Relay], [Uploads], [Shutdown], the window channel in [Ssh]) the model is a step relation whose
    steps are the critical sections or, in [Uploads] and [Shutdown], the statements
    inside them, and properties hold in every reachable state.  A step is never
    forced, so a session may block anywhere; what runs after a mutex is given back
    (the close of a displaced session in [Sessions]) is a step of its own.  Writes
    can fail, after any part of their bytes: of the trail in [Shutdown], of a blob
    in [Files], to the caller in [Relay] and [Xmodem].
    Integers are Z with Go's width where it shows (bytes, CRC, block numbers,
    SQLite's 64-bit points); times are nanoseconds.  Strings are their bytes.

    Code outside the repository is a class or a section variable: the AEAD and
    Argon2id ([Vault.Crypto], with [CryptoLaws] where opening must undo sealing
    and reject the rest), encoding/json on events ([AuditLog.EventJson]),
    golang.org/x/crypto/ssh ([Credentials.SshKeys], the parameters of [Ssh]),
    SQLite on a migration's text ([Migrate]), network and operating system
    ([DoorScreens.DoorHost], [World.Env]).  Random bytes and clocks are arguments.
    HMAC-SHA256 is computed.

    ** What is shown

    - Getting in: [Ssh.handler_authenticated], [Login.login_needs_secret],
      [first_login], [three_tries], [Credentials.token_single_use],
      [keys_per_tier], [Server.ssh_session] and [Tool.first_sysop_logs_in], which
      composes the tool, the start of the daemon and the login; [Front.front_door]
      puts the accept loop, the login and the menus together, on any database a
      history can lead to.
    - What callers may do: [Member.member_confined] over all menus,
      [Gates.sysop_actions_gated], [Gates.telnet_only_applies],
      [Mail.mail_privacy], [Bans.ban_covers].
    - Data: [Integrity.history_sound] (ids, unique columns, foreign keys, reply trees,
      library bounds and the accounts there were, after any history of starts,
      connections, commands and rotations), [Sealed.mail_refines] and
      [boards_refine], [Files.upload_download], [Users.handles_are_unique],
      [AuditLog.audit_reads_back] and [tampering], [Vault.vault_survives_restart],
      [Rekey.rekey_restart], [Startup.restart_same], [Migrate.migrations_resume],
      [Releases.download_replaces].
    - Wires: XMODEM's round trip, its receiver against a grammar of blocks, the
      Telnet parser against a grammar of tokens and independence of segmentation,
      line input, the door handshake.
    - Concurrency: the limiter's caps and the absence of leaks,
      [Sessions.online_exact], [Supervise.stop_ends_door],
      [Relay.relay_order], [Uploads.uploads_interleaved],
      [Shutdown.shutdown_keeps_trail].
    - Time: [Watchdog.disconnect_time], [Server.budget_used_up],
      [Xmodem.xmodem_terminates], [Server.handlers_return].

    Where the code does something else than it means to, the theorem states what
    it does: [Startup.wrong_key_serves], [Rekey.rekey_commits_first],
    [Server.budget_by_spelling],
    [Sysopctl.bootstrap_not_undone], [AuditLog.rekey_trusts_lines],
    [Boards.Delete_message], [Users.points_overflow],
    [Telnet.negotiation_never_settles], [Ssh.window_followed],
    [Front.idle_setting], [Shutdown.torn_line_refused], the window of
    [Sessions.online_exact] in which two sessions of a handle are connected.

    ** Fuel

    The loops of the screens run on the caller's input: [World.forever] takes as
    fuel the unread bytes plus one, and every turn reads a byte or ends
    ([World.tame]); [Server.handlers_return] shows that no handler runs out.  The
    readers of [Input] and the parsers take the length of their input.  XMODEM's
    loops take the length of the data to send or of the bytes left to read, and
    [Xmodem.xmodem_terminates] shows that this is enough.  [GoStrings.dec] takes twenty
    digits, enough for 64 bits.

    ** What is not modelled

    The parsing of flags, listeners, log texts; dialling, HTTP, processes and their
    isolation beyond the parameters they are given; SQLite's own errors (a
    statement fails on a constraint only, except in [Rekey] and [Migrate]); the
    rounding of minutes to doubles; timers inside a screen, whose effect is the end
    of the input at any byte.  The statements of two callers' screens are not
    interleaved: each takes its own lock, and what one screen reads between two of
    its statements is its own state ([Uploads] does it for files, where a mutex
    and the disk are involved; [Integrity.history_sound] runs connections one
    after the other).  The Go lines that no definition stands for are imports,
    comments, struct wrappers ([Store.Users] and the like), accessors under a mutex
    and the goroutines that log a stopped listener. *)

From Stdlib Require Export ZArith Lia.
From stdpp Require Export prelude gmap strings list sorting.
#[global] Open Scope Z_scope.

Declare Scope go_scope.
Delimit Scope go_scope with go.

(** ** Machine integers and bytes *)

(** A Go [[]byte] or [string]: the bytes in order, each a [Z]. *)
Abbreviation bytes := (list Z).

Definition byte_ok (b : Z) : Prop := 0 <= b < 256.
Abbreviation bytes_ok := (Forall byte_ok).

#[export] Instance byte_ok_dec b : Decision (byte_ok b).
Proof. unfold byte_ok. apply _. Defined.

(** Conversions to [uint8], [uint16], [uint32]: Go wraps. *)
Definition u8 (x : Z) : Z := x mod 256.
Definition u16 (x : Z) : Z := x mod 65536.
Definition u32 (x : Z) : Z := x mod 4294967296.

(** The range of Go's [int] / [int64]. *)
Definition int64_ok (x : Z) : Prop := -9223372036854775808 <= x <= 9223372036854775807.
Definition int64_okb (x : Z) : bool :=
  (-9223372036854775808 <=? x) && (x <=? 9223372036854775807).

Lemma int64_okb_spec x : int64_okb x = true <-> int64_ok x.
Proof. unfold int64_okb, int64_ok. by rewrite andb_true_iff, !Z.leb_le. Qed.

Lemma u8_ok x : byte_ok (u8 x).
Proof. unfold byte_ok, u8. apply Z.mod_pos_bound. lia. Qed.

Lemma u8_id x : byte_ok x -> u8 x = x.
Proof. unfold byte_ok, u8. intros. by apply Z.mod_small. Qed.

Lemma u16_bound x : 0 <= u16 x < 65536.
Proof. unfold u16. apply Z.mod_pos_bound. lia. Qed.

Lemma u32_bound x : 0 <= u32 x < 4294967296.
Proof. unfold u32. apply Z.mod_pos_bound. lia. Qed.

(** A string literal of the source, as its bytes. *)
Definition str (s : String.string) : bytes :=
  (λ a, Z.of_N (Ascii.N_of_ascii a)) <$> String.list_ascii_of_string s.

Lemma str_ok s : bytes_ok (str s).
Proof.
  unfold str. apply Forall_fmap, Forall_forall. intros a _. unfold byte_ok. simpl.
  pose proof (Ascii.N_ascii_bounded a). lia.
Qed.

(** ** Results: a Go [(value, error)] pair with the error in the type *)

Inductive result (E A : Type) : Type :=
  | Ok (a : A)
  | Err (e : E).
Arguments Ok {E A} a.
Arguments Err {E A} e.

#[export] Instance result_ret {E} : MRet (result E) := λ A a, Ok a.
#[export] Instance result_bind {E} : MBind (result E) :=
  λ A B f m, match m with Ok a => f a | Err e => Err e end.

Definition is_Ok {E A} (r : result E A) : bool :=
  match r with Ok _ => true | Err _ => false end.

Definition res_opt {E A} (r : result E A) : option A :=
  match r with Ok a => Some a | Err _ => None end.

#[export] Instance result_eq_dec {E A} `{EqDecision E, EqDecision A} :
  EqDecision (result E A).
Proof. solve_decision. Defined.

(** [mapM] over a list: the [for rows.Next()] loops that stop at the first
    row that fails to scan. *)
Fixpoint mapR {E A B} (f : A -> result E B) (l : list A) : result E (list B) :=
  match l with
  | [] => Ok []
  | x :: l' =>
      match f x with
      | Err e => Err e
      | Ok y => match mapR f l' with Err e => Err e | Ok ys => Ok (y :: ys) end
      end
  end.

Lemma mapR_ok {E A B} (f : A -> result E B) l ys :
  mapR f l = Ok ys <-> Forall2 (λ x y, f x = Ok y) l ys.
Proof.
  revert ys. induction l as [|x l IH]; intros ys; simpl.
  { split; [by intros [= <-]; constructor | by inversion 1]. }
  destruct (f x) as [y|e] eqn:Hf.
  - destruct (mapR f l) as [ys'|e] eqn:Hl.
    + split.
      * intros [= <-]. constructor; [done|]. by apply IH.
      * intros (y' & ys'' & H1 & H2 & ->)%Forall2_cons_inv_l.
        apply IH in H2. congruence.
    + split; [done|]. intros (y' & ys'' & H1 & H2 & ->)%Forall2_cons_inv_l.
      by apply IH in H2.
  - split; [done|]. intros (y' & ys'' & H1 & H2 & ->)%Forall2_cons_inv_l. congruence.
Qed.

Lemma mapR_total {E A B} (f : A -> result E B) (g : A -> B) l :
  (forall x, x ∈ l -> f x = Ok (g x)) -> mapR f l = Ok (g <$> l).
Proof.
  intros H. apply mapR_ok, Forall2_fmap_r, Forall2_same_length_lookup_2; [done|].
  intros i x y Hx Hy. simplify_eq. apply H. by eapply list_elem_of_lookup_2.
Qed.

Lemma mapR_err {E A B} (f : A -> result E B) l x e :
  x ∈ l -> f x = Err e -> exists e', mapR f l = Err e'.
Proof.
  induction 1 as [x l|x y l ? IH]; intros Hf; simpl.
  - rewrite Hf. eauto.
  - destruct (f y); [|eauto]. destruct IH as [e' ->]; eauto.
Qed.

(** ** Tactics *)

(** Case analysis on the innermost boolean test or match of the goal. *)
Ltac go_case :=
  match goal with
  | |- context [if ?b then _ else _] =>
      match b with context [if _ then _ else _] => fail 1 | _ => destruct b eqn:? end
  | |- context [match ?x with _ => _ end] =>
      match x with context [match _ with _ => _ end] => fail 1 | _ => destruct x eqn:? end
  end.

(** Turn boolean comparisons in the context into propositions. *)
Ltac bool_hyps :=
  repeat match goal with
  | H : (_ && _) = true |- _ => apply andb_true_iff in H; destruct H
  | H : (_ || _) = false |- _ => apply orb_false_iff in H; destruct H
  | H : negb _ = true |- _ => apply negb_true_iff in H
  | H : negb _ = false |- _ => apply negb_false_iff in H
  | H : (_ =? _) = true |- _ => apply Z.eqb_eq in H
  | H : (_ =? _) = false |- _ => apply Z.eqb_neq in H
  | H : (_ <? _) = true |- _ => apply Z.ltb_lt in H
  | H : (_ <? _) = false |- _ => apply Z.ltb_ge in H
  | H : (_ <=? _) = true |- _ => apply Z.leb_le in H
  | H : (_ <=? _) = false |- _ => apply Z.leb_gt in H
  | H : bool_decide _ = true |- _ => apply bool_decide_eq_true in H
  | H : bool_decide _ = false |- _ => apply bool_decide_eq_false in H
  end.

(** A closed decidable fact, by computing its decision. *)
Ltac by_decide :=
  match goal with |- ?P => refine (proj1 (bool_decide_eq_true P) _) end; vm_compute; reflexivity.

(** Linear arithmetic with [/] and [mod]. *)
Ltac zdiv := Z.div_mod_to_equations; lia.

(** ** Lists *)

(** Length as Go's [len]. *)
Definition len {A} (l : list A) : Z := Z.of_nat (length l).

Lemma len_nonneg {A} (l : list A) : 0 <= len l.
Proof. unfold len. lia. Qed.

Lemma len_app {A} (l k : list A) : len (l ++ k) = len l + len k.
Proof. unfold len. rewrite length_app. lia. Qed.

Lemma len_nil_inv {A} (l : list A) : len l = 0 -> l = [].
Proof. destruct l; [done|]. unfold len. simpl. lia. Qed.

(** Decidable equality of byte strings as a bool, Go's [a == b]. *)
Definition beq (a b : bytes) : bool := bool_decide (a = b).

Lemma beq_true a b : beq a b = true <-> a = b.
Proof. unfold beq. apply bool_decide_eq_true. Qed.

Lemma beq_false a b : beq a b = false <-> a <> b.
Proof. unfold beq. apply bool_decide_eq_false. Qed.

Lemma beq_refl a : beq a a = true.
Proof. by apply beq_true. Qed.

(** Facts on bounded bit operations. *)
Lemma land_bound x m : 0 <= m -> 0 <= Z.land x m <= m.
Proof.
  intros Hm. split; [apply Z.land_nonneg; lia|].
  apply Z.ldiff_le; [lia|]. apply Z.bits_inj'. intros k Hk.
  rewrite Z.ldiff_spec, Z.land_spec, Z.bits_0.
  by destruct (Z.testbit x k), (Z.testbit m k).
Qed.

Lemma lxor_bound n x y : 0 <= n -> 0 <= x < 2 ^ n -> 0 <= y < 2 ^ n -> 0 <= Z.lxor x y < 2 ^ n.
Proof.
  intros Hn Hx Hy.
  assert (Z.lxor x y mod 2 ^ n = Z.lxor x y) as <-; [|apply Z.mod_pos_bound; lia].
  rewrite <-Z.land_ones by done. apply Z.bits_inj'. intros k Hk.
  rewrite Z.land_spec, Z.lxor_spec, Z.testbit_ones_nonneg by lia.
  destruct (Z.ltb_spec k n) as [_|Hkn]; [by rewrite andb_true_r|].
  rewrite andb_false_r, <-(Z.mod_small x (2 ^ n)), <-(Z.mod_small y (2 ^ n)) by done.
  by rewrite !Z.mod_pow2_bits_high by lia.
Qed.

(** Checking a decidable property of every [0 <= x < m] by computation. *)
Fixpoint all_from (n : nat) (i : Z) (f : Z -> bool) : bool :=
  match n with
  | O => true
  | S n' => f i && all_from n' (i + 1) f
  end.

Definition all_range (m : Z) (f : Z -> bool) : bool := all_from (Z.to_nat m) 0 f.

Lemma all_from_spec n i f :
  all_from n i f = true -> forall x, i <= x < i + Z.of_nat n -> f x = true.
Proof.
  revert i. induction n as [|n IH]; simpl; intros i H x Hx; [lia|].
  apply andb_true_iff in H as [H1 H2].
  destruct (decide (x = i)) as [->|]; [done|]. apply (IH (i + 1)); [done|lia].
Qed.

Lemma all_range_spec m f :
  all_range m f = true -> forall x, 0 <= x < m -> f x = true.
Proof. intros H x Hx. apply (all_from_spec _ _ _ H). lia. Qed.

Create HintDb go discriminated.
#[export] Hint Resolve u8_ok len_nonneg : go.
