(* ===== verification/Wire.v ===== *)
(** * The caller's wire

    [io.ReadWriter] as the program uses it: the bytes the peer will send, in
    order, the bytes written so far, and how many more writes succeed.  A read
    past the end of the input is the error of a peer that hung up. *)

From S2P Require Import Prelude.

Record wire : Type := Wire {
  w_in : bytes;            (** bytes still to be read *)
  w_out : bytes;           (** bytes written, oldest first *)
  w_wleft : option nat;    (** [Some n]: after [n] more writes, writes fail *)
}.

(** Computations over a wire that may fail with an error of type [E]. *)
Definition wireM (E A : Type) : Type := wire -> result E A * wire.

#[export] Instance wireM_ret {E} : MRet (wireM E) := λ A a w, (Ok a, w).
#[export] Instance wireM_bind {E} : MBind (wireM E) :=
  λ A B f m w, match m w with
               | (Ok a, w') => f a w'
               | (Err e, w') => (Err e, w')
               end.

Definition wfail {E A} (e : E) : wireM E A := λ w, (Err e, w).

(** A write whose error the caller discards. *)
Definition wignore {E A} (m : wireM E A) : wireM E () :=
  λ w, (Ok (), (m w).2).

Section Ops.
Context {E : Type} (eof : E) (werr : E).

(** One byte ([io.ReadFull] on a one-byte buffer, [bufio.Reader.ReadByte]). *)
Definition wread : wireM E Z := λ w,
  match w_in w with
  | [] => (Err eof, w)
  | b :: i => (Ok b, Wire i (w_out w) (w_wleft w))
  end.

(** [io.ReadFull] on an [n]-byte buffer: a short input is consumed. *)
Definition wreadFull (n : nat) : wireM E bytes := λ w,
  if decide (n <= length (w_in w))%nat
  then (Ok (take n (w_in w)), Wire (drop n (w_in w)) (w_out w) (w_wleft w))
  else (Err eof, Wire [] (w_out w) (w_wleft w)).

Definition wwrite (p : bytes) : wireM E () := λ w,
  match w_wleft w with
  | Some O => (Err werr, w)
  | Some (S k) => (Ok (), Wire (w_in w) (w_out w ++ p) (Some k))
  | None => (Ok (), Wire (w_in w) (w_out w ++ p) None)
  end.

Lemma wreadFull_app n p i o wl :
  length p = n -> wreadFull n (Wire (p ++ i) o wl) = (Ok p, Wire i o wl).
Proof.
  intros <-. unfold wreadFull. simpl. rewrite decide_True by (rewrite length_app; lia).
  by rewrite take_app_length, drop_app_length.
Qed.

(** Reads never lengthen the input; a successful one-byte read shortens it. *)
Lemma wread_in w r w' :
  wread w = (r, w') -> (length (w_in w') <= length (w_in w))%nat.
Proof. destruct w as [[|b i] o wl]; intros [= <- <-]; simpl; lia. Qed.

Lemma wread_ok w b w' :
  wread w = (Ok b, w') ->
  length (w_in w) = S (length (w_in w')) /\ w_in w = b :: w_in w' /\
  w_out w' = w_out w /\ w_wleft w' = w_wleft w.
Proof. destruct w as [[|c i] o wl]; [done|]. by intros [= <- <-]. Qed.

Lemma wreadFull_in n w r w' :
  wreadFull n w = (r, w') -> (length (w_in w') <= length (w_in w))%nat.
Proof.
  unfold wreadFull. case_decide; intros [= <- <-]; simpl; [rewrite length_drop|]; lia.
Qed.

Lemma wwrite_in p w r w' : wwrite p w = (r, w') -> w_in w' = w_in w.
Proof. destruct w as [i o [[|k]|]]; by intros [= <- <-]. Qed.
End Ops.

Lemma wbind_eq {E A B} (m : wireM E A) (f : A -> wireM E B) w :
  (m ≫= f) w = match m w with
               | (Ok a, w') => f a w'
               | (Err e, w') => (Err e, w')
               end.
Proof. done. Qed.

Lemma wret_eq {E A} (a : A) w : (mret a : wireM E A) w = (Ok a, w).
Proof. done. Qed.

(** Runs the monadic plumbing of a goal about a concrete wire. *)
Ltac wire_cbn :=
  repeat (cbn [wread wwrite w_in w_out w_wleft fst snd wignore wfail];
          first [rewrite wbind_eq | rewrite wret_eq]);
  cbn [wread wwrite w_in w_out w_wleft fst snd wignore wfail].
