(* ===== verification/Xmodem.v ===== *)
(** * XMODEM file transfer (src/xfer/xmodem.go)

    [crc16], the sender [Send]/[sendBlock] and the receiver [Receive] over a
    [wire], with every branch of the code: CRC and checksum mode, retries,
    cancellation, duplicate blocks, the size bound and the write errors.
    Then: the CRC detects any error confined to two adjacent bytes, a transfer
    between the two routines is a round trip, the receiver survives line noise
    and lost acknowledgements, and its memory is bounded. *)

From S2P Require Import Prelude Wire.

Definition soh : Z := 1.
Definition eot : Z := 4.
Definition ack : Z := 6.
Definition nak : Z := 21.
Definition can : Z := 24.
Definition sub : Z := 26.
Definition crc : Z := 67.

(** The package's errors, the reader's and writer's errors, and the model's
    "out of fuel", which [xmodem_terminates] shows is never returned. *)
Inductive xerr :=
  | ErrCanceled | ErrNoStart | ErrNoAck | ErrTooBig
  | ErrRead | ErrWrite | ErrFuel.

#[export] Instance xerr_eq_dec : EqDecision xerr.
Proof. solve_decision. Defined.

Abbreviation xm := (wireM xerr).

Definition maxRetries : nat := 10.

(** One of the eight rounds of [crc16]'s inner loop. *)
Definition crc_bit (c : Z) : Z :=
  if Z.land c 32768 =? 0 then u16 (Z.shiftl c 1)
  else Z.lxor (u16 (Z.shiftl c 1)) 4129.

Definition crc_byte (c b : Z) : Z :=
  Nat.iter 8 crc_bit (Z.lxor c (u16 (Z.shiftl b 8))).

Definition crc16 (data : bytes) : Z := fold_left crc_byte data 0.

Definition readByte : xm Z := wread ErrRead.
Definition write : bytes -> xm () := wwrite ErrWrite.
Definition readFull : nat -> xm bytes := wreadFull ErrRead.

(** ** Sending *)

(** The loop that waits for the receiver: [left] is [maxRetries - tries]. *)
Fixpoint waitStart (left : nat) : xm bool :=
  b ← readByte;
  if b =? crc then mret true
  else if b =? nak then mret false
  else if b =? can then wfail ErrCanceled
  else match left with
       | O => wfail ErrNoStart
       | S l => waitStart l
       end.

Definition checksum (chunk : bytes) : Z := fold_left (λ s b, u8 (s + b)) chunk 0.

Definition mkFrame (block : Z) (chunk : bytes) (useCRC : bool) : bytes :=
  [soh; block; u8 (255 - block)] ++ chunk ++
  (if useCRC then [u8 (Z.shiftr (crc16 chunk) 8); u8 (crc16 chunk)]
   else [checksum chunk]).

Fixpoint sendTries (left : nat) (frame : bytes) : xm () :=
  match left with
  | O => wfail ErrNoAck
  | S l =>
      _ ← write frame;
      b ← readByte;
      if b =? ack then mret ()
      else if b =? can then wfail ErrCanceled
      else sendTries l frame
  end.

Definition sendBlock (block : Z) (chunk : bytes) (useCRC : bool) : xm () :=
  sendTries maxRetries (mkFrame block chunk useCRC).

(** [copy] into a [[128]byte] from [data[min(off, len(data)):]], then padding. *)
Definition mkChunk (off : Z) (data : bytes) : bytes :=
  let c := take 128 (drop (Z.to_nat (Z.min off (len data))) data) in
  c ++ replicate (128 - length c) sub.

Fixpoint sendBlocks (fuel : nat) (block off : Z) (data : bytes) (useCRC : bool) : xm () :=
  match fuel with
  | O => wfail ErrFuel
  | S fuel' =>
      if (off <? len data) || (off =? 0) then
        _ ← sendBlock block (mkChunk off data) useCRC;
        if len data <=? off + 128 then mret ()
        else sendBlocks fuel' (u8 (block + 1)) (off + 128) data useCRC
      else mret ()
  end.

Fixpoint sendEot (left : nat) : xm () :=
  match left with
  | O => wfail ErrNoAck
  | S l =>
      _ ← write [eot];
      b ← readByte;
      if b =? ack then mret () else sendEot l
  end.

Definition Send (data : bytes) : xm () :=
  useCRC ← waitStart maxRetries;
  _ ← sendBlocks (S (length data)) 1 0 data useCRC;
  sendEot maxRetries.

(** ** Receiving *)

(** [trimPad] walks back over the trailing SUB bytes. *)
Fixpoint drop_sub (r : bytes) : bytes :=
  match r with
  | b :: r' => if b =? sub then drop_sub r' else r
  | [] => []
  end.

Definition trimPad (b : bytes) : bytes := reverse (drop_sub (reverse b)).

(** What one frame asks of the receiver. *)
Inductive verdict := Accept | Duplicate | Reject.

Definition judge (expected : Z) (hdr data ck : bytes) : verdict :=
  let h0 := nth 0 hdr 0 in
  let h1 := nth 1 hdr 0 in
  let goodHdr := h0 =? u8 (255 - h1) in
  let goodCRC := crc16 data =? Z.lor (u16 (Z.shiftl (nth 0 ck 0) 8)) (nth 1 ck 0) in
  if goodHdr && goodCRC && (h0 =? expected) then Accept
  else if goodHdr && (h0 =? u8 (expected - 1)) then Duplicate
  else Reject.

(** The body of the receive loop; [fuel] bounds its iterations. *)
Fixpoint recvLoop (fuel : nat) (maxBytes : Z) (expected : Z) (out : bytes) : xm bytes :=
  match fuel with
  | O => wfail ErrFuel
  | S fuel' =>
      b ← readByte;
      if b =? eot then
        _ ← wignore (write [ack]); mret (trimPad out)
      else if b =? can then wfail ErrCanceled
      else if b =? soh then
        hdr ← readFull 2;
        data ← readFull 128;
        ck ← readFull 2;
        match judge expected hdr data ck with
        | Accept =>
            let out' := out ++ data in
            if (0 <? maxBytes) && (maxBytes <? len out') then
              _ ← wignore (write [can; can]); wfail ErrTooBig
            else
              _ ← wignore (write [ack]);
              recvLoop fuel' maxBytes (u8 (expected + 1)) out'
        | Duplicate => _ ← wignore (write [ack]); recvLoop fuel' maxBytes expected out
        | Reject => _ ← wignore (write [nak]); recvLoop fuel' maxBytes expected out
        end
      else recvLoop fuel' maxBytes expected out
  end.

(** Every iteration reads at least one byte, so one more than the input is
    enough fuel. *)
Definition recvAll (maxBytes : Z) : xm bytes := λ w,
  recvLoop (S (length (w_in w))) maxBytes 1 [] w.

Definition Receive (maxBytes : Z) : xm bytes :=
  _ ← write [crc]; recvAll maxBytes.

(** ** The CRC *)

Abbreviation u16_ok := (λ c : Z, 0 <= c < 65536).

Lemma u16_lxor x y : u16 (Z.lxor x y) = Z.lxor (u16 x) (u16 y).
Proof.
  unfold u16. change 65536 with (2 ^ 16). rewrite <-!Z.land_ones by lia.
  apply Z.bits_inj'. intros k Hk. rewrite !Z.land_spec, !Z.lxor_spec, !Z.land_spec.
  by destruct (Z.testbit x k), (Z.testbit y k), (Z.testbit (Z.ones 16) k).
Qed.

Lemma land_bit15 c : (Z.land c 32768 =? 0) = negb (Z.testbit c 15).
Proof.
  change 32768 with (2 ^ 15). destruct (Z.testbit c 15) eqn:Hc; simpl.
  - apply Z.eqb_neq. intros H0%(f_equal (λ z, Z.testbit z 15)).
    rewrite Z.land_spec, Hc in H0. done.
  - apply Z.eqb_eq, Z.bits_inj'. intros k Hk. rewrite Z.land_spec, Z.bits_0.
    rewrite Z.pow2_bits_eqb by lia. destruct (Z.eqb_spec 15 k) as [<-|]; [by rewrite Hc|].
    by rewrite andb_false_r.
Qed.

Lemma crc_bit_alt c :
  crc_bit c = Z.lxor (u16 (Z.shiftl c 1)) (if Z.testbit c 15 then 4129 else 0).
Proof.
  unfold crc_bit. rewrite land_bit15. destruct (Z.testbit c 15); simpl; [done|].
  by rewrite Z.lxor_0_r.
Qed.

Lemma crc_bit_ok c : u16_ok (crc_bit c).
Proof.
  rewrite crc_bit_alt. apply (lxor_bound 16); [lia| |].
  - apply u16_bound.
  - by destruct (Z.testbit c 15).
Qed.

Lemma crc_bit_lxor a b : crc_bit (Z.lxor a b) = Z.lxor (crc_bit a) (crc_bit b).
Proof.
  rewrite !crc_bit_alt, Z.shiftl_lxor, u16_lxor, Z.lxor_spec.
  destruct (Z.testbit a 15), (Z.testbit b 15); simpl; rewrite ?Z.lxor_0_r.
  all: apply Z.bits_inj'; intros k Hk; rewrite ?Z.lxor_spec.
  all: repeat match goal with |- context [Z.testbit ?x ?i] =>
         destruct (Z.testbit x i) end; done.
Qed.

(** The step is invertible: the polynomial has a constant term. *)
Definition crc_unbit (c : Z) : Z :=
  if Z.testbit c 0 then Z.lor 32768 (Z.shiftr (Z.lxor c 4129) 1) else Z.shiftr c 1.

Lemma crc_unbit_crc_bit c : u16_ok c -> crc_unbit (crc_bit c) = c.
Proof.
  assert (all_range 65536 (λ c, crc_unbit (crc_bit c) =? c) = true) as H by by vm_compute.
  intros Hc. by eapply Z.eqb_eq, (all_range_spec _ _ H).
Qed.

Lemma crc_bit_inj a b : u16_ok a -> u16_ok b -> crc_bit a = crc_bit b -> a = b.
Proof.
  intros Ha Hb H%(f_equal crc_unbit). by rewrite !crc_unbit_crc_bit in H.
Qed.

Definition crc_step8 (c : Z) : Z := Nat.iter 8 crc_bit c.

Lemma iter_crc_bit n c : u16_ok c -> u16_ok (Nat.iter n crc_bit c).
Proof. intros Hc. destruct n; simpl; [done|]. apply crc_bit_ok. Qed.

Lemma crc_step8_ok c : u16_ok (crc_step8 c).
Proof. apply crc_bit_ok. Qed.

Lemma crc_step8_lxor a b : crc_step8 (Z.lxor a b) = Z.lxor (crc_step8 a) (crc_step8 b).
Proof. unfold crc_step8. simpl. by rewrite !crc_bit_lxor. Qed.

Lemma crc_step8_inj a b : u16_ok a -> u16_ok b -> crc_step8 a = crc_step8 b -> a = b.
Proof.
  intros Ha Hb. unfold crc_step8. generalize 8%nat as n.
  induction n as [|n IH]; simpl; [done|]. intros H.
  apply IH, crc_bit_inj; [by apply iter_crc_bit..|done].
Qed.

Lemma shifted_byte_ok b : byte_ok b -> u16_ok (u16 (Z.shiftl b 8)).
Proof. intros. apply u16_bound. Qed.

Lemma crc_byte_step c b : crc_byte c b = crc_step8 (Z.lxor c (u16 (Z.shiftl b 8))).
Proof. done. Qed.

Lemma crc_byte_inj c1 c2 b :
  u16_ok c1 -> u16_ok c2 -> crc_byte c1 b = crc_byte c2 b -> c1 = c2.
Proof.
  intros H1 H2 H. rewrite !crc_byte_step in H.
  apply crc_step8_inj in H; [|apply (lxor_bound 16); [lia|done|apply u16_bound]..].
  apply (f_equal (λ z, Z.lxor z (u16 (Z.shiftl b 8)))) in H.
  by rewrite !Z.lxor_assoc, !Z.lxor_nilpotent, !Z.lxor_0_r in H.
Qed.

Lemma crc_fold_ok c data : u16_ok c -> u16_ok (fold_left crc_byte data c).
Proof.
  revert c. induction data as [|b data IH]; simpl; intros c Hc; [done|].
  apply IH, crc_step8_ok.
Qed.

Lemma crc16_ok data : u16_ok (crc16 data).
Proof. apply crc_fold_ok. lia. Qed.

Lemma crc_fold_inj c1 c2 data :
  u16_ok c1 -> u16_ok c2 ->
  fold_left crc_byte data c1 = fold_left crc_byte data c2 -> c1 = c2.
Proof.
  revert c1 c2. induction data as [|b data IH]; simpl; intros c1 c2 H1 H2 H; [done|].
  eapply crc_byte_inj, IH; eauto using crc_step8_ok.
Qed.

(** The only byte whose shifted CRC image is itself a shifted byte is zero. *)
Lemma crc_two_bytes x y :
  byte_ok x -> byte_ok y ->
  crc_step8 (u16 (Z.shiftl x 8)) = u16 (Z.shiftl y 8) -> x = 0 /\ y = 0.
Proof.
  intros Hx Hy.
  assert (all_range 256 (λ x, (x =? 0) ||
            negb (crc_step8 (u16 (Z.shiftl x 8)) mod 256 =? 0)) = true) as H by by vm_compute.
  intros Heq. pose proof (all_range_spec _ _ H x Hx) as Hb. clear H.
  cbv beta in Hb. rewrite Heq in Hb. unfold byte_ok in *.
  assert (u16 (Z.shiftl y 8) = y * 256) as Hy8.
  { unfold u16. rewrite Z.shiftl_mul_pow2 by lia. apply Z.mod_small. lia. }
  rewrite Hy8 in *. rewrite Z.mod_mul, orb_false_r in Hb by lia.
  apply Z.eqb_eq in Hb as ->. split; [done|].
  change (crc_step8 (u16 (Z.shiftl 0 8))) with 0 in Heq. lia.
Qed.

#[local] Opaque crc_step8.

Lemma crc_byte_ok c b : u16_ok (crc_byte c b).
Proof. apply crc_step8_ok. Qed.

Lemma lxor_cancel5 s a b c d :
  Z.lxor (Z.lxor s a) c = Z.lxor (Z.lxor s b) d -> Z.lxor a b = Z.lxor c d.
Proof.
  intros H. apply Z.bits_inj'. intros k Hk. apply (f_equal (λ z, Z.testbit z k)) in H.
  rewrite !Z.lxor_spec in *.
  by destruct (Z.testbit s k), (Z.testbit a k), (Z.testbit b k), (Z.testbit c k), (Z.testbit d k).
Qed.

Lemma crc_two_steps s x1 y1 x2 y2 :
  byte_ok x1 -> byte_ok y1 -> byte_ok x2 -> byte_ok y2 ->
  crc_byte (crc_byte s x1) y1 = crc_byte (crc_byte s x2) y2 -> x1 = x2 /\ y1 = y2.
Proof.
  intros Hx1 Hy1 Hx2 Hy2 H. rewrite !crc_byte_step in H.
  apply crc_step8_inj in H;
    [|apply (lxor_bound 16); [lia|apply crc_step8_ok|apply u16_bound]..].
  rewrite !crc_step8_lxor in H. apply lxor_cancel5 in H.
  rewrite <-crc_step8_lxor, <-!u16_lxor, <-!Z.shiftl_lxor in H.
  apply crc_two_bytes in H as [Ex%Z.lxor_eq Ey%Z.lxor_eq]; [done|..];
    apply (lxor_bound 8); done || lia.
Qed.

Lemma crc16_app a b : crc16 (a ++ b) = fold_left crc_byte b (crc16 a).
Proof. apply fold_left_app. Qed.

(** ** The wire format of a frame *)

Lemma crc_split c :
  u16_ok c -> Z.lor (u16 (Z.shiftl (u8 (Z.shiftr c 8)) 8)) (u8 c) = c.
Proof.
  intros Hc.
  assert (all_range 65536
    (λ c, Z.lor (u16 (Z.shiftl (u8 (Z.shiftr c 8)) 8)) (u8 c) =? c) = true) as H
    by by vm_compute.
  apply (all_range_spec _ _ H), Z.eqb_eq in Hc. done.
Qed.

(** Conversely the two check bytes are determined by the value they encode. *)
Lemma crc_join hi lo :
  byte_ok hi -> byte_ok lo ->
  u8 (Z.shiftr (Z.lor (u16 (Z.shiftl hi 8)) lo) 8) = hi /\
  u8 (Z.lor (u16 (Z.shiftl hi 8)) lo) = lo.
Proof.
  intros Hhi Hlo.
  assert (all_range 256 (λ hi, all_range 256 (λ lo,
    (u8 (Z.shiftr (Z.lor (u16 (Z.shiftl hi 8)) lo) 8) =? hi) &&
    (u8 (Z.lor (u16 (Z.shiftl hi 8)) lo) =? lo))) = true) as H by by vm_compute.
  apply (all_range_spec _ _ H) in Hhi. apply (all_range_spec _ _ Hhi) in Hlo.
  clear H Hhi. by apply andb_true_iff in Hlo as [->%Z.eqb_eq ->%Z.eqb_eq].
Qed.

Lemma hdr_complement e : byte_ok e -> u8 (255 - u8 (255 - e)) = e.
Proof. unfold byte_ok, u8. intros. zdiv. Qed.

Lemma judge_frame e c :
  byte_ok e -> judge e [e; u8 (255 - e)] c
                 [u8 (Z.shiftr (crc16 c) 8); u8 (crc16 c)] = Accept.
Proof.
  intros He. unfold judge. simpl. rewrite hdr_complement by done.
  by rewrite crc_split, !Z.eqb_refl by apply crc16_ok.
Qed.

(** An accepted frame is exactly the frame [sendBlock] builds in CRC mode. *)
Lemma judge_accept_inv e hdr data ck :
  bytes_ok hdr -> bytes_ok ck -> length hdr = 2%nat -> length ck = 2%nat ->
  judge e hdr data ck = Accept -> soh :: hdr ++ data ++ ck = mkFrame e data true.
Proof.
  intros Hh Hk. destruct hdr as [|h0 [|h1 [|]]]; try done.
  destruct ck as [|k0 [|k1 [|]]]; try done. intros _ _.
  apply Forall_cons in Hh as [Hh0 [Hh1 _]%Forall_cons].
  apply Forall_cons in Hk as [Hk0 [Hk1 _]%Forall_cons].
  unfold judge. simpl. repeat go_case; try done. intros _. bool_hyps. subst.
  unfold mkFrame. destruct (crc_join k0 k1 Hk0 Hk1) as [E1 E2].
  match goal with H : crc16 data = _ |- _ => rewrite H end.
  rewrite E1, E2, hdr_complement by done. done.
Qed.

(** ** The protocol, as a grammar of byte streams *)

(** What a receiver expecting block [e] skips: stray bytes, damaged frames and
    repeated blocks. *)
Inductive noise (e : Z) : bytes -> Prop :=
  | noise_nil : noise e []
  | noise_stray b n : b <> eot -> b <> can -> b <> soh -> noise e n -> noise e (b :: n)
  | noise_frame hdr data ck n :
      length hdr = 2%nat -> length data = 128%nat -> length ck = 2%nat ->
      judge e hdr data ck <> Accept -> noise e n ->
      noise e (soh :: hdr ++ data ++ ck ++ n).

(** A stream that carries the blocks [cs], numbered from [e], then EOT. *)
Inductive transmission : Z -> list bytes -> bytes -> Prop :=
  | tx_eot e n : noise e n -> transmission e [] (n ++ [eot])
  | tx_block e n c cs s :
      noise e n -> length c = 128%nat -> transmission (u8 (e + 1)) cs s ->
      transmission e (c :: cs) (n ++ mkFrame e c true ++ s).

(** ** The receive loop *)

(** More fuel than input bytes gives the same result whatever the fuel. *)
Lemma recvLoop_fuel f1 f2 m e out w :
  (length (w_in w) < f1)%nat -> (length (w_in w) < f2)%nat ->
  recvLoop f1 m e out w = recvLoop f2 m e out w.
Proof.
  revert f2 e out w. induction f1 as [|f1 IH]; intros [|f2] e out w H1 H2; try lia.
  cbn [recvLoop]. wire_cbn. unfold readByte.
  destruct w as [[|b i] o wl]; wire_cbn; [done|]. cbn [w_in length] in *.
  destruct (b =? eot); [done|]. destruct (b =? can); [done|].
  assert (forall e' out' w', (length (w_in w') <= length i)%nat ->
    recvLoop f1 m e' out' w' = recvLoop f2 m e' out' w') as IH'
    by (intros; apply IH; lia).
  destruct (b =? soh); [|apply IH'; simpl; lia].
  unfold readFull. wire_cbn.
  destruct (wreadFull _ 2 _) as [[hdr|] w1] eqn:E1; [|done]. wire_cbn.
  destruct (wreadFull _ 128 _) as [[data|] w2] eqn:E2; [|done]. wire_cbn.
  destruct (wreadFull _ 2 w2) as [[ck|] w3] eqn:E3; [|done]. wire_cbn.
  apply wreadFull_in in E1, E2, E3. cbn [w_in] in E1.
  assert (forall p, (length (w_in (write p w3).2) <= length i)%nat) as Hw.
  { intros p. destruct (write p w3) as [r w4] eqn:E4.
    apply wwrite_in in E4. simpl. rewrite E4. lia. }
  destruct (judge e hdr data ck); [|apply IH', Hw..].
  destruct (_ && _); [done|]. apply IH', Hw.
Qed.

(** Reading one whole frame. *)
Lemma recv_frame f m e out hdr data ck rest o wl :
  length hdr = 2%nat -> length data = 128%nat -> length ck = 2%nat ->
  recvLoop (S f) m e out (Wire (soh :: hdr ++ data ++ ck ++ rest) o wl) =
  (let w := Wire rest o wl in
   match judge e hdr data ck with
   | Accept =>
       if (0 <? m) && (m <? len (out ++ data))
       then (Err ErrTooBig, (write [can; can] w).2)
       else recvLoop f m (u8 (e + 1)) (out ++ data) (write [ack] w).2
   | Duplicate => recvLoop f m e out (write [ack] w).2
   | Reject => recvLoop f m e out (write [nak] w).2
   end).
Proof.
  intros Hh Hd Hk. cbn [recvLoop]. unfold readByte, readFull. wire_cbn.
  change (soh =? eot) with false. change (soh =? can) with false.
  change (soh =? soh) with true. wire_cbn.
  rewrite (wreadFull_app _ 2) by done. wire_cbn.
  rewrite (wreadFull_app _ 128) by done. wire_cbn.
  rewrite (wreadFull_app _ 2) by done. wire_cbn.
  destruct (judge e hdr data ck); [|done..]. by destruct (_ && _).
Qed.

Lemma write_wire p i o wl :
  exists o' wl', (write p (Wire i o wl)).2 = Wire i o' wl'.
Proof. destruct wl as [[|k]|]; eexists _, _; reflexivity. Qed.

(** Noise in front of the input changes nothing but the bytes written. *)
Lemma recv_noise m e out n rest o wl f :
  noise e n -> (length (n ++ rest) < f)%nat ->
  exists o' wl', recvLoop f m e out (Wire (n ++ rest) o wl) =
                 recvLoop (S (length rest)) m e out (Wire rest o' wl').
Proof.
  intros Hn. revert o wl f. induction Hn as [|b n Hb1 Hb2 Hb3 _ IH|hdr data ck n Hh Hd Hk Hj _ IH];
    intros o wl f Hf.
  - exists o, wl. apply recvLoop_fuel; simpl in *; lia.
  - destruct f as [|f]; [simpl in Hf; lia|]. cbn [recvLoop app]. unfold readByte. wire_cbn.
    rewrite !(proj2 (Z.eqb_neq _ _)) by done. apply IH. simpl in Hf. lia.
  - destruct f as [|f]; [simpl in Hf; lia|].
    rewrite <-app_comm_cons, <-!app_assoc, recv_frame by done.
    assert (length (n ++ rest) < f)%nat as Hf'.
    { simpl in Hf. rewrite !length_app in *. lia. }
    cbv zeta. destruct (judge e hdr data ck); [done|..];
      edestruct (write_wire) as (o' & wl' & ->); by apply IH.
Qed.

Lemma mkFrame_app e c rest :
  mkFrame e c true ++ rest =
  soh :: [e; u8 (255 - e)] ++ c ++ [u8 (Z.shiftr (crc16 c) 8); u8 (crc16 c)] ++ rest.
Proof. unfold mkFrame. by rewrite <-!app_assoc. Qed.

Lemma recv_accept f m e out c rest o wl :
  byte_ok e -> length c = 128%nat ->
  exists o' wl',
  recvLoop (S f) m e out (Wire (mkFrame e c true ++ rest) o wl) =
  if (0 <? m) && (m <? len (out ++ c)) then (Err ErrTooBig, Wire rest o' wl')
  else recvLoop f m (u8 (e + 1)) (out ++ c) (Wire rest o' wl').
Proof.
  intros He Hc. rewrite mkFrame_app, recv_frame by done. rewrite judge_frame by done. cbv zeta. destruct (_ && _); edestruct write_wire as (o' & wl' & ->); eauto.
Qed.

(** A well-formed stream is received, whatever noise it carries. *)
Lemma recv_transmission m e cs s :
  transmission e cs s -> byte_ok e ->
  forall out rest o wl f, (length (s ++ rest) < f)%nat ->
  (0 < m -> cs <> [] -> len (out ++ concat cs) <= m) ->
  exists o' wl', recvLoop f m e out (Wire (s ++ rest) o wl) =
                 (Ok (trimPad (out ++ concat cs)), Wire rest o' wl').
Proof.
  induction 1 as [e n Hn|e n c cs s Hn Hc _ IH]; intros He out rest o wl f Hf Hm.
  - rewrite <-app_assoc in *.
    destruct (recv_noise m e out n ([eot] ++ rest) o wl f) as (o1 & wl1 & ->); [done..|].
    cbn [recvLoop app length concat]. unfold readByte. wire_cbn.
    change (eot =? eot) with true. wire_cbn. rewrite app_nil_r.
    destruct (write_wire [ack] rest o1 wl1) as (o' & wl' & ->). eauto.
  - rewrite <-!app_assoc in *.
    edestruct (recv_noise m e out n) as (o1 & wl1 & ->); [done..|].
    destruct (recv_accept (length (mkFrame e c true ++ s ++ rest)) m e out c (s ++ rest) o1 wl1)
      as (o2 & wl2 & ->); [done..|].
    assert (((0 <? m) && (m <? len (out ++ c))) = false) as ->.
    { apply andb_false_iff. destruct (Z.ltb_spec 0 m); [right|by left].
      apply Z.ltb_ge. specialize (Hm ltac:(lia) ltac:(done)). cbn [concat] in Hm.
      rewrite app_assoc, len_app in Hm. pose proof (len_nonneg (concat cs)). lia. }
    destruct (IH (u8_ok _) (out ++ c) rest o2 wl2 (length (mkFrame e c true ++ s ++ rest)))
      as (o' & wl' & ->).
    + rewrite !length_app. unfold mkFrame. simpl. lia.
    + intros Hm0 _. cbn [concat] in Hm. rewrite <-app_assoc. by apply Hm.
    + cbn [concat]. rewrite <-app_assoc. eauto.
Qed.

(** Conversely, whatever is received was carried by such a stream. *)
Definition received (m e : Z) (out : bytes) (inp r : bytes) : Prop :=
  exists cs s rest, inp = s ++ rest /\ transmission e cs s /\
    r = trimPad (out ++ concat cs) /\ (0 < m -> cs <> [] -> len (out ++ concat cs) <= m).

Lemma received_noise m e out n inp r :
  noise e n -> received m e out inp r -> received m e out (n ++ inp) r.
Proof.
  intros Hn (cs & s & rest & -> & Ht & Hr & Hm).
  assert (forall n', noise e n' -> noise e (n ++ n')) as Happ.
  { clear -Hn. intros n' Hn'. induction Hn; simpl; [done|by constructor|].
    rewrite <-!app_assoc. by constructor. }
  inversion Ht; subst; repeat rewrite app_assoc; rewrite <-?app_assoc.
  - eexists [], (n ++ n0 ++ [eot]), rest. rewrite !app_assoc. split_and!; try done.
    constructor. auto.
  - eexists (c :: cs0), _, rest. split_and!; [|econstructor; [by apply Happ|done..]|done..].
    by rewrite <-!app_assoc.
Qed.

Lemma wreadFull_split n w p w' :
  readFull n w = (Ok p, w') ->
  w_in w = p ++ w_in w' /\ length p = n.
Proof.
  unfold readFull, wreadFull. case_decide; [|done]. intros [= <- <-]. simpl.
  rewrite take_drop, length_take. split; [done|lia].
Qed.

Lemma recv_sound f m e out w r w' :
  bytes_ok (w_in w) -> byte_ok e ->
  recvLoop f m e out w = (Ok r, w') -> received m e out (w_in w) r.
Proof.
  revert e out w. induction f as [|f IH]; intros e out w Hb He; [done|].
  cbn [recvLoop]. unfold readByte. destruct w as [[|b i] o wl]; wire_cbn; [done|].
  apply Forall_cons in Hb as [Hb Hi].
  destruct (Z.eqb_spec b eot) as [->|]; wire_cbn.
  { intros [= <- <-]. exists [], [eot], i. split_and!; try done.
    - by apply (tx_eot e []), noise_nil.
    - by rewrite app_nil_r. }
  destruct (Z.eqb_spec b can); [done|].
  destruct (Z.eqb_spec b soh) as [->|]; wire_cbn; cycle 1.
  { intros H%IH; [|done..]. by apply (received_noise _ _ _ [b]) in H; [|by repeat constructor]. }
  destruct (readFull 2 _) as [[hdr|] w1] eqn:E1; wire_cbn; [|done].
  destruct (readFull 128 _) as [[data|] w2] eqn:E2; wire_cbn; [|done].
  destruct (readFull 2 w2) as [[ck|] w3] eqn:E3; wire_cbn; [|done].
  apply wreadFull_split in E1 as [E1 Hh], E2 as [E2 Hd], E3 as [E3 Hk].
  cbn [w_in] in *. rewrite E1, E2, E3 in Hi |- *. rewrite !Forall_app in Hi.
  destruct Hi as (Hih & Hid & Hik & Hi3).
  assert (forall p, bytes_ok (w_in (write p w3).2) /\ w_in (write p w3).2 = w_in w3) as Hw.
  { intros p. destruct (write p w3) as [? w4] eqn:Ew. apply wwrite_in in Ew. simpl. by rewrite Ew. }
  destruct (judge e hdr data ck) eqn:Hj; wire_cbn; cycle 1.
  1,2: intros H%IH; [|by apply Hw|done]; rewrite (proj2 (Hw _)) in H;
    apply (received_noise _ _ _ (soh :: hdr ++ data ++ ck ++ [])) in H;
    [by rewrite app_nil_r, <-app_comm_cons, <-!app_assoc in H
    |constructor; [done..|by rewrite Hj|constructor]].
  destruct ((0 <? m) && (m <? len (out ++ data))) eqn:Hbound; wire_cbn; [done|].
  intros H%IH; [|by apply Hw|apply u8_ok]. rewrite (proj2 (Hw _)) in H.
  apply judge_accept_inv in Hj; [|done..].
  destruct H as (cs & s & rest & -> & Ht & -> & Hm).
  exists (data :: cs), (mkFrame e data true ++ s), rest. rewrite <-Hj. split_and!.
  - by rewrite <-!app_assoc, <-!app_comm_cons, <-!app_assoc.
  - rewrite Hj. by apply (tx_block e []); [constructor|..].
  - cbn [concat]. by rewrite app_assoc.
  - intros Hm0 _. cbn [concat]. rewrite app_assoc. destruct cs as [|c cs]; [|by apply Hm].
    cbn [concat]. rewrite app_nil_r. apply andb_false_iff in Hbound. rewrite Z.ltb_ge in Hbound.
    destruct Hbound as [Hbound|]; [|lia]. apply Z.ltb_ge in Hbound. lia.
Qed.

(** ** The loops end before their fuel *)

Lemma recvLoop_total f m e out w :
  (length (w_in w) < f)%nat -> (recvLoop f m e out w).1 <> Err ErrFuel.
Proof.
  revert e out w. induction f as [|f IH]; intros e out w Hf; [lia|].
  cbn [recvLoop]. unfold readByte. destruct w as [[|b i] o wl]; wire_cbn; [done|].
  cbn [w_in length] in Hf.
  destruct (b =? eot); wire_cbn; [done|]. destruct (b =? can); [done|].
  destruct (b =? soh); wire_cbn; [|apply IH; simpl; lia].
  unfold readFull.
  destruct (wreadFull _ 2 _) as [[hdr|?] w1] eqn:E1; wire_cbn;
    [|revert E1; unfold wreadFull; case_decide; by intros [= <- _]].
  destruct (wreadFull _ 128 _) as [[data|?] w2] eqn:E2; wire_cbn;
    [|revert E2; unfold wreadFull; case_decide; by intros [= <- _]].
  destruct (wreadFull _ 2 w2) as [[ck|?] w3] eqn:E3; wire_cbn;
    [|revert E3; unfold wreadFull; case_decide; by intros [= <- _]].
  apply wreadFull_in in E1, E2, E3. cbn [w_in] in E1.
  assert (forall p, (length (w_in (write p w3).2) < f)%nat) as Hw.
  { intros p. destruct (write p w3) as [r w4] eqn:E4.
    apply wwrite_in in E4. simpl. rewrite E4. lia. }
  destruct (judge e hdr data ck); wire_cbn; [|apply IH, Hw..].
  destruct (_ && _); wire_cbn; [done|]. apply IH, Hw.
Qed.

(** What a step of the sender can end with, besides success. *)
Definition send_err (e : xerr) : Prop := e <> ErrFuel /\ e <> ErrTooBig.

Definition only_send_err {A} (m : xm A) : Prop :=
  forall w e w', m w = (Err e, w') -> send_err e.

Lemma only_bind {A B} (m : xm A) (f : A -> xm B) :
  only_send_err m -> (forall a, only_send_err (f a)) -> only_send_err (m ≫= f).
Proof.
  intros Hm Hf w e w'. rewrite wbind_eq. destruct (m w) as [[a|e'] w1] eqn:Hmw.
  - apply Hf.
  - intros [= <- <-]. by eapply Hm.
Qed.

Lemma only_read : only_send_err readByte.
Proof. intros [[|b i] o wl] e w'; [|done]. intros [= <- _]. done. Qed.

Lemma only_write p : only_send_err (write p).
Proof. intros [i o [[|k]|]] e w'; try done. intros [= <- _]. done. Qed.

Lemma only_ret {A} (a : A) : only_send_err (mret a).
Proof. intros w e w'. done. Qed.

Lemma only_fail {A} e : send_err e -> only_send_err (wfail (A := A) e).
Proof. intros He w e' w' [= <- _]. done. Qed.

#[local] Hint Resolve only_bind only_read only_write only_ret only_fail : go.

Lemma only_sendTries l frame : only_send_err (sendTries l frame).
Proof.
  induction l; simpl; [by apply only_fail|].
  apply only_bind; [auto with go|intros _]. apply only_bind; [auto with go|intros b].
  repeat go_case; auto with go. by apply only_fail.
Qed.

Lemma only_sendEot l : only_send_err (sendEot l).
Proof.
  induction l; simpl; [by apply only_fail|].
  apply only_bind; [auto with go|intros _]. apply only_bind; [auto with go|intros b].
  go_case; auto with go.
Qed.

Lemma only_waitStart l : only_send_err (waitStart l).
Proof.
  induction l; simpl; (apply only_bind; [auto with go|intros b]);
    repeat go_case; auto with go; by apply only_fail.
Qed.

Lemma only_sendBlocks f block off data useCRC :
  0 <= off -> (Z.to_nat (len data - off) < f)%nat ->
  only_send_err (sendBlocks f block off data useCRC).
Proof.
  revert block off. induction f as [|f IH]; intros block off H0 Hf; [lia|].
  cbn [sendBlocks]. destruct (_ || _); [|auto with go].
  apply only_bind; [apply only_sendTries|intros _].
  destruct (Z.leb_spec (len data) (off + 128)); [auto with go|]. apply IH; lia.
Qed.

Lemma Send_errs data : only_send_err (Send data).
Proof.
  apply only_bind; [apply only_waitStart|intros useCRC].
  apply only_bind; [|intros _; apply only_sendEot].
  apply only_sendBlocks; unfold len; lia.
Qed.

(** ** The blocks of a file *)

Definition pad128 (c : bytes) : bytes := c ++ replicate (128 - length c) sub.

(** Cutting [data] into padded 128-byte blocks; an empty file is one block. *)
Fixpoint blocks (fuel : nat) (data : bytes) : list bytes :=
  match fuel with
  | O => []
  | S f => if len data <=? 128 then [pad128 data]
           else take 128 data :: blocks f (drop 128 data)
  end.

Fixpoint frames (e : Z) (cs : list bytes) : bytes :=
  match cs with
  | [] => []
  | c :: cs' => mkFrame e c true ++ frames (u8 (e + 1)) cs'
  end.

Lemma pad128_length c : (length c <= 128)%nat -> length (pad128 c) = 128%nat.
Proof. intros. unfold pad128. rewrite length_app, length_replicate. lia. Qed.

Lemma pad128_full c : (length c = 128)%nat -> pad128 c = c.
Proof. intros H. unfold pad128. by rewrite H, app_nil_r. Qed.

Lemma blocks_length f data : Forall (λ c, length c = 128%nat) (blocks f data).
Proof.
  revert data. induction f as [|f IH]; intros data; simpl; [constructor|].
  destruct (Z.leb_spec (len data) 128); unfold len in *.
  - constructor; [apply pad128_length; lia|done].
  - constructor; [rewrite length_take; lia|done].
Qed.

Lemma blocks_concat f data :
  (length data < f)%nat ->
  exists k, concat (blocks f data) = data ++ replicate k sub /\
    len (data ++ replicate k sub) = 128 * Z.max 1 ((len data + 127) / 128).
Proof.
  revert data. induction f as [|f IH]; intros data Hf; [lia|]. cbn [blocks].
  destruct (Z.leb_spec (len data) 128) as [H|H].
  - exists (128 - length data)%nat. cbn [concat]. rewrite app_nil_r. split; [done|].
    rewrite len_app. unfold len in *. rewrite length_replicate. zdiv.
  - destruct (IH (drop 128 data)) as (k & Hk & Hl).
    { rewrite length_drop. unfold len in H. lia. }
    exists k. cbn [concat]. rewrite Hk. rewrite len_app in Hl |- *. split.
    + by rewrite app_assoc, take_drop.
    + unfold len in *. rewrite length_drop in Hl. zdiv.
Qed.

Lemma drop_sub_replicate k r : drop_sub (replicate k sub ++ r) = drop_sub r.
Proof. by induction k. Qed.

Lemma trimPad_pad data k : trimPad (data ++ replicate k sub) = trimPad data.
Proof. unfold trimPad. by rewrite reverse_app, reverse_replicate, drop_sub_replicate. Qed.

Lemma trimPad_id data b : b <> sub -> trimPad (data ++ [b]) = data ++ [b].
Proof.
  intros Hb. unfold trimPad. rewrite reverse_app. simpl.
  rewrite (proj2 (Z.eqb_neq _ _)) by done. simpl.
  by rewrite reverse_cons, reverse_involutive.
Qed.

(** ** A transfer between [Send] and [Receive] *)

(** The acknowledgements [Send] needs for [n] blocks. *)
Definition acks (n : nat) : bytes := replicate n ack.

Lemma sendBlock_ack b c useCRC i o :
  sendBlock b c useCRC (Wire (ack :: i) o None) =
  (Ok (), Wire i (o ++ mkFrame b c useCRC) None).
Proof. unfold sendBlock, maxRetries. cbn [sendTries]. unfold write, readByte. by wire_cbn. Qed.

Lemma mkChunk_pad off data :
  0 <= off <= len data -> mkChunk off data = pad128 (take 128 (drop (Z.to_nat off) data)).
Proof. intros. unfold mkChunk, pad128. by rewrite Z.min_l by lia. Qed.

Lemma sendBlocks_acks f b off data i o :
  0 <= off <= len data -> off = 0 \/ off < len data ->
  (Z.to_nat (len data - off) < f)%nat ->
  let cs := blocks f (drop (Z.to_nat off) data) in
  sendBlocks f b off data true (Wire (acks (length cs) ++ i) o None) =
  (Ok (), Wire i (o ++ frames b cs) None).
Proof.
  revert b off o. induction f as [|f IH]; intros b off o Hoff H0 Hf; [lia|].
  cbv zeta. cbn [sendBlocks blocks].
  assert ((off <? len data) || (off =? 0) = true) as ->.
  { destruct H0 as [->|]; [apply orb_true_r|]. by rewrite (proj2 (Z.ltb_lt _ _)). }
  rewrite mkChunk_pad by done.
  assert (len (drop (Z.to_nat off) data) = len data - off) as Hlen.
  { unfold len in *. rewrite length_drop. lia. }
  rewrite Hlen. destruct (Z.leb_spec (len data) (off + 128)) as [Hle|Hle].
  - rewrite (proj2 (Z.leb_le (len data - off) 128)) by lia.
    rewrite take_ge by (unfold len in *; lia).
    cbn [acks length replicate app]. wire_cbn. rewrite sendBlock_ack. wire_cbn.
    cbn [frames]. by rewrite app_nil_r.
  - rewrite (proj2 (Z.leb_gt (len data - off) 128)) by lia.
    rewrite pad128_full by (rewrite length_take; unfold len in *; lia).
    rewrite drop_drop. replace (Z.to_nat off + 128)%nat with (Z.to_nat (off + 128)) by lia.
    cbn [acks length replicate app]. wire_cbn. rewrite sendBlock_ack. wire_cbn.
    rewrite IH by lia. cbn [frames]. by rewrite app_assoc.
Qed.

Lemma recvLoop_frames cs : forall f m e out rest o,
  Forall (λ c, length c = 128%nat) cs -> byte_ok e -> (length cs < f)%nat ->
  (0 < m -> len (out ++ concat cs) <= m) ->
  recvLoop f m e out (Wire (frames e cs ++ [eot] ++ rest) o None) =
  (Ok (trimPad (out ++ concat cs)), Wire rest (o ++ acks (S (length cs))) None).
Proof.
  induction cs as [|c cs IH]; intros f m e out rest o Hcs He Hf Hm;
    (destruct f as [|f]; [simpl in Hf; lia|]).
  - cbn [recvLoop frames app]. unfold readByte. wire_cbn. change (eot =? eot) with true.
    wire_cbn. unfold write. wire_cbn. by rewrite app_nil_r.
  - apply Forall_cons in Hcs as [Hc Hcs]. cbn [frames].
    rewrite <-app_assoc, mkFrame_app, recv_frame by done. rewrite judge_frame by done. cbv zeta.
    assert (((0 <? m) && (m <? len (out ++ c))) = false) as ->.
    { apply andb_false_iff. destruct (Z.ltb_spec 0 m); [right|by left].
      apply Z.ltb_ge. specialize (Hm ltac:(lia)). cbn [concat] in Hm.
      rewrite app_assoc, len_app in Hm. pose proof (len_nonneg (concat cs)). lia. }
    unfold write. wire_cbn. rewrite IH; [|done|apply u8_ok|simpl in Hf; lia|].
    + cbn [concat]. rewrite <-!app_assoc. done.
    + intros. cbn [concat] in Hm. rewrite <-app_assoc. auto.
Qed.

(** ** Properties *)

(** C24: XMODEM round trip.  For every file, [Send] and [Receive] wired to each
    other (the bytes each writes are the bytes the other reads) both succeed,
    and the receiver gets the file, less trailing SUB bytes, provided the
    padded file fits the receiver's limit. *)
Theorem xmodem_roundtrip (data : bytes) (maxBytes : Z)
    (Hfit : 0 < maxBytes -> 128 * Z.max 1 ((len data + 127) / 128) <= maxBytes) :
  exists tx rx,
    Send data (Wire rx [] None) = (Ok (), Wire [] tx None) /\
    Receive maxBytes (Wire tx [] None) = (Ok (trimPad data), Wire [] rx None).
Proof.
  set (cs := blocks (S (length data)) data).
  destruct (blocks_concat (S (length data)) data) as (k & Hk & Hlen); [lia|]. fold cs in Hk.
  exists (frames 1 cs ++ [eot]), (crc :: acks (length cs) ++ [ack]). split.
  - unfold Send, maxRetries. cbn [waitStart]. unfold readByte. wire_cbn.
    change (crc =? crc) with true. wire_cbn.
    change cs with (blocks (S (length data)) (drop (Z.to_nat 0) data)).
    rewrite sendBlocks_acks by (unfold len; lia). wire_cbn.
    cbn [sendEot]. unfold write, readByte. by wire_cbn.
  - unfold Receive. wire_cbn. unfold write. wire_cbn. unfold recvAll. cbn [w_in].
    rewrite <-(app_nil_r (frames 1 cs ++ [eot])), <-app_assoc.
    rewrite recvLoop_frames; [|apply blocks_length|done| |].
    + rewrite app_nil_l, Hk, trimPad_pad. unfold acks. by rewrite replicate_S_end.
    + rewrite !length_app. assert (length cs <= length (frames 1 cs))%nat; [|lia].
      generalize 1. clear. induction cs as [|c cs IH]; intros e; simpl; [lia|].
      rewrite length_app. specialize (IH (u8 (e + 1))). lia.
    + intros Hm. rewrite app_nil_l, Hk, Hlen. auto.
Qed.

Lemma xmodem_roundtrip_witness :
  exists tx rx,
    Send (str "hello") (Wire rx [] None) = (Ok (), Wire [] tx None) /\
    Receive 128 (Wire tx [] None) = (Ok (trimPad (str "hello")), Wire [] rx None).
Proof. apply (xmodem_roundtrip (str "hello") 128). by vm_compute. Defined.

(** C25: [Receive] implements the XMODEM-CRC receiver.  A file [r] is returned
    exactly when the peer's bytes start with a well-formed transmission of
    128-byte blocks, in order and with correct check bytes, interleaved with any
    noise (stray bytes, damaged frames, repeated blocks), whose blocks fit the
    limit and concatenate, less padding, to [r]. *)
Theorem Receive_refines_grammar (maxBytes : Z) (w : wire) (r : bytes)
    (Hin : bytes_ok (w_in w)) (Hw : w_wleft w <> Some O) :
  (exists w', Receive maxBytes w = (Ok r, w')) <->
  (exists cs s rest, w_in w = s ++ rest /\ transmission 1 cs s /\
     r = trimPad (concat cs) /\ (0 < maxBytes -> cs <> [] -> len (concat cs) <= maxBytes)).
Proof.
  assert (exists o wl, (write [crc] w) = (Ok (), Wire (w_in w) o wl)) as (o & wl & Ho).
  { destruct w as [i o [[|n]|]]; [done|..]; eexists _, _; reflexivity. }
  unfold Receive. rewrite wbind_eq, Ho. unfold recvAll. cbn [w_in]. split.
  - intros [w' H%recv_sound]; [|done..]. exact H.
  - intros (cs & s & rest & -> & Ht & -> & Hm).
    destruct (recv_transmission maxBytes 1 cs s Ht) with (out := @nil Z) (rest := rest)
      (o := o) (wl := wl) (f := S (length (s ++ rest))) as (o' & wl' & ->); [done|lia|done|].
    eauto.
Qed.

(** A frame damaged in one byte, then the good one, then its retransmission
    after a lost acknowledgement, then the end. *)
Definition noisy_input : bytes :=
  let good := mkFrame 1 (pad128 (str "hi")) true in
  <[10%nat := 255]> good ++ good ++ good ++ [eot].

Lemma noisy_input_ok : bytes_ok (w_in (Wire noisy_input [] None)).
Proof. apply (bool_decide_eq_true_1 _). vm_compute. reflexivity. Defined.

Lemma noisy_input_received :
  exists w', Receive 0 (Wire noisy_input [] None) = (Ok (str "hi"), w').
Proof. exists (Receive 0 (Wire noisy_input [] None)).2. vm_compute. reflexivity. Defined.

Lemma Receive_refines_grammar_witness :
  exists cs s rest, w_in (Wire noisy_input [] None) = s ++ rest /\ transmission 1 cs s /\
    str "hi" = trimPad (concat cs) /\ (0 < 0 -> cs <> [] -> len (concat cs) <= 0).
Proof.
  exact (proj1 (Receive_refines_grammar 0 (Wire noisy_input [] None) (str "hi")
    noisy_input_ok ltac:(discriminate)) noisy_input_received).
Defined.

(** The CRC detects every error confined to two adjacent bytes of a block. *)
Theorem crc16_detects_two_bytes (pre suf : bytes) (x1 y1 x2 y2 : Z)
    (Hx1 : byte_ok x1) (Hy1 : byte_ok y1) (Hx2 : byte_ok x2) (Hy2 : byte_ok y2)
    (Hne : (x1, y1) <> (x2, y2)) :
  crc16 (pre ++ [x1; y1] ++ suf) <> crc16 (pre ++ [x2; y2] ++ suf).
Proof.
  rewrite !crc16_app, !fold_left_app. cbn [fold_left]. intros H. apply Hne.
  apply crc_fold_inj in H; [|apply crc_byte_ok..].
  apply crc_two_steps in H as [-> ->]; done || apply crc16_ok.
Qed.

Lemma crc16_detects_two_bytes_witness :
  crc16 (str "AB" ++ [67; 68] ++ str "E") <> crc16 (str "AB" ++ [67; 69] ++ str "E").
Proof. apply (crc16_detects_two_bytes (str "AB") (str "E") 67 68 67 69); done || by unfold byte_ok. Defined.

(** C26: both routines come back with a result of the protocol: neither loop
    runs out of the iterations the model allots to it. *)
Theorem xmodem_terminates (data : bytes) (maxBytes : Z) (w : wire) :
  (Send data w).1 <> Err ErrFuel /\ (Receive maxBytes w).1 <> Err ErrFuel.
Proof.
  split.
  - destruct (Send data w) as [[|e] w'] eqn:H; [done|]. apply Send_errs in H as [He _].
    simpl. congruence.
  - unfold Receive. rewrite wbind_eq. destruct (write [crc] w) as [[|e] w'] eqn:H.
    + unfold recvAll. apply recvLoop_total. lia.
    + apply only_write in H as [? _]. simpl. congruence.
Qed.
