(* ===== verification/GoStrings.v ===== *)
(** * The string functions the program calls

    Go's [strings] and [strconv] on byte strings: [TrimSpace] with its Unicode
    spaces, [Atoi]/[Itoa] with the [int] range, [IndexByte], [Contains],
    [Split], [Join], [HasPrefix], [Cut], and the ASCII case mapping that
    [ToLower] applies to ASCII strings and SQLite's NOCASE collation to all. *)

From S2P Require Import Prelude.

(** ** White space *)

Definition ascii_space (b : Z) : bool := ((9 <=? b) && (b <=? 13)) || (b =? 32).

(** The UTF-8 encodings of the non-ASCII runes [unicode.IsSpace] accepts:
    U+0085, U+00A0, U+1680, U+2000-U+200A, U+2028, U+2029, U+202F, U+205F, U+3000. *)
Definition wide_space2 (a b : Z) : bool := (a =? 194) && ((b =? 133) || (b =? 160)).

Definition wide_space3 (a b c : Z) : bool :=
  ((a =? 225) && (b =? 154) && (c =? 128)) ||
  ((a =? 226) && (b =? 128) &&
     (((128 <=? c) && (c <=? 138)) || (c =? 168) || (c =? 169) || (c =? 175))) ||
  ((a =? 226) && (b =? 129) && (c =? 159)) ||
  ((a =? 227) && (b =? 128) && (c =? 128)).

(** The length of the non-ASCII space that starts the text, if one does. *)
Definition wide_space (s : bytes) : option nat :=
  match s with
  | a :: b :: s' =>
      if wide_space2 a b then Some 2%nat
      else match s' with
           | c :: _ => if wide_space3 a b c then Some 3%nat else None
           | [] => None
           end
  | _ => None
  end.

(** The same for a text given last byte first. *)
Definition wide_space_rev (r : bytes) : option nat :=
  match r with
  | b :: a :: r' =>
      if wide_space2 a b then Some 2%nat
      else match r' with
           | z :: _ => if wide_space3 z a b then Some 3%nat else None
           | [] => None
           end
  | _ => None
  end.

Fixpoint trim_with (wide : bytes -> option nat) (fuel : nat) (s : bytes) : bytes :=
  match fuel with
  | O => s
  | S f =>
      match s with
      | [] => []
      | b :: s' =>
          if ascii_space b then trim_with wide f s'
          else match wide s with
               | Some n => trim_with wide f (drop n s)
               | None => s
               end
      end
  end.

Definition TrimLeftSpace (s : bytes) : bytes := trim_with wide_space (length s) s.
Definition TrimRightSpace (s : bytes) : bytes :=
  reverse (trim_with wide_space_rev (length s) (reverse s)).
Definition TrimSpace (s : bytes) : bytes := TrimRightSpace (TrimLeftSpace s).

(** ** Searching and splitting *)

Fixpoint IndexByte (s : bytes) (c : Z) : option nat :=
  match s with
  | [] => None
  | b :: s' => if b =? c then Some O else S <$> IndexByte s' c
  end.

Fixpoint HasPrefix (s p : bytes) : bool :=
  match p, s with
  | [], _ => true
  | a :: p', b :: s' => (a =? b) && HasPrefix s' p'
  | _ :: _, [] => false
  end.

Fixpoint Contains (s sub : bytes) : bool :=
  HasPrefix s sub || match s with [] => false | _ :: s' => Contains s' sub end.

(** [Split] on a one-byte separator. *)
Fixpoint Split (s : bytes) (c : Z) : list bytes :=
  match s with
  | [] => [[]]
  | b :: s' =>
      if b =? c then [] :: Split s' c
      else match Split s' c with
           | p :: ps => (b :: p) :: ps
           | [] => [[b]]
           end
  end.

Fixpoint Join (ss : list bytes) (sep : bytes) : bytes :=
  match ss with
  | [] => []
  | [s] => s
  | s :: ss' => s ++ sep ++ Join ss' sep
  end.

(** ** Case *)

Definition lower_byte (b : Z) : Z := if (65 <=? b) && (b <=? 90) then b + 32 else b.
Definition lower_ascii (s : bytes) : bytes := lower_byte <$> s.

(** Equality under SQLite's NOCASE collation: ASCII letters fold. *)
Definition nocase_eqb (a b : bytes) : bool := beq (lower_ascii a) (lower_ascii b).

(** ** Decimal numbers *)

Definition digit (b : Z) : option Z :=
  if (48 <=? b) && (b <=? 57) then Some (b - 48) else None.

Fixpoint undec (acc : Z) (s : bytes) : option Z :=
  match s with
  | [] => Some acc
  | b :: s' => match digit b with Some d => undec (10 * acc + d) s' | None => None end
  end.

(** [strconv.Atoi]: an optional sign, at least one digit, within [int]. *)
Definition Atoi (s : bytes) : option Z :=
  let '(neg, ds) := match s with
                    | b :: t => if b =? 43 then (false, t)
                                else if b =? 45 then (true, t) else (false, s)
                    | [] => (false, s)
                    end in
  match ds with
  | [] => None
  | _ => match undec 0 ds with
         | Some n => let v := if neg then - n else n in
                     if int64_okb v then Some v else None
         | None => None
         end
  end.

Fixpoint dec_digits (fuel : nat) (n : Z) (acc : bytes) : bytes :=
  match fuel with
  | O => acc
  | S f => let acc' := (48 + n mod 10) :: acc in
           if n <? 10 then acc' else dec_digits f (n / 10) acc'
  end.

(** Twenty digits are enough for any 64-bit integer. *)
Definition dec (n : Z) : bytes := dec_digits 20 n [].
Definition Itoa (n : Z) : bytes := if n <? 0 then 45 :: dec (- n) else dec n.

(** ** Lemmas *)

Lemma trim_with_le wide f s : (length (trim_with wide f s) <= length s)%nat.
Proof.
  revert s. induction f as [|f IH]; intros s; simpl; [lia|]. destruct s as [|b s]; [done|].
  destruct (ascii_space b); [specialize (IH s); simpl; lia|].
  destruct (wide _) as [n|]; [|lia]. specialize (IH (drop n (b :: s))).
  rewrite length_drop in IH. simpl in *. lia.
Qed.

Lemma TrimSpace_le s : (length (TrimSpace s) <= length s)%nat.
Proof.
  unfold TrimSpace, TrimRightSpace, TrimLeftSpace. rewrite length_reverse.
  etrans; [apply trim_with_le|]. rewrite length_reverse. apply trim_with_le.
Qed.

Lemma IndexByte_app s c t :
  c ∉ s -> IndexByte (s ++ (c :: t)) c = Some (length s).
Proof.
  induction s as [|b s IH]; intros H; simpl; [by rewrite Z.eqb_refl|].
  apply not_elem_of_cons in H as [Hb H]. rewrite (proj2 (Z.eqb_neq b c)) by congruence.
  by rewrite IH.
Qed.

Lemma IndexByte_None s c : c ∉ s -> IndexByte s c = None.
Proof.
  induction s as [|b s IH]; intros H; simpl; [done|].
  apply not_elem_of_cons in H as [Hb H]. rewrite (proj2 (Z.eqb_neq b c)) by congruence.
  by rewrite IH.
Qed.

Lemma IndexByte_Some s c i :
  IndexByte s c = Some i -> s = take i s ++ (c :: drop (S i) s) /\ (c ∉ take i s) /\ (i < length s)%nat.
Proof.
  revert i. induction s as [|b s IH]; intros i; simpl; [done|].
  destruct (Z.eqb_spec b c) as [->|Hne].
  - intros [= <-]. simpl. rewrite drop_0. split_and!; [done|apply not_elem_of_nil|lia].
  - intros (j & Hj & ->)%fmap_Some. apply IH in Hj as (E & Hn & Hl). simpl. split_and!.
    + by f_equal.
    + apply not_elem_of_cons. split; [congruence|done].
    + lia.
Qed.

Lemma HasPrefix_true s p : HasPrefix s p = true <-> exists t, s = p ++ t.
Proof.
  revert s. induction p as [|a p IH]; intros s; [split; [by exists s|by destruct s]|]. destruct s as [|b s]; cbn.
  - split; [done|]. by intros [t Ht].
  - rewrite andb_true_iff, Z.eqb_eq, IH. split.
    + intros [-> [t ->]]. by exists t.
    + intros [t [= -> ->]]. split; [done|by exists t].
Qed.


Lemma Split_nonempty s c : Split s c <> [].
Proof. destruct s; simpl; [done|]. destruct (_ =? _); [done|]. by destruct (Split _ _). Qed.

Lemma Split_app s c t :
  c ∉ s -> Split (s ++ (c :: t)) c = s :: Split t c.
Proof.
  induction s as [|b s IH]; intros H; simpl; [by rewrite Z.eqb_refl|].
  apply not_elem_of_cons in H as [Hb H]. rewrite (proj2 (Z.eqb_neq b c)) by congruence.
  by rewrite IH.
Qed.

Lemma Split_single s c : c ∉ s -> Split s c = [s].
Proof.
  induction s as [|b s IH]; intros H; simpl; [done|].
  apply not_elem_of_cons in H as [Hb H]. rewrite (proj2 (Z.eqb_neq b c)) by congruence.
  by rewrite IH.
Qed.

Lemma Split_Join (ls : list bytes) c :
  ls <> [] -> Forall (λ l, c ∉ l) ls -> Split (Join ls [c]) c = ls.
Proof.
  induction ls as [|l ls IH]; [done|]. intros _ [Hl Hls]%Forall_cons.
  destruct ls as [|l' ls]; simpl; [by apply Split_single|].
  rewrite Split_app by done. by f_equal; apply IH.
Qed.

Lemma digit_dec n : 0 <= n < 10 -> digit (48 + n) = Some n.
Proof.
  intros. unfold digit. rewrite (proj2 (Z.leb_le _ _)), (proj2 (Z.leb_le _ _)) by lia.
  simpl. f_equal. lia.
Qed.

Lemma undec_dec_digits f n acc t :
  0 <= n < 10 ^ Z.of_nat f -> (0 < f)%nat ->
  undec t (dec_digits f n acc) =
  undec (t * 10 ^ Z.of_nat (length (dec_digits f n [])) + n) acc.
Proof.
  revert n acc t. induction f as [|f IH]; intros n acc t Hn Hf; [lia|].
  assert (forall m acc, dec_digits f m acc = dec_digits f m [] ++ acc) as Happ.
  { clear. induction f as [|f IH]; intros m acc; simpl; [done|].
    destruct (m <? 10); [done|]. rewrite IH, (IH _ [_]). by rewrite <-app_assoc. }
  simpl. destruct (Z.ltb_spec n 10) as [Hlt|Hge].
  - simpl. rewrite Z.mod_small, digit_dec by lia. f_equal. lia.
  - destruct f as [|f']; [simpl in Hn; lia|].
    assert (0 <= n / 10 < 10 ^ Z.of_nat (S f')) as Hdiv.
    { rewrite Nat2Z.inj_succ, Z.pow_succ_r in Hn by lia. zdiv. }
    rewrite IH by (done || lia). rewrite (Happ _ [48 + n mod 10]), length_app.
    cbn [undec length]. rewrite digit_dec by (apply Z.mod_pos_bound; lia). f_equal.
    rewrite Nat2Z.inj_add, Z.pow_add_r by lia. change (10 ^ Z.of_nat 1) with 10.
    pose proof (Z.div_mod n 10 ltac:(lia)). nia.
Qed.

Lemma undec_dec n : 0 <= n < 10 ^ 20 -> undec 0 (dec n) = Some n.
Proof. intros Hn. unfold dec. rewrite undec_dec_digits by (done || lia). done. Qed.

Lemma dec_digits_digits f n acc :
  0 <= n -> Forall (λ b, 48 <= b <= 57) acc -> Forall (λ b, 48 <= b <= 57) (dec_digits f n acc).
Proof.
  revert n acc. induction f as [|f IH]; intros n acc Hn Hacc; simpl; [done|].
  assert (Forall (λ b, 48 <= b <= 57) ((48 + n mod 10) :: acc)) as H'.
  { constructor; [|done]. pose proof (Z.mod_pos_bound n 10). lia. }
  destruct (n <? 10); [done|]. apply IH; [zdiv|done].
Qed.

Lemma dec_digits_nonempty f n acc : acc <> [] -> dec_digits f n acc <> [].
Proof.
  revert n acc. induction f as [|f IH]; intros n acc H; simpl; [done|].
  destruct (n <? 10); [done|]. by apply IH.
Qed.

Lemma dec_nonempty n : dec n <> [].
Proof.
  unfold dec. generalize 19%nat as f. intros f. cbn [dec_digits].
  destruct (n <? 10); [done|]. by apply dec_digits_nonempty.
Qed.

Lemma Atoi_Itoa n : int64_ok n -> Atoi (Itoa n) = Some n.
Proof.
  intros Hn. unfold Itoa, Atoi. pose proof Hn as Hok. apply int64_okb_spec in Hok.
  unfold int64_ok in Hn. destruct (Z.ltb_spec n 0).
  - change (45 =? 43) with false. change (45 =? 45) with true. cbv iota beta.
    pose proof (dec_nonempty (- n)). destruct (dec (- n)) as [|b l] eqn:E; [done|].
    rewrite <-E, undec_dec by lia. by rewrite Z.opp_involutive, Hok.
  - pose proof (dec_nonempty n). pose proof (dec_digits_digits 20 n [] ltac:(lia) ltac:(done)) as Hd.
    unfold dec in *. destruct (dec_digits 20 n []) as [|b l] eqn:E; [done|].
    apply Forall_cons in Hd as [Hb _].
    assert (undec 0 (b :: l) = Some n) as Hu by (rewrite <-E; apply undec_dec; lia).
    rewrite (proj2 (Z.eqb_neq b 43)), (proj2 (Z.eqb_neq b 45)) by lia.
    by rewrite Hu, Hok.
Qed.

Example TrimSpace_ex : TrimSpace ([32; 194; 160; 9] ++ str "a b" ++ [226; 128; 131; 13]) = str "a b".
Proof. reflexivity. Qed.
