(* ===== verification/Telnet.v ===== *)
(** * The Telnet transport (src/transport/telnet.go)

    The option-negotiation and subnegotiation state machine of [telnetConn]:
    [feed] byte by byte, [respond], [endSubneg] and [Read].  The theorems relate
    the parser to a grammar of Telnet tokens, show that [Read] delivers the same
    data however the network cuts the stream, and record two ways a hostile or
    mirror-image peer is not bounded. *)

From S2P Require Import Prelude GoStrings.

Definition iac : Z := 255.
Definition se : Z := 240.
Definition sb : Z := 250.
Definition will : Z := 251.
Definition wont : Z := 252.
Definition do_ : Z := 253.
Definition dont : Z := 254.
Definition optEcho : Z := 1.
Definition optSGA : Z := 3.
Definition optTType : Z := 24.
Definition optNAWS : Z := 31.
Definition ttypeIS : Z := 0.
Definition ttypeSEND : Z := 1.

Inductive tstate := stData | stIAC | stOpt | stSB | stSBI.

Record WindowSize := { Cols : Z; Rows : Z }.

(** [telnetConn]: parser state, what was negotiated, the resize channel (a
    buffered channel of capacity 8) and the bytes passed to [raw.Write]. *)
Record telnetConn := {
  termType : bytes;
  win : WindowSize;
  winCh : list WindowSize;
  state : tstate;
  cmd : Z;
  subOpt : Z;
  subData : bytes;
  pending : bytes;
  rawOut : bytes;
}.

Definition winChCap : nat := 8.

Definition hello : bytes :=
  [iac; will; optEcho; iac; will; optSGA; iac; do_; optNAWS; iac; do_; optTType;
   iac; sb; optTType; ttypeSEND; iac; se].

Definition newTelnetConn : telnetConn :=
  {| termType := []; win := {| Cols := 0; Rows := 0 |}; winCh := []; state := stData;
     cmd := 0; subOpt := 0; subData := []; pending := []; rawOut := hello |}.

Definition set_state (st : tstate) (c : telnetConn) : telnetConn :=
  {| termType := termType c; win := win c; winCh := winCh c; state := st; cmd := cmd c;
     subOpt := subOpt c; subData := subData c; pending := pending c; rawOut := rawOut c |}.
Definition set_cmd (b : Z) (c : telnetConn) : telnetConn :=
  {| termType := termType c; win := win c; winCh := winCh c; state := state c; cmd := b;
     subOpt := subOpt c; subData := subData c; pending := pending c; rawOut := rawOut c |}.
Definition set_sub (o : Z) (d : bytes) (c : telnetConn) : telnetConn :=
  {| termType := termType c; win := win c; winCh := winCh c; state := state c; cmd := cmd c;
     subOpt := o; subData := d; pending := pending c; rawOut := rawOut c |}.
Definition set_pending (p : bytes) (c : telnetConn) : telnetConn :=
  {| termType := termType c; win := win c; winCh := winCh c; state := state c; cmd := cmd c;
     subOpt := subOpt c; subData := subData c; pending := p; rawOut := rawOut c |}.
Definition set_win (w : WindowSize) (c : telnetConn) : telnetConn :=
  {| termType := termType c; win := w;
     winCh := if decide (length (winCh c) < winChCap)%nat then winCh c ++ [w] else winCh c;
     state := state c; cmd := cmd c;
     subOpt := subOpt c; subData := subData c; pending := pending c; rawOut := rawOut c |}.
Definition set_term (t : bytes) (c : telnetConn) : telnetConn :=
  {| termType := if decide (termType c = []) then t else termType c;
     win := win c; winCh := winCh c; state := state c; cmd := cmd c;
     subOpt := subOpt c; subData := subData c; pending := pending c; rawOut := rawOut c |}.
Definition raw_write (p : bytes) (c : telnetConn) : telnetConn :=
  {| termType := termType c; win := win c; winCh := winCh c; state := state c; cmd := cmd c;
     subOpt := subOpt c; subData := subData c; pending := pending c; rawOut := rawOut c ++ p |}.

(** The bytes [respond] writes. *)
Definition reply (cmd opt : Z) : bytes :=
  if cmd =? do_ then
    if (opt =? optEcho) || (opt =? optSGA) then [] else [iac; wont; opt]
  else if cmd =? dont then [iac; wont; opt]
  else if cmd =? will then
    if (opt =? optTType) || (opt =? optNAWS) then [] else [iac; dont; opt]
  else if cmd =? wont then [iac; dont; opt]
  else [].

Definition respond (cmd opt : Z) (c : telnetConn) : telnetConn := raw_write (reply cmd opt) c.

(** [int(a)<<8 | int(b)]. *)
Definition be16 (a b : Z) : Z := Z.lor (Z.shiftl a 8) b.

Definition endSubneg (c : telnetConn) : telnetConn :=
  if subOpt c =? optNAWS then
    match subData c with
    | d0 :: d1 :: d2 :: d3 :: _ => set_win {| Cols := be16 d0 d1; Rows := be16 d2 d3 |} c
    | _ => c
    end
  else if subOpt c =? optTType then
    match subData c with
    | d0 :: d => if d0 =? ttypeIS then set_term (TrimSpace d) c else c
    | [] => c
    end
  else c.

(** One iteration of [feed]'s loop. *)
Definition feed1 (c : telnetConn) (b : Z) : telnetConn :=
  match state c with
  | stData => if b =? iac then set_state stIAC c else set_pending (pending c ++ [b]) c
  | stIAC =>
      if b =? iac then set_state stData (set_pending (pending c ++ [iac]) c)
      else if b =? sb then set_state stSB (set_sub 0 [] c)
      else if (b =? will) || (b =? wont) || (b =? do_) || (b =? dont)
      then set_state stOpt (set_cmd b c)
      else set_state stData c
  | stOpt => set_state stData (respond (cmd c) b c)
  | stSB =>
      if (subOpt c =? 0) && negb (b =? iac) then set_sub b (subData c) c
      else if b =? iac then set_state stSBI c
      else set_sub (subOpt c) (subData c ++ [b]) c
  | stSBI =>
      if b =? se then set_state stData (endSubneg c)
      else set_state stSB (set_sub (subOpt c) (subData c ++ [b]) c)
  end.

Definition feed (c : telnetConn) (raw : bytes) : telnetConn := fold_left feed1 raw c.

(** ** [Read] *)

(** One [raw.Read]: the bytes it delivered and whether it also failed. *)
Definition rawRead : Type := bytes * bool.

(** The loop of [Read] until some data is decoded; [inl] is the error return. *)
Fixpoint fill (c : telnetConn) (reads : list rawRead) :
    (telnetConn * list rawRead) * bool :=
  match pending c with
  | _ :: _ => ((c, reads), true)
  | [] =>
      match reads with
      | [] => ((c, []), false)
      | (p, err) :: reads' =>
          let c' := feed c p in
          if err then ((c', reads'), negb (bool_decide (pending c' = [])))
          else fill c' reads'
      end
  end.

(** [Read(p)] with [len(p) = n]: the bytes copied out, or an error. *)
Definition Read (n : nat) (c : telnetConn) (reads : list rawRead) :
    option bytes * (telnetConn * list rawRead) :=
  let '((c', reads'), ok) := fill c reads in
  if ok then (Some (take n (pending c')), (set_pending (drop n (pending c')) c', reads'))
  else (None, (c', reads')).

(** ** The token grammar *)

Inductive token :=
  | TData (b : Z)                      (** an ordinary byte *)
  | TEscape                            (** IAC IAC: the byte 255 *)
  | TCommand (b : Z)                   (** a two-byte command (NOP, GA, ...) *)
  | TNeg (cmd opt : Z)                 (** WILL/WONT/DO/DONT opt *)
  | TSub (opt : Z) (data : bytes).     (** SB opt data SE *)

Definition neg_cmd (b : Z) : bool := (b =? will) || (b =? wont) || (b =? do_) || (b =? dont).

Definition token_ok (t : token) : Prop :=
  match t with
  | TData b => b <> iac
  | TEscape => True
  | TCommand b => b <> iac /\ b <> sb /\ neg_cmd b = false
  | TNeg c _ => neg_cmd c = true
  | TSub o _ => o <> 0 /\ o <> iac
  end.

(** Escaping: every 255 is doubled. *)
Definition escape (d : bytes) : bytes := d ≫= λ b, if b =? iac then [iac; iac] else [b].

Definition encode (t : token) : bytes :=
  match t with
  | TData b => [b]
  | TEscape => [iac; iac]
  | TCommand b => [iac; b]
  | TNeg c o => [iac; c; o]
  | TSub o d => [iac; sb; o] ++ escape d ++ [iac; se]
  end.

(** What a token means, parser bookkeeping included. *)
Definition apply_token (c : telnetConn) (t : token) : telnetConn :=
  match t with
  | TData b => set_pending (pending c ++ [b]) c
  | TEscape => set_pending (pending c ++ [iac]) c
  | TCommand _ => c
  | TNeg k o => respond k o (set_cmd k c)
  | TSub o d => endSubneg (set_sub o d c)
  end.

Definition token_data (t : token) : bytes :=
  match t with TData b => [b] | TEscape => [iac] | _ => [] end.
Definition token_reply (t : token) : bytes :=
  match t with TNeg k o => reply k o | _ => [] end.

(** ** Lemmas *)

Lemma feed_app c a b : feed c (a ++ b) = feed (feed c a) b.
Proof. apply fold_left_app. Qed.

Lemma set_state_id c st : state c = st -> set_state st c = c.
Proof. by intros <-; destruct c. Qed.

Lemma endSubneg_state c : state (endSubneg c) = state c.
Proof.
  unfold endSubneg, set_win, set_term.
  repeat case_match; done.
Qed.

Lemma endSubneg_set_state st c : set_state st (endSubneg c) = endSubneg (set_state st c).
Proof.
  unfold endSubneg. cbn [subOpt subData set_state].
  repeat case_match; reflexivity.
Qed.

Lemma feed_sub_data c o d d0 :
  o <> 0 ->
  feed (set_state stSB (set_sub o d0 c)) (escape d) = set_state stSB (set_sub o (d0 ++ d) c).
Proof.
  intros Ho. revert d0. induction d as [|b d IH]; intros d0.
  { by rewrite app_nil_r. }
  cbn [escape mbind list_bind]. rewrite feed_app.
  assert (feed (set_state stSB (set_sub o d0 c)) (if b =? iac then [iac; iac] else [b]) =
          set_state stSB (set_sub o (d0 ++ [b]) c)) as ->.
  { destruct (Z.eqb_spec b iac) as [->|Hb].
    - unfold feed, fold_left, feed1 at 2. cbn [state set_state set_sub subOpt].
      rewrite (proj2 (Z.eqb_neq o 0)) by done. reflexivity.
    - unfold feed, fold_left, feed1. cbn [state set_state set_sub subOpt].
      rewrite (proj2 (Z.eqb_neq o 0)), (proj2 (Z.eqb_neq b iac)) by done. reflexivity. }
  rewrite IH. by rewrite <-app_assoc.
Qed.

Lemma feed_token c t :
  token_ok t -> state c = stData -> feed c (encode t) = apply_token c t /\
  state (apply_token c t) = stData.
Proof.
  intros Ht Hc. destruct t as [b| |b|k o|o d]; cbn [token_ok encode apply_token] in *.
  - split; [|done]. unfold feed. cbn [fold_left]. unfold feed1. rewrite Hc.
    by rewrite (proj2 (Z.eqb_neq b iac)).
  - split; [|done]. unfold feed. cbn [fold_left]. unfold feed1 at 2. rewrite Hc.
    destruct c; simpl in *; by subst.
  - destruct Ht as (H1 & H2 & H3). split; [|done]. unfold feed. cbn [fold_left].
    unfold feed1 at 2. rewrite Hc. unfold feed1. cbn [state set_state].
    unfold neg_cmd in H3. rewrite (proj2 (Z.eqb_neq b iac)), (proj2 (Z.eqb_neq b sb)), H3 by done.
    destruct c; simpl in *; by subst.
  - split; [|done]. unfold feed. cbn [fold_left]. unfold feed1 at 3. rewrite Hc.
    assert (k <> iac /\ k <> sb) as [H1 H2].
    { split; intros ->; done. }
    unfold feed1 at 2. cbn [state set_state iac Z.eqb]. unfold neg_cmd in Ht.
    rewrite (proj2 (Z.eqb_neq k iac)), (proj2 (Z.eqb_neq k sb)), Ht by done.
    destruct c; simpl in *; by subst.
  - destruct Ht as [H0 H1]. rewrite endSubneg_state. split; [|done].
    rewrite feed_app.
    assert (feed c [iac; sb; o] = set_state stSB (set_sub o [] c)) as ->.
    { unfold feed. cbn [fold_left]. unfold feed1 at 3. rewrite Hc. unfold feed1 at 2.
      cbn [state set_state]. unfold feed1. cbn. by rewrite (proj2 (Z.eqb_neq o iac)). }
    rewrite feed_app, feed_sub_data by done. rewrite app_nil_l.
    unfold feed. cbn [fold_left]. unfold feed1 at 2. cbn [state set_state set_sub subOpt].
    rewrite (proj2 (Z.eqb_neq o 0)) by done. cbn [andb]. change (iac =? iac) with true.
    cbv iota. unfold feed1. cbn [state set_state]. change (se =? se) with true. cbv iota.
    rewrite endSubneg_set_state. f_equal. destruct c; simpl in *; by subst.
Qed.

Lemma feed_tokens c ts :
  Forall token_ok ts -> state c = stData ->
  feed c (ts ≫= encode) = fold_left apply_token ts c /\ state (fold_left apply_token ts c) = stData.
Proof.
  revert c. induction ts as [|t ts IH]; intros c Hts Hc; [done|].
  apply Forall_cons in Hts as [Ht Hts]. cbn [mbind list_bind fold_left]. rewrite feed_app.
  destruct (feed_token c t Ht Hc) as [-> Hc']. by apply IH.
Qed.

Lemma apply_token_data c t : pending (apply_token c t) = pending c ++ token_data t.
Proof.
  destruct t; simpl; rewrite ?app_nil_r; try done.
  unfold endSubneg, set_win, set_term. simpl. repeat case_match; done.
Qed.

Lemma apply_token_reply c t : rawOut (apply_token c t) = rawOut c ++ token_reply t.
Proof.
  destruct t; simpl; rewrite ?app_nil_r; try done.
  unfold endSubneg, set_win, set_term. simpl. repeat case_match; done.
Qed.

(** ** [Read] and segmentation *)

(** Data decoded earlier does not influence the parser. *)
Definition prepend (p : bytes) (c : telnetConn) : telnetConn := set_pending (p ++ pending c) c.

Lemma feed1_prepend p c b : feed1 (prepend p c) b = prepend p (feed1 c b).
Proof.
  unfold feed1. cbn [state prepend set_pending subOpt].
  destruct (state c); cbn [subOpt].
  - case_match; [done|]. unfold prepend. simpl. by rewrite app_assoc.
  - repeat case_match; try done. unfold prepend, set_state, set_pending. simpl. by rewrite app_assoc.
  - done.
  - repeat case_match; done.
  - case_match; [|done]. unfold endSubneg, prepend. cbn [subOpt subData set_pending].
    repeat case_match; done.
Qed.

Lemma feed_prepend p c raw : feed (prepend p c) raw = prepend p (feed c raw).
Proof.
  revert c. induction raw as [|b raw IH]; intros c; [done|].
  unfold feed in *. cbn [fold_left]. by rewrite feed1_prepend, IH.
Qed.

Definition stream (reads : list rawRead) : bytes := concat (reads.*1).

(** What [Read]s will ever return: the data pending plus the data to come. *)
Definition decoded (c : telnetConn) (reads : list rawRead) : bytes :=
  pending (feed c (stream reads)).

Lemma fill_decoded c reads :
  decoded (fill c reads).1.1 (fill c reads).1.2 = decoded c reads.
Proof.
  revert c. induction reads as [|[p err] reads IH]; intros c; cbn [fill].
  { by destruct (pending c). }
  destruct (pending c) eqn:Hp; [|done].
  assert (decoded (feed c p) reads = decoded c ((p, err) :: reads)) as Hd.
  { unfold decoded, stream. cbn [fmap list_fmap concat fst]. by rewrite feed_app. }
  destruct err; [done|]. by rewrite IH.
Qed.

Lemma fill_ok c reads : (fill c reads).2 = true -> pending (fill c reads).1.1 <> [].
Proof.
  revert c. induction reads as [|[p err] reads IH]; intros c; cbn [fill].
  { by destruct (pending c) eqn:Hp; simpl; rewrite ?Hp. }
  destruct (pending c) eqn:Hp; [|simpl; congruence].
  destruct err; [|apply IH]. simpl. intros H%negb_true_iff. by bool_hyps.
Qed.

(** With no read error before the end, [Read] fails only when all is decoded. *)
Lemma fill_fail c reads :
  Forall (λ r : rawRead, r.2 = false) reads ->
  (fill c reads).2 = false -> decoded c reads = [].
Proof.
  revert c. induction reads as [|[p err] reads IH]; intros c Hr; cbn [fill].
  { destruct (pending c) eqn:Hp; [|done]. intros _. unfold decoded, stream. by simpl. }
  apply Forall_cons in Hr as [He Hr]. simpl in He. subst err.
  destruct (pending c); [|done]. intros H%IH; [|done].
  unfold decoded, stream in *. cbn [fmap list_fmap concat fst]. by rewrite feed_app.
Qed.

Lemma fill_reads c reads P : Forall P reads -> Forall P (fill c reads).1.2.
Proof.
  revert c. induction reads as [|[p err] reads IH]; intros c Hr; cbn [fill].
  { by destruct (pending c). }
  destruct (pending c); [|done]. apply Forall_cons in Hr as [_ Hr].
  destruct err; [done|]. by apply IH.
Qed.

Lemma Read_decoded n c reads r c' reads' :
  Read n c reads = (Some r, (c', reads')) -> decoded c reads = r ++ decoded c' reads'.
Proof.
  unfold Read. pose proof (fill_decoded c reads) as Hd.
  destruct (fill c reads) as [[c1 reads1] ok]. destruct ok; [|done].
  intros [= <- <- <-]. rewrite <-Hd. simpl. unfold decoded.
  assert (c1 = prepend (take n (pending c1)) (set_pending (drop n (pending c1)) c1)) as E.
  { unfold prepend, set_pending. simpl. rewrite take_drop. by destruct c1. }
  rewrite E at 1. rewrite feed_prepend. done.
Qed.

(** Reading until an error, as the session's buffered reader does. *)
Fixpoint readAll (fuel n : nat) (c : telnetConn) (reads : list rawRead) : option bytes :=
  match fuel with
  | O => None
  | S f => match Read n c reads with
           | (None, _) => Some []
           | (Some r, (c', reads')) => app r <$> readAll f n c' reads'
           end
  end.

Lemma readAll_decoded fuel n c reads :
  (0 < n)%nat -> Forall (λ r : rawRead, r.2 = false) reads ->
  (length (decoded c reads) < fuel)%nat -> readAll fuel n c reads = Some (decoded c reads).
Proof.
  intros Hn. revert c reads. induction fuel as [|f IH]; intros c reads Hr Hf; [lia|].
  cbn [readAll]. destruct (Read n c reads) as [[r|] [c' reads']] eqn:HR.
  - pose proof (Read_decoded _ _ _ _ _ _ HR) as Hd. rewrite Hd in Hf |- *.
    revert HR. unfold Read. pose proof (fill_ok c reads) as Hok.
    pose proof (fill_reads c reads _ Hr) as Hr'.
    destruct (fill c reads) as [[c1 reads1] ok]. destruct ok; [|done]. intros [= <- <- <-].
    specialize (Hok eq_refl). simpl in Hok, Hr'.
    rewrite IH; [done|done|]. rewrite length_app, length_take in Hf.
    destruct (pending c1); [done|]. simpl in Hf. lia.
  - revert HR. unfold Read. pose proof (fill_fail c reads Hr) as Hfail.
    destruct (fill c reads) as [[c1 reads1] ok]. destruct ok; [done|]. intros _.
    by rewrite Hfail.
Qed.

(** ** The resize channel *)

Lemma feed1_winCh c b : (length (winCh c) <= winChCap)%nat -> (length (winCh (feed1 c b)) <= winChCap)%nat.
Proof.
  intros Hc. unfold feed1, endSubneg, set_win.
  repeat case_match; simpl; rewrite ?length_app; simpl; lia || done.
Qed.

Lemma feed_winCh c raw : (length (winCh c) <= winChCap)%nat -> (length (winCh (feed c raw)) <= winChCap)%nat.
Proof.
  revert c. induction raw as [|b raw IH]; intros c Hc; [done|]. by apply IH, feed1_winCh.
Qed.

(** ** Properties *)

(** C37: The parser decodes the Telnet token grammar: after any sequence of
    tokens (data, escaped 255, commands, option negotiations, subnegotiations
    with escaped payload), the data it hands on is exactly the tokens' data and
    the bytes it answers are exactly the policy's replies, in order. *)
Theorem feed_decodes_tokens (c : telnetConn) (ts : list token)
    (Hts : Forall token_ok ts) (Hc : state c = stData) :
  let c' := feed c (ts ≫= encode) in
  pending c' = pending c ++ (ts ≫= token_data) /\
  rawOut c' = rawOut c ++ (ts ≫= token_reply) /\ state c' = stData.
Proof.
  cbv zeta. destruct (feed_tokens c ts Hts Hc) as [-> Hst]. split_and!; [| |done].
  - clear. revert c. induction ts as [|t ts IH]; intros c; simpl; [by rewrite app_nil_r|].
    by rewrite IH, apply_token_data, <-app_assoc.
  - clear. revert c. induction ts as [|t ts IH]; intros c; simpl; [by rewrite app_nil_r|].
    by rewrite IH, apply_token_reply, <-app_assoc.
Qed.

Definition sample_tokens : list token :=
  [TData 65; TNeg will 31; TSub optNAWS [0; 255; 0; 24]; TEscape; TNeg do_ 42; TData 66].

Lemma feed_decodes_tokens_witness :
  let c' := feed newTelnetConn (sample_tokens ≫= encode) in
  pending c' = pending newTelnetConn ++ (sample_tokens ≫= token_data) /\
  rawOut c' = rawOut newTelnetConn ++ (sample_tokens ≫= token_reply) /\ state c' = stData.
Proof.
  apply (feed_decodes_tokens newTelnetConn sample_tokens); [|reflexivity].
  unfold sample_tokens. repeat constructor; done.
Defined.

(** [Read] is independent of segmentation: however the network cuts the
    stream and whatever buffer the reader offers, reading to the end returns
    the data of the whole stream, nothing lost, repeated or reordered. *)
Theorem Read_segmentation (n : nat) (c : telnetConn) (reads : list rawRead)
    (Hn : (0 < n)%nat) (Hr : Forall (λ r : rawRead, r.2 = false) reads) :
  exists fuel, readAll fuel n c reads = Some (pending (feed c (concat (reads.*1)))).
Proof. exists (S (length (decoded c reads))). apply readAll_decoded; [done|done|lia]. Qed.

Lemma Read_segmentation_witness :
  exists fuel, readAll fuel 2 newTelnetConn [([65; 255], false); ([255; 66; 67], false)] =
               Some (pending (feed newTelnetConn (concat ([([65; 255], false); ([255; 66; 67], false)].*1)))).
Proof. apply Read_segmentation; [lia|]. repeat constructor. Defined.

(** A NAWS report sets the window to the reported size, and however many
    reports arrive the resize channel never holds more than eight. *)
Theorem NAWS_window (c : telnetConn) (cols rows : Z) (raw : bytes)
    (Hc : state c = stData) (Hcols : 0 <= cols < 65536) (Hrows : 0 <= rows < 65536)
    (Hch : (length (winCh c) <= winChCap)%nat) :
  win (feed c (encode (TSub optNAWS [cols / 256; cols mod 256; rows / 256; rows mod 256]))) =
    {| Cols := cols; Rows := rows |} /\
  (length (winCh (feed c raw)) <= winChCap)%nat.
Proof.
  split; [|by apply feed_winCh].
  destruct (feed_token c (TSub optNAWS [cols / 256; cols mod 256; rows / 256; rows mod 256]))
    as [-> _]; [done|done|].
  assert (forall x, 0 <= x < 65536 -> be16 (x / 256) (x mod 256) = x) as Hbe.
  { intros x Hx. assert (all_range 65536 (λ x, be16 (x / 256) (x mod 256) =? x) = true) as H
      by by vm_compute.
    by apply (all_range_spec _ _ H), Z.eqb_eq in Hx. }
  cbn [apply_token]. unfold endSubneg. cbn [set_sub subOpt subData].
  change (optNAWS =? optNAWS) with true. cbn [win set_win]. by rewrite !Hbe.
Qed.

Lemma NAWS_window_witness :
  win (feed newTelnetConn (encode (TSub optNAWS [255 / 256; 255 mod 256; 50 / 256; 50 mod 256]))) =
    {| Cols := 255; Rows := 50 |} /\
  (length (winCh (feed newTelnetConn [255; 250; 31]%Z)) <= winChCap)%nat.
Proof. apply (NAWS_window newTelnetConn 255 50 [255; 250; 31]); try done; cbn; lia. Defined.

(** Two endpoints with this reply policy, answering each other [n] times;
    the result is what is on the wire after the last answer. *)
Fixpoint volley (n : nat) (a b : telnetConn) (msg : bytes) : bytes :=
  match n with
  | O => msg
  | S n' => let a' := feed a msg in volley n' b a' (drop (length (rawOut a)) (rawOut a'))
  end.

Lemma volley_step a b msg n o :
  state a = stData -> (msg = [iac; dont; o] \/ msg = [iac; wont; o]) ->
  exists a', state a' = stData /\
  volley (S n) a b msg =
    volley n b a' (if decide (msg = [iac; dont; o]) then [iac; wont; o] else [iac; dont; o]).
Proof.
  intros Ha Hm. exists (feed a msg). cbn [volley].
  assert (exists k, (k = dont \/ k = wont) /\ msg = encode (TNeg k o)) as (k & Hk & ->).
  { destruct Hm as [-> | ->]; [exists dont|exists wont]; auto. }
  destruct (feed_token a (TNeg k o)) as [-> Hst]; [by destruct Hk as [-> | ->]|done|].
  split; [done|]. f_equal. cbn [apply_token respond raw_write rawOut set_cmd].
  rewrite drop_app_length. destruct Hk as [-> | ->]; by case_decide.
Qed.

(** Against a peer that follows the same policy, a refused option is
    refused back and forth for ever: there is a reply on the wire after any
    number of exchanges. *)
Theorem negotiation_never_settles (n : nat) (o : Z) (a b : telnetConn)
    (Ha : state a = stData) (Hb : state b = stData) :
  volley n a b [iac; dont; o] = [iac; if Nat.even n then dont else wont; o].
Proof.
  assert (forall n a b, state a = stData -> state b = stData ->
    volley n a b [iac; dont; o] = [iac; if Nat.even n then dont else wont; o] /\
    volley n a b [iac; wont; o] = [iac; if Nat.even n then wont else dont; o]) as H.
  { clear. induction n as [|n IH]; intros a b Ha Hb; [done|].
    destruct (volley_step a b [iac; dont; o] n o Ha) as (a1 & Ha1 & ->); [by left|].
    destruct (volley_step a b [iac; wont; o] n o Ha) as (a2 & Ha2 & ->); [by right|].
    rewrite decide_True, decide_False by done.
    destruct (IH b a1 Hb Ha1) as [_ ->]. destruct (IH b a2 Hb Ha2) as [-> _].
    rewrite Nat.even_succ, <-Nat.negb_even. by destruct (Nat.even n). }
  by apply H.
Qed.

Lemma negotiation_never_settles_witness :
  volley 7 newTelnetConn newTelnetConn [iac; dont; 3] = [iac; if Nat.even 7 then dont else wont; 3].
Proof. apply (negotiation_never_settles 7 3 newTelnetConn newTelnetConn); reflexivity. Defined.

(** A subnegotiation that never ends is buffered without limit: [k] bytes
    of it occupy [k] bytes of the connection's memory, and yield no input, so
    the session's idle timer is the only bound. *)
Theorem subnegotiation_unbounded (k : nat) (c : telnetConn) (Hc : state c = stData) :
  let c' := feed c ([iac; sb; optNAWS] ++ replicate k 65) in
  subData c' = replicate k 65 /\ pending c' = pending c.
Proof.
  cbv zeta. rewrite feed_app.
  assert (feed c [iac; sb; optNAWS] = set_state stSB (set_sub optNAWS [] c)) as ->.
  { unfold feed. cbn [fold_left]. unfold feed1 at 3. by rewrite Hc. }
  assert (escape (replicate k 65) = replicate k 65) as E.
  { induction k as [|k IH]; [done|]. cbn. by f_equal. }
  rewrite <-E at 1 3. by rewrite feed_sub_data.
Qed.

Lemma subnegotiation_unbounded_witness :
  let c' := feed newTelnetConn ([iac; sb; optNAWS] ++ replicate 100 65) in
  subData c' = replicate 100 65 /\ pending c' = pending newTelnetConn.
Proof. apply (subnegotiation_unbounded 100 newTelnetConn). reflexivity. Defined.
