(* ===== verification/Limits.v ===== *)
(** * Connection limits (src/transport/limits.go, the accept loop of telnet.go
    and ssh.go)

    The [limiter]: a counting semaphore (a buffered channel) and a per-IP table
    under a mutex.  [acquire] and [release] take several atomic steps, so the
    model is a transition system whose threads stand between those steps; the
    invariants hold under every interleaving of callers. *)

From S2P Require Import Prelude.

Record Limits := { MaxSessions : Z; PerIP : Z; HandshakeTimeout : Z }.

(** [10 * time.Second], in nanoseconds. *)
Definition DefaultLimits : Limits :=
  {| MaxSessions := 100; PerIP := 5; HandshakeTimeout := 10 * 1000000000 |}.

Record limiter := {
  sem : nat;                 (** tokens in the channel *)
  sem_cap : nat;             (** its capacity *)
  perIP : gmap bytes Z;
  maxIP : Z;
}.

Definition newLimiter (l : Limits) : limiter :=
  {| sem := 0; sem_cap := Z.to_nat (if MaxSessions l <=? 0 then 100 else MaxSessions l);
     perIP := ∅; maxIP := PerIP l |}.

(** [lm.perIP[ip]]: a missing key reads as zero. *)
Definition ipCount (lm : limiter) (ip : bytes) : Z := default 0 (perIP lm !! ip).

Definition set_sem (n : nat) (lm : limiter) : limiter :=
  {| sem := n; sem_cap := sem_cap lm; perIP := perIP lm; maxIP := maxIP lm |}.
Definition set_perIP (m : gmap bytes Z) (lm : limiter) : limiter :=
  {| sem := sem lm; sem_cap := sem_cap lm; perIP := m; maxIP := maxIP lm |}.

(** The atomic steps.  [send]: the non-blocking channel send; [recv]: the
    blocking receive; [count_in] and [count_out]: the two critical sections. *)
Definition send (lm : limiter) : option limiter :=
  if decide (sem lm < sem_cap lm)%nat then Some (set_sem (S (sem lm)) lm) else None.

Definition recv (lm : limiter) : option limiter :=
  match sem lm with O => None | S n => Some (set_sem n lm) end.

Definition count_in (ip : bytes) (lm : limiter) : option limiter :=
  if (0 <? maxIP lm) && (maxIP lm <=? ipCount lm ip) then None
  else Some (set_perIP (<[ip := ipCount lm ip + 1]> (perIP lm)) lm).

Definition count_out (ip : bytes) (lm : limiter) : limiter :=
  if 0 <? ipCount lm ip then
    if ipCount lm ip - 1 =? 0 then set_perIP (delete ip (perIP lm)) lm
    else set_perIP (<[ip := ipCount lm ip - 1]> (perIP lm)) lm
  else lm.

(** [acquire] run without interruption: the verdict and the state after it
    ([None]: the call would block). *)
Definition acquire (ip : bytes) (lm : limiter) : option (bool * limiter) :=
  match send lm with
  | None => Some (false, lm)
  | Some lm1 =>
      match count_in ip lm1 with
      | Some lm2 => Some (true, lm2)
      | None => pair false <$> recv lm1
      end
  end.

Definition release (ip : bytes) (lm : limiter) : option limiter := recv (count_out ip lm).

(** The accept loop's decision on one source: a banned source is closed before
    the limiter is asked, one over a cap after. *)
Definition admitConn (banned : option (bytes -> bool)) (ip : bytes) (lm : limiter) :
    option (bool * limiter) :=
  if match banned with Some f => f ip | None => false end then Some (false, lm)
  else acquire ip lm.

(** ** Concurrent callers *)

(** Where a goroutine stands between two atomic steps. *)
Inductive thread :=
  | Reserved (ip : bytes)   (** in [acquire], its token sent *)
  | Serving (ip : bytes)    (** [acquire] returned true; the caller is handled *)
  | Draining.               (** about to take its token back *)

#[export] Instance thread_eq_dec : EqDecision thread.
Proof. solve_decision. Defined.

Definition config : Type := limiter * list thread.

Inductive step : config -> config -> Prop :=
  | step_send lm lm' ip ts :
      send lm = Some lm' -> step (lm, ts) (lm', Reserved ip :: ts)
  | step_full lm ts : send lm = None -> step (lm, ts) (lm, ts)
  | step_count lm lm' ip ts1 ts2 :
      count_in ip lm = Some lm' ->
      step (lm, ts1 ++ Reserved ip :: ts2) (lm', ts1 ++ Serving ip :: ts2)
  | step_refuse lm ip ts1 ts2 :
      count_in ip lm = None ->
      step (lm, ts1 ++ Reserved ip :: ts2) (lm, ts1 ++ Draining :: ts2)
  | step_finish lm ip ts1 ts2 :
      step (lm, ts1 ++ Serving ip :: ts2) (count_out ip lm, ts1 ++ Draining :: ts2)
  | step_drain lm lm' ts1 ts2 :
      recv lm = Some lm' -> step (lm, ts1 ++ Draining :: ts2) (lm', ts1 ++ ts2).

Definition reachable (l : Limits) (c : config) : Prop := rtc step (newLimiter l, []) c.

(** How many callers of [ip] are being served. *)
Definition serving (ip : bytes) (ts : list thread) : nat :=
  length (filter (λ t, t = Serving ip) ts).

Record limiter_inv (l : Limits) (c : config) : Prop := {
  inv_cap : sem_cap c.1 = sem_cap (newLimiter l);
  inv_maxIP : maxIP c.1 = PerIP l;
  inv_sem : sem c.1 = length c.2;
  inv_sem_cap : (sem c.1 <= sem_cap c.1)%nat;
  inv_count : forall ip, ipCount c.1 ip = Z.of_nat (serving ip c.2);
  inv_perIP : forall ip, 0 < PerIP l -> Z.of_nat (serving ip c.2) <= PerIP l;
  inv_nozero : forall ip n, perIP c.1 !! ip = Some n -> 0 < n;
}.

(** ** Lemmas *)

Lemma serving_app ip a b : serving ip (a ++ b) = (serving ip a + serving ip b)%nat.
Proof. unfold serving. by rewrite filter_app, length_app. Qed.

Lemma serving_cons ip t ts :
  serving ip (t :: ts) = ((if decide (t = Serving ip) then 1 else 0) + serving ip ts)%nat.
Proof. unfold serving. rewrite filter_cons. by case_decide. Qed.

Lemma ipCount_insert lm ip ip' n :
  ipCount (set_perIP (<[ip := n]> (perIP lm)) lm) ip' = if decide (ip = ip') then n else ipCount lm ip'.
Proof. unfold ipCount. simpl. rewrite lookup_insert. by case_decide. Qed.

Lemma ipCount_delete lm ip ip' :
  ipCount (set_perIP (delete ip (perIP lm)) lm) ip' = if decide (ip = ip') then 0 else ipCount lm ip'.
Proof. unfold ipCount. simpl. rewrite lookup_delete. by case_decide. Qed.

Lemma ipCount_out lm ip ip' :
  0 < ipCount lm ip ->
  ipCount (count_out ip lm) ip' = ipCount lm ip' - if decide (ip = ip') then 1 else 0.
Proof.
  intros Hp. unfold count_out. rewrite (proj2 (Z.ltb_lt _ _)) by done.
  destruct (Z.eqb_spec (ipCount lm ip - 1) 0).
  - rewrite ipCount_delete. case_decide; subst; lia.
  - rewrite ipCount_insert. case_decide; subst; lia.
Qed.

Lemma count_out_frame ip lm :
  sem (count_out ip lm) = sem lm /\ sem_cap (count_out ip lm) = sem_cap lm /\
  maxIP (count_out ip lm) = maxIP lm.
Proof. unfold count_out. by repeat case_match. Qed.

Lemma count_in_spec ip lm lm' :
  count_in ip lm = Some lm' ->
  lm' = set_perIP (<[ip := ipCount lm ip + 1]> (perIP lm)) lm /\
  (0 < maxIP lm -> ipCount lm ip < maxIP lm).
Proof.
  unfold count_in. destruct (_ && _) eqn:E; [done|]. intros [= <-]. split; [done|].
  intros Hm. apply andb_false_iff in E as [E|E]; bool_hyps; lia.
Qed.

Lemma limiter_inv_init l : limiter_inv l (newLimiter l, []).
Proof.
  assert (forall ip, ipCount (newLimiter l) ip = 0) as H0.
  { intros ip. unfold ipCount. cbn [perIP newLimiter]. by rewrite lookup_empty. }
  split; cbn [fst snd]; auto.
  - cbn. lia.
  - intros ip Hl. cbn. lia.
  - intros ip n. cbn [perIP newLimiter]. by rewrite lookup_empty.
Qed.

Ltac serving_norm :=
  rewrite ?length_app, ?serving_app in *; cbn [length] in *; rewrite ?serving_cons in *.

Lemma limiter_inv_step l c c' : limiter_inv l c -> step c c' -> limiter_inv l c'.
Proof.
  intros [Hcap Hmax Hsem Hle Hcount Hper Hnz] Hstep.
  destruct Hstep as [lm lm' ip ts H|lm ts H|lm lm' ip ts1 ts2 H|lm ip ts1 ts2 H|lm ip ts1 ts2|lm lm' ts1 ts2 H];
    cbn [fst snd] in *; serving_norm.
  - unfold send in H. case_decide; [|done]. injection H as <-.
    split; cbn; auto.
  - by split.
  - apply count_in_spec in H as [-> Hlt].
    split; cbn [fst snd]; serving_norm; auto.
    + intros ip'. rewrite ipCount_insert. specialize (Hcount ip'). serving_norm.
      repeat case_decide; simplify_eq; lia.
    + intros ip' Hp. specialize (Hcount ip'). specialize (Hper ip' Hp). serving_norm.
      repeat case_decide; simplify_eq; lia.
    + intros ip' n. cbn. rewrite lookup_insert_Some. intros [[<- <-]|[_ H]]; [|by eapply Hnz].
      specialize (Hcount ip). lia.
  - split; cbn [fst snd]; serving_norm; auto.
    + intros ip'. specialize (Hcount ip'). serving_norm. repeat case_decide; simplify_eq; lia.
    + intros ip' Hp. specialize (Hper ip' Hp). serving_norm. repeat case_decide; simplify_eq; lia.
  - destruct (count_out_frame ip lm) as (E1 & E2 & E3).
    assert (0 < ipCount lm ip) as Hpos.
    { rewrite Hcount. serving_norm. rewrite decide_True by done. lia. }
    split; cbn [fst snd]; serving_norm; rewrite ?E1, ?E2, ?E3; auto.
    + intros ip'. rewrite ipCount_out by done. specialize (Hcount ip'). serving_norm.
      repeat case_decide; simplify_eq; lia.
    + intros ip' Hp. specialize (Hper ip' Hp). serving_norm. repeat case_decide; simplify_eq; lia.
    + intros ip' n. unfold count_out. rewrite (proj2 (Z.ltb_lt _ _)) by done.
      destruct (Z.eqb_spec (ipCount lm ip - 1) 0); cbn.
      * intros [_ H]%lookup_delete_Some. by eapply Hnz.
      * rewrite lookup_insert_Some. intros [[<- <-]|[_ H]]; [lia|by eapply Hnz].
  - unfold recv in H. destruct (sem lm) as [|n] eqn:En; [done|]. injection H as <-.
    split; cbn [fst snd set_sem sem sem_cap maxIP]; serving_norm; auto; try lia.
    + intros ip'. specialize (Hcount ip'). serving_norm. repeat case_decide; simplify_eq; exact Hcount.
    + intros ip' Hp. specialize (Hper ip' Hp). serving_norm. repeat case_decide; simplify_eq; exact Hper.
Qed.

Lemma limiter_inv_reachable l c : reachable l c -> limiter_inv l c.
Proof.
  unfold reachable. intros H. pose proof (limiter_inv_init l) as Hi. revert Hi.
  induction H as [c|c1 c2 c3 Hs _ IH]; [done|]. intros Hi. apply IH. by eapply limiter_inv_step.
Qed.

(** ** Properties *)

(** C27: the caps hold whatever the interleaving: at every moment at most
    [MaxSessions] (100 when unset) callers hold a slot, and no IP has more than
    [PerIP] callers served, when that cap is set. *)
Theorem limiter_caps (l : Limits) (lm : limiter) (ts : list thread) (ip : bytes)
    (Hr : reachable l (lm, ts)) :
  (length ts <= sem_cap (newLimiter l))%nat /\
  (0 < PerIP l -> Z.of_nat (serving ip ts) <= PerIP l) /\
  ipCount lm ip = Z.of_nat (serving ip ts).
Proof.
  destruct (limiter_inv_reachable _ _ Hr) as [Hcap _ Hsem Hle Hcount Hper _].
  cbn [fst snd] in *. split_and!; [by rewrite <-Hsem, <-Hcap|auto|auto].
Qed.

Definition one_caller : config :=
  (set_perIP {[ str "10.0.0.1" := 1 ]} (set_sem 1 (newLimiter DefaultLimits)),
   [Serving (str "10.0.0.1")]).

Lemma one_caller_reachable : reachable DefaultLimits one_caller.
Proof.
  set (lm0 := newLimiter DefaultLimits).
  eapply rtc_l; [exact (step_send lm0 (set_sem 1 lm0) (str "10.0.0.1") [] eq_refl)|].
  eapply rtc_l; [exact (step_count (set_sem 1 lm0) _ (str "10.0.0.1") [] [] eq_refl)|].
  constructor.
Defined.

Lemma limiter_caps_witness :
  (length one_caller.2 <= sem_cap (newLimiter DefaultLimits))%nat /\
  (0 < PerIP DefaultLimits -> Z.of_nat (serving (str "10.0.0.1") one_caller.2) <= PerIP DefaultLimits) /\
  ipCount one_caller.1 (str "10.0.0.1") = Z.of_nat (serving (str "10.0.0.1") one_caller.2).
Proof. apply (limiter_caps DefaultLimits). apply one_caller_reachable. Defined.

(** No slot is lost: a goroutine that has to take its token back never
    blocks on the channel, and once every caller is gone the limiter is exactly
    as new, so the full capacity is available again. *)
Theorem limiter_no_leak (l : Limits) (lm : limiter) (ts : list thread)
    (Hr : reachable l (lm, ts)) :
  (Draining ∈ ts -> is_Some (recv lm)) /\ (ts = [] -> lm = newLimiter l).
Proof.
  destruct (limiter_inv_reachable _ _ Hr) as [Hcap Hmax Hsem Hle Hcount Hper Hnz].
  cbn [fst snd] in *. split.
  - intros Hin. unfold recv. destruct (sem lm); [|eauto]. by destruct ts; [apply elem_of_nil in Hin|].
  - intros ->. destruct lm as [s c m x]. cbn in *. subst. unfold newLimiter. f_equal.
    apply map_eq. intros ip. rewrite lookup_empty. destruct (m !! ip) as [n|] eqn:E; [|done].
    apply Hnz in E as Hpos. specialize (Hcount ip). unfold ipCount in Hcount. cbn in Hcount.
    rewrite E in Hcount. simpl in Hcount. lia.
Qed.

Lemma limiter_no_leak_witness :
  (Draining ∈ one_caller.2 -> is_Some (recv one_caller.1)) /\
  (one_caller.2 = [] -> one_caller.1 = newLimiter DefaultLimits).
Proof. apply (limiter_no_leak DefaultLimits). apply one_caller_reachable. Defined.
