(* ===== verification/Registry.v ===== *)
(** * Who is connected (src/session/nodepool.go, presence.go, roster.go)

    The three registries behind a mutex each: node numbers, one live session
    per handle with newest-wins displacement, and the who's-online roster. *)

From S2P Require Import Prelude.

(** ** NodePool *)

Module NodePool.

Record t := { used : gset Z; max : Z }.

Definition New (m : Z) : t := {| used := ∅; max := if m <=? 0 then 64 else m |}.

(** The scan from node [n] over the [left] nodes not yet tried. *)
Fixpoint scan (left : nat) (n : Z) (used : gset Z) : Z :=
  match left with
  | O => 0
  | S l => if bool_decide (n ∈ used) then scan l (n + 1) used else n
  end.

Definition Acquire (p : t) : Z * t :=
  let n := scan (Z.to_nat (max p)) 1 (used p) in
  if n =? 0 then (0, p) else (n, {| used := {[n]} ∪ used p; max := max p |}).

Definition Release (n : Z) (p : t) : t := {| used := used p ∖ {[n]}; max := max p |}.

Lemma scan_spec left n used :
  1 <= n ->
  let r := scan left n used in
  (r = 0 /\ (forall k, n <= k < n + Z.of_nat left -> k ∈ used)) \/
  (n <= r < n + Z.of_nat left /\ r ∉ used /\ forall k, n <= k < r -> k ∈ used).
Proof.
  revert n. induction left as [|l IH]; intros n Hn; cbn [scan].
  - left. split; [done|]. intros k Hk. lia.
  - case_bool_decide as Hin.
    + destruct (IH (n + 1) ltac:(lia)) as [[H0 Hall]|(Hr & Hnin & Hall)]; cbv zeta in *.
      * left. split; [done|]. intros k Hk. destruct (decide (k = n)) as [->|]; [done|].
        apply Hall. lia.
      * right. split_and!; [lia|lia|done|]. intros k Hk.
        destruct (decide (k = n)) as [->|]; [done|]. apply Hall. lia.
    + right. split_and!; [lia|lia|done|]. intros k Hk. lia.
Qed.

(** Sessions holding nodes: every holder acquired its node and has not
    released it. *)
Inductive step : t * list Z -> t * list Z -> Prop :=
  | step_acquire p n p' held :
      Acquire p = (n, p') -> n <> 0 -> step (p, held) (p', n :: held)
  | step_busy p p' held : Acquire p = (0, p') -> step (p, held) (p', held)
  | step_release p n h1 h2 : step (p, h1 ++ n :: h2) (Release n p, h1 ++ h2).

Record inv (m : Z) (c : t * list Z) : Prop := {
  inv_max : max c.1 = max (New m);
  inv_nodup : NoDup c.2;
  inv_used : forall n, n ∈ used c.1 <-> n ∈ c.2;
  inv_range : forall n, n ∈ c.2 -> 1 <= n <= max c.1;
}.

Lemma New_max_pos m : 0 < max (New m).
Proof. unfold New. simpl. destruct (Z.leb_spec m 0); lia. Qed.

Lemma pool_inv_step m c c' : inv m c -> step c c' -> inv m c'.
Proof.
  intros [Hmax Hnd Hused Hrange] Hs.
  destruct Hs as [p n p' held Ha Hn|p p' held Ha|p n h1 h2]; cbn [fst snd] in *.
  - unfold Acquire in Ha.
    destruct (scan_spec (Z.to_nat (max p)) 1 (used p)) as [[H0 _]|(Hr & Hnin & _)]; [lia| |].
    { rewrite H0 in Ha. simpl in Ha. by simplify_eq. }
    destruct (Z.eqb_spec (scan (Z.to_nat (max p)) 1 (used p)) 0); [lia|]. simplify_eq.
    split; cbn [fst snd max used]; [done| | |].
    + constructor; [by rewrite <-Hused|done].
    + intros k. rewrite elem_of_union, elem_of_singleton, elem_of_cons. by rewrite Hused.
    + intros k [->|Hk]%elem_of_cons; [lia|auto].
  - unfold Acquire in Ha. destruct (_ =? 0) eqn:E; simplify_eq; [done|by bool_hyps].
  - apply NoDup_app in Hnd as (Hn1 & Hd & [Hn Hn2]%NoDup_cons).
    split; cbn [fst snd max used Release]; [done| | |].
    + apply NoDup_app. split_and!; [done| |done]. intros x Hx ?. eapply Hd; [done|set_solver].
    + intros k. rewrite elem_of_difference, elem_of_singleton, Hused. set_solver.
    + intros k Hk. apply Hrange. set_solver.
Qed.

Lemma pool_inv_reachable m c : rtc step (New m, []) c -> inv m c.
Proof.
  intros H. assert (inv m (New m, [])) as Hi.
  { split; cbn; try done; [constructor|set_solver|set_solver]. }
  revert Hi. induction H as [|c1 c2 c3 Hs _ IH]; [done|]. intros Hi.
  by apply IH, (pool_inv_step _ _ _ Hi).
Qed.
End NodePool.

(** ** Presence *)

Module Presence.

(** [token]: the session's id and its close function, represented by the
    session it disconnects. *)
Record token := { id : Z; closeFn : option Z }.

Record t := { cur : gmap bytes token; seq : Z }.

Definition New (_ : Z) : t := {| cur := ∅; seq := 0 |}.

(** Returns the new id, and the close function to call once unlocked. *)
Definition Enter (handle : bytes) (f : option Z) (p : t) : Z * option Z * t :=
  let i := seq p + 1 in
  let prev := cur p !! handle in
  (i, prev ≫= closeFn, {| cur := <[handle := {| id := i; closeFn := f |}]> (cur p); seq := i |}).

Definition Leave (handle : bytes) (i : Z) (p : t) : t :=
  match cur p !! handle with
  | Some tk => if id tk =? i then {| cur := delete handle (cur p); seq := seq p |} else p
  | None => p
  end.

(** The sessions that entered and have not run their deferred [Leave] yet:
    their handle, and whether a newer session has taken their place.  A
    session's close function disconnects that session, so it is labelled with
    the id the session is about to get. *)
Abbreviation sessions := (gmap Z (bytes * bool)).

Definition kick (o : option Z) (ss : sessions) : sessions :=
  match o with
  | Some i => alter (λ s, (s.1, true)) i ss
  | None => ss
  end.

Inductive step : t * sessions -> t * sessions -> Prop :=
  | step_enter p ss h i displaced p' :
      Enter h (Some (seq p + 1)) p = (i, displaced, p') ->
      step (p, ss) (p', <[i := (h, false)]> (kick displaced ss))
  | step_leave p ss i h kicked :
      ss !! i = Some (h, kicked) -> step (p, ss) (Leave h i p, delete i ss).

Record inv (c : t * sessions) : Prop := {
  inv_cur : forall h tk, cur c.1 !! h = Some tk ->
    closeFn tk = Some (id tk) /\ c.2 !! id tk = Some (h, false);
  inv_live : forall i h, c.2 !! i = Some (h, false) -> exists tk, cur c.1 !! h = Some tk /\ id tk = i;
  inv_seq : forall i s, c.2 !! i = Some s -> i <= seq c.1;
}.

Lemma kick_lookup o ss i :
  kick o ss !! i = if decide (o = Some i) then (λ s, (s.1, true)) <$> ss !! i else ss !! i.
Proof.
  destruct o as [j|]; simpl; [|done]. rewrite lookup_alter.
  repeat case_decide; simplify_eq; done.
Qed.

Lemma presence_inv_step c c' : inv c -> step c c' -> inv c'.
Proof.
  intros [Hcur Hlive Hseq] Hs.
  destruct Hs as [p ss h i displaced p' HE|p ss i h kicked Hi]; cbn [fst snd] in *.
  - unfold Enter in HE. injection HE as <- <- <-.
    assert (forall j, j <= seq p -> j <> seq p + 1) as Hfresh by lia.
    split; cbn [fst snd cur seq].
    + intros h' tk. rewrite lookup_insert_Some. intros [[<- <-]|[Hne H]].
      * simpl. by rewrite lookup_insert_eq.
      * apply Hcur in H as [Hc Hl]. split; [done|].
        rewrite lookup_insert_ne by (apply Hseq in Hl; lia).
        rewrite kick_lookup. case_decide as Hd; [|done].
        apply bind_Some in Hd as (tk' & Hh & Hc').
        apply Hcur in Hh as [Hc2 Hl2]. rewrite Hc' in Hc2.
        injection Hc2 as E. rewrite <-E, Hl in Hl2. by simplify_eq.
    + intros j h'. rewrite lookup_insert_Some. intros [[<- ?]|[Hne H]].
      * simplify_eq. rewrite lookup_insert_eq. eauto.
      * rewrite kick_lookup in H. case_decide as Hd.
        { apply fmap_Some in H as (s & _ & ?). by simplify_eq. }
        apply Hlive in H as (tk & Htk & Hid). exists tk. split; [|done].
        rewrite lookup_insert_ne; [done|]. intros <-. apply Hd. rewrite Htk. simpl.
        apply Hcur in Htk as [Hc _]. by rewrite Hc, Hid.
    + intros j s. rewrite lookup_insert_Some. intros [[<- _]|[Hne H]]; [lia|].
      rewrite kick_lookup in H. case_decide; [apply fmap_Some in H as (s' & H & _)|];
        apply Hseq in H; lia.
  - split; cbn [fst snd].
    + intros h' tk H. assert (cur p !! h' = Some tk /\ (h' = h -> id tk <> i)) as [Hp Hne].
      { unfold Leave in H. destruct (cur p !! h) as [tk'|] eqn:Eh.
        - destruct (Z.eqb_spec (id tk') i); cbn [cur] in H.
          + apply lookup_delete_Some in H as [? ?]. split; [done|]. intros ->. done.
          + split; [done|]. intros ->. by simplify_eq.
        - split; [done|]. intros ->. congruence. }
      apply Hcur in Hp as [Hc Hl]. split; [done|]. rewrite lookup_delete_ne; [done|].
      intros E. rewrite <-E, Hi in Hl. simplify_eq. by apply Hne.
    + intros j h'. rewrite lookup_delete_Some. intros [Hne H].
      apply Hlive in H as (tk & Htk & Hid). exists tk. split; [|done].
      unfold Leave. destruct (cur p !! h) as [tk'|] eqn:Eh; [|done].
      destruct (Z.eqb_spec (id tk') i); [|done]. cbn [cur].
      rewrite lookup_delete_ne; [done|]. intros <-. simplify_eq.
    + intros j s. rewrite lookup_delete_Some. intros [_ H]. apply Hseq in H.
      unfold Leave. repeat case_match; done.
Qed.

Lemma presence_inv_reachable m c : rtc step (New m, ∅) c -> inv c.
Proof.
  intros H. assert (inv (New m, ∅)) as Hi.
  { split; cbn [fst snd New cur]; intros *; rewrite lookup_empty; done. }
  revert Hi. induction H as [|c1 c2 c3 Hs _ IH]; [done|]. intros Hi.
  by apply IH, (presence_inv_step _ _ Hi).
Qed.
End Presence.

(** ** Roster *)

Module Roster.

Record Online := {
  Node : Z; Handle : bytes; IP : bytes; Transport : bytes; Since : Z
}.

(** The entries of [Roster], by node number. *)
Definition t : Type := gmap Z Online.

(** [now] is the roster's clock read by the call. *)
Definition Join (node : Z) (handle ip transport : bytes) (now : Z) (r : t) : t :=
  <[node := {| Node := node; Handle := handle; IP := ip; Transport := transport; Since := now |}]> r.

Definition Leave (node : Z) (r : t) : t := delete node r.

Definition node_le (a b : Online) : Prop := Node a <= Node b.
#[global] Instance node_le_dec : RelDecision node_le.
Proof. intros a b. unfold node_le. apply _. Defined.
#[global] Instance node_le_total : Total node_le.
Proof. intros a b. unfold node_le. lia. Qed.
#[global] Instance node_le_trans : Transitive node_le.
Proof. intros a b c. unfold node_le. lia. Qed.

(** The snapshot in map order, then [sort.Slice] by node number. *)
Definition List (r : t) : list Online := merge_sort node_le ((map_to_list r).*2).

Definition Count (r : t) : Z := Z.of_nat (size r).

(** A lookup after an operation. *)
Lemma lookup_Join n h ip tr now r k :
  Join n h ip tr now r !! k = if decide (n = k) then Some (Build_Online n h ip tr now) else r !! k.
Proof. exact (lookup_insert (M := gmap Z) r n k _). Qed.

Lemma lookup_Leave n r k : Leave n r !! k = if decide (n = k) then None else r !! k.
Proof. exact (lookup_delete (M := gmap Z) r n k). Qed.

(** Every entry is stored under its own node number. *)
Definition wf (r : t) : Prop := map_Forall (λ n o, Node o = n) r.

Lemma wf_Join n h ip tr now r : wf r -> wf (Join n h ip tr now r).
Proof. intros H. by apply map_Forall_insert_2. Qed.

Lemma wf_Leave n r : wf r -> wf (Leave n r).
Proof. intros H. by apply map_Forall_delete. Qed.
End Roster.

(** ** Properties *)

(** Node numbers are exclusive: whatever the sequence of callers, the
    nodes held are pairwise distinct and within [1..max]; [Acquire] answers
    with the least free node, and with 0 only when every node is held. *)
Theorem NodePool_exclusive (m : Z) (p : NodePool.t) (held : list Z)
    (Hr : rtc NodePool.step (NodePool.New m, []) (p, held)) :
  NoDup held /\ (forall n, n ∈ held -> 1 <= n <= NodePool.max (NodePool.New m)) /\
  (let n := (NodePool.Acquire p).1 in
   (n = 0 /\ (forall k, 1 <= k <= NodePool.max (NodePool.New m) -> k ∈ held)) \/
   (1 <= n /\ n ∉ held /\ (forall k, 1 <= k < n -> k ∈ held))).
Proof.
  destruct (NodePool.pool_inv_reachable _ _ Hr) as [Hmax Hnd Hused Hrange]. cbn [fst snd] in *.
  rewrite Hmax in Hrange. split_and!; [done..|]. cbv zeta.
  assert (forall x : Z, (NodePool.Acquire p).1 = x -> x = NodePool.scan (Z.to_nat (NodePool.max p)) 1 (NodePool.used p)) as HA.
  { intros x <-. unfold NodePool.Acquire.
    destruct (Z.eqb_spec (NodePool.scan (Z.to_nat (NodePool.max p)) 1 (NodePool.used p)) 0); done. }
  rewrite (HA _ eq_refl).
  destruct (NodePool.scan_spec (Z.to_nat (NodePool.max p)) 1 (NodePool.used p)) as
    [[H0 Hall]|(Hrg & Hnin & Hall)]; [lia| |].
  - left. split; [done|]. intros k Hk. apply Hused, Hall. rewrite Hmax. lia.
  - right. split_and!; [lia|by rewrite <-Hused|]. intros k Hk. by apply Hused, Hall.
Qed.

Lemma NodePool_exclusive_witness :
  NoDup [1] /\ (forall n, n ∈ [1] -> 1 <= n <= NodePool.max (NodePool.New 2)) /\
  (let n := (NodePool.Acquire (NodePool.Acquire (NodePool.New 2)).2).1 in
   (n = 0 /\ (forall k, 1 <= k <= NodePool.max (NodePool.New 2) -> k ∈ [1])) \/
   (1 <= n /\ n ∉ [1] /\ (forall k, 1 <= k < n -> k ∈ [1]))).
Proof.
  apply (NodePool_exclusive 2). eapply rtc_l; [|constructor].
  apply (NodePool.step_acquire _ 1); [vm_compute; reflexivity|discriminate].
Defined.

(** Newest wins: in every reachable state each handle has at most one
    session that was not displaced, it is the one the registry holds, and its
    id is the last one issued for the handle; a displaced session's late
    [Leave] removes nothing. *)
Theorem Presence_newest_wins (m : Z) (p : Presence.t) (ss : Presence.sessions)
    (h : bytes) (i j : Z) (Hr : rtc Presence.step (Presence.New m, ∅) (p, ss))
    (Hi : ss !! i = Some (h, false)) :
  (ss !! j = Some (h, false) -> j = i) /\
  (exists tk, Presence.cur p !! h = Some tk /\ Presence.id tk = i) /\
  (ss !! j = Some (h, true) -> Presence.Leave h j p = p) /\
  (Presence.Enter h (Some (Presence.seq p + 1)) p).1.2 = Some i.
Proof.
  destruct (Presence.presence_inv_reachable _ _ Hr) as [Hcur Hlive _]. cbn [fst snd] in *.
  destruct (Hlive _ _ Hi) as (tk & Htk & Hid). split_and!.
  - intros Hj. destruct (Hlive _ _ Hj) as (tk' & Htk' & <-). by simplify_eq.
  - eauto.
  - intros Hj. unfold Presence.Leave. rewrite Htk.
    destruct (Z.eqb_spec (Presence.id tk) j); [|done]. subst. by rewrite Hi in Hj.
  - unfold Presence.Enter. simpl. rewrite Htk. simpl. destruct (Hcur _ _ Htk) as [-> _].
    by f_equal.
Qed.

(** Alice logs in twice; the first session is displaced. *)
Definition two_logins : Presence.t * Presence.sessions :=
  let '(i1, _, p1) := Presence.Enter (str "alice") (Some 1) (Presence.New 1) in
  let '(i2, d, p2) := Presence.Enter (str "alice") (Some 2) p1 in
  (p2, <[i2 := (str "alice", false)]> (Presence.kick d (<[i1 := (str "alice", false)]> ∅))).

Lemma two_logins_reachable : rtc Presence.step (Presence.New 1, ∅) two_logins.
Proof.
  eapply rtc_l; [by eapply (Presence.step_enter (Presence.New 1) ∅ (str "alice"))|].
  eapply rtc_l; [by eapply (Presence.step_enter _ _ (str "alice"))|]. constructor.
Defined.

Lemma Presence_newest_wins_witness :
  (two_logins.2 !! 1 = Some (str "alice", false) -> 1 = 2) /\
  (exists tk, Presence.cur two_logins.1 !! str "alice" = Some tk /\ Presence.id tk = 2) /\
  (two_logins.2 !! 1 = Some (str "alice", true) -> Presence.Leave (str "alice") 1 two_logins.1 = two_logins.1) /\
  (Presence.Enter (str "alice") (Some (Presence.seq two_logins.1 + 1)) two_logins.1).1.2 = Some 2.
Proof.
  apply (Presence_newest_wins 1 two_logins.1 two_logins.2 (str "alice") 2 1).
  - exact two_logins_reachable.
  - vm_compute. reflexivity.
Defined.

(** The who's-online list is the roster: sorted by node, one entry per
    node, exactly the callers that joined and have not left, and [Count] is its
    length. *)
Theorem Roster_List_spec (r : Roster.t) (Hwf : Roster.wf r) :
  StronglySorted Roster.node_le (Roster.List r) /\
  (forall o, o ∈ Roster.List r <-> r !! Roster.Node o = Some o) /\
  NoDup (Roster.Node <$> Roster.List r) /\
  Roster.Count r = len (Roster.List r).
Proof.
  pose proof (merge_sort_Permutation Roster.node_le (map_to_list r).*2) as Hp.
  assert (Roster.Node <$> (map_to_list r).*2 = (map_to_list r).*1) as Hk.
  { rewrite <-list_fmap_compose. apply list_fmap_ext. intros k [n o] H.
    apply list_elem_of_lookup_2, elem_of_map_to_list in H. simpl. by apply Hwf in H. }
  split_and!.
  - apply (StronglySorted_merge_sort Roster.node_le).
  - intros o. unfold Roster.List. rewrite Hp, list_elem_of_fmap. split.
    + intros ([n o'] & -> & H%elem_of_map_to_list). simpl. by rewrite (Hwf _ _ H).
    + intros H. exists (Roster.Node o, o). split; [done|]. by apply elem_of_map_to_list.
  - unfold Roster.List. rewrite Hp, Hk. apply NoDup_fst_map_to_list.
  - unfold Roster.Count, Roster.List, len. rewrite Hp, length_fmap.
    f_equal. symmetry. exact (length_map_to_list (M := gmap Z) r).
Qed.

Lemma Roster_List_spec_witness :
  let r := Roster.Join 2 (str "bob") [] (str "ssh") 7 (Roster.Join 1 (str "al") [] (str "ssh") 5 ∅) in
  StronglySorted Roster.node_le (Roster.List r) /\
  (forall o, o ∈ Roster.List r <-> r !! Roster.Node o = Some o) /\
  NoDup (Roster.Node <$> Roster.List r) /\
  Roster.Count r = len (Roster.List r).
Proof.
  intros r. apply (Roster_List_spec r). unfold r. apply Roster.wf_Join, Roster.wf_Join.
  apply map_Forall_empty.
Defined.
