(* ===== verification/Input.v ===== *)
(** * Hardened input (src/session/input.go, the readers of session.go)

    [SanitizeInput], the streaming escape filter [nextByte] and the line, key
    and password readers built on it.  A [session] here is the caller's unread
    bytes, the bytes handed to [conn.Write] (whose errors the readers discard)
    and the number of times the idle watchdog was reset. *)

From S2P Require Import Prelude.

Definition ESC : Z := 27.
Definition DEL : Z := 127.
Definition MaxLineLen : Z := 4096.

Definition allowedControl (b : Z) : bool := (b =? 9) || (b =? 10) || (b =? 13).

(** The final byte of a CSI sequence. *)
Definition csi_final (b : Z) : bool := (64 <=? b) && (b <=? 126).

(** What follows the final byte of a CSI sequence; nothing if it has none. *)
Fixpoint skip_csi (s : bytes) : bytes :=
  match s with
  | [] => []
  | b :: s' => if csi_final b then s' else skip_csi s'
  end.

(** The loop of [SanitizeInput]; [fuel] bounds its iterations. *)
Fixpoint sanitize (fuel : nat) (s : bytes) : bytes :=
  match fuel with
  | O => []
  | S f =>
      match s with
      | [] => []
      | b :: s' =>
          if b =? ESC then
            match s' with
            | [] => []
            | c :: s2 => if c =? 91 then sanitize f (skip_csi s2) else sanitize f s2
            end
          else if (b <? 32) || (b =? DEL) then
            if allowedControl b then b :: sanitize f s' else sanitize f s'
          else b :: sanitize f s'
      end
  end.

Definition SanitizeInput (s : bytes) : bytes := sanitize (S (length s)) s.

(** ** Session input *)

Record session := { s_in : bytes; s_out : bytes; s_resets : nat }.

Definition set_in (i : bytes) (s : session) : session :=
  {| s_in := i; s_out := s_out s; s_resets := s_resets s |}.
Definition emit (p : bytes) (s : session) : session :=
  {| s_in := s_in s; s_out := s_out s ++ p; s_resets := s_resets s |}.
Definition resetIdle (s : session) : session :=
  {| s_in := s_in s; s_out := s_out s; s_resets := S (s_resets s) |}.

(** [nextByte]; [None] is the read error of a caller who hung up. *)
Fixpoint nextByte_loop (fuel : nat) (s : session) : option Z * session :=
  match fuel with
  | O => (None, s)
  | S f =>
      match s_in s with
      | [] => (None, s)
      | b :: i =>
          let s1 := resetIdle (set_in i s) in
          if b =? ESC then
            match i with
            | [] => (None, s1)
            | nb :: i2 =>
                if nb =? 91 then
                  if existsb csi_final i2 then nextByte_loop f (set_in (skip_csi i2) s1)
                  else (None, set_in [] s1)
                else nextByte_loop f (set_in i2 s1)
            end
          else (Some b, s1)
      end
  end.

Definition nextByte (s : session) : option Z * session :=
  nextByte_loop (S (length (s_in s))) s.

Fixpoint ReadKey_loop (fuel : nat) (s : session) : option Z * session :=
  match fuel with
  | O => (None, s)
  | S f =>
      match nextByte s with
      | (None, s') => (None, s')
      | (Some b, s') =>
          if (b <? 32) || (b =? DEL) then
            if (b =? 13) || (b =? 10) then (Some b, s') else ReadKey_loop f s'
          else (Some b, s')
      end
  end.

Definition ReadKey (s : session) : option Z * session :=
  ReadKey_loop (S (length (s_in s))) s.

Definition CRLF : bytes := [13; 10].

(** The loop [ReadLine] and [ReadPassword] share but for the echo. *)
Fixpoint line_loop (fuel : nat) (echo : bool) (buf : bytes) (s : session) : option bytes * session :=
  match fuel with
  | O => (None, s)
  | S f =>
      match nextByte s with
      | (None, s') => (None, s')
      | (Some b, s') =>
          if (b =? 13) || (b =? 10) then (Some buf, emit CRLF s')
          else if (b =? 8) || (b =? DEL) then
            match buf with
            | [] => line_loop f echo buf s'
            | _ => line_loop f echo (removelast buf)
                     (if echo then emit [8; 32; 8] s' else s')
            end
          else if b <? 32 then line_loop f echo buf s'
          else if len buf <? MaxLineLen then
            line_loop f echo (buf ++ [b]) (if echo then emit [b] s' else s')
          else line_loop f echo buf s'
      end
  end.

Definition ReadLine (s : session) : option bytes * session :=
  line_loop (S (length (s_in s))) true [] s.
Definition ReadPassword (s : session) : option bytes * session :=
  line_loop (S (length (s_in s))) false [] s.

(** ** Specification: editing the caller's escape-free bytes *)

(** The bytes [nextByte] returns until it fails. *)
Fixpoint strip (fuel : nat) (s : bytes) : bytes :=
  match fuel with
  | O => []
  | S f =>
      match s with
      | [] => []
      | b :: s' =>
          if b =? ESC then
            match s' with
            | [] => []
            | c :: s2 => strip f (if c =? 91 then skip_csi s2 else s2)
            end
          else b :: strip f s'
      end
  end.

Definition plain (s : bytes) : bytes := strip (S (length s)) s.

Definition is_eol (b : Z) : bool := (b =? 13) || (b =? 10).

(** One keystroke of line editing. *)
Definition edit (buf : bytes) (b : Z) : bytes :=
  if (b =? 8) || (b =? DEL) then removelast buf
  else if (b <? 32) then buf
  else if len buf <? MaxLineLen then buf ++ [b] else buf.

(** Edit the bytes up to the first CR or LF. *)
Fixpoint edited (buf : bytes) (s : bytes) : option bytes :=
  match s with
  | [] => None
  | b :: s' => if is_eol b then Some buf else edited (edit buf b) s'
  end.

(** What a line may contain. *)
Definition line_byte (b : Z) : Prop := 32 <= b /\ b <> DEL.

(** What text cleaned for a terminal may contain. *)
Definition clean_byte (b : Z) : Prop := line_byte b \/ allowedControl b = true.

(** ** Lemmas *)

Lemma skip_csi_le s : (length (skip_csi s) <= length s)%nat.
Proof. induction s as [|b s IH]; simpl; [lia|]. destruct (csi_final b); simpl; lia. Qed.

Lemma skip_csi_none s : existsb csi_final s = false -> skip_csi s = [].
Proof. induction s as [|b s IH]; simpl; [done|]. by destruct (csi_final b). Qed.

Lemma sanitize_fuel f1 f2 s :
  (length s < f1)%nat -> (length s < f2)%nat -> sanitize f1 s = sanitize f2 s.
Proof.
  revert f2 s. induction f1 as [|f1 IH]; intros [|f2] s H1 H2; try lia.
  destruct s as [|b s]; simpl; [done|]. simpl in *.
  destruct (b =? ESC).
  - destruct s as [|c s]; [done|]. simpl in *. pose proof (skip_csi_le s).
    destruct (c =? 91); apply IH; lia.
  - rewrite (IH f2 s) by lia. done.
Qed.

Lemma strip_fuel f1 f2 s :
  (length s < f1)%nat -> (length s < f2)%nat -> strip f1 s = strip f2 s.
Proof.
  revert f2 s. induction f1 as [|f1 IH]; intros [|f2] s H1 H2; try lia.
  destruct s as [|b s]; simpl; [done|]. simpl in *.
  destruct (b =? ESC).
  - destruct s as [|c s]; [done|]. simpl in *. pose proof (skip_csi_le s).
    apply IH; destruct (c =? 91); lia.
  - by rewrite (IH f2 s) by lia.
Qed.

Lemma plain_cons b s : b <> ESC -> plain (b :: s) = b :: plain s.
Proof. intros Hb. unfold plain. cbn [strip length]. by rewrite (proj2 (Z.eqb_neq b ESC)). Qed.

Lemma plain_esc c s : plain (ESC :: c :: s) = plain (if c =? 91 then skip_csi s else s).
Proof.
  unfold plain. change (strip (S (length (ESC :: c :: s))) (ESC :: c :: s)) with
    (strip (S (S (length s))) (if c =? 91 then skip_csi s else s)).
  pose proof (skip_csi_le s). apply strip_fuel; destruct (c =? 91); lia.
Qed.

(** Induction along the escape filter. *)
Lemma plain_ind (P : bytes -> Prop) :
  P [] -> P [ESC] -> (forall c s, P (if c =? 91 then skip_csi s else s) -> P (ESC :: c :: s)) ->
  (forall b s, b <> ESC -> P s -> P (b :: s)) -> forall s, P s.
Proof.
  intros H0 H1 H2 H3 s. remember (length s) as n eqn:Hn. revert s Hn.
  induction (lt_wf n) as [n _ IH]. intros s ->. destruct s as [|b s]; [done|].
  destruct (decide (b = ESC)) as [->|Hb]; [|apply H3; [done|]; eapply IH; [|done]; simpl; lia].
  destruct s as [|c s]; [done|]. apply H2. eapply IH; [|done].
  pose proof (skip_csi_le s). destruct (c =? 91); simpl; lia.
Qed.

Lemma plain_no_esc s : Forall (λ b, b <> ESC) (plain s).
Proof.
  induction s as [| |c s IH|b s Hb IH] using plain_ind; [done|done|by rewrite plain_esc|].
  rewrite plain_cons by done. by constructor.
Qed.

(** [SanitizeInput] is the escape filter followed by the control filter. *)
Definition keep (b : Z) : bool := negb ((b <? 32) || (b =? DEL)) || allowedControl b.

Lemma SanitizeInput_plain s : SanitizeInput s = List.filter keep (plain s).
Proof.
  induction s as [| |c s IH|b s Hb IH] using plain_ind; [done|done| |].
  - rewrite plain_esc, <-IH. unfold SanitizeInput.
    change (sanitize (S (length (ESC :: c :: s))) (ESC :: c :: s)) with
      (if c =? 91 then sanitize (S (S (length s))) (skip_csi s)
       else sanitize (S (S (length s))) s).
    pose proof (skip_csi_le s). destruct (c =? 91); apply sanitize_fuel; lia.
  - rewrite plain_cons by done. cbn [List.filter]. rewrite <-IH. unfold SanitizeInput.
    cbn [sanitize length]. rewrite (proj2 (Z.eqb_neq b ESC)) by done. unfold keep.
    by destruct ((b <? 32) || (b =? DEL)), (allowedControl b).
Qed.

Lemma nextByte_loop_spec f s :
  (length (s_in s) < f)%nat ->
  match nextByte_loop f s with
  | (None, s') => plain (s_in s) = [] /\ s_out s' = s_out s
  | (Some b, s') => plain (s_in s) = b :: plain (s_in s') /\ s_out s' = s_out s /\
                    (length (s_in s') < length (s_in s))%nat
  end.
Proof.
  revert s. induction f as [|f IH]; intros s Hf; [lia|].
  cbn [nextByte_loop]. destruct s as [[|b i] o r]; cbn [s_in] in *; [done|].
  destruct (Z.eqb_spec b ESC) as [->|Hb].
  - destruct i as [|nb i]; [done|]. rewrite plain_esc. simpl in Hf. pose proof (skip_csi_le i).
    destruct (nb =? 91).
    + destruct (existsb csi_final i) eqn:E; [|by rewrite skip_csi_none].
      specialize (IH (set_in (skip_csi i) (resetIdle (set_in (nb :: i) {| s_in := ESC :: nb :: i; s_out := o; s_resets := r |})))
        ltac:(simpl; lia)).
      simpl in IH |- *. destruct (nextByte_loop f _) as [[x|] s']; [|done].
      destruct IH as (? & ? & ?). split_and!; [done|done|lia].
    + specialize (IH (set_in i (resetIdle (set_in (nb :: i) {| s_in := ESC :: nb :: i; s_out := o; s_resets := r |})))
        ltac:(simpl; lia)).
      simpl in IH |- *. destruct (nextByte_loop f _) as [[x|] s']; [|done].
      destruct IH as (? & ? & ?). split_and!; [done|done|lia].
  - rewrite plain_cons by done. simpl. split_and!; done || lia.
Qed.

Lemma nextByte_spec s :
  match nextByte s with
  | (None, s') => plain (s_in s) = [] /\ s_out s' = s_out s
  | (Some b, s') => plain (s_in s) = b :: plain (s_in s') /\ s_out s' = s_out s /\
                    (length (s_in s') < length (s_in s))%nat
  end.
Proof. apply nextByte_loop_spec. lia. Qed.

Lemma edit_nil_erase b : (b =? 8) || (b =? DEL) = true -> edit [] b = [].
Proof. unfold edit. by intros ->. Qed.

Lemma emit_if_in (c : bool) p s : s_in (if c then emit p s else s) = s_in s.
Proof. by destruct c. Qed.

Lemma line_loop_spec f echo buf s :
  (length (s_in s) < f)%nat -> (line_loop f echo buf s).1 = edited buf (plain (s_in s)).
Proof.
  revert buf s. induction f as [|f IH]; intros buf s Hf; [lia|].
  cbn [line_loop]. pose proof (nextByte_spec s) as Hn.
  destruct (nextByte s) as [[b|] s']; [|by destruct Hn as [-> _]].
  destruct Hn as (-> & _ & Hlt). cbn [edited]. unfold is_eol.
  destruct ((b =? 13) || (b =? 10)); [done|]. unfold edit.
  destruct ((b =? 8) || (b =? DEL)).
  - destruct buf as [|c buf]; rewrite IH by (rewrite ?emit_if_in; lia); by rewrite ?emit_if_in.
  - destruct (b <? 32); [apply IH; lia|].
    destruct (len buf <? MaxLineLen); rewrite IH by (rewrite ?emit_if_in; lia); by rewrite ?emit_if_in.
Qed.

Lemma removelast_Forall {A} (P : A -> Prop) l : Forall P l -> Forall P (removelast l).
Proof.
  induction l as [|x l IH]; [done|]. intros [Hx Hl]%Forall_cons. simpl.
  destruct l; [done|]. constructor; auto.
Qed.

Lemma removelast_length {A} (l : list A) : len (removelast l) <= len l.
Proof.
  induction l as [|x l IH]; [done|]. simpl. destruct l; unfold len in *; simpl in *; lia.
Qed.

Lemma edit_ok buf b :
  Forall line_byte buf -> len buf <= MaxLineLen ->
  Forall line_byte (edit buf b) /\ len (edit buf b) <= MaxLineLen.
Proof.
  intros Hb Hl. unfold edit.
  destruct ((b =? 8) || (b =? DEL)) eqn:E; [split; [by apply removelast_Forall|]|].
  { pose proof (removelast_length buf). lia. }
  destruct (Z.ltb_spec b 32); [done|]. destruct (Z.ltb_spec (len buf) MaxLineLen); [|done].
  bool_hyps. split.
  - apply Forall_app. split; [done|]. constructor; [|done]. by split.
  - rewrite len_app. unfold len in *. simpl. lia.
Qed.

Lemma edited_ok buf s r :
  Forall line_byte buf -> len buf <= MaxLineLen -> edited buf s = Some r ->
  Forall line_byte r /\ len r <= MaxLineLen.
Proof.
  revert buf. induction s as [|b s IH]; intros buf Hb Hl; simpl; [done|].
  destruct (is_eol b); [by intros [= <-]|]. apply IH; by apply edit_ok.
Qed.


(** ** A terminal to read the echo on *)

(** One line of a terminal: the cells, and the cells left of the cursor. *)
Record screenline := { left_of : bytes; right_of : bytes }.

(** A printable byte overwrites the cell at the cursor and advances; BS moves
    the cursor left. *)
Definition term_step (t : screenline) (b : Z) : screenline :=
  if b =? 8 then
    match reverse (left_of t) with
    | [] => t
    | c :: _ => {| left_of := removelast (left_of t); right_of := c :: right_of t |}
    end
  else {| left_of := left_of t ++ [b]; right_of := tail (right_of t) |}.

Definition term (t : screenline) (p : bytes) : screenline := foldl term_step t p.

Definition blank_line : screenline := {| left_of := []; right_of := [] |}.

(** The line shows [buf] and only blanks after it. *)
Definition shows (t : screenline) (buf : bytes) : Prop :=
  left_of t = buf /\ Forall (λ c, c = 32) (right_of t).

Lemma shows_type t buf b : b <> 8 -> shows t buf -> shows (term t [b]) (buf ++ [b]).
Proof.
  intros Hb [<- Hr]. unfold shows, term, term_step. cbn [foldl].
  rewrite (proj2 (Z.eqb_neq b 8)) by done. split; [done|]. simpl.
  destruct (right_of t); [done|]. by inversion Hr.
Qed.

Lemma term_step_bs l x r :
  term_step {| left_of := l ++ [x]; right_of := r |} 8 = {| left_of := l; right_of := x :: r |}.
Proof.
  unfold term_step. cbn [left_of right_of]. rewrite Z.eqb_refl, reverse_app. simpl.
  by rewrite removelast_last.
Qed.

Lemma shows_erase t buf :
  buf <> [] -> shows t buf -> shows (term t [8; 32; 8]) (removelast buf).
Proof.
  intros Hne [<- Hr]. destruct t as [lo r]. simpl in *.
  destruct (exists_last Hne) as (l & x & ->). unfold term. cbn [foldl].
  rewrite term_step_bs.
  change (term_step {| left_of := l; right_of := x :: r |} 32) with
    {| left_of := l ++ [32]; right_of := r |}.
  rewrite term_step_bs.
  rewrite removelast_last. split; [done|]. by constructor.
Qed.

Lemma term_app t p q : term t (p ++ q) = term (term t p) q.
Proof. unfold term. by rewrite foldl_app. Qed.

(** What the two readers write: nothing but the final CR LF without echo, and
    with echo what makes the terminal show the line. *)
Lemma line_loop_silent f buf s :
  (length (s_in s) < f)%nat ->
  let '(r, s') := line_loop f false buf s in
  s_out s' = s_out s ++ (if r then CRLF else []).
Proof.
  revert buf s. induction f as [|f IH]; intros buf s Hf; [lia|].
  cbn [line_loop]. pose proof (nextByte_spec s) as Hn.
  destruct (nextByte s) as [[b|] s']; [|destruct Hn as [_ ->]; by rewrite app_nil_r].
  destruct Hn as (_ & <- & Hlt).
  destruct ((b =? 13) || (b =? 10)); [done|].
  destruct ((b =? 8) || (b =? DEL)); [destruct buf; apply IH; lia|].
  destruct (b <? 32); [apply IH; lia|]. destruct (len buf <? MaxLineLen); apply IH; lia.
Qed.

Lemma line_loop_echo f buf s t :
  (length (s_in s) < f)%nat -> shows t buf ->
  exists e, s_out (line_loop f true buf s).2 = s_out s ++ e /\
  match (line_loop f true buf s).1 with
  | Some r => exists e', e = e' ++ CRLF /\ shows (term t e') r
  | None => True
  end.
Proof.
  revert buf s t. induction f as [|f IH]; intros buf s t Hf Ht; [lia|].
  cbn [line_loop]. pose proof (nextByte_spec s) as Hn.
  destruct (nextByte s) as [[b|] s']; [|destruct Hn as [_ Ho]; exists []; by rewrite app_nil_r].
  destruct Hn as (_ & <- & Hlt).
  destruct ((b =? 13) || (b =? 10)); [exists CRLF; split; [done|]; by exists []|].
  assert (step : forall p buf', shows (term t p) buf' ->
    exists e, s_out (line_loop f true buf' (emit p s')).2 = s_out s' ++ e /\
    match (line_loop f true buf' (emit p s')).1 with
    | Some r => exists e', e = e' ++ CRLF /\ shows (term t e') r
    | None => True
    end).
  { intros p buf' Hp. destruct (IH buf' (emit p s') (term t p)) as (e & He & Hr); [simpl; lia|done|].
    exists (p ++ e). split; [rewrite He; simpl; by rewrite app_assoc|].
    destruct (line_loop _ _ _ _) as [[r|] ?]; [|done]. destruct Hr as (e' & -> & Hr).
    exists (p ++ e'). by rewrite app_assoc, term_app. }
  destruct ((b =? 8) || (b =? DEL)) eqn:E8.
  - destruct buf as [|c buf]; [apply IH; [lia|done]|]. by apply step, shows_erase.
  - destruct (b <? 32); [apply IH; [lia|done]|].
    destruct (len buf <? MaxLineLen); [|apply IH; [lia|done]].
    bool_hyps. by apply step, shows_type.
Qed.

(** Draining [nextByte] until the caller hangs up. *)
Fixpoint drain (fuel : nat) (s : session) : bytes :=
  match fuel with
  | O => []
  | S f => match nextByte s with (Some b, s') => b :: drain f s' | (None, _) => [] end
  end.

Lemma drain_plain f s : (length (s_in s) < f)%nat -> drain f s = plain (s_in s).
Proof.
  revert s. induction f as [|f IH]; intros s Hf; [lia|]. cbn [drain].
  pose proof (nextByte_spec s) as Hn. destruct (nextByte s) as [[b|] s']; [|by destruct Hn as [-> _]].
  destruct Hn as (-> & _ & ?). by rewrite IH by lia.
Qed.

Lemma plain_id s : Forall (λ b, b <> ESC) s -> plain s = s.
Proof.
  induction 1 as [|b s Hb _ IH]; [done|]. by rewrite plain_cons, IH.
Qed.

Lemma keep_clean b : keep b = true -> b <> ESC -> clean_byte b.
Proof.
  unfold keep, clean_byte, line_byte. intros [H|H]%orb_true_iff Hb; [|by right].
  bool_hyps. by left.
Qed.

Lemma keep_not_esc b : keep b = true -> b <> ESC.
Proof. by intros H ->. Qed.

Lemma filter_keep_Forall s : Forall (λ b, keep b = true) (List.filter keep s).
Proof. apply Forall_forall. intros b Hb. apply list_elem_of_In, filter_In in Hb. tauto. Qed.

Lemma filter_keep_id s : Forall (λ b, keep b = true) s -> List.filter keep s = s.
Proof. induction 1 as [|b s Hb _ IH]; [done|]. simpl. by rewrite Hb, IH. Qed.

(** ReadLine on a line typed without editing keys. *)
Lemma line_byte_spec b :
  line_byte b -> b <> ESC /\ is_eol b = false /\ (b =? 8) = false /\ (b =? DEL) = false /\ (b <? 32) = false.
Proof.
  unfold line_byte, is_eol, ESC, DEL. intros [??].
  rewrite orb_false_iff, !Z.eqb_neq, Z.ltb_ge. lia.
Qed.

Lemma nextByte_plain s b i :
  s_in s = b :: i -> b <> ESC -> nextByte s = (Some b, resetIdle (set_in i s)).
Proof.
  intros E Hb. unfold nextByte. rewrite E. cbn [nextByte_loop length]. rewrite E.
  by rewrite (proj2 (Z.eqb_neq b ESC)).
Qed.

Lemma line_loop_typed f echo buf l c rest s :
  s_in s = l ++ c :: rest -> (length (s_in s) < f)%nat -> is_eol c = true ->
  Forall line_byte l -> len buf + len l <= MaxLineLen ->
  exists s', line_loop f echo buf s = (Some (buf ++ l), s') /\ s_in s' = rest.
Proof.
  revert buf l s. induction f as [|f IH]; intros buf l s Hs Hf Hc Hl Hn; [lia|].
  cbn [line_loop]. rewrite Hs, length_app in Hf. simpl in Hf. destruct l as [|b l].
  - simpl in Hs. rewrite (nextByte_plain s c rest) by (done || by intros ->).
    unfold is_eol in Hc. rewrite Hc. eexists. by rewrite app_nil_r.
  - apply Forall_cons in Hl as [Hb Hl]. destruct (line_byte_spec b Hb) as (He & Ho & H8 & Hd & H32).
    rewrite (nextByte_plain s b (l ++ c :: rest)) by done.
    unfold is_eol in Ho. rewrite Ho, H8, Hd, H32. cbn [orb].
    unfold len in *. simpl in Hn, Hf.
    rewrite (proj2 (Z.ltb_lt _ _)) by lia.
    destruct (IH (buf ++ [b]) l (if echo then emit [b] (resetIdle (set_in (l ++ c :: rest) s))
                                else resetIdle (set_in (l ++ c :: rest) s))) as (s' & E & E').
    + by rewrite emit_if_in.
    + rewrite emit_if_in. simpl. rewrite length_app. simpl. lia.
    + done.
    + done.
    + rewrite length_app. simpl. lia.
    + exists s'. rewrite E. by rewrite <-app_assoc.
Qed.

(** ** Properties *)

(** [SanitizeInput] emits only printable bytes, TAB, CR and LF (no escape,
    no other control byte), is idempotent, and is what a caller gets by draining
    the session's streaming filter and dropping the other control bytes: batch
    and streaming agree on every input, unterminated sequences included. *)
Theorem SanitizeInput_clean (s : bytes) :
  Forall clean_byte (SanitizeInput s) /\
  SanitizeInput (SanitizeInput s) = SanitizeInput s /\
  SanitizeInput s =
    List.filter keep (drain (S (length s)) {| s_in := s; s_out := []; s_resets := 0 |}).
Proof.
  rewrite drain_plain by (simpl; lia). simpl. rewrite SanitizeInput_plain.
  pose proof (filter_keep_Forall (plain s)) as Hk. split_and!; [| |done].
  - eapply Forall_impl; [exact Hk|]. simpl. intros b Hb. by apply keep_clean, keep_not_esc.
  - rewrite SanitizeInput_plain, plain_id; [by apply filter_keep_id|].
    eapply Forall_impl; [exact Hk|]. apply keep_not_esc.
Qed.

(** [ReadLine] returns the caller's escape-free bytes edited up to the
    first CR or LF (backspace included, bytes past 4096 dropped) whatever the
    input; the result holds only printable bytes, at most 4096 of them, and on
    a terminal the echo it wrote shows exactly that line. *)
Theorem ReadLine_spec (s s' : session) (r : bytes)
  (Hr : ReadLine s = (Some r, s')) :
  edited [] (plain (s_in s)) = Some r /\ Forall line_byte r /\ len r <= MaxLineLen /\
  exists e, s_out s' = s_out s ++ e ++ CRLF /\ shows (term blank_line e) r.
Proof.
  unfold ReadLine in Hr. set (f := S (length (s_in s))) in *.
  assert (E : edited [] (plain (s_in s)) = Some r).
  { rewrite <-(line_loop_spec f true) by (subst f; lia). by rewrite Hr. }
  split; [done|]. destruct (edited_ok [] _ r ltac:(done) ltac:(done) E).
  split_and!; [done..|].
  destruct (line_loop_echo f [] s blank_line) as (e & He & Hm); [subst f; lia|done|].
  rewrite Hr in He, Hm. simpl in He, Hm. destruct Hm as (e' & -> & Hm). by exists e'.
Qed.

(** [ReadPassword] reads the same line as [ReadLine] but writes nothing
    back except the closing CR LF, and nothing at all if the caller hangs up. *)
Theorem ReadPassword_silent (s : session) :
  (ReadPassword s).1 = (ReadLine s).1 /\
  s_out (ReadPassword s).2 = s_out s ++ (if (ReadPassword s).1 then CRLF else []).
Proof.
  unfold ReadPassword, ReadLine. set (f := S (length (s_in s))).
  assert (Hf : (length (s_in s) < f)%nat) by (subst f; lia). split.
  - by rewrite !line_loop_spec by done.
  - pose proof (line_loop_silent f [] s Hf) as H. by destruct (line_loop f false [] s).
Qed.

(** A line that a client ends with CR LF (as telnet's NVT does) is read as
    that line followed by an empty line. *)
Theorem ReadLine_crlf_blank (s s1 : session) (l rest : bytes) (r1 : option bytes)
  (Hs : s_in s = l ++ CRLF ++ rest) (Hl : Forall line_byte l) (Hn : len l <= MaxLineLen)
  (H1 : ReadLine s = (r1, s1)) :
  r1 = Some l /\ (ReadLine s1).1 = Some [] /\ s_in (ReadLine s1).2 = rest.
Proof.
  assert (Hf : (length (s_in s) < S (length (s_in s)))%nat) by lia.
  destruct (line_loop_typed _ true [] l 13 (10 :: rest) s Hs Hf eq_refl Hl) as (s1' & E & E1);
    [unfold len in *; simpl; lia|].
  unfold ReadLine in H1. rewrite E in H1. injection H1 as <- <-.
  destruct (line_loop_typed (S (length (s_in s1'))) true [] [] 10 rest s1') as (s2 & E2 & E3);
    [done|lia|done|done|done|].
  unfold ReadLine. by rewrite E2.
Qed.

(** ** Witnesses *)

Definition caller (i : bytes) : session := {| s_in := i; s_out := []; s_resets := 0 |}.

Lemma ReadLine_spec_witness :
  exists r s', ReadLine (caller (str "ab" ++ [27; 91; 65; 8] ++ str "c" ++ [13])) = (Some r, s') /\
  len r <= MaxLineLen.
Proof.
  set (c := caller (str "ab" ++ [27; 91; 65; 8] ++ str "c" ++ [13])).
  destruct (ReadLine c) as [[r|] s'] eqn:E; [|by vm_compute in E].
  exists r, s'. split; [done|]. by destruct (ReadLine_spec c s' r E) as (_ & _ & ? & _).
Defined.

Lemma ReadLine_crlf_blank_witness :
  (ReadLine (ReadLine (caller (str "yes" ++ CRLF ++ str "no"))).2).1 = Some [].
Proof.
  set (c := caller (str "yes" ++ CRLF ++ str "no")).
  apply (ReadLine_crlf_blank c (ReadLine c).2 (str "yes") (str "no") (ReadLine c).1 eq_refl);
    [|by vm_compute|by destruct (ReadLine c)].
  repeat constructor; by vm_compute.
Defined.
