(* ===== verification/Screen.v ===== *)
(** * Rendering (src/screen/writer.go, src/screen/ansiart.go)

    The capability-aware [Writer] and the CP437 art renderer.  A [Writer] here
    carries the bytes it has handed to its [io.Writer], whose errors the package
    ignores.  [Printf] is [Print] of the text [fmt] produces. *)

From S2P Require Import Prelude GoStrings Input.

Definition Black : Z := 30.
Definition Red : Z := 31.
Definition Green : Z := 32.
Definition Yellow : Z := 33.
Definition Blue : Z := 34.
Definition Magenta : Z := 35.
Definition Cyan : Z := 36.
Definition White : Z := 37.

Record Writer := {
  out : bytes;
  ansi : bool;
  cols : Z;
  colorblind : bool
}.

(** [New]; [cb] is what the underlying writer's [Colorblind] method says, if it
    has one. *)
Definition New (a : bool) (c : Z) (cb : option bool) : Writer :=
  {| out := []; ansi := a; cols := if c <=? 0 then 80 else c; colorblind := default false cb |}.

Definition cbColor (fg : Z) : Z := if fg =? Green then Blue else fg.

Definition Cols (s : Writer) : Z := cols s.

Definition Print (text : bytes) (s : Writer) : Writer :=
  {| out := out s ++ text; ansi := ansi s; cols := cols s; colorblind := colorblind s |}.

Definition Line (text : bytes) (s : Writer) : Writer := Print (text ++ CRLF) s.

(** A CSI sequence of the given parameters and final byte. *)
Definition csi (p : bytes) (fin : Z) : bytes := ESC :: 91 :: p ++ [fin].

Definition Color (fg : Z) (s : Writer) : Writer :=
  if ansi s then Print (csi (Itoa (if colorblind s then cbColor fg else fg)) 109) s else s.

Definition Bold (s : Writer) : Writer := if ansi s then Print (csi [49] 109) s else s.
Definition Reset (s : Writer) : Writer := if ansi s then Print (csi [48] 109) s else s.

Definition Clear (s : Writer) : Writer :=
  if ansi s then Print (csi [50] 74 ++ csi [] 72) s else Print (CRLF ++ CRLF) s.

Definition ColorLine (fg : Z) (text : bytes) (s : Writer) : Writer :=
  Print CRLF (Reset (Print text (Color fg s))).

(** The loop of [SanitizeForDisplay]; [fuel] bounds its iterations. *)
Fixpoint display (fuel : nat) (s : bytes) : bytes :=
  match fuel with
  | O => []
  | S f =>
      match s with
      | [] => []
      | b :: s' =>
          if b =? 27 then
            match s' with
            | c :: s2 => if c =? 91 then display f (skip_csi s2) else display f s2
            | [] => []
            end
          else if (b =? 9) || (b =? 13) || (b =? 10) || (b =? 32) then b :: display f s'
          else if (b <? 32) || (b =? 127) then display f s'
          else b :: display f s'
      end
  end.

Definition SanitizeForDisplay (text : bytes) : bytes := display (S (length text)) text.

Definition SafePrint (text : bytes) (s : Writer) : Writer := Print (SanitizeForDisplay text) s.

(** ** Art *)

(** The loop of [stripANSI]. *)
Fixpoint strip_loop (fuel : nat) (s : bytes) : bytes :=
  match fuel with
  | O => []
  | S f =>
      match s with
      | [] => []
      | b :: s' =>
          if b =? 27 then
            match s' with
            | c :: s2 => if c =? 91 then strip_loop f (skip_csi s2) else strip_loop f s2
            | [] => []
            end
          else b :: strip_loop f s'
      end
  end.

Definition stripANSI (art : bytes) : bytes := strip_loop (S (length art)) art.

Definition vertical : list Z :=
  [179; 186; 180; 181; 182; 185; 195; 198; 199; 204; 208; 210; 213; 216].
Definition horizontal : list Z := [196; 205; 193; 194; 202; 203; 209; 207].
Definition corner : list Z :=
  [218; 191; 192; 217; 201; 187; 200; 188; 197; 206; 214; 183; 211; 189].
Definition shade : list Z := [176; 177; 178; 219; 220; 221; 222; 223].

Definition one_of (b : Z) (l : list Z) : bool := existsb (Z.eqb b) l.

Definition foldHigh (b : Z) : Z :=
  if one_of b vertical then 124
  else if one_of b horizontal then 45
  else if one_of b corner then 43
  else if one_of b shade then 35
  else 63.

Fixpoint degradeCP437 (s : bytes) : bytes :=
  match s with
  | [] => []
  | b :: s' =>
      if (b =? 13) || (b =? 10) || (b =? 9) then b :: degradeCP437 s'
      else if b =? 26 then []
      else if (b <? 32) || (b =? 127) then degradeCP437 s'
      else if b <? 128 then b :: degradeCP437 s'
      else foldHigh b :: degradeCP437 s'
  end.

Definition RenderArt (art : bytes) (s : Writer) : Writer :=
  if ansi s then Print art s else Print (degradeCP437 (stripANSI art)) s.

Definition isBlank (art : bytes) : bool := len (TrimSpace art) =? 0.

(** ** Specification: scripts of calls *)

(** One call of the package's API by a screen. *)
Inductive call :=
  | CPrint (text : bytes)
  | CLine (text : bytes)
  | CColor (fg : Z)
  | CBold
  | CReset
  | CColorLine (fg : Z) (text : bytes)
  | CSafe (text : bytes).

Definition run1 (s : Writer) (c : call) : Writer :=
  match c with
  | CPrint t => Print t s
  | CLine t => Line t s
  | CColor fg => Color fg s
  | CBold => Bold s
  | CReset => Reset s
  | CColorLine fg t => ColorLine fg t s
  | CSafe t => SafePrint t s
  end.

Definition run (cs : list call) (s : Writer) : Writer := fold_left run1 cs s.

(** The text a call asks for, colours aside. *)
Definition call_text (c : call) : bytes :=
  match c with
  | CPrint t => t
  | CLine t => t ++ CRLF
  | CColor _ | CBold | CReset => []
  | CColorLine _ t => t ++ CRLF
  | CSafe t => SanitizeInput t
  end.

(** The program's own text (not [SafePrint]'s) carries no escape. *)
Definition own_text_ok (c : call) : Prop :=
  match c with
  | CPrint t | CLine t | CColorLine _ t => Forall (λ b, b <> ESC) t
  | _ => True
  end.

(** A byte a plain ASCII terminal shows or moves by. *)
Definition ascii_text (b : Z) : Prop := 32 <= b < 127 \/ b = 9 \/ b = 10 \/ b = 13.

(** ** Lemmas *)

Lemma display_sanitize f s : display f s = sanitize f s.
Proof.
  revert s. induction f as [|f IH]; intros [|b s]; [done..|]. cbn [display sanitize].
  unfold ESC, DEL, allowedControl. rewrite !IH.
  destruct (Z.eqb_spec b 27); [destruct s; [done|]; by rewrite !IH|].
  destruct (Z.eqb_spec b 9) as [->|]; [done|]. destruct (Z.eqb_spec b 13) as [->|]; [done|].
  destruct (Z.eqb_spec b 10) as [->|]; [done|]. destruct (Z.eqb_spec b 32) as [->|]; [done|].
  simpl. by destruct ((b <? 32) || (b =? 127)).
Qed.

Lemma strip_loop_strip f s : strip_loop f s = strip f s.
Proof.
  revert s. induction f as [|f IH]; intros [|b s]; [done..|]. cbn [strip_loop strip].
  unfold ESC. rewrite !IH. destruct (b =? 27); [|done].
  destruct s as [|c s]; [done|]. rewrite !IH. by destruct (c =? 91).
Qed.

Lemma stripANSI_plain s : stripANSI s = plain s.
Proof. apply strip_loop_strip. Qed.

Lemma plain_app a b : Forall (λ x, x <> ESC) a -> plain (a ++ b) = a ++ plain b.
Proof. induction 1 as [|x a Hx _ IH]; [done|]. simpl. by rewrite plain_cons, IH. Qed.

Lemma skip_csi_csi p fin rest :
  Forall (λ b, csi_final b = false) p -> csi_final fin = true ->
  skip_csi (p ++ fin :: rest) = rest.
Proof. intros Hp Hf. induction Hp as [|b p Hb _ IH]; simpl; [by rewrite Hf|]. by rewrite Hb. Qed.

Lemma plain_csi p fin rest :
  Forall (λ b, csi_final b = false) p -> csi_final fin = true ->
  plain (csi p fin ++ rest) = plain rest.
Proof.
  intros Hp Hf. unfold csi. simpl. rewrite plain_esc, Z.eqb_refl, <-app_assoc. simpl.
  by rewrite skip_csi_csi.
Qed.

Lemma Itoa_params n : Forall (λ b, csi_final b = false) (Itoa n).
Proof.
  assert (H : Forall (λ b, csi_final b = false) (dec (Z.abs n))).
  { unfold dec. apply (Forall_impl (λ b, 48 <= b <= 57)).
    - apply dec_digits_digits; [lia|constructor].
    - intros b Hb. unfold csi_final. rewrite andb_false_iff, Z.leb_gt. lia. }
  unfold Itoa. destruct (Z.ltb_spec n 0).
  - constructor; [done|]. by rewrite Z.abs_neq in H by lia.
  - by rewrite Z.abs_eq in H by lia.
Qed.

Lemma out_Print t s : out (Print t s) = out s ++ t.
Proof. done. Qed.

Lemma SafePrint_text t s : out (SafePrint t s) = out s ++ SanitizeInput t.
Proof. unfold SafePrint, SanitizeForDisplay. by rewrite display_sanitize. Qed.

Lemma call_text_no_esc c : own_text_ok c -> Forall (λ b, b <> ESC) (call_text c).
Proof.
  assert (Hc : Forall (λ b, b <> ESC) CRLF) by by repeat constructor.
  destruct c; simpl; intros H; try done; try (apply Forall_app; by split).
  rewrite SanitizeInput_plain. eapply Forall_impl; [apply filter_keep_Forall|]. apply keep_not_esc.
Qed.

Lemma run1_flags s c : ansi (run1 s c) = ansi s /\ colorblind (run1 s c) = colorblind s.
Proof.
  destruct c; simpl; try done; unfold ColorLine, Color, Bold, Reset; simpl;
    destruct (ansi s) eqn:E; simpl; rewrite ?E; done.
Qed.

(** What a call adds, with its escapes removed, is its text. *)
Lemma run1_out s c :
  own_text_ok c ->
  exists e, out (run1 s c) = out s ++ e /\ (forall rest, plain (e ++ rest) = call_text c ++ plain rest) /\
            (ansi s = false -> e = call_text c).
Proof.
  intros Hc. assert (Ht := call_text_no_esc c Hc).
  assert (text : forall t, Forall (λ b, b <> ESC) t -> forall rest, plain (t ++ rest) = t ++ plain rest)
    by (intros; by apply plain_app).
  destruct c; simpl in *.
  - eexists. split_and!; [done|by apply text|done].
  - eexists. split_and!; [done|by apply text|done].
  - unfold Color. destruct (ansi s); [|exists []; by rewrite app_nil_r].
    eexists. split_and!; [done| |done]. intros. by rewrite plain_csi by (done || apply Itoa_params).
  - unfold Bold. destruct (ansi s); [|exists []; by rewrite app_nil_r].
    eexists. split_and!; [done| |done]. intros. by rewrite plain_csi by (done || by repeat constructor).
  - unfold Reset. destruct (ansi s); [|exists []; by rewrite app_nil_r].
    eexists. split_and!; [done| |done]. intros. by rewrite plain_csi by (done || by repeat constructor).
  - unfold ColorLine, Color, Reset. destruct (ansi s) eqn:E; simpl; rewrite ?E; simpl.
    + exists (csi (Itoa (if colorblind s then cbColor fg else fg)) 109 ++ text0 ++ csi [48] 109 ++ CRLF).
      split_and!; [by rewrite <-!app_assoc| |done]. intros rest. rewrite <-!app_assoc.
      rewrite plain_csi by (done || apply Itoa_params). rewrite plain_app by done.
      by rewrite (plain_csi [48]) by (done || by repeat constructor).
    + eexists. rewrite <-app_assoc. split_and!; [done|by apply text|done].
  - eexists. split_and!; [apply SafePrint_text|by apply text|done].
Qed.

Lemma run_out cs s :
  Forall own_text_ok cs ->
  exists e, out (run cs s) = out s ++ e /\
            (forall rest, plain (e ++ rest) = concat (call_text <$> cs) ++ plain rest) /\
            (ansi s = false -> e = concat (call_text <$> cs)).
Proof.
  intros H. revert s. induction H as [|c cs Hc _ IH]; intros s; simpl.
  { exists []. by rewrite app_nil_r. }
  destruct (run1_out s c Hc) as (e1 & E1 & P1 & B1). destruct (IH (run1 s c)) as (e2 & E2 & P2 & B2).
  exists (e1 ++ e2). rewrite E2, E1, <-app_assoc. split_and!; [done| |].
  - intros rest. by rewrite <-!app_assoc, P1, P2.
  - intros Hs. by rewrite (B1 Hs), B2 by (by rewrite (proj1 (run1_flags s c))).
Qed.

Lemma foldHigh_ascii b : 32 <= foldHigh b < 127.
Proof. unfold foldHigh. repeat go_case; lia. Qed.

Lemma degrade_ascii s : Forall ascii_text (degradeCP437 s).
Proof.
  induction s as [|b s IH]; simpl; [done|]. repeat go_case; [..|constructor; [left; apply foldHigh_ascii|done]]; try done.
  - constructor; [|done]. unfold ascii_text. rewrite !orb_true_iff, !Z.eqb_eq in Heqb0. lia.
  - constructor; [|done]. bool_hyps. left. lia.
Qed.

Lemma degrade_id s : Forall ascii_text s -> degradeCP437 s = s.
Proof.
  induction 1 as [|b s Hb _ IH]; [done|]. simpl. unfold ascii_text in Hb.
  destruct ((b =? 13) || (b =? 10) || (b =? 9)) eqn:E1; [by rewrite IH|]. bool_hyps.
  destruct (Z.eqb_spec b 26); [lia|]. destruct (Z.ltb_spec b 32); [lia|].
  destruct (Z.eqb_spec b 127); [lia|]. destruct (Z.ltb_spec b 128); [|lia]. simpl. by rewrite IH.
Qed.

Lemma ascii_text_not_esc b : ascii_text b -> b <> ESC.
Proof. unfold ascii_text, ESC. lia. Qed.

(** ** Properties *)

(** One render path: on any script of calls whose own text has no escape
    (callers' text goes through [SafePrint]), a black-and-white terminal gets
    exactly the scripts' texts and not one escape byte, and an ANSI terminal
    gets bytes from which dropping the escape sequences leaves the same text. *)
Theorem render_one_path (cs : list call) (c : Z) (cb : option bool)
  (Hcs : Forall own_text_ok cs) :
  out (run cs (New false c cb)) = concat (call_text <$> cs) /\
  Forall (λ b, b <> ESC) (out (run cs (New false c cb))) /\
  stripANSI (out (run cs (New true c cb))) = out (run cs (New false c cb)).
Proof.
  destruct (run_out cs (New false c cb) Hcs) as (e1 & E1 & _ & B1).
  destruct (run_out cs (New true c cb) Hcs) as (e2 & E2 & P2 & _).
  rewrite E1, E2, (B1 eq_refl). simpl. split_and!; [done| |].
  - clear -Hcs. induction Hcs as [|x cs Hx _ IH]; simpl; [done|].
    apply Forall_app. split; [by apply call_text_no_esc|done].
  - by rewrite stripANSI_plain, <-(app_nil_r e2), P2, app_nil_r.
Qed.

(** Another caller's text reaches a screen only through [SafePrint], which
    writes printable bytes, TAB, CR and LF; [SanitizeForDisplay] and the input
    boundary's [SanitizeInput], written separately, are the same function. *)
Theorem SafePrint_clean (t : bytes) (s : Writer) :
  out (SafePrint t s) = out s ++ SanitizeForDisplay t /\
  Forall clean_byte (SanitizeForDisplay t) /\ SanitizeForDisplay t = SanitizeInput t.
Proof.
  assert (E : SanitizeForDisplay t = SanitizeInput t) by apply display_sanitize.
  split_and!; [done| |done]. rewrite E, SanitizeInput_plain.
  eapply Forall_impl; [apply filter_keep_Forall|]. intros b Hb. by apply keep_clean, keep_not_esc.
Qed.

(** Art on a black-and-white terminal is ASCII text whatever the file
    holds, text art passes unchanged, and degrading is idempotent; on an ANSI
    terminal the bytes are sent verbatim. *)
Theorem RenderArt_spec (art : bytes) (s : Writer) :
  exists e, out (RenderArt art s) = out s ++ e /\
  (ansi s = true -> e = art) /\
  (ansi s = false -> Forall ascii_text e /\ degradeCP437 (stripANSI e) = e /\
                     (Forall ascii_text art -> e = art)).
Proof.
  assert (id : forall x, Forall ascii_text x -> degradeCP437 (stripANSI x) = x).
  { intros x Hx. rewrite stripANSI_plain, plain_id; [by apply degrade_id|].
    eapply Forall_impl; [exact Hx|apply ascii_text_not_esc]. }
  unfold RenderArt. destruct (ansi s); [by exists art|].
  exists (degradeCP437 (stripANSI art)). split_and!; [done|done|]. intros _.
  split_and!; [apply degrade_ascii|apply id, degrade_ascii|apply id].
Qed.

(** ** Witnesses *)

Lemma render_one_path_witness :
  stripANSI (out (run [CColorLine Green (str "ok"); CSafe [27; 91; 50; 74; 104; 105]] (New true 80 None)))
  = str "ok" ++ CRLF ++ str "hi".
Proof.
  destruct (render_one_path [CColorLine Green (str "ok"); CSafe [27; 91; 50; 74; 104; 105]] 80 None)
    as (E1 & _ & E2).
  - repeat constructor; by vm_compute.
  - rewrite E2, E1. by vm_compute.
Defined.
