(* ===== verification/Terminal.v ===== *)
(** * Terminal detection (src/session/terminal.go)

    From the negotiated terminal type and window to what the screen code may
    emit. *)

From S2P Require Import Prelude GoStrings Telnet.

Record Capability := { ANSI : bool; CP437 : bool; Cols : Z; Rows : Z }.

Definition ansiTermHints : list bytes :=
  str <$> ["ansi"; "xterm"; "vt100"; "vt102"; "screen"; "tmux";
           "syncterm"; "netrunner"; "cygwin"; "linux"; "putty"; "rxvt"]%string.

Definition plainTermHints : list bytes :=
  str <$> ["dumb"; "vt52"; "mono"; "net"; "unknown"]%string.

(** [strings.ToLower] as far as an ASCII hint can see: ASCII letters, and the
    two other runes whose lower case is ASCII, U+0130 and the Kelvin sign; the
    rest map to runes no hint contains and keep their bytes here. *)
Fixpoint ToLower (s : bytes) : bytes :=
  match s with
  | [] => []
  | a :: s1 =>
      match s1 with
      | b :: s2 =>
          if (a =? 196) && (b =? 176) then 105 :: ToLower s2
          else match s2 with
               | c :: s3 =>
                   if (a =? 226) && (b =? 132) && (c =? 170) then 107 :: ToLower s3
                   else lower_byte a :: ToLower s1
               | [] => lower_byte a :: ToLower s1
               end
      | [] => [lower_byte a]
      end
  end.

Definition containsAny (s : bytes) (subs : list bytes) : bool := existsb (Contains s) subs.

Definition DetectCapability (termType : bytes) (ws : WindowSize) : Capability :=
  let cols := if Telnet.Cols ws <=? 0 then 80 else Telnet.Cols ws in
  let cap (b : bool) := {| ANSI := b; CP437 := b; Cols := cols; Rows := Telnet.Rows ws |} in
  let t := ToLower (TrimSpace termType) in
  if beq t [] then cap true
  else if containsAny t plainTermHints then cap false
  else if containsAny t ansiTermHints then cap true
  else cap false.

(** [trackResizes] on one announced window. *)
Definition trackResize (ws : WindowSize) (c : Capability) : Capability :=
  {| ANSI := ANSI c; CP437 := CP437 c;
     Cols := if 0 <? Telnet.Cols ws then Telnet.Cols ws else Cols c;
     Rows := Telnet.Rows ws |}.

Lemma HasPrefix_app s p t : HasPrefix s (p ++ t) = true -> HasPrefix s p = true.
Proof. rewrite !HasPrefix_true. intros [u ->]. exists (t ++ u). by rewrite app_assoc. Qed.

Lemma Contains_prefix s p t : Contains s (p ++ t) = true -> Contains s p = true.
Proof.
  induction s as [|b s IH]; cbn [Contains]; intros [H|H]%orb_true_iff.
  - by rewrite (HasPrefix_app _ _ _ H).
  - done.
  - by rewrite (HasPrefix_app _ _ _ H).
  - by rewrite IH, orb_true_r.
Qed.

(** Whatever the client negotiates, the width used for layout is positive
    and stays so across every later resize; colour is used exactly when no type
    was given, or the type has an ANSI hint and no plain hint, and CP437 goes
    with it. *)
Theorem DetectCapability_spec (t : bytes) (ws : WindowSize) (resizes : list WindowSize) :
  let c := DetectCapability t ws in
  0 < Cols (foldr trackResize c resizes) /\ CP437 c = ANSI c /\
  (ANSI c = true <->
   ToLower (TrimSpace t) = [] \/
   (containsAny (ToLower (TrimSpace t)) ansiTermHints = true /\
    containsAny (ToLower (TrimSpace t)) plainTermHints = false)).
Proof.
  cbn zeta. assert (Hc : 0 < Cols (DetectCapability t ws)).
  { unfold DetectCapability. repeat go_case; simpl; bool_hyps; try lia;
      destruct (Z.leb_spec (Telnet.Cols ws) 0); lia. }
  split_and!.
  - induction resizes as [|w l IH]; simpl; [done|]. destruct (Z.ltb_spec 0 (Telnet.Cols w)); lia.
  - unfold DetectCapability. by repeat go_case.
  - unfold DetectCapability. destruct (beq _ []) eqn:E; [apply beq_true in E; by split; [left|]|].
    apply beq_false in E.
    destruct (containsAny _ plainTermHints), (containsAny _ ansiTermHints); simpl; naive_solver.
Qed.

(** A NetRunner client, named among the ANSI terminals, is rendered in
    black and white: every type that contains its hint also contains the plain
    hint "net", which is tried first. *)
Theorem netrunner_is_plain (t : bytes) (ws : WindowSize)
  (Ht : Contains (ToLower (TrimSpace t)) (str "netrunner") = true) :
  ANSI (DetectCapability t ws) = false.
Proof.
  unfold DetectCapability. destruct (beq _ []) eqn:E; [apply beq_true in E; by rewrite E in Ht|].
  assert (Hn : containsAny (ToLower (TrimSpace t)) plainTermHints = true); [|by rewrite Hn].
  unfold containsAny. apply existsb_exists. exists (str "net").
  split; [by vm_compute; auto|]. by apply (Contains_prefix _ _ (str "runner")).
Qed.

Lemma netrunner_is_plain_witness :
  ANSI (DetectCapability (str "NetRunner") {| Telnet.Cols := 80; Telnet.Rows := 25 |}) = false.
Proof. apply netrunner_is_plain. by vm_compute. Defined.
