(* ===== verification/Base64.v ===== *)
(** * Go's encoding/base64

    The three encodings the program uses: [RawStdEncoding] and
    [RawURLEncoding] (no padding) and [StdEncoding] (padded).  Decoding follows
    the package: CR and LF are skipped anywhere, the unused low bits of the last
    character are ignored, any other foreign byte is an error. *)

From S2P Require Import Prelude.

(** The character of a six-bit value and back; [u]: the URL alphabet. *)
Definition enc6 (u : bool) (x : Z) : Z :=
  if x <? 26 then 65 + x
  else if x <? 52 then 71 + x
  else if x <? 62 then x - 4
  else if x =? 62 then (if u then 45 else 43)
  else (if u then 95 else 47).

Definition dec6 (u : bool) (c : Z) : option Z :=
  if (65 <=? c) && (c <=? 90) then Some (c - 65)
  else if (97 <=? c) && (c <=? 122) then Some (c - 71)
  else if (48 <=? c) && (c <=? 57) then Some (c + 4)
  else if c =? (if u then 45 else 43) then Some 62
  else if c =? (if u then 95 else 47) then Some 63
  else None.

Fixpoint encode_raw (u : bool) (b : bytes) : bytes :=
  match b with
  | x :: y :: z :: b' =>
      let v := 65536 * x + 256 * y + z in
      enc6 u (v / 262144) :: enc6 u (v / 4096 mod 64) :: enc6 u (v / 64 mod 64) ::
      enc6 u (v mod 64) :: encode_raw u b'
  | [x; y] =>
      let v := 65536 * x + 256 * y in
      [enc6 u (v / 262144); enc6 u (v / 4096 mod 64); enc6 u (v / 64 mod 64)]
  | [x] =>
      let v := 65536 * x in [enc6 u (v / 262144); enc6 u (v / 4096 mod 64)]
  | [] => []
  end.

(** Text without CR and LF, in groups of four. *)
Fixpoint decode_quads (u : bool) (s : bytes) : option bytes :=
  match s with
  | [] => Some []
  | a :: b :: c :: d :: s' =>
      match dec6 u a, dec6 u b, dec6 u c, dec6 u d, decode_quads u s' with
      | Some a, Some b, Some c, Some d, Some r =>
          let v := 262144 * a + 4096 * b + 64 * c + d in
          Some (v / 65536 :: v / 256 mod 256 :: v mod 256 :: r)
      | _, _, _, _, _ => None
      end
  | [a; b; c] =>
      match dec6 u a, dec6 u b, dec6 u c with
      | Some a, Some b, Some c =>
          let v := 262144 * a + 4096 * b + 64 * c in Some [v / 65536; v / 256 mod 256]
      | _, _, _ => None
      end
  | [a; b] =>
      match dec6 u a, dec6 u b with
      | Some a, Some b => let v := 262144 * a + 4096 * b in Some [v / 65536]
      | _, _ => None
      end
  | [_] => None
  end.

Definition drop_crlf (s : bytes) : bytes := List.filter (λ c, negb ((c =? 13) || (c =? 10))) s.

Definition RawStdEncode : bytes -> bytes := encode_raw false.
Definition RawURLEncode : bytes -> bytes := encode_raw true.
Definition RawStdDecode (s : bytes) : option bytes := decode_quads false (drop_crlf s).
Definition RawURLDecode (s : bytes) : option bytes := decode_quads true (drop_crlf s).

(** [StdEncoding]: the last group is filled up with one or two '='. *)
Fixpoint decode_padded (s : bytes) : option bytes :=
  match s with
  | [] => Some []
  | a :: b :: c :: d :: s' =>
      if (d =? 61) && bool_decide (s' = []) then
        if c =? 61 then decode_quads false [a; b] else decode_quads false [a; b; c]
      else match decode_quads false [a; b; c; d], decode_padded s' with
           | Some x, Some y => Some (x ++ y)
           | _, _ => None
           end
  | _ => None
  end.

Definition StdDecode (s : bytes) : option bytes := decode_padded (drop_crlf s).

(** A character of one of the alphabets. *)
Definition b64_char (u : bool) (c : Z) : Prop := dec6 u c <> None.

(** ** Lemmas *)

Lemma dec6_enc6 u x : 0 <= x < 64 -> dec6 u (enc6 u x) = Some x.
Proof.
  intros Hx. assert (H : all_range 64 (λ x, bool_decide (dec6 u (enc6 u x) = Some x)) = true)
    by by destruct u; vm_compute.
  apply (all_range_spec _ _ H) in Hx. by apply bool_decide_eq_true in Hx.
Qed.

Lemma enc6_char u x : 0 <= x < 64 -> b64_char u (enc6 u x).
Proof. intros Hx. unfold b64_char. by rewrite dec6_enc6. Qed.

(** Induction by groups of three. *)
Lemma list_ind3 {A} (P : list A -> Prop) :
  P [] -> (forall x, P [x]) -> (forall x y, P [x; y]) ->
  (forall x y z l, P l -> P (x :: y :: z :: l)) -> forall l, P l.
Proof.
  intros H0 H1 H2 H3. fix IH 1. intros [|x [|y [|z l]]]; [done|done|done|].
  apply H3, IH.
Qed.

Lemma encode_chars u b : bytes_ok b -> Forall (b64_char u) (encode_raw u b).
Proof.
  induction b as [|x|x y|x y z b IH] using list_ind3; intros Hb; repeat (apply Forall_cons in Hb as [? Hb]);
    unfold byte_ok in *; cbn [encode_raw]; cbv zeta; [done|..];
    repeat constructor; try (apply enc6_char; zdiv). by apply IH.
Qed.

Lemma decode_encode u b : bytes_ok b -> decode_quads u (encode_raw u b) = Some b.
Proof.
  induction b as [|x|x y|x y z b IH] using list_ind3; intros Hb; repeat (apply Forall_cons in Hb as [? Hb]);
    unfold byte_ok in *; cbn [encode_raw decode_quads]; cbv zeta; [done|..].
  - rewrite !dec6_enc6 by zdiv. repeat f_equal. zdiv.
  - rewrite !dec6_enc6 by zdiv. repeat f_equal; zdiv.
  - rewrite !dec6_enc6, IH by (done || zdiv). repeat f_equal; zdiv.
Qed.

Lemma b64_char_bounds u c : b64_char u c -> 43 <= c <= 122 /\ c <> 46 /\ c <> 36.
Proof.
  unfold b64_char, dec6. destruct u; repeat go_case; intros H; try done; bool_hyps; lia.
Qed.

Lemma drop_crlf_id u s : Forall (b64_char u) s -> drop_crlf s = s.
Proof.
  induction 1 as [|c s Hc _ IH]; [done|]. apply b64_char_bounds in Hc. cbn.
  destruct (Z.eqb_spec c 13); [lia|]. destruct (Z.eqb_spec c 10); [lia|]. simpl. by f_equal.
Qed.

Lemma RawStd_roundtrip b : bytes_ok b -> RawStdDecode (RawStdEncode b) = Some b.
Proof.
  intros Hb. unfold RawStdDecode, RawStdEncode.
  rewrite (drop_crlf_id false) by by apply encode_chars. by apply decode_encode.
Qed.

Lemma RawURL_roundtrip b : bytes_ok b -> RawURLDecode (RawURLEncode b) = Some b.
Proof.
  intros Hb. unfold RawURLDecode, RawURLEncode.
  rewrite (drop_crlf_id true) by by apply encode_chars. by apply decode_encode.
Qed.

Lemma encode_raw_nil u b : encode_raw u b = [] -> b = [].
Proof. by destruct b as [|x [|y [|z b]]]. Qed.

Lemma RawStdEncode_inj a b : bytes_ok a -> bytes_ok b -> RawStdEncode a = RawStdEncode b -> a = b.
Proof. intros Ha Hb E. apply (f_equal RawStdDecode) in E. rewrite !RawStd_roundtrip in E by done. congruence. Qed.

Lemma RawURLEncode_inj a b : bytes_ok a -> bytes_ok b -> RawURLEncode a = RawURLEncode b -> a = b.
Proof. intros Ha Hb E. apply (f_equal RawURLDecode) in E. rewrite !RawURL_roundtrip in E by done. congruence. Qed.

Lemma dec6_range u c x : dec6 u c = Some x -> 0 <= x < 64.
Proof. unfold dec6. repeat go_case; intros [= <-]; bool_hyps; lia. Qed.

(** Decoding yields bytes. *)
Lemma decode_quads_ok u n s b : (length s < n)%nat -> decode_quads u s = Some b -> bytes_ok b.
Proof.
  revert s b. induction n as [|n IH]; intros s b Hn; [lia|].
  destruct s as [|x [|y [|z [|w s]]]]; cbn [decode_quads]; [by intros [= <-]|done|..].
  - destruct (dec6 u x) eqn:E1, (dec6 u y) eqn:E2; try done. apply dec6_range in E1, E2.
    cbv zeta. intros [= <-]. repeat constructor; zdiv.
  - destruct (dec6 u x) eqn:E1, (dec6 u y) eqn:E2, (dec6 u z) eqn:E3; try done.
    apply dec6_range in E1, E2, E3. cbv zeta. intros [= <-]. repeat constructor; zdiv.
  - destruct (dec6 u x) eqn:E1, (dec6 u y) eqn:E2, (dec6 u z) eqn:E3, (dec6 u w) eqn:E4; try done.
    apply dec6_range in E1, E2, E3, E4. destruct (decode_quads u s) as [r|] eqn:Er; [|done].
    apply IH in Er; [|simpl in Hn; lia]. cbv zeta. intros [= <-]. repeat constructor; zdiv || done.
Qed.

Lemma RawURLDecode_ok s b : RawURLDecode s = Some b -> bytes_ok b.
Proof. apply (decode_quads_ok _ (S (length (drop_crlf s)))). lia. Qed.

Lemma RawStdDecode_ok s b : RawStdDecode s = Some b -> bytes_ok b.
Proof. apply (decode_quads_ok _ (S (length (drop_crlf s)))). lia. Qed.

Example RawStdEncode_ex : RawStdEncode (str "light work") = str "bGlnaHQgd29yaw".
Proof. by vm_compute. Qed.
Example StdDecode_ex : StdDecode (str "bGlnaHQgd29yaw==") = Some (str "light work").
Proof. by vm_compute. Qed.
