(* ===== verification/Sha256.v ===== *)
(** * SHA-256 and HMAC-SHA256 (FIPS 180-4, RFC 2104)

    Go's crypto/sha256 and crypto/hmac on byte strings. *)

From S2P Require Import Prelude.

Definition rotr (n x : Z) : Z := Z.lor (Z.shiftr x n) (u32 (Z.shiftl x (32 - n))).
Definition add32 (x y : Z) : Z := u32 (x + y).

Definition bsig0 (x : Z) : Z := Z.lxor (rotr 2 x) (Z.lxor (rotr 13 x) (rotr 22 x)).
Definition bsig1 (x : Z) : Z := Z.lxor (rotr 6 x) (Z.lxor (rotr 11 x) (rotr 25 x)).
Definition ssig0 (x : Z) : Z := Z.lxor (rotr 7 x) (Z.lxor (rotr 18 x) (Z.shiftr x 3)).
Definition ssig1 (x : Z) : Z := Z.lxor (rotr 17 x) (Z.lxor (rotr 19 x) (Z.shiftr x 10)).
Definition ch (x y z : Z) : Z := Z.lxor (Z.land x y) (Z.land (Z.lxor x 4294967295) z).
Definition maj (x y z : Z) : Z := Z.lxor (Z.land x y) (Z.lxor (Z.land x z) (Z.land y z)).

Definition K256 : list Z :=
  [1116352408; 1899447441; 3049323471; 3921009573; 961987163; 1508970993; 2453635748; 2870763221;
   3624381080; 310598401; 607225278; 1426881987; 1925078388; 2162078206; 2614888103; 3248222580;
   3835390401; 4022224774; 264347078; 604807628; 770255983; 1249150122; 1555081692; 1996064986;
   2554220882; 2821834349; 2952996808; 3210313671; 3336571891; 3584528711; 113926993; 338241895;
   666307205; 773529912; 1294757372; 1396182291; 1695183700; 1986661051; 2177026350; 2456956037;
   2730485921; 2820302411; 3259730800; 3345764771; 3516065817; 3600352804; 4094571909; 275423344;
   430227734; 506948616; 659060556; 883997877; 958139571; 1322822218; 1537002063; 1747873779;
   1955562222; 2024104815; 2227730452; 2361852424; 2428436474; 2756734187; 3204031479; 3329325298].

Definition H256 : list Z :=
  [1779033703; 3144134277; 1013904242; 2773480762; 1359893119; 2600822924; 528734635; 1541459225].

(** Sixteen big-endian words of a block. *)
Fixpoint words (b : bytes) : list Z :=
  match b with
  | x :: y :: z :: w :: b' => (16777216 * x + 65536 * y + 256 * z + w) :: words b'
  | _ => []
  end.

(** The message schedule, latest word first. *)
Fixpoint schedule (n : nat) (w : list Z) : list Z :=
  match n with
  | O => w
  | S n' =>
      let t := add32 (add32 (ssig1 (nth 1 w 0)) (nth 6 w 0)) (add32 (ssig0 (nth 14 w 0)) (nth 15 w 0)) in
      schedule n' (t :: w)
  end.

Definition round (st : list Z) (kw : Z * Z) : list Z :=
  match st with
  | [a; b; c; d; e; f; g; h] =>
      let t1 := add32 (add32 h (bsig1 e)) (add32 (ch e f g) (add32 kw.1 kw.2)) in
      let t2 := add32 (bsig0 a) (maj a b c) in
      [add32 t1 t2; a; b; c; add32 d t1; e; f; g]
  | _ => st
  end.

Definition compress (h : list Z) (block : bytes) : list Z :=
  let w := reverse (schedule 48 (reverse (words block))) in
  zip_with add32 h (foldl round h (zip K256 w)).

Definition be (n : nat) (x : Z) : bytes :=
  (λ i, x / 256 ^ Z.of_nat i mod 256) <$> reverse (seq 0 n).

Definition pad (m : bytes) : bytes :=
  m ++ [128] ++ replicate (Z.to_nat ((55 - len m) mod 64)) 0 ++ be 8 (8 * len m).

Fixpoint blocks (fuel : nat) (h : list Z) (m : bytes) : list Z :=
  match fuel with
  | O => h
  | S f => match m with [] => h | _ => blocks f (compress h (take 64 m)) (drop 64 m) end
  end.

Definition Sum256 (m : bytes) : bytes :=
  blocks (S (length m)) H256 (pad m) ≫= be 4.

(** Keys longer than a block are hashed first. *)
Definition hmac_key (k : bytes) : bytes :=
  let k' := if 64 <? len k then Sum256 k else k in k' ++ replicate (64 - length k') 0.

Definition HMAC (k m : bytes) : bytes :=
  Sum256 ((Z.lxor 92 <$> hmac_key k) ++ Sum256 ((Z.lxor 54 <$> hmac_key k) ++ m)).

(** Test vectors: FIPS 180 "abc", the empty string, RFC 4231 case 2. *)
Example Sum256_abc :
  take 8 (Sum256 (str "abc")) = [186; 120; 22; 191; 143; 1; 207; 234].
Proof. by vm_compute. Qed.
Example Sum256_empty :
  drop 24 (Sum256 []) = [164; 149; 153; 27; 120; 82; 184; 85].
Proof. by vm_compute. Qed.
Example HMAC_rfc4231_2 :
  take 8 (HMAC (str "Jefe") (str "what do ya want for nothing?")) = [91; 220; 193; 70; 191; 96; 117; 78].
Proof. by vm_compute. Qed.

(** ** Shape of a digest *)

Lemma length_be n x : length (be n x) = n.
Proof. unfold be. by rewrite length_fmap, length_reverse, length_seq. Qed.

Lemma be_ok n x : bytes_ok (be n x).
Proof.
  unfold be. apply Forall_fmap, Forall_forall. intros i _. unfold byte_ok. simpl.
  apply Z.mod_pos_bound. lia.
Qed.

Lemma length_round st kw : length (round st kw) = length st.
Proof. unfold round. by repeat (destruct st as [|? st]; try done). Qed.

Lemma length_compress h b : length (compress h b) = length h.
Proof.
  unfold compress. rewrite length_zip_with.
  assert (H : forall l st, length (foldl round st l) = length st).
  { induction l as [|x l IH]; intros st; [done|]. simpl. by rewrite IH, length_round. }
  rewrite H. lia.
Qed.

Lemma length_blocks f h m : length (blocks f h m) = length h.
Proof.
  revert h m. induction f as [|f IH]; intros h m; [done|]. simpl.
  destruct m; [done|]. by rewrite IH, length_compress.
Qed.

Lemma Sum256_ok m : length (Sum256 m) = 32%nat /\ bytes_ok (Sum256 m).
Proof.
  unfold Sum256. set (l := blocks _ _ _).
  assert (Hl : length l = 8%nat) by (unfold l; by rewrite length_blocks).
  split; [|by apply Forall_bind, Forall_forall; intros; apply be_ok].
  rewrite <-(Nat.mul_1_l 32). assert (G : forall l : list Z, length (l ≫= be 4) = (4 * length l)%nat).
  { induction l0 as [|x l0 IH]; [done|]. rewrite bind_cons, length_app, IH, length_be. simpl. lia. }
  by rewrite G, Hl.
Qed.

Lemma HMAC_ok k m : length (HMAC k m) = 32%nat /\ bytes_ok (HMAC k m).
Proof. apply Sum256_ok. Qed.

#[global] Opaque Sum256.
