(* ===== verification/GoTime.v ===== *)
(** * Time stamps (store/users.go: fmtTime, parseTime)

    A [time.Time] in UTC as nanoseconds since the Unix epoch; the proleptic
    Gregorian calendar, [Format(time.RFC3339Nano)] and [time.Parse] of that
    layout.  [Parse] here is Go's RFC 3339 fast path; its lenient fallback
    (one-digit hours, comma fractions), which no text [fmtTime] wrote needs, is
    an error. *)

From S2P Require Import Prelude.

Definition Second : Z := 1000000000.
Definition Minute : Z := 60 * Second.
Definition Hour : Z := 60 * Minute.
Definition Day : Z := 86400 * Second.

(** [time.Time{}]: 1 January of year 1. *)
Definition zeroTime : Z := - 62135596800 * Second.

(** [t.Truncate(24 * time.Hour)]: down to a multiple since the zero time. *)
Definition TruncateDay (t : Z) : Z := t - (t - zeroTime) mod Day.

(** ** Calendar *)

Record date := { year : Z; month : Z; day : Z }.

(** Day of a 400-year era that starts on 1 March: year of the era and day of
    that year. *)
Definition year_of_doe (doe : Z) : Z * Z :=
  let c := Z.min 3 (doe / 36524) in
  let r := doe - 36524 * c in
  let r4 := r mod 1461 in
  let y := Z.min 3 (r4 / 365) in
  (100 * c + 4 * (r / 1461) + y, r4 - 365 * y).

(** Month and day of a day of a year that starts on 1 March. *)
Definition month_of_doy (doy : Z) : Z * Z :=
  let mp := (5 * doy + 2) / 153 in
  (if mp <? 10 then mp + 3 else mp - 9, doy - (153 * mp + 2) / 5 + 1).

Definition civil_of_doe (doe : Z) : date :=
  let '(y, doy) := year_of_doe doe in
  let '(m, d) := month_of_doy doy in
  {| year := if m <=? 2 then y + 1 else y; month := m; day := d |}.

Definition civil_from_days (z : Z) : date :=
  let z' := z + 719468 in
  let c := civil_of_doe (z' mod 146097) in
  {| year := year c + 400 * (z' / 146097); month := month c; day := day c |}.

Definition doy_of_month (m d : Z) : Z := (153 * (if 2 <? m then m - 3 else m + 9) + 2) / 5 + d - 1.

Definition doe_of_civil (y m d : Z) : Z := y * 365 + y / 4 - y / 100 + doy_of_month m d.

Definition days_from_civil (y m d : Z) : Z :=
  let y' := if m <=? 2 then y - 1 else y in
  146097 * (y' / 400) + doe_of_civil (y' mod 400) m d - 719468.

Definition is_leap (y : Z) : bool :=
  (y mod 4 =? 0) && (negb (y mod 100 =? 0) || (y mod 400 =? 0)).

Definition daysIn (m y : Z) : Z :=
  if m =? 2 then (if is_leap y then 29 else 28)
  else if (m =? 4) || (m =? 6) || (m =? 9) || (m =? 11) then 30 else 31.

(** ** Formatting *)

Definition two (n : Z) : bytes := [48 + n / 10; 48 + n mod 10].
Definition four (n : Z) : bytes := two (n / 100) ++ two (n mod 100).

Fixpoint digits (w : nat) (n : Z) : bytes :=
  match w with O => [] | S w' => digits w' (n / 10) ++ [48 + n mod 10] end.

Fixpoint drop_zeros (r : bytes) : bytes :=
  match r with b :: r' => if b =? 48 then drop_zeros r' else r | [] => [] end.

Definition fraction (ns : Z) : bytes :=
  match drop_zeros (reverse (digits 9 ns)) with [] => [] | r => 46 :: reverse r end.

(** Years 0 to 9999, which the layout's four digits hold. *)
Definition fmtTime (t : Z) : bytes :=
  let sec := t / Second in
  let c := civil_from_days (sec / 86400) in
  let sod := sec mod 86400 in
  four (year c) ++ [45] ++ two (month c) ++ [45] ++ two (day c) ++ [84] ++
  two (sod / 3600) ++ [58] ++ two (sod / 60 mod 60) ++ [58] ++ two (sod mod 60) ++
  fraction (t mod Second) ++ [90].

(** ** Parsing *)

Definition isDigit (b : Z) : bool := (48 <=? b) && (b <=? 57).

(** [parseUint] of a field: all digits, within bounds. *)
Fixpoint num (acc : Z) (s : bytes) : option Z :=
  match s with
  | [] => Some acc
  | b :: s' => if isDigit b then num (10 * acc + (b - 48)) s' else None
  end.

Definition field (n : nat) (lo hi : Z) (s : bytes) : option Z :=
  match num 0 (take n s) with
  | Some v => if (length s <? n)%nat then None else if (lo <=? v) && (v <=? hi) then Some v else None
  | None => None
  end.

Fixpoint span_digits (s : bytes) : bytes * bytes :=
  match s with
  | b :: s' => if isDigit b then let '(d, r) := span_digits s' in (b :: d, r) else ([], s)
  | [] => ([], [])
  end.

(** [parseNanoseconds]: up to nine digits count. *)
Definition nanoseconds (ds : bytes) : Z :=
  default 0 (num 0 (take 9 ds)) * 10 ^ (9 - len (take 9 ds)).

Definition parse_fraction (s : bytes) : Z * bytes :=
  match s with
  | b :: d :: s' =>
      if (b =? 46) && isDigit d then
        let '(ds, r) := span_digits (d :: s') in (nanoseconds ds, r)
      else (0, s)
  | _ => (0, s)
  end.

(** [Z] or an offset from UTC, in seconds. *)
Definition parse_zone (s : bytes) : option Z :=
  match s with
  | [z] => if z =? 90 then Some 0 else None
  | [sg; h1; h2; c; m1; m2] =>
      match field 2 0 23 [h1; h2], field 2 0 59 [m1; m2] with
      | Some h, Some m =>
          if c =? 58 then
            if sg =? 43 then Some (3600 * h + 60 * m)
            else if sg =? 45 then Some (- (3600 * h + 60 * m)) else None
          else None
      | _, _ => None
      end
  | _ => None
  end.

Definition byte_at (i : nat) (s : bytes) : Z := nth i s (-1).

Definition Parse (s : bytes) : option Z :=
  match field 4 0 9999 s, field 2 1 12 (drop 5 s), field 2 0 23 (drop 11 s),
        field 2 0 59 (drop 14 s), field 2 0 59 (drop 17 s) with
  | Some y, Some m, Some h, Some mi, Some sec =>
      match field 2 1 (daysIn m y) (drop 8 s) with
      | Some d =>
          if (byte_at 4 s =? 45) && (byte_at 7 s =? 45) && (byte_at 10 s =? 84) &&
             (byte_at 13 s =? 58) && (byte_at 16 s =? 58) then
            let '(ns, rest) := parse_fraction (drop 19 s) in
            match parse_zone rest with
            | Some off =>
                Some (Second * (86400 * days_from_civil y m d + 3600 * h + 60 * mi + sec - off) + ns)
            | None => None
            end
          else None
      | None => None
      end
  | _, _, _, _, _ => None
  end.

Definition parseTime (s : bytes) : Z := default zeroTime (Parse s).

(** Times whose year has four digits. *)
Definition time_ok (t : Z) : Prop := -62167219200 * Second <= t < 253402300800 * Second.

#[export] Instance time_ok_dec t : Decision (time_ok t).
Proof. unfold time_ok. apply _. Defined.

(** ** Lemmas: the calendar *)

Lemma year_of_doe_spec doe y doy :
  0 <= doe < 146097 -> year_of_doe doe = (y, doy) ->
  0 <= y < 400 /\ 0 <= doy <= 365 /\ doe = y * 365 + y / 4 - y / 100 + doy /\
  (doy = 365 -> is_leap (y + 1) = true).
Proof.
  intros H. unfold year_of_doe. set (c := Z.min 3 (doe / 36524)). set (r := doe - 36524 * c).
  set (q := r / 1461). set (r4 := r mod 1461). set (k := Z.min 3 (r4 / 365)). cbv zeta. intros [= <- <-].
  assert (Hc : 0 <= c <= 3 /\ 0 <= r <= 36524 /\ (r = 36524 -> c = 3)) by (subst r c; zdiv).
  assert (Hq : 0 <= q <= 24 /\ 0 <= r4 <= 1460 /\ r = 1461 * q + r4) by (subst q r4; zdiv).
  assert (Hk : 0 <= k <= 3 /\ 0 <= r4 - 365 * k <= 365 /\ (r4 - 365 * k = 365 -> k = 3)) by (subst k; zdiv).
  clearbody k q r4 c. subst r.
  replace ((100 * c + 4 * q + k) / 4) with (25 * c + q) by zdiv.
  replace ((100 * c + 4 * q + k) / 100) with c by zdiv.
  split_and!; [lia..|]. intros E. assert (k = 3 /\ (q = 24 -> c = 3)) as [-> Hqc] by lia.
  unfold is_leap. replace ((100 * c + 4 * q + 3 + 1) mod 4) with 0 by zdiv.
  destruct (decide (q = 24)) as [->|].
  - rewrite (Hqc eq_refl). done.
  - replace ((100 * c + 4 * q + 3 + 1) mod 100) with (4 * q + 4) by zdiv.
    by destruct (Z.eqb_spec (4 * q + 4) 0); [lia|].
Qed.

(** The month table, by computation over a year. *)
Definition month_check (doy : Z) : bool :=
  let '(m, d) := month_of_doy doy in
  (1 <=? m) && (m <=? 12) && (1 <=? d) && (d <=? daysIn m 1) || ((m =? 2) && (d =? 29) && (doy =? 365)).

Lemma month_of_doy_spec doy m d :
  0 <= doy <= 365 -> month_of_doy doy = (m, d) ->
  1 <= m <= 12 /\ 1 <= d /\ (d <= daysIn m 1 \/ m = 2 /\ d = 29 /\ doy = 365) /\ doy_of_month m d = doy.
Proof.
  intros H E.
  assert (C : all_range 366 (λ doy, month_check doy &&
    let '(m, d) := month_of_doy doy in doy_of_month m d =? doy) = true) by by vm_compute.
  apply (all_range_spec _ _) with (x := doy) in C; [|lia]. unfold month_check in C. rewrite E in C.
  clear -C. apply andb_true_iff in C as [C E%Z.eqb_eq]. apply orb_true_iff in C as [C|C]; bool_hyps; lia.
Qed.

Lemma daysIn_any m y : daysIn m 1 <= daysIn m y <= 31.
Proof.
  unfold daysIn. replace (is_leap 1) with false by done. repeat go_case; lia.
Qed.

Lemma civil_of_doe_spec doe :
  0 <= doe < 146097 ->
  let c := civil_of_doe doe in
  let y := if month c <=? 2 then year c - 1 else year c in
  1 <= month c <= 12 /\ 1 <= day c <= daysIn (month c) (year c) /\ 0 <= y < 400 /\
  doe_of_civil y (month c) (day c) = doe.
Proof.
  intros H. unfold civil_of_doe. destruct (year_of_doe doe) as [y doy] eqn:Ey.
  destruct (month_of_doy doy) as [m d] eqn:Em.
  destruct (year_of_doe_spec _ _ _ H Ey) as (Hy & Hdoy & E & Hl).
  destruct (month_of_doy_spec _ _ _ Hdoy Em) as (Hm & Hd & Hr & E2). cbn [year month day]. cbv zeta.
  replace (if m <=? 2 then (if m <=? 2 then y + 1 else y) - 1 else if m <=? 2 then y + 1 else y) with y
    by (destruct (m <=? 2); lia).
  unfold doe_of_civil. rewrite E2. split_and!; try lia.
  destruct Hr as [Hr|(-> & -> & ->)].
  - etrans; [exact Hr|apply daysIn_any].
  - simpl. unfold daysIn. by rewrite Hl.
Qed.

Lemma is_leap_era y k : is_leap (y + 400 * k) = is_leap y.
Proof.
  unfold is_leap. replace ((y + 400 * k) mod 4) with (y mod 4) by zdiv.
  replace ((y + 400 * k) mod 100) with (y mod 100) by zdiv.
  by replace ((y + 400 * k) mod 400) with (y mod 400) by zdiv.
Qed.

Lemma civil_roundtrip z :
  let c := civil_from_days z in
  1 <= month c <= 12 /\ 1 <= day c <= daysIn (month c) (year c) /\
  days_from_civil (year c) (month c) (day c) = z.
Proof.
  cbv zeta. unfold civil_from_days. set (k := (z + 719468) / 146097).
  destruct (civil_of_doe_spec ((z + 719468) mod 146097)) as (Hm & Hd & Hy & E); [zdiv|].
  cbn [year month day]. set (c := civil_of_doe _) in *.
  split_and!; [lia..| |].
  - unfold daysIn in *. rewrite is_leap_era. lia.
  - unfold days_from_civil. destruct (month c <=? 2);
      [replace (year c + 400 * k - 1) with ((year c - 1) + 400 * k) by lia|].
    + replace ((year c - 1 + 400 * k) / 400) with k by zdiv.
      replace ((year c - 1 + 400 * k) mod 400) with (year c - 1) by zdiv. rewrite E. subst k. zdiv.
    + replace ((year c + 400 * k) / 400) with k by zdiv.
      replace ((year c + 400 * k) mod 400) with (year c) by zdiv. rewrite E. subst k. zdiv.
Qed.

(** Dates as increasing numbers. *)
Definition date_key (c : date) : Z := 416 * year c + 32 * month c + day c.

(** The contribution of the day of the year to [date_key]. *)
Definition doy_key (doy : Z) : Z :=
  let '(m, d) := month_of_doy doy in (if m <=? 2 then 416 else 0) + 32 * m + d.

Lemma date_key_doe doe : date_key (civil_of_doe doe) = 416 * (year_of_doe doe).1 + doy_key (year_of_doe doe).2.
Proof.
  unfold civil_of_doe, date_key, doy_key. destruct (year_of_doe doe) as [y doy]. cbn [fst snd].
  destruct (month_of_doy doy) as [m d]. cbn [year month day]. destruct (m <=? 2); lia.
Qed.

Lemma doy_key_spec doy :
  0 <= doy <= 365 -> 97 <= doy_key doy <= 509 /\ (doy < 365 -> doy_key doy < doy_key (doy + 1)).
Proof.
  intros H.
  assert (C : all_range 366 (λ d, (97 <=? doy_key d) && (doy_key d <=? 509) &&
    ((d =? 365) || (doy_key d <? doy_key (d + 1)))) = true) by by vm_compute.
  apply (all_range_spec _ _) with (x := doy) in C; [|lia].
  apply andb_true_iff in C as [C1 C2]. bool_hyps. split; [lia|]. intros.
  apply orb_true_iff in C2 as [C2|C2]; bool_hyps; lia.
Qed.

Lemma year_of_doe_succ doe y doy y' doy' :
  0 <= doe < 146096 -> year_of_doe doe = (y, doy) -> year_of_doe (doe + 1) = (y', doy') ->
  (y' = y /\ doy' = doy + 1) \/ y < y'.
Proof.
  intros H E E'. destruct (year_of_doe_spec doe y doy ltac:(lia) E) as (Hy & Hd & K & _).
  destruct (year_of_doe_spec (doe + 1) y' doy' ltac:(lia) E') as (Hy' & Hd' & K' & _).
  destruct (decide (y < y')); [by right|]. left.
  destruct (decide (y' = y)) as [->|]; [split; [done|lia]|].
  exfalso. revert K K'. zdiv.
Qed.

Lemma date_key_era c k :
  date_key {| year := year c + 400 * k; month := month c; day := day c |} = date_key c + 166400 * k.
Proof. unfold date_key. simpl. lia. Qed.

Lemma date_key_succ z : date_key (civil_from_days z) < date_key (civil_from_days (z + 1)).
Proof.
  unfold civil_from_days. rewrite !date_key_era.
  set (d := (z + 719468) mod 146097).
  destruct (decide (d = 146096)) as [Hd|Hd].
  - replace ((z + 1 + 719468) mod 146097) with 0 by (subst d; zdiv).
    replace ((z + 1 + 719468) / 146097) with ((z + 719468) / 146097 + 1) by (subst d; zdiv).
    rewrite Hd. replace (date_key (civil_of_doe 146096)) with 166493 by by vm_compute.
    replace (date_key (civil_of_doe 0)) with 97 by by vm_compute. lia.
  - replace ((z + 1 + 719468) mod 146097) with (d + 1) by (subst d; zdiv).
    replace ((z + 1 + 719468) / 146097) with ((z + 719468) / 146097) by (subst d; zdiv).
    assert (Hr : 0 <= d < 146096) by (subst d; zdiv). rewrite !date_key_doe.
    destruct (year_of_doe d) as [y doy] eqn:E, (year_of_doe (d + 1)) as [y' doy'] eqn:E'. cbn [fst snd].
    destruct (year_of_doe_spec d y doy ltac:(lia) E) as (_ & Hb & _).
    destruct (year_of_doe_spec (d + 1) y' doy' ltac:(lia) E') as (_ & Hb' & _).
    destruct (doy_key_spec doy Hb) as [Hk Hs], (doy_key_spec doy' Hb') as [Hk' _].
    destruct (year_of_doe_succ d y doy y' doy' Hr E E') as [[-> ->]|]; [specialize (Hs ltac:(lia))|]; lia.
Qed.

Lemma date_key_mono z1 z2 : z1 < z2 -> date_key (civil_from_days z1) < date_key (civil_from_days z2).
Proof.
  intros H. replace z2 with (z1 + Z.of_nat (Z.to_nat (z2 - z1))) by lia.
  assert (Hn : (0 < Z.to_nat (z2 - z1))%nat) by lia. revert Hn.
  generalize (Z.to_nat (z2 - z1)) as n. induction n as [|n IH]; [lia|]. intros _.
  replace (z1 + Z.of_nat (S n)) with (z1 + Z.of_nat n + 1) by lia.
  pose proof (date_key_succ (z1 + Z.of_nat n)). destruct n; [by rewrite Z.add_0_r in *|].
  specialize (IH ltac:(lia)). lia.
Qed.

Lemma year_bound t : time_ok t -> 0 <= year (civil_from_days (t / Second / 86400)) <= 9999.
Proof.
  intros H. set (z := t / Second / 86400).
  assert (Hz : -719528 <= z <= 2932896) by (unfold time_ok, Second in *; subst z; zdiv).
  assert (B1 : date_key (civil_from_days (-719529)) = 32 * 12 + 31 - 416) by by vm_compute.
  assert (B2 : date_key (civil_from_days 2932897) = 416 * 10000 + 33) by by vm_compute.
  pose proof (date_key_mono (-719529) z ltac:(lia)).
  pose proof (date_key_mono z 2932897 ltac:(lia)).
  pose proof (civil_roundtrip z) as (Hm & Hd & _).
  assert (daysIn (month (civil_from_days z)) (year (civil_from_days z)) <= 31).
  { unfold daysIn. repeat go_case; lia. }
  rewrite B1, B2 in *. unfold date_key in *. lia.
Qed.

(** ** Lemmas: fields *)

Lemma isDigit_48 k : 0 <= k <= 9 -> isDigit (48 + k) = true.
Proof. intros. unfold isDigit. rewrite andb_true_iff, !Z.leb_le. lia. Qed.

Lemma num_two acc n s : 0 <= n < 100 -> num acc (two n ++ s) = num (100 * acc + n) s.
Proof.
  intros H. unfold two. cbn [app num]. rewrite !isDigit_48 by zdiv. f_equal. zdiv.
Qed.

Lemma take_two n s : take 2 (two n ++ s) = two n.
Proof. done. Qed.

Lemma num_two_nil n : 0 <= n < 100 -> num 0 (two n) = Some n.
Proof. intros H. pose proof (num_two 0 n [] H) as E. rewrite app_nil_r in E. by rewrite E. Qed.

Lemma in_range lo hi n : lo <= n <= hi -> (lo <=? n) && (n <=? hi) = true.
Proof. rewrite andb_true_iff, !Z.leb_le. lia. Qed.

Lemma field_two lo hi n s : lo <= n <= hi -> 0 <= n < 100 -> field 2 lo hi (two n ++ s) = Some n.
Proof.
  intros H1 H2. unfold field. rewrite take_two, num_two_nil by done.
  change (length (two n ++ s) <? 2)%nat with false. cbv iota. by rewrite in_range.
Qed.

Lemma num_four n : 0 <= n <= 9999 -> num 0 (four n) = Some n.
Proof.
  intros H. unfold four. rewrite num_two by zdiv. rewrite <-(app_nil_r (two (n mod 100))), num_two by zdiv.
  cbn [num]. f_equal. zdiv.
Qed.

Lemma field_four n s : 0 <= n <= 9999 -> field 4 0 9999 (four n ++ s) = Some n.
Proof.
  intros H. unfold field. change (take 4 (four n ++ s)) with (four n). rewrite num_four by done.
  change (length (four n ++ s) <? 4)%nat with false. cbv iota. by rewrite in_range.
Qed.

Lemma length_digits w n : length (digits w n) = w.
Proof. revert n. induction w as [|w IH]; intros n; [done|]. simpl. rewrite length_app, IH. simpl. lia. Qed.

Lemma digits_isDigit w n : Forall (λ b, isDigit b = true) (digits w n).
Proof.
  revert n. induction w as [|w IH]; intros n; [constructor|]. simpl. apply Forall_app. split; [done|].
  constructor; [|done]. apply isDigit_48. zdiv.
Qed.

Lemma num_app acc a b : num acc (a ++ b) = match num acc a with Some v => num v b | None => None end.
Proof. revert acc. induction a as [|x a IH]; intros acc; [done|]. simpl. by destruct (isDigit x). Qed.

Lemma num_digits w n : 0 <= n < 10 ^ Z.of_nat w -> num 0 (digits w n) = Some n.
Proof.
  revert n. induction w as [|w IH]; intros n H; [simpl in *; f_equal; lia|].
  cbn [digits]. rewrite num_app, IH.
  - cbn [num]. rewrite isDigit_48 by zdiv. f_equal. zdiv.
  - rewrite Nat2Z.inj_succ, Z.pow_succ_r in H by lia. split; [zdiv|]. apply Z.div_lt_upper_bound; lia.
Qed.

Lemma num_zeros acc k : num acc (replicate k 48) = Some (acc * 10 ^ Z.of_nat k).
Proof.
  revert acc. induction k as [|k IH]; intros acc; [simpl; f_equal; lia|]. cbn [replicate num].
  replace (isDigit 48) with true by done.
  rewrite IH, Nat2Z.inj_succ, Z.pow_succ_r by lia. f_equal. lia.
Qed.

Lemma drop_zeros_spec r : exists k, r = replicate k 48 ++ drop_zeros r.
Proof.
  induction r as [|b r [k IH]]; [by exists 0%nat|]. cbn [drop_zeros].
  destruct (Z.eqb_spec b 48) as [->|]; [exists (S k)|by exists 0%nat]. simpl. by f_equal.
Qed.

Lemma span_digits_app d b r :
  Forall (λ x, isDigit x = true) d -> isDigit b = false -> span_digits (d ++ b :: r) = (d, b :: r).
Proof.
  intros Hd Hb. induction Hd as [|x d Hx _ IH]; simpl; [by rewrite Hb|]. by rewrite Hx, IH.
Qed.

Lemma parse_fraction_spec ns rest :
  0 <= ns < Second -> parse_fraction (fraction ns ++ 90 :: rest) = (ns, 90 :: rest).
Proof.
  intros H. unfold fraction. destruct (drop_zeros_spec (reverse (digits 9 ns))) as [k Hk].
  set (r := drop_zeros _) in *.
  assert (E : digits 9 ns = reverse r ++ replicate k 48).
  { rewrite <-(reverse_involutive (digits 9 ns)), Hk, reverse_app. f_equal.
    clear. induction k as [|k IH]; [done|]. cbn [replicate]. rewrite reverse_cons, IH.
    rewrite <-(replicate_S_end k). done. }
  pose proof (num_digits 9 ns ltac:(done)) as Hn. pose proof (digits_isDigit 9 ns) as Hd.
  rewrite E in Hn, Hd. apply Forall_app in Hd as [Hd _].
  assert (Hl : (length r + k = 9)%nat).
  { apply (f_equal length) in E. rewrite length_digits, length_app, length_reverse, length_replicate in E. done. }
  destruct r as [|b r].
  - simpl in Hn. assert (ns = 0) as ->; [|by destruct rest].
    simpl in Hl. rewrite Hl, num_zeros in Hn. injection Hn as <-. lia.
  - remember (reverse (b :: r)) as q eqn:Eq.
    assert (Hq : (length q + k = 9)%nat) by (by rewrite Eq, length_reverse).
    destruct q as [|c q].
    { apply (f_equal length) in Eq. by rewrite length_reverse in Eq. }
    cbn [app parse_fraction]. pose proof Hd as [Hc _]%Forall_cons. rewrite Hc.
    simpl ((46 =? 46) && true). cbv iota.
    rewrite (span_digits_app (c :: q) 90 rest Hd eq_refl : span_digits (c :: q ++ 90 :: rest) = _).
    f_equal. unfold nanoseconds. rewrite take_ge by lia. rewrite num_app in Hn.
    destruct (num 0 (c :: q)) as [v|] eqn:Ev; [|done]. rewrite num_zeros in Hn. injection Hn as <-.
    simpl default. f_equal. f_equal. unfold len. lia.
Qed.

(** The stamp of a time reads back as that time. *)
Lemma Parse_fmtTime t : time_ok t -> Parse (fmtTime t) = Some t.
Proof.
  intros Ht. pose proof (year_bound t Ht) as Hy. unfold fmtTime. cbv zeta.
  set (sec := t / Second) in *. destruct (civil_roundtrip (sec / 86400)) as (Hm & Hd & E).
  set (c := civil_from_days (sec / 86400)) in *. set (sod := sec mod 86400).
  assert (Hs : 0 <= sod < 86400) by (subst sod; zdiv).
  assert (Hdi : daysIn (month c) (year c) <= 31) by (unfold daysIn; repeat go_case; lia).
  unfold Parse. rewrite field_four by lia.
  set (s := four (year c) ++ _).
  replace (drop 5 s) with (two (month c) ++ drop 7 s) by done.
  replace (drop 8 s) with (two (day c) ++ drop 10 s) by done.
  replace (drop 11 s) with (two (sod / 3600) ++ drop 13 s) by done.
  replace (drop 14 s) with (two (sod / 60 mod 60) ++ drop 16 s) by done.
  replace (drop 17 s) with (two (sod mod 60) ++ drop 19 s) by done.
  replace (drop 19 s) with (fraction (t mod Second) ++ [90]) by done.
  rewrite !field_two by (lia || zdiv). 
  change ((byte_at 4 s =? 45) && (byte_at 7 s =? 45) && (byte_at 10 s =? 84) &&
    (byte_at 13 s =? 58) && (byte_at 16 s =? 58)) with true. cbv iota.
  rewrite parse_fraction_spec by (unfold Second; zdiv). simpl parse_zone. cbv iota.
  rewrite E. f_equal. subst sod sec. unfold Second in *. zdiv.
Qed.

Lemma parseTime_fmtTime t : time_ok t -> parseTime (fmtTime t) = t.
Proof. intros H. unfold parseTime. by rewrite Parse_fmtTime. Qed.

Lemma fmtTime_inj a b : time_ok a -> time_ok b -> fmtTime a = fmtTime b -> a = b.
Proof. intros Ha Hb E. rewrite <-(parseTime_fmtTime a), <-(parseTime_fmtTime b), E; done. Qed.

Example fmtTime_ex : fmtTime (1700000000 * Second + 120) = str "2023-11-14T22:13:20.00000012Z".
Proof. by vm_compute. Qed.
Example parseTime_ex : parseTime (str "2023-11-14T23:13:20+01:00") = 1700000000 * Second.
Proof. by vm_compute. Qed.

#[global] Arguments fmtTime : simpl never.
#[global] Arguments parseTime : simpl never.
