(* ===== verification/Vault.v ===== *)
(** * Encryption at rest (src/crypto/vault.go; seal and open of src/store/store.go)

    The AEAD (golang.org/x/crypto/chacha20poly1305) and the KDF
    (golang.org/x/crypto/argon2) are third-party: parameters of the model, in
    class [Crypto].  What the program relies on is class [CryptoLaws].  Random
    bytes are arguments of the operations that draw them. *)

From S2P Require Import Prelude Base64 Sha256.

(** XChaCha20-Poly1305 under a key and nonce, and Argon2id by password, salt,
    time, memory, threads and length. *)
Class Crypto := {
  aead_seal : bytes -> bytes -> bytes -> bytes;
  aead_open : bytes -> bytes -> bytes -> option bytes;
  argon2id : bytes -> bytes -> Z -> Z -> Z -> Z -> bytes
}.

(** Decryption inverts encryption and accepts nothing else for that key and
    nonce; sizes are as documented. *)
Class CryptoLaws `{Crypto} := {
  aead_open_seal k n p : aead_open k n (aead_seal k n p) = Some p;
  aead_open_inv k n c p : aead_open k n c = Some p -> c = aead_seal k n p;
  aead_seal_ok k n p : bytes_ok p -> bytes_ok (aead_seal k n p);
  argon2id_len p s t m th l : 0 <= l -> len (argon2id p s t m th l) = l;
  argon2id_ok p s t m th l : bytes_ok (argon2id p s t m th l)
}.

Definition kdfTime : Z := 3.
Definition kdfMemory : Z := 65536.
Definition kdfThreads : Z := 4.
Definition keyLen : Z := 32.
Definition saltLen : Z := 16.
Definition NonceSize : nat := 24.

Inductive vaultErr := ErrNoSecret | ErrSaltLen | ErrShort | ErrOpen | ErrSaltIO.

#[export] Instance vaultErr_eq_dec : EqDecision vaultErr.
Proof. solve_decision. Defined.

(** [aead] is the key the AEAD was built with, which it copied; [Close] zeroes
    [key] and [macKey]. *)
Record Vault := { aead : bytes; key : option bytes; macKey : bytes }.

Section Vault.
Context `{Crypto}.

Definition NewVault (secret salt : bytes) : result vaultErr Vault :=
  if len secret =? 0 then Err ErrNoSecret
  else if negb (len salt =? saltLen) then Err ErrSaltLen
  else
    let k := argon2id secret salt kdfTime kdfMemory kdfThreads keyLen in
    Ok {| aead := k; key := Some k; macKey := HMAC k (str "admiralbbs/audit-mac/v1") |}.

Definition MAC (v : Vault) (prev msg : bytes) : bytes := HMAC (macKey v) (prev ++ msg).

(** [nonce] is what [rand.Read] returned. *)
Definition Seal (v : Vault) (nonce plaintext : bytes) : bytes :=
  nonce ++ aead_seal (aead v) nonce plaintext.

Definition Open (v : Vault) (blob : bytes) : result vaultErr bytes :=
  if (length blob <? NonceSize)%nat then Err ErrShort
  else match aead_open (aead v) (take NonceSize blob) (drop NonceSize blob) with
       | Some p => Ok p
       | None => Err ErrOpen
       end.

Definition Close (v : Vault) : Vault := {| aead := aead v; key := None; macKey := [] |}.

Definition GenerateSalt (rnd : bytes) : bytes := rnd.

(** The salt file: its contents if it can be read; [wr] tells whether writing
    it succeeds.  Returns the salt and the file afterwards. *)
Definition LoadOrCreateSalt (file : option bytes) (rnd : bytes) (wr : bool) :
    result vaultErr bytes * option bytes :=
  match file with
  | Some data => if len data =? saltLen then (Ok data, file) else (Err ErrSaltLen, file)
  | None => if wr then (Ok rnd, Some rnd) else (Err ErrSaltIO, file)
  end.

(** ** Sealed text columns (store.go) *)

Definition seal (v : Vault) (nonce plain : bytes) : bytes := RawStdEncode (Seal v nonce plain).

Definition open (v : Vault) (encoded : bytes) : result vaultErr bytes :=
  if beq encoded [] then Ok []
  else match RawStdDecode encoded with
       | None => Err ErrOpen
       | Some ct => Open v ct
       end.

(** What [rand.Read] fills a nonce with. *)
Definition nonce_ok (n : bytes) : Prop := length n = NonceSize /\ bytes_ok n.

#[export] Instance nonce_ok_dec n : Decision (nonce_ok n).
Proof. unfold nonce_ok. apply _. Defined.

Section Laws.
Context `{!CryptoLaws}.

Lemma Open_Seal v n p : length n = NonceSize -> Open v (Seal v n p) = Ok p.
Proof.
  intros Hn. unfold Open, Seal. rewrite length_app, Hn.
  destruct (Nat.ltb_spec (NonceSize + length (aead_seal (aead v) n p)) NonceSize); [lia|].
  by rewrite take_app_length', drop_app_length', aead_open_seal.
Qed.

Lemma Open_inv v b p :
  Open v b = Ok p -> b = Seal v (take NonceSize b) p /\ length (take NonceSize b) = NonceSize.
Proof.
  unfold Open, Seal. destruct (Nat.ltb_spec (length b) NonceSize); [done|].
  destruct (aead_open _ _ _) eqn:E; [|done]. intros [= ->]. apply aead_open_inv in E.
  rewrite <-E, take_drop, length_take. split; [done|lia].
Qed.

Lemma Seal_ok v n p : bytes_ok n -> bytes_ok p -> bytes_ok (Seal v n p).
Proof. intros Hn Hp. apply Forall_app. split; [done|by apply aead_seal_ok]. Qed.

Lemma open_seal v n p : nonce_ok n -> bytes_ok p -> open v (seal v n p) = Ok p.
Proof.
  intros [Hn Hb] Hp. unfold open, seal. destruct (beq _ []) eqn:E.
  - apply beq_true, encode_raw_nil in E. apply (f_equal length) in E.
    unfold Seal in E. rewrite length_app, Hn in E. done.
  - by rewrite RawStd_roundtrip, Open_Seal by (done || by apply Seal_ok).
Qed.

(** C19: text sealed in one run of the server is read back in any later run with
    the same secret and the salt file of the first, whichever way the first run
    found or created the salt; the random bytes offered to the later run are
    not used. *)
Theorem vault_survives_restart (secret rnd1 rnd2 salt nonce p : bytes) (file file' : option bytes)
  (wr1 wr2 : bool) (v : Vault)
  (Hsalt : LoadOrCreateSalt file rnd1 wr1 = (Ok salt, file'))
  (Hrnd : len rnd1 = saltLen)
  (Hv : NewVault secret salt = Ok v) (Hn : nonce_ok nonce) (Hp : bytes_ok p) :
  exists v', LoadOrCreateSalt file' rnd2 wr2 = (Ok salt, file') /\
  NewVault secret salt = Ok v' /\ Open v' (Seal v nonce p) = Ok p /\ open v' (seal v nonce p) = Ok p /\
  (forall prev msg, MAC v' prev msg = MAC v prev msg).
Proof.
  exists v. split_and!; [|done|by apply Open_Seal, Hn|by apply open_seal|done].
  unfold LoadOrCreateSalt in *. destruct file as [data|].
  - destruct (len data =? saltLen) eqn:E; [|done]. injection Hsalt as <- <-. by rewrite E.
  - destruct wr1; [|done]. injection Hsalt as <- <-. by rewrite Hrnd.
Qed.

(** Whatever blob [Open] accepts is, byte for byte, what [Seal] makes of the
    plaintext it returns under the nonce the blob starts with; so two blobs that
    open to different texts differ, and a blob shorter than a nonce is refused. *)
Theorem Open_authentic (v : Vault) (blob p : bytes) (Ho : Open v blob = Ok p) :
  blob = Seal v (take NonceSize blob) p /\ (NonceSize <= length blob)%nat /\
  (forall k blob', (k < NonceSize)%nat -> Open v (take k blob') = Err ErrShort).
Proof.
  destruct (Open_inv v blob p Ho) as [E1 E2]. split_and!; [done| |].
  - rewrite length_take in E2. lia.
  - intros k b Hk. unfold Open. rewrite length_take.
    by destruct (Nat.ltb_spec (k `min` length b) NonceSize); [|lia].
Qed.
End Laws.
End Vault.

(** ** A toy instance, for witnesses only *)

Definition toy_byte (x : Z) : Z := x mod 256.

(** Key, nonce and plaintext follow each other, and the rest is compared. *)
Definition toy_seal (k n p : bytes) : bytes := (toy_byte <$> k) ++ p.
Definition toy_open (k n c : bytes) : option bytes :=
  if beq (take (length k) c) (toy_byte <$> k) then Some (drop (length k) c) else None.
Definition toy_kdf (p s : bytes) (t m th l : Z) : bytes :=
  take (Z.to_nat l) ((toy_byte <$> (p ++ s)) ++ replicate (Z.to_nat l) 0).

Definition toy : Crypto :=
  {| aead_seal := toy_seal; aead_open := toy_open; argon2id := toy_kdf |}.

Lemma toy_bytes l : bytes_ok (toy_byte <$> l).
Proof. apply Forall_fmap, Forall_forall. intros x _. unfold byte_ok, toy_byte. simpl. apply Z.mod_pos_bound. lia. Qed.

Lemma toy_laws : @CryptoLaws toy.
Proof.
  split; simpl.
  - intros k n p. unfold toy_open, toy_seal.
    rewrite take_app_length', drop_app_length' by by rewrite length_fmap. by rewrite beq_refl.
  - intros k n c p. unfold toy_open, toy_seal. destruct (beq _ _) eqn:E; [|done].
    apply beq_true in E. intros [= <-]. by rewrite <-E, take_drop.
  - intros k n p Hp. apply Forall_app. split; [apply toy_bytes|done].
  - intros p s t m th l Hl. unfold toy_kdf, len.
    rewrite length_take, length_app, length_replicate. lia.
  - intros p s t m th l. unfold toy_kdf. apply Forall_take, Forall_app.
    split; [apply toy_bytes|]. apply Forall_replicate. unfold byte_ok. lia.
Qed.

Definition toy_vault : Vault :=
  {| aead := str "k"; key := Some (str "k"); macKey := str "m" |}.
Definition toy_nonce : bytes := replicate 24 7.

Lemma vault_survives_restart_witness :
  exists v v', @NewVault toy (str "pw") (replicate 16 9) = Ok v /\
  @Open toy v' (@Seal toy v toy_nonce (str "hi")) = Ok (str "hi").
Proof.
  destruct (@NewVault toy (str "pw") (replicate 16 9)) as [v|] eqn:E; [|by vm_compute in E].
  destruct (@vault_survives_restart toy toy_laws (str "pw") (replicate 16 9) [] (replicate 16 9)
    toy_nonce (str "hi") None (Some (replicate 16 9)) true false v eq_refl eq_refl E)
    as (v' & _ & _ & Ho & _); [by_decide|apply str_ok|]. by exists v, v'.
Defined.

Lemma Open_authentic_witness :
  @Open toy toy_vault (take 3 (@Seal toy toy_vault toy_nonce (str "hi"))) = Err ErrShort.
Proof.
  destruct (@Open_authentic toy toy_laws toy_vault (@Seal toy toy_vault toy_nonce (str "hi")) (str "hi"))
    as (_ & _ & Hs); [by vm_compute|]. apply Hs. unfold NonceSize. lia.
Defined.

#[global] Arguments seal : simpl never.
#[global] Arguments open : simpl never.
