(* ===== verification/Sql.v ===== *)
(** * SQL tables as the repositories use them

    A table with an INTEGER PRIMARY KEY AUTOINCREMENT: its rows in rowid order
    (the order of every scan the program makes without another ORDER BY) and
    the largest id ever given.  Statements never fail here but on a constraint;
    I/O errors of the driver are not modelled. *)

From S2P Require Import Prelude GoStrings Vault.

(** The errors of the store package, the constraint failures SQLite reports
    and [sql.ErrNoRows]. *)
Inductive err :=
  | ErrNotFound | ErrNoRows | ErrNotOwner | ErrTokenInvalid | ErrKeyTaken
  | ErrBadKey | ErrBadHash | ErrTooLarge | ErrQuotaExceeded | ErrDuplicateName
  | ErrBadPattern | ErrUnique | ErrForeignKey | ErrFull | ErrScan | ErrIO
  | ErrVault (e : vaultErr).

#[export] Instance err_eq_dec : EqDecision err.
Proof. solve_decision. Defined.

Definition vault_res {A} (r : result vaultErr A) : result err A :=
  match r with Ok a => Ok a | Err e => Err (ErrVault e) end.

Record table (R : Type) := Table { rows : list (Z * R); seq : Z }.
Arguments Table {R} rows seq.
Arguments rows {R} t.
Arguments seq {R} t.

Definition maxRowid : Z := 9223372036854775807.

Definition empty_table {R} : table R := Table [] 0.

Section Table.
Context {R : Type}.
Implicit Types t : table R.

(** INSERT: the next id; SQLITE_FULL once the largest was given out. *)
Definition insert (r : R) (t : table R) : result err (Z * table R) :=
  if seq t <? maxRowid then
    let id := seq t + 1 in Ok (id, Table (rows t ++ [(id, r)]) id)
  else Err ErrFull.

Definition select (p : Z -> R -> bool) (t : table R) : list (Z * R) :=
  List.filter (λ x, p x.1 x.2) (rows t).

(** SELECT ... WHERE id = ?; the first matching row, as [QueryRow] takes it. *)
Definition row (id : Z) (t : table R) : option R := snd <$> head (select (λ i _, i =? id) t).

Definition count (p : Z -> R -> bool) (t : table R) : Z := len (select p t).

(** UPDATE ... WHERE p, with the number of rows affected. *)
Definition update (p : Z -> R -> bool) (f : R -> R) (t : table R) : table R * Z :=
  (Table ((λ x, if p x.1 x.2 then (x.1, f x.2) else x) <$> rows t) (seq t), count p t).

(** DELETE ... WHERE p, with the number of rows affected. *)
Definition delete (p : Z -> R -> bool) (t : table R) : table R * Z :=
  (Table (List.filter (λ x, negb (p x.1 x.2)) (rows t)) (seq t), count p t).

Definition by_id (id : Z) : Z -> R -> bool := λ i _, i =? id.

Definition ids (t : table R) : list Z := (rows t).*1.

(** Ids ascend, are positive and were all given out. *)
Record wf (t : table R) : Prop := {
  wf_sorted : StronglySorted Z.lt (ids t);
  wf_range : Forall (λ i, 0 < i <= seq t) (ids t);
  wf_seq : 0 <= seq t <= maxRowid
}.

(** ** Lemmas *)

Lemma filter_ids_sub (p : Z * R -> bool) l : (List.filter p l).*1 `sublist_of` l.*1.
Proof.
  induction l as [|x l IH]; simpl; [constructor|]. destruct (p x); simpl; by constructor.
Qed.

Lemma StronglySorted_sub (l k : list Z) : l `sublist_of` k -> StronglySorted Z.lt k -> StronglySorted Z.lt l.
Proof.
  induction 1 as [|x l k Hs IH|x l k Hs IH]; intros H; [done|..]; apply StronglySorted_inv in H as [Hk Hx].
  - constructor; [by apply IH|]. rewrite Forall_forall in *. intros y Hy. apply Hx.
    by eapply elem_of_submseteq, sublist_submseteq.
  - by apply IH.
Qed.

Lemma wf_empty : wf empty_table.
Proof. split; [constructor|constructor|done]. Qed.

Lemma not_in_empty (x : Z * R) (P : Prop) : x ∈ rows empty_table -> P.
Proof. intros Hx. by apply elem_of_nil in Hx. Qed.

Lemma wf_insert r t id t' : wf t -> insert r t = Ok (id, t') -> wf t'.
Proof.
  intros [Hs Hr Hq]. unfold insert. destruct (Z.ltb_spec (seq t) maxRowid); [|done]. intros [= <- <-].
  split; unfold ids in *; simpl; rewrite ?fmap_app; simpl.
  - revert Hs Hr. generalize ((rows t).*1) as l. induction l as [|x l IH]; intros Hs Hr; simpl.
    { by repeat constructor. }
    apply StronglySorted_inv in Hs as [Hs Hx]. apply Forall_cons in Hr as [Hr1 Hr].
    constructor; [by apply IH|]. apply Forall_app. split; [done|]. constructor; [lia|done].
  - apply Forall_app. split; [|constructor; [lia|done]].
    eapply Forall_impl; [exact Hr|]. simpl. lia.
  - lia.
Qed.

Lemma ids_update p f t : ids (update p f t).1 = ids t.
Proof.
  unfold ids, update. simpl. rewrite <-list_fmap_compose. apply list_fmap_ext.
  intros i [j r] _. simpl. by destruct (p j r).
Qed.

Lemma wf_update p f t : wf t -> wf (update p f t).1.
Proof. intros [Hs Hr Hq]. by split; rewrite ?ids_update. Qed.

Lemma wf_delete p t : wf t -> wf (delete p t).1.
Proof.
  intros [Hs Hr Hq]. split; [|..|done]; unfold ids, delete in *; simpl.
  - eapply StronglySorted_sub; [apply filter_ids_sub|done].
  - rewrite Forall_forall in *. intros x Hx. apply Hr.
    by eapply elem_of_submseteq, sublist_submseteq, filter_ids_sub.
Qed.

Lemma elem_of_select p t x : x ∈ select p t <-> x ∈ rows t /\ p x.1 x.2 = true.
Proof. unfold select. rewrite !list_elem_of_In, filter_In. done. Qed.

Lemma NoDup_sorted (l : list Z) : StronglySorted Z.lt l -> NoDup l.
Proof.
  induction 1 as [|x l Hs IH Hx]; constructor; [|done]. intros H. rewrite Forall_forall in Hx.
  specialize (Hx x H). lia.
Qed.

Lemma wf_id_inj t i r r' : wf t -> (i, r) ∈ rows t -> (i, r') ∈ rows t -> r = r'.
Proof.
  intros [Hs _ _] H1 H2. apply NoDup_sorted in Hs. unfold ids in Hs.
  apply list_elem_of_lookup in H1 as [n1 H1], H2 as [n2 H2].
  assert (n1 = n2) as ->; [|congruence].
  eapply (NoDup_lookup _ n1 n2 i Hs); by rewrite list_lookup_fmap, ?H1, ?H2.
Qed.

Lemma row_in t i r : row i t = Some r -> (i, r) ∈ rows t.
Proof.
  unfold row. destruct (select _ t) as [|[j r'] l] eqn:E; [done|]. intros [= ->].
  assert (H : (j, r) ∈ select (λ k _, k =? i) t) by (rewrite E; constructor).
  apply elem_of_select in H as [H Hj]. simpl in Hj. by apply Z.eqb_eq in Hj as <-.
Qed.

Lemma in_row t i r : wf t -> (i, r) ∈ rows t -> row i t = Some r.
Proof.
  intros Hw H. unfold row. destruct (select _ t) as [|[j r'] l] eqn:E.
  - assert (G : (i, r) ∈ select (λ k _, k =? i) t) by (apply elem_of_select; simpl; by rewrite Z.eqb_refl).
    rewrite E in G. by apply elem_of_nil in G.
  - assert (G : (j, r') ∈ select (λ k _, k =? i) t) by (rewrite E; constructor).
    apply elem_of_select in G as [G Hj]. simpl in Hj. apply Z.eqb_eq in Hj as ->.
    simpl. f_equal. by eapply wf_id_inj.
Qed.

Lemma row_spec t i r : wf t -> row i t = Some r <-> (i, r) ∈ rows t.
Proof. split; [apply row_in|by apply in_row]. Qed.

Lemma insert_fresh r t id t' : wf t -> insert r t = Ok (id, t') -> row id t = None /\ 0 < id.
Proof.
  intros Hw Hi. unfold insert in Hi. destruct (seq t <? maxRowid); [|done]. injection Hi as <- <-.
  split; [|destruct Hw; lia]. destruct (row (seq t + 1) t) as [r'|] eqn:E; [|done].
  apply row_in in E. destruct Hw as [_ Hr _]. rewrite Forall_forall in Hr.
  assert (H : seq t + 1 ∈ ids t) by (apply list_elem_of_fmap; by exists (seq t + 1, r')).
  apply Hr in H. lia.
Qed.

Lemma insert_rows r t id t' : insert r t = Ok (id, t') -> rows t' = rows t ++ [(id, r)].
Proof. unfold insert. destruct (seq t <? maxRowid); [|done]. by intros [= <- <-]. Qed.

Lemma select_app p l k s : select p (Table (l ++ k) s) = select p (Table l s) ++ select p (Table k s).
Proof. unfold select. simpl. by rewrite List.filter_app. Qed.

Lemma select_insert p r t id t' :
  insert r t = Ok (id, t') -> select p t' = select p t ++ (if p id r then [(id, r)] else []).
Proof.
  intros Hi. unfold select. rewrite (insert_rows r t id t' Hi), List.filter_app. simpl.
  by destruct (p id r).
Qed.

Lemma row_insert r t id t' :
  wf t -> insert r t = Ok (id, t') -> forall i, row i t' = if decide (i = id) then Some r else row i t.
Proof.
  intros Hw Hi i. pose proof (insert_fresh _ _ _ _ Hw Hi) as [Hf _].
  unfold row in *. rewrite (select_insert _ _ _ _ _ Hi). destruct (decide (i = id)) as [->|Hne].
  - rewrite Z.eqb_refl. by destruct (select _ t).
  - destruct (Z.eqb_spec id i); [done|]. by rewrite app_nil_r.
Qed.

Lemma update_rows p f t i r :
  (i, r) ∈ rows (update p f t).1 <-> exists r0, (i, r0) ∈ rows t /\ r = if p i r0 then f r0 else r0.
Proof.
  unfold update. simpl. rewrite list_elem_of_fmap. split.
  - intros ([j r0] & E & H). simpl in E. destruct (p j r0) eqn:Ep; injection E as -> ->;
      exists r0; by rewrite Ep.
  - intros (r0 & H & ->). exists (i, r0). split; [|done]. simpl. by destruct (p i r0).
Qed.

Lemma delete_rows p t i r : (i, r) ∈ rows (delete p t).1 <-> (i, r) ∈ rows t /\ p i r = false.
Proof.
  unfold delete. simpl. rewrite !list_elem_of_In, filter_In. simpl. by rewrite negb_true_iff.
Qed.

Lemma row_update p f t i :
  wf t -> row i (update p f t).1 = (λ r, if p i r then f r else r) <$> row i t.
Proof.
  intros Hw. destruct (row i t) as [r|] eqn:E; simpl.
  - apply in_row; [by apply wf_update|]. apply update_rows. exists r. split; [by apply row_in|done].
  - destruct (row i (update p f t).1) as [r'|] eqn:E'; [|done].
    apply row_in, update_rows in E' as (r0 & H & _). apply in_row in H; [congruence|done].
Qed.

Lemma row_delete p t i :
  wf t -> row i (delete p t).1 = match row i t with Some r => if p i r then None else Some r | None => None end.
Proof.
  intros Hw. assert (Hw' := wf_delete p t Hw). destruct (row i t) as [r|] eqn:E.
  - destruct (p i r) eqn:Ep.
    + destruct (row i (delete p t).1) as [r'|] eqn:E'; [|done].
      apply row_in, delete_rows in E' as [H Hp]. apply row_in in E.
      rewrite (wf_id_inj t i r r' Hw E H) in Ep. congruence.
    + apply in_row; [done|]. apply delete_rows. split; [by apply row_in|done].
  - destruct (row i (delete p t).1) as [r'|] eqn:E'; [|done].
    apply row_in, delete_rows in E' as [H _]. apply in_row in H; [congruence|done].
Qed.

Lemma count_pos p t : 0 < count p t <-> exists i r, (i, r) ∈ rows t /\ p i r = true.
Proof.
  unfold count. destruct (select p t) as [|[i r] l] eqn:E.
  - split; [done|]. intros (i & r & H & Hp). assert (G : (i, r) ∈ select p t) by by apply elem_of_select.
    rewrite E in G. by apply elem_of_nil in G.
  - split; [|unfold len; simpl; lia]. intros _. exists i, r. apply (elem_of_select p t (i, r)).
    rewrite E. constructor.
Qed.

Lemma count_zero p t : count p t = 0 <-> forall i r, (i, r) ∈ rows t -> p i r = false.
Proof.
  pose proof (count_pos p t) as H. assert (0 <= count p t) by apply len_nonneg. split.
  - intros E i r Hin. destruct (p i r) eqn:Ep; [|done]. assert (0 < count p t) by (apply H; eauto). lia.
  - intros Hf. destruct (decide (count p t = 0)); [done|].
    destruct (proj1 H ltac:(lia)) as (i & r & Hin & Hp). by rewrite Hf in Hp.
Qed.

Lemma count_insert p r t id t' :
  insert r t = Ok (id, t') -> count p t' = count p t + (if p id r then 1 else 0).
Proof. intros Hi. unfold count. rewrite (select_insert _ _ _ _ _ Hi), len_app. by destruct (p id r). Qed.

(** An update that neither changes nor depends on the columns [p] reads. *)
Lemma select_update_other p q f t :
  (forall i r, p i (f r) = p i r) -> (forall i r, p i r = true -> q i r = false) ->
  select p (update q f t).1 = select p t.
Proof.
  intros Hf Hpq. unfold select, update. simpl. induction (rows t) as [|[i r] l IH]; [done|].
  cbn [fmap list_fmap List.filter fst snd]. rewrite IH. destruct (q i r) eqn:Eq; cbn [fst snd]; [|done].
  rewrite Hf. destruct (p i r) eqn:Ep; [|done]. by rewrite (Hpq i r Ep) in Eq.
Qed.

Lemma count_update p q f t :
  (forall i r, p i (f r) = p i r) -> count p (update q f t).1 = count p t.
Proof.
  intros Hf. unfold count, select, update, len. simpl. f_equal. induction (rows t) as [|[i r] l IH]; [done|].
  cbn [fmap list_fmap List.filter fst snd]. destruct (q i r); cbn [fst snd]; rewrite ?Hf;
    destruct (p i r); simpl; by rewrite IH.
Qed.

Lemma count_delete_le p q t : count p (delete q t).1 <= count p t.
Proof.
  unfold count, select, delete, len. simpl. induction (rows t) as [|[i r] l IH]; [done|].
  cbn [List.filter fst snd]. destruct (q i r); cbn [negb List.filter fst snd];
    destruct (p i r); simpl in *; lia.
Qed.
End Table.

Lemma filter_one {A} (p : A -> bool) l x :
  x ∈ l -> NoDup l -> (forall y, y ∈ l -> p y = true <-> y = x) -> List.filter p l = [x].
Proof.
  induction l as [|y l IH]; intros Hx Hn Hp; [by apply elem_of_nil in Hx|].
  apply NoDup_cons in Hn as [Hy Hn]. simpl.
  assert (Hr : forall z, z ∈ l -> p z = true <-> z = x) by (intros; apply Hp; by constructor).
  apply elem_of_cons in Hx as [->|Hx].
  - rewrite (proj2 (Hp y ltac:(constructor)) eq_refl). f_equal.
    clear -Hy Hr. induction l as [|z l IH]; [done|]. simpl.
    destruct (p z) eqn:E; [|apply IH; [set_solver|intros; apply Hr; by constructor]].
    apply Hr in E; [|constructor]. subst. set_solver.
  - destruct (p y) eqn:E; [|by apply IH]. apply Hp in E; [|constructor]. subst. done.
Qed.

Lemma NoDup_rows {R} (t : table R) : wf t -> NoDup (rows t).
Proof. intros [Hs _ _]. by apply NoDup_sorted, NoDup_fmap_1 in Hs. Qed.

Lemma select_one {R} (p : Z -> R -> bool) (t : table R) i r :
  wf t -> (i, r) ∈ rows t -> (forall j s, (j, s) ∈ rows t -> p j s = true <-> j = i) ->
  select p t = [(i, r)].
Proof.
  intros Hw Hi Hp. apply filter_one; [done|by apply NoDup_rows|]. intros [j s] Hj. simpl. rewrite (Hp j s Hj).
  split; [|naive_solver]. intros ->. f_equal. by eapply wf_id_inj.
Qed.

Lemma select_by_id {R} (t : table R) i : wf t -> select (by_id i) t = option_list (pair i <$> row i t).
Proof.
  intros Hw. destruct (row i t) as [r|] eqn:E; simpl.
  - apply select_one; [done|by apply row_in|]. intros j s _. unfold by_id. apply Z.eqb_eq.
  - unfold row in E. unfold by_id. by destruct (select _ t).
Qed.

(** The rows matching a condition on one id. *)
Lemma count_at {R} (p : Z -> R -> bool) id (t : table R) :
  wf t -> (forall i r, p i r = true -> i = id) ->
  count p t = match row id t with Some r => if p id r then 1 else 0 | None => 0 end.
Proof.
  intros Hw Hp. destruct (row id t) as [r|] eqn:E.
  - destruct (p id r) eqn:Ep.
    + unfold count. rewrite (select_one _ t id r); [done|done|by apply row_in|].
      intros j s Hj. split; [by apply Hp|]. intros ->. by rewrite (wf_id_inj t id s r Hw Hj (row_in _ _ _ E)).
    + apply count_zero. intros i s Hi. apply not_true_iff_false. intros Hs. assert (i = id) as -> by by eapply Hp.
      apply (in_row _ _ _ Hw) in Hi. congruence.
  - apply count_zero. intros i s Hi. apply not_true_iff_false. intros Hs. assert (i = id) as -> by by eapply Hp.
    apply (in_row _ _ _ Hw) in Hi. congruence.
Qed.

Lemma count_update_id {R} (p : Z -> R -> bool) id f (t : table R) r :
  wf t -> row id t = Some r ->
  count p (update (by_id id) f t).1 = count p t - (if p id r then 1 else 0) + (if p id (f r) then 1 else 0).
Proof.
  intros Hw Hr. apply row_in in Hr. pose proof (wf_sorted t Hw) as Hs. apply NoDup_sorted in Hs.
  unfold ids, count, select, update, by_id in *. cbn [rows fst]. induction (rows t) as [|[j s] l IH];
    [by apply elem_of_nil in Hr|]. cbn [fmap list_fmap fst snd] in *. apply NoDup_cons in Hs as [Hj Hs].
  assert (Hother : forall k, id ∉ k.*1 -> List.filter (λ x, p x.1 x.2) ((λ x, if x.1 =? id then (x.1, f x.2) else x) <$> k) =
                             List.filter (λ x : Z * R, p x.1 x.2) k).
  { induction k as [|[a b] k IHk]; [done|]. cbn [fmap list_fmap fst snd List.filter]. intros [Ha Hk]%not_elem_of_cons.
    rewrite (proj2 (Z.eqb_neq a id)) by congruence. cbn [fst snd]. by rewrite IHk. }
  destruct (Z.eqb_spec j id) as [->|Hne]; cbn [List.filter fst snd].
  - apply elem_of_cons in Hr as [[= ->]|Hr].
    + rewrite Hother by done. unfold len. destruct (p id s), (p id (f s)); cbn [length]; lia.
    + destruct Hj. apply list_elem_of_fmap. by exists (id, r).
  - apply elem_of_cons in Hr as [[= ->]|Hr]; [done|]. specialize (IH Hr Hs).
    unfold len in *. destruct (p j s); cbn [length]; lia.
Qed.

#[export] Hint Resolve wf_empty wf_insert wf_update wf_delete : go.

(** ** Orders of a result set *)

(** BINARY collation: memcmp. *)
Fixpoint text_leb (a b : bytes) : bool :=
  match a, b with
  | [], _ => true
  | _ :: _, [] => false
  | x :: a', y :: b' => (x <? y) || ((x =? y) && text_leb a' b')
  end.

(** ORDER BY a key; rows with equal keys, which SQL leaves in any order, stay
    in rowid order. *)
Fixpoint insert_by {A} (le : A -> A -> bool) (x : A) (l : list A) : list A :=
  match l with
  | [] => [x]
  | y :: l' => if le x y then x :: l else y :: insert_by le x l'
  end.

Definition order_by {A} (le : A -> A -> bool) (l : list A) : list A := foldr (insert_by le) [] l.

Lemma insert_by_Permutation {A} (le : A -> A -> bool) x l : insert_by le x l ≡ₚ x :: l.
Proof.
  induction l as [|y l IH]; simpl; [done|]. destruct (le x y); [done|].
  rewrite IH. apply Permutation_swap.
Qed.

Lemma order_by_Permutation {A} (le : A -> A -> bool) l : order_by le l ≡ₚ l.
Proof. induction l as [|x l IH]; simpl; [done|]. by rewrite insert_by_Permutation, IH. Qed.

Lemma order_by_sorted {A} (le : A -> A -> bool) l :
  (forall x y, le x y = false -> le y x = true) -> Sorted (λ x y, le x y = true) (order_by le l).
Proof.
  intros Ht. induction l as [|x l IH]; simpl; [constructor|].
  induction IH as [|y k Hs IHs Hd]; simpl; [by repeat constructor|].
  destruct (le x y) eqn:E; [repeat constructor; done|].
  constructor; [done|]. destruct Hd as [|z k Hz]; simpl; [constructor; by apply Ht|].
  destruct (le x z); constructor; [by apply Ht|done].
Qed.

Lemma text_leb_total a b : text_leb a b = false -> text_leb b a = true.
Proof.
  revert b. induction a as [|x a IH]; intros [|y b]; simpl; try done.
  rewrite orb_false_iff, orb_true_iff, andb_false_iff, Z.ltb_ge, Z.ltb_lt.
  intros [H1 H2]. destruct (Z.eqb_spec x y) as [->|]; [|left; lia].
  right. rewrite Z.eqb_refl. simpl. apply IH. by destruct H2.
Qed.

Lemma text_leb_refl a : text_leb a a = true.
Proof. induction a as [|x a IH]; simpl; [done|]. by rewrite Z.eqb_refl, IH, orb_true_r. Qed.

(** ** NULL *)

Definition is_null {A} (o : option A) : bool := match o with None => true | Some _ => false end.
