(* ===== verification/Users.v ===== *)
(** * Accounts (src/store/users.go, membership.go, anomalies.go)

    The [user], [membership] and [login_anomaly] tables and their repositories.
    The clock and the nonces of sealed columns are arguments. *)

From S2P Require Import Prelude GoStrings GoTime Vault Sql.

Definition StatusPending : bytes := str "pending".
Definition StatusApproved : bytes := str "approved".
Definition StatusDenied : bytes := str "denied".
Definition StatusSuspended : bytes := str "suspended".

(** ** The points column

    SQLite adds two integers exactly while the sum fits 64 bits and as doubles
    otherwise; storing into an INTEGER column turns a double back into an
    integer when it is one strictly inside the 64-bit range. *)

Inductive sqlnum := SqlInt (n : Z) | SqlReal (n : Z).

#[export] Instance sqlnum_eq_dec : EqDecision sqlnum.
Proof. solve_decision. Defined.

(** An integer rounded to a double's 53-bit significand, ties to even. *)
Definition round53 (x : Z) : Z :=
  let a := Z.abs x in
  let e := Z.max 0 (Z.log2 a - 52) in
  let q := a / 2 ^ e in
  let r := a mod 2 ^ e in
  let up := (2 ^ e <? 2 * r) || ((2 * r =? 2 ^ e) && Z.odd q) in
  Z.sgn x * 2 ^ e * (if up && (0 <? e) then q + 1 else q).

Definition store_real (x : Z) : sqlnum :=
  if (-9223372036854775808 <? x) && (x <? 9223372036854775807) then SqlInt x else SqlReal x.

Definition sql_add (c : sqlnum) (d : Z) : sqlnum :=
  match c with
  | SqlInt n => if int64_okb (n + d) then SqlInt (n + d) else store_real (round53 (round53 n + round53 d))
  | SqlReal n => store_real (round53 (n + round53 d))
  end.

(** Scanning the column into a Go [int]. *)
Definition scan_int (c : sqlnum) : result err Z :=
  match c with SqlInt n => Ok n | SqlReal _ => Err ErrScan end.

(** ** Rows and records *)

(** A row of [user]. *)
Record userRow := UserRow {
  c_handle : bytes; c_password_hash : bytes; c_real_name : bytes; c_email : bytes;
  c_access_level : Z; c_status : bytes; c_daily_minutes : Z; c_points : sqlnum;
  c_colorblind : Z; c_created_at : bytes; c_last_login_at : option bytes; c_last_login_ip : bytes
}.

(** [store.User]. *)
Record User := MkUser {
  ID : Z; Handle : bytes; PasswordHash : bytes; RealName : bytes; Email : bytes;
  AccessLevel : Z; Status : bytes; DailyMinutes : Z; Points : Z; Colorblind : bool;
  CreatedAt : Z; LastLoginAt : option Z
}.

(** The columns one UPDATE sets. *)
Definition set_status (s : bytes) (l : Z) (r : userRow) : userRow :=
  UserRow (c_handle r) (c_password_hash r) (c_real_name r) (c_email r) l s (c_daily_minutes r)
    (c_points r) (c_colorblind r) (c_created_at r) (c_last_login_at r) (c_last_login_ip r).
Definition set_password (h : bytes) (r : userRow) : userRow :=
  UserRow (c_handle r) h (c_real_name r) (c_email r) (c_access_level r) (c_status r) (c_daily_minutes r)
    (c_points r) (c_colorblind r) (c_created_at r) (c_last_login_at r) (c_last_login_ip r).
Definition set_minutes (m : Z) (r : userRow) : userRow :=
  UserRow (c_handle r) (c_password_hash r) (c_real_name r) (c_email r) (c_access_level r) (c_status r) m
    (c_points r) (c_colorblind r) (c_created_at r) (c_last_login_at r) (c_last_login_ip r).
Definition set_points (p : sqlnum) (r : userRow) : userRow :=
  UserRow (c_handle r) (c_password_hash r) (c_real_name r) (c_email r) (c_access_level r) (c_status r)
    (c_daily_minutes r) p (c_colorblind r) (c_created_at r) (c_last_login_at r) (c_last_login_ip r).
Definition set_colorblind (b : Z) (r : userRow) : userRow :=
  UserRow (c_handle r) (c_password_hash r) (c_real_name r) (c_email r) (c_access_level r) (c_status r)
    (c_daily_minutes r) (c_points r) b (c_created_at r) (c_last_login_at r) (c_last_login_ip r).
Definition set_login (t ip : bytes) (r : userRow) : userRow :=
  UserRow (c_handle r) (c_password_hash r) (c_real_name r) (c_email r) (c_access_level r) (c_status r)
    (c_daily_minutes r) (c_points r) (c_colorblind r) (c_created_at r) (Some t) ip.
Definition set_sealed (name email : bytes) (r : userRow) : userRow :=
  UserRow (c_handle r) (c_password_hash r) name email (c_access_level r) (c_status r) (c_daily_minutes r)
    (c_points r) (c_colorblind r) (c_created_at r) (c_last_login_at r) (c_last_login_ip r).

Abbreviation users := (table userRow).

(** A row of [login_anomaly] and [store.LoginAnomaly]. *)
Record anomalyRow := AnomalyRow {
  a_user_id : Z; a_prev_ip : bytes; a_new_ip : bytes; a_gap_seconds : Z; a_at : bytes
}.
Record LoginAnomaly := MkAnomaly {
  AID : Z; AUserID : Z; PrevIP : bytes; NewIP : bytes; GapSeconds : Z; At : Z
}.

Definition RapidLoginWindow : Z := 15 * Minute.

Section Users.
Context `{Crypto}.
Variable v : Vault.

Definition Users_scan (id : Z) (r : userRow) : result err User :=
  match scan_int (c_points r) with
  | Err e => Err e
  | Ok pts =>
      match open v (c_real_name r), open v (c_email r) with
      | Ok name, Ok email =>
          Ok (MkUser id (c_handle r) (c_password_hash r) name email (c_access_level r) (c_status r)
                (c_daily_minutes r) pts (negb (c_colorblind r =? 0)) (parseTime (c_created_at r))
                (parseTime <$> c_last_login_at r))
      | Err e, _ => Err (ErrVault e)
      | Ok _, Err e => Err (ErrVault e)
      end
  end.

(** QueryRow: the first row of a result. *)
Definition first_user (l : list (Z * userRow)) : result err User :=
  match l with [] => Err ErrNotFound | (id, r) :: _ => Users_scan id r end.

Definition Users_ByID (id : Z) (t : users) : result err User := first_user (select (by_id id) t).

Definition same_handle (h : bytes) : Z -> userRow -> bool := λ _ r, nocase_eqb (c_handle r) h.

Definition Users_ByHandle (handle : bytes) (t : users) : result err User :=
  first_user (select (same_handle handle) t).

Definition Users_Create (handle passwordHash realName email : bytes) (now : Z) (n1 n2 : bytes)
    (t : users) : result err User * users :=
  let r := UserRow handle passwordHash (seal v n1 realName) (seal v n2 email) 0 StatusPending 0
             (SqlInt 0) 0 (fmtTime now) None [] in
  if 0 <? count (same_handle handle) t then (Err ErrUnique, t)
  else match insert r t with
       | Err e => (Err e, t)
       | Ok (id, t') => (Users_ByID id t', t')
       end.

Definition Users_SetStatus (id : Z) (status : bytes) (level : Z) (t : users) : users :=
  (update (by_id id) (set_status status level) t).1.

Definition Users_Approve (id level : Z) (t : users) : users := Users_SetStatus id StatusApproved level t.

Definition Users_SetPassword (id : Z) (h : bytes) (t : users) : users :=
  (update (by_id id) (set_password h) t).1.

Definition Users_SetDailyMinutes (id m : Z) (t : users) : users :=
  (update (by_id id) (set_minutes m) t).1.

Definition Users_SetColorblind (id : Z) (on : bool) (t : users) : users :=
  (update (by_id id) (set_colorblind (if on then 1 else 0)) t).1.

Definition Users_AddPoints (id delta : Z) (t : users) : result err Z * users :=
  let t' := (update (by_id id) (λ r, set_points (sql_add (c_points r) delta) r) t).1 in
  (match row id t' with None => Err ErrNoRows | Some r => scan_int (c_points r) end, t').

Definition Users_All (t : users) : result err (list User) :=
  mapR (λ x, Users_scan x.1 x.2) (rows t).

Definition Users_ListByStatus (status : bytes) (t : users) : result err (list User) :=
  mapR (λ x, Users_scan x.1 x.2) (select (λ _ r, beq (c_status r) status) t).

Definition Users_TouchLogin (id when : Z) (t : users) : users :=
  (update (by_id id) (λ r, set_login (fmtTime when) (c_last_login_ip r) r) t).1.

(** Whether a login of [ip] at [when] is a rapid change of address; the gap. *)
Definition rapid_change (r : userRow) (ip : bytes) (when : Z) : option Z :=
  if negb (beq (c_last_login_ip r) []) && negb (beq ip []) && negb (beq (c_last_login_ip r) ip) then
    match c_last_login_at r with
    | Some prev =>
        let gap := when - parseTime prev in
        if (0 <=? gap) && (gap <? RapidLoginWindow) then Some gap else None
    | None => None
    end
  else None.

Definition Users_RecordLogin (id : Z) (ip : bytes) (when : Z) (t : users) (an : table anomalyRow) :
    result err bool * users * table anomalyRow :=
  match row id t with
  | None => (Err ErrNoRows, t, an)
  | Some r =>
      let t' := (update (by_id id) (set_login (fmtTime when) ip) t).1 in
      match rapid_change r ip when with
      | Some gap =>
          match insert (AnomalyRow id (c_last_login_ip r) ip (gap / Second) (fmtTime when)) an with
          | Err e => (Err e, t, an)
          | Ok (_, an') => (Ok true, t', an')
          end
      | None => (Ok false, t', an)
      end
  end.

(** ** anomalies.go *)

Definition Anomalies_scan (x : Z * anomalyRow) : LoginAnomaly :=
  MkAnomaly x.1 (a_user_id x.2) (a_prev_ip x.2) (a_new_ip x.2) (a_gap_seconds x.2) (parseTime (a_at x.2)).

Definition Anomalies_Recent (limit : Z) (an : table anomalyRow) : list LoginAnomaly :=
  Anomalies_scan <$> take (Z.to_nat (if limit <=? 0 then 20 else limit)) (reverse (rows an)).

Definition Anomalies_Count (an : table anomalyRow) : Z := len (rows an).
End Users.

(** ** membership.go *)

Definition DecisionPending : bytes := str "pending".
Definition DecisionApproved : bytes := str "approved".
Definition DecisionDenied : bytes := str "denied".

Record membershipRow := MembershipRow {
  m_user_id : Z; m_applied_at : bytes; m_reviewed_by : option Z; m_reviewed_at : option bytes;
  m_decision : bytes; m_note : bytes
}.

Record Membership := MkMembership {
  MID : Z; MUserID : Z; AppliedAt : Z; ReviewedBy : option Z; ReviewedAt : option Z;
  Decided : bytes; Note : bytes
}.

Definition user_exists (id : Z) (us : users) : bool := 0 <? count (by_id id) us.

Section Memberships.
Context `{Crypto}.
Variable v : Vault.

Definition Memberships_scan (id : Z) (r : membershipRow) : result err Membership :=
  match open v (m_note r) with
  | Err e => Err (ErrVault e)
  | Ok note =>
      Ok (MkMembership id (m_user_id r) (parseTime (m_applied_at r)) (m_reviewed_by r)
            (parseTime <$> m_reviewed_at r) (m_decision r) note)
  end.

Definition Memberships_ByID (id : Z) (t : table membershipRow) : result err Membership :=
  match row id t with None => Err ErrNoRows | Some r => Memberships_scan id r end.

Definition Memberships_Apply (us : users) (userID : Z) (note : bytes) (now : Z) (n : bytes)
    (t : table membershipRow) : result err Membership * table membershipRow :=
  if negb (user_exists userID us) then (Err ErrForeignKey, t)
  else match insert (MembershipRow userID (fmtTime now) None None DecisionPending (seal v n note)) t with
       | Err e => (Err e, t)
       | Ok (id, t') => (Memberships_ByID id t', t')
       end.

Definition set_review (by_ : Z) (at_ d n : bytes) (r : membershipRow) : membershipRow :=
  MembershipRow (m_user_id r) (m_applied_at r) (Some by_) (Some at_) d n.

Definition Memberships_Review (us : users) (id reviewerID : Z) (decision note : bytes) (now : Z) (n : bytes)
    (t : table membershipRow) : result err () * table membershipRow :=
  if (0 <? count (by_id id) t) && negb (user_exists reviewerID us) then (Err ErrForeignKey, t)
  else (Ok (), (update (by_id id) (set_review reviewerID (fmtTime now) decision (seal v n note)) t).1).

Definition Memberships_Pending (t : table membershipRow) : result err (list Membership) :=
  mapR (λ x, Memberships_scan x.1 x.2) (select (λ _ r, beq (m_decision r) DecisionPending) t).
End Memberships.

(** ** Lemmas *)

Lemma nocase_sym a b : nocase_eqb a b = nocase_eqb b a.
Proof. unfold nocase_eqb, beq. apply bool_decide_ext. naive_solver. Qed.

Lemma nocase_trans a b c : nocase_eqb a b = true -> nocase_eqb b c = true -> nocase_eqb a c = true.
Proof. unfold nocase_eqb. rewrite !beq_true. congruence. Qed.

Lemma nocase_refl a : nocase_eqb a a = true.
Proof. unfold nocase_eqb. apply beq_refl. Qed.

(** Handles are distinct whatever their case. *)
Definition handles_unique (t : users) : Prop :=
  forall i r j s, (i, r) ∈ rows t -> (j, s) ∈ rows t -> nocase_eqb (c_handle r) (c_handle s) = true -> i = j.

(** An update that leaves the handle column alone. *)
Lemma handles_update p f (t : users) :
  (forall r, c_handle (f r) = c_handle r) -> handles_unique t -> handles_unique (update p f t).1.
Proof.
  intros Hf Hu i r j s Hi Hj E. apply update_rows in Hi as (r0 & Hi & ->), Hj as (s0 & Hj & ->).
  apply (Hu i r0 j s0 Hi Hj).
  by destruct (p i r0), (p j s0); rewrite ?Hf in E.
Qed.

Lemma handles_insert r (t : users) id t' :
  handles_unique t -> count (same_handle (c_handle r)) t = 0 -> insert r t = Ok (id, t') -> handles_unique t'.
Proof.
  intros Hu H0 Hi i a j b Ha Hb E. rewrite (insert_rows _ _ _ _ Hi) in Ha, Hb.
  rewrite count_zero in H0. unfold same_handle in H0.
  apply elem_of_app in Ha as [Ha|Ha%list_elem_of_singleton], Hb as [Hb|Hb%list_elem_of_singleton].
  - by eapply Hu.
  - injection Hb as -> ->. by rewrite (H0 i a Ha) in E.
  - injection Ha as -> ->. rewrite nocase_sym in E. by rewrite (H0 j b Hb) in E.
  - congruence.
Qed.

Section Props.
Context `{Crypto}.
Variable v : Vault.

(** Every operation of the repository, on any arguments. *)
Inductive users_step : users -> users -> Prop :=
  | st_create h p n e now n1 n2 t t' u : Users_Create v h p n e now n1 n2 t = (u, t') -> users_step t t'
  | st_status id s l t : users_step t (Users_SetStatus id s l t)
  | st_approve id l t : users_step t (Users_Approve id l t)
  | st_password id h t : users_step t (Users_SetPassword id h t)
  | st_minutes id m t : users_step t (Users_SetDailyMinutes id m t)
  | st_colorblind id b t : users_step t (Users_SetColorblind id b t)
  | st_points id d t : users_step t (Users_AddPoints id d t).2
  | st_touch id w t : users_step t (Users_TouchLogin id w t)
  | st_login id ip w t an x t' an' : Users_RecordLogin id ip w t an = (x, t', an') -> users_step t t'.

Lemma Create_inv h p n e now n1 n2 t u t' :
  Users_Create v h p n e now n1 n2 t = (u, t') ->
  (u = Err ErrUnique /\ t' = t /\ 0 < count (same_handle h) t) \/
  (count (same_handle h) t = 0 /\
   ((u = Err ErrFull /\ t' = t) \/
    exists id, insert (UserRow h p (seal v n1 n) (seal v n2 e) 0 StatusPending 0 (SqlInt 0) 0
                        (fmtTime now) None []) t = Ok (id, t') /\ u = Users_ByID v id t')).
Proof.
  unfold Users_Create. destruct (Z.ltb_spec 0 (count (same_handle h) t)) as [Hc|Hc].
  { intros [= <- <-]. by left. }
  right. split; [pose proof (len_nonneg (select (same_handle h) t)); unfold count in *; lia|].
  destruct (insert _ t) as [[id t'']|e'] eqn:Ei.
  - injection H0 as <- <-. right. by exists id.
  - injection H0 as <- <-. left. split; [|done]. unfold insert in Ei.
    destruct (seq t <? maxRowid); [done|congruence].
Qed.

Lemma login_update id ip w t an x t' an' :
  Users_RecordLogin id ip w t an = (x, t', an') ->
  t' = t \/ t' = (update (by_id id) (set_login (fmtTime w) ip) t).1.
Proof. unfold Users_RecordLogin. repeat go_case; intros [= <- <- <-]; auto. Qed.

Lemma step_inv t t' : users_step t t' -> wf t -> handles_unique t -> wf t' /\ handles_unique t'.
Proof.
  intros Hs Hw Hu. destruct Hs; try (split; [by apply wf_update|by apply handles_update]).
  - apply Create_inv in H0 as [(_ & -> & _)|(Hc & [(_ & ->)|(id & Hi & _)])]; [done..|].
    split; [by eapply wf_insert|]. by refine (handles_insert _ _ _ _ Hu _ Hi).
  - apply login_update in H0 as [->| ->]; [done|]. split; [by apply wf_update|by apply handles_update].
Qed.

Lemma reachable_inv t : rtc users_step empty_table t -> wf t /\ handles_unique t.
Proof.
  intros Hr. remember (empty_table : users) as t0 eqn:E.
  assert (H0 : wf t0 /\ handles_unique t0).
  { subst. split; [apply wf_empty|]. intros i r j s Hi. by apply elem_of_nil in Hi. }
  clear E. induction Hr as [|x y z Hxy _ IH]; [done|]. apply IH. destruct H0. by eapply step_inv.
Qed.

(** In every state the operations can reach, no two accounts share a
    handle up to case, a login name in any case finds its one account, and
    [Create] of a taken handle in any case changes nothing and says so. *)
Theorem handles_are_unique (t : users) (i : Z) (r : userRow) (h : bytes)
  (Ht : rtc users_step empty_table t) (Hi : (i, r) ∈ rows t)
  (Hh : nocase_eqb (c_handle r) h = true) :
  Users_ByHandle v h t = Users_ByID v i t /\
  (forall j s, (j, s) ∈ rows t -> nocase_eqb (c_handle s) h = true -> j = i /\ s = r) /\
  (forall p n e now n1 n2, Users_Create v h p n e now n1 n2 t = (Err ErrUnique, t)).
Proof.
  destruct (reachable_inv t Ht) as [Hw Hu].
  assert (Hone : forall j s, (j, s) ∈ rows t -> nocase_eqb (c_handle s) h = true -> j = i /\ s = r).
  { intros j s Hj Hs. assert (j = i) as ->.
    { apply (Hu j s i r Hj Hi). eapply nocase_trans; [done|]. by rewrite nocase_sym. }
    split; [done|]. by eapply wf_id_inj. }
  split_and!; [|done|].
  - unfold Users_ByHandle, Users_ByID. rewrite select_by_id, (in_row _ _ _ Hw Hi) by done. simpl.
    rewrite (select_one (same_handle h) t i r); [done..|].
    intros j s Hj. unfold same_handle. split; [by intros; eapply Hone|].
    intros ->. by rewrite (wf_id_inj t i s r Hw Hj Hi).
  - intros. unfold Users_Create. replace (0 <? count (same_handle h) t) with true; [done|].
    symmetry. apply Z.ltb_lt, count_pos. by exists i, r.
Qed.

(** A new account is pending, at level 0, with no points, and reads back
    with the real name and e-mail it was given, however its columns are
    sealed, until someone changes them. *)
Theorem Create_reads_back (h p n e : bytes) (now : Z) (n1 n2 : bytes) (t t' : users) (u : User)
  (HL : CryptoLaws) (Hw : wf t) (Hn1 : nonce_ok n1) (Hn2 : nonce_ok n2) (Hn : bytes_ok n) (He : bytes_ok e)
  (Hnow : time_ok now) (Hc : Users_Create v h p n e now n1 n2 t = (Ok u, t')) :
  u = MkUser (ID u) h p n e 0 StatusPending 0 0 false now None /\
  Users_ByHandle v h t' = Ok u /\ Users_ByID v (ID u) t = Err ErrNotFound /\
  (forall i, i <> ID u -> row i t' = row i t).
Proof.
  apply Create_inv in Hc as [(? & _)|(H0 & [(? & _)|(id & Hi & Hu)])]; [done..|].
  assert (Hw' := wf_insert _ _ _ _ Hw Hi). assert (Hr := row_insert _ _ _ _ Hw Hi).
  assert (Hin : (id, _) ∈ rows t') by (apply row_in; rewrite Hr, decide_True; done).
  unfold Users_ByID in Hu. rewrite select_by_id, (in_row _ _ _ Hw' Hin) in Hu by done.
  unfold first_user, Users_scan in Hu. cbn in Hu. rewrite !open_seal, parseTime_fmtTime in Hu by done.
  injection Hu as ->. cbn [ID]. split_and!; [done| | |].
  - unfold Users_ByHandle. rewrite (select_insert _ _ _ _ _ Hi).
    replace (select (same_handle h) t) with (@nil (Z * userRow)) by (symmetry; by apply len_nil_inv).
    unfold same_handle at 1. cbn [c_handle]. rewrite nocase_refl. unfold first_user, Users_scan. cbn.
    by rewrite !open_seal, parseTime_fmtTime.
  - unfold Users_ByID. rewrite select_by_id by done.
    by rewrite (proj1 (insert_fresh _ _ _ _ Hw Hi)).
  - intros i Hne. by rewrite Hr, decide_False.
Qed.
End Props.

(** ** Points past 64 bits *)

Lemma round53_ge x : 2 ^ 63 - 512 <= x < 2 ^ 64 -> 2 ^ 63 <= round53 x.
Proof.
  intros Hx. unfold round53. rewrite Z.abs_eq, Z.sgn_pos by lia.
  destruct (decide (x < 2 ^ 63)) as [Hlt|Hge].
  - assert (El : Z.log2 x = 62) by (apply Z.log2_unique; lia). rewrite El.
    change (Z.max 0 (62 - 52)) with 10. change (2 ^ 10) with 1024. cbv zeta.
    assert (Hq : x / 1024 = 2 ^ 53 - 1) by (change (2 ^ 53 - 1) with 9007199254740991; zdiv).
    assert (Hm : 512 <= x mod 1024) by zdiv.
    rewrite Hq. change (Z.odd (2 ^ 53 - 1)) with true. rewrite andb_true_r. change (0 <? 10) with true.
    rewrite andb_true_r.
    replace ((1024 <? 2 * (x mod 1024)) || (2 * (x mod 1024) =? 1024)) with true; [lia|].
    symmetry. apply orb_true_iff. rewrite Z.ltb_lt, Z.eqb_eq. lia.
  - assert (El : Z.log2 x = 63) by (apply Z.log2_unique; lia). rewrite El.
    change (Z.max 0 (63 - 52)) with 11. change (2 ^ 11) with 2048. cbv zeta.
    assert (Hq : 2 ^ 52 <= x / 2048) by (change (2 ^ 52) with 4503599627370496; zdiv).
    change (2 ^ 63) with (2048 * 2 ^ 52). destruct (_ && (0 <? 11)); lia.
Qed.

Lemma round53_exact x : Z.abs x <= 2 ^ 53 -> round53 x = x.
Proof.
  intros Hx. unfold round53.
  assert (Hl53 : Z.log2 (Z.abs x) <= 53) by (etrans; [apply Z.log2_le_mono, Hx|by vm_compute]).
  destruct (decide (Z.log2 (Z.abs x) <= 52)) as [Hl|Hl].
  - rewrite Z.max_l by lia. cbv zeta. rewrite Z.pow_0_r, Z.div_1_r.
    change (0 <? 0) with false. rewrite andb_false_r. destruct (Z.sgn_spec x); lia.
  - assert (Ea : Z.abs x = 2 ^ 53).
    { destruct (decide (x = 0)) as [->|]; [by vm_compute in Hl|].
      pose proof (Z.log2_spec (Z.abs x) ltac:(lia)) as [Hp _]. assert (E53 : Z.log2 (Z.abs x) = 53) by lia.
      rewrite E53 in Hp. lia. }
    assert (x = 2 ^ 53 \/ x = - 2 ^ 53) as [-> | ->] by lia; done.
Qed.

Lemma round53_near n : 2 ^ 62 <= n < 2 ^ 63 -> n - 512 <= round53 n <= n + 512.
Proof.
  intros Hn. unfold round53. rewrite Z.abs_eq, Z.sgn_pos by lia.
  assert (El : Z.log2 n = 62) by (apply Z.log2_unique; lia). rewrite El.
  change (Z.max 0 (62 - 52)) with 10. change (2 ^ 10) with 1024. cbv zeta.
  change (0 <? 10) with true. rewrite andb_true_r.
  set (up := (1024 <? 2 * (n mod 1024)) || _).
  destruct up eqn:E; subst up.
  - apply orb_true_iff in E as [E|E]; [|apply andb_true_iff in E as [E _]]; bool_hyps; zdiv.
  - apply orb_false_iff in E as [E _]. bool_hyps. zdiv.
Qed.

Lemma sql_add_overflow n d :
  int64_ok n -> 0 < d <= 2 ^ 53 -> 2 ^ 63 <= n + d -> exists x, sql_add (SqlInt n) d = SqlReal x.
Proof.
  unfold int64_ok. intros Hn Hd Ho. unfold sql_add.
  replace (int64_okb (n + d)) with false by (symmetry; unfold int64_okb; rewrite andb_false_iff, !Z.leb_gt; lia).
  rewrite (round53_exact d) by lia. pose proof (round53_near n ltac:(lia)) as Hr.
  pose proof (round53_ge (round53 n + d) ltac:(lia)) as Hg.
  eexists. unfold store_real. replace (_ && _) with false; [done|].
  symmetry. apply andb_false_iff. rewrite !Z.ltb_ge. lia.
Qed.

Section More.
Context `{Crypto}.
Variable v : Vault.

(** Points added past the largest 64-bit integer turn the column into a
    floating-point number: the call reports a scan error after committing the
    change, the account can no longer be loaded, so it cannot log in, and the
    listing of all users fails for everyone; other accounts still load. *)
Theorem points_overflow (id d n : Z) (r : userRow) (t : users)
  (Hw : wf t) (Hr : row id t = Some r) (Hp : c_points r = SqlInt n) (Hn : int64_ok n)
  (Hd : 0 < d <= 2 ^ 53) (Ho : 2 ^ 63 <= n + d) :
  let '(res, t') := Users_AddPoints id d t in
  res = Err ErrScan /\ Users_ByID v id t' = Err ErrScan /\
  (exists e, Users_All v t' = Err e) /\
  (forall j, j <> id -> Users_ByID v j t' = Users_ByID v j t).
Proof.
  destruct (sql_add_overflow n d Hn Hd Ho) as [x Hx]. unfold Users_AddPoints.
  set (t' := (update _ _ t).1). assert (Hw' : wf t') by by apply wf_update.
  assert (Hrow : forall j, row j t' = (λ s, if by_id id j s then set_points (sql_add (c_points s) d) s else s) <$> row j t)
    by (intros; by apply row_update).
  assert (Hid : row id t' = Some (set_points (SqlReal x) r)).
  { rewrite Hrow, Hr. simpl. unfold by_id. by rewrite Z.eqb_refl, Hp, Hx. }
  split_and!.
  - by rewrite Hid.
  - unfold Users_ByID. by rewrite select_by_id, Hid.
  - unfold Users_All. eapply mapR_err; [by apply row_in|]. done.
  - intros j Hj. unfold Users_ByID. rewrite !select_by_id, Hrow by done.
    destruct (row j t) as [s|]; [|done]. simpl. unfold by_id. by rewrite (proj2 (Z.eqb_neq j id)).
Qed.

(** Two logins of one account in a row: the second is flagged exactly when
    both addresses are known, they differ, and it came less than fifteen
    minutes after the first (and not before it); flagged or not, the login goes
    through, is recorded, and other accounts are untouched. *)
Theorem RecordLogin_flags (id w1 w2 : Z) (ip1 ip2 : bytes) (r : userRow) (t t1 : users) (f1 : bool)
  (an an1 : table anomalyRow)
  (Hw : wf t) (Hr : row id t = Some r) (Hq : seq an < maxRowid - 1) (H1 : time_ok w1)
  (Hl : Users_RecordLogin id ip1 w1 t an = (Ok f1, t1, an1)) :
  exists t2 an2,
    Users_RecordLogin id ip2 w2 t1 an1 =
      (Ok (bool_decide (ip1 <> [] /\ ip2 <> [] /\ ip1 <> ip2 /\ 0 <= w2 - w1 < RapidLoginWindow)), t2, an2) /\
    row id t2 = Some (set_login (fmtTime w2) ip2 r) /\
    (forall j, j <> id -> row j t2 = row j t) /\
    Anomalies_Count an2 = Anomalies_Count an1 +
      (if bool_decide (ip1 <> [] /\ ip2 <> [] /\ ip1 <> ip2 /\ 0 <= w2 - w1 < RapidLoginWindow) then 1 else 0).
Proof.
  assert (E1 : t1 = (update (by_id id) (set_login (fmtTime w1) ip1) t).1 /\ seq an1 <= seq an + 1).
  { unfold Users_RecordLogin in Hl. rewrite Hr in Hl. unfold insert in Hl.
    destruct (rapid_change r ip1 w1); [|by injection Hl as <- <- <-; split; [|lia]].
    destruct (seq an <? maxRowid); [|done]. by injection Hl as <- <- <-. }
  destruct E1 as [-> Hs]. set (t1 := (update _ _ t).1) in *.
  assert (Hw1 : wf t1) by by apply wf_update.
  assert (Hr1 : row id t1 = Some (set_login (fmtTime w1) ip1 r)).
  { unfold t1. rewrite row_update, Hr by done. simpl. unfold by_id. by rewrite Z.eqb_refl. }
  assert (Hoth : forall j, j <> id -> row j (update (by_id id) (set_login (fmtTime w2) ip2) t1).1 = row j t).
  { intros j Hj. unfold t1. rewrite !row_update by (done || by apply wf_update).
    destruct (row j t) as [s|]; [|done]. simpl. unfold by_id. by rewrite (proj2 (Z.eqb_neq j id)). }
  assert (Hid : row id (update (by_id id) (set_login (fmtTime w2) ip2) t1).1 = Some (set_login (fmtTime w2) ip2 r)).
  { rewrite row_update, Hr1 by done. simpl. unfold by_id. by rewrite Z.eqb_refl. }
  unfold Users_RecordLogin. rewrite Hr1.
  assert (Hc : rapid_change (set_login (fmtTime w1) ip1 r) ip2 w2 =
    if bool_decide (ip1 <> [] /\ ip2 <> [] /\ ip1 <> ip2 /\ 0 <= w2 - w1 < RapidLoginWindow) then Some (w2 - w1) else None).
  { unfold rapid_change. cbn [c_last_login_ip c_last_login_at set_login]. rewrite parseTime_fmtTime by done.
    case_bool_decide as Hb.
    - destruct Hb as (B1 & B2 & B3 & B4). apply beq_false in B1, B2, B3. rewrite B1, B2, B3. simpl.
      by replace ((0 <=? w2 - w1) && (w2 - w1 <? RapidLoginWindow)) with true
        by (symmetry; apply andb_true_iff; rewrite Z.leb_le, Z.ltb_lt; lia).
    - repeat go_case; try done. bool_hyps. destruct Hb. rewrite !beq_false in *. split_and!; done || lia. }
  rewrite Hc. case_bool_decide.
  - unfold insert. replace (seq an1 <? maxRowid) with true by (symmetry; apply Z.ltb_lt; unfold maxRowid in *; lia).
    eexists _, _. split_and!; [done..|]. unfold Anomalies_Count. simpl. by rewrite len_app.
  - eexists _, _. split_and!; [done..|]. lia.
Qed.
End More.

(** ** Witnesses *)

Definition neo : userRow :=
  UserRow (str "Neo") [] (seal (H := toy) toy_vault toy_nonce (str "Thomas")) [] 10 StatusApproved 0
    (SqlInt maxRowid) 0 (fmtTime 0) None [].
Definition some_users : users := Table [(1, neo)] 1.

Lemma some_users_wf : wf some_users.
Proof. split; [by repeat constructor| |done]. constructor; [simpl; lia|constructor]. Defined.

Definition created : users :=
  (Users_Create (H := toy) toy_vault (str "Neo") [] (str "Thomas") (str "t@x") 0 toy_nonce toy_nonce empty_table).2.

Lemma handles_are_unique_witness :
  Users_ByHandle (H := toy) toy_vault (str "nEO") created = Users_ByID (H := toy) toy_vault 1 created.
Proof.
  assert (Hh : c_handle <$> row 1 created = Some (str "Neo")) by (vm_compute; reflexivity).
  destruct (row 1 created) as [r|] eqn:E; [|done]. injection Hh as Hh.
  apply (handles_are_unique (H := toy) toy_vault created 1 r (str "nEO")).
  - eapply rtc_once, (st_create (H := toy) toy_vault (str "Neo") [] (str "Thomas") (str "t@x") 0 toy_nonce toy_nonce).
    apply surjective_pairing.
  - by apply row_in.
  - rewrite Hh. vm_compute. reflexivity.
Defined.

Lemma Create_reads_back_witness :
  exists u, (Users_Create (H := toy) toy_vault (str "Neo") [] (str "Thomas") (str "t@x") 0 toy_nonce toy_nonce
               empty_table).1 = Ok u /\ Users_ByHandle (H := toy) toy_vault (str "Neo") created = Ok u.
Proof.
  destruct (Users_Create (H := toy) toy_vault (str "Neo") [] (str "Thomas") (str "t@x") 0 toy_nonce toy_nonce
    empty_table) as [[u|e] t'] eqn:E; [|by vm_compute in E].
  exists u. split; [done|].
  destruct (Create_reads_back (H := toy) toy_vault (str "Neo") [] (str "Thomas") (str "t@x") 0 toy_nonce
    toy_nonce empty_table t' u toy_laws) as (_ & Hb & _);
    [apply wf_empty|by_decide|by_decide|apply str_ok|apply str_ok|by_decide|exact E|].
  unfold created. rewrite E. exact Hb.
Defined.

Lemma points_overflow_witness :
  (Users_AddPoints 1 1 some_users).1 = Err ErrScan /\
  exists e, Users_All (H := toy) toy_vault (Users_AddPoints 1 1 some_users).2 = Err e.
Proof.
  pose proof (points_overflow (H := toy) toy_vault 1 1 maxRowid neo some_users some_users_wf eq_refl eq_refl
    ltac:(by unfold int64_ok, maxRowid) ltac:(done) ltac:(done)) as P.
  destruct (Users_AddPoints 1 1 some_users) as [res t']. by destruct P as (? & _ & ? & _).
Defined.

Lemma RecordLogin_flags_witness :
  exists t2 an2, Users_RecordLogin 1 (str "2.2.2.2") Minute
    (Users_RecordLogin 1 (str "1.1.1.1") 0 some_users empty_table).1.2 empty_table = (Ok true, t2, an2).
Proof.
  destruct (RecordLogin_flags 1 0 Minute (str "1.1.1.1") (str "2.2.2.2") neo some_users
    (Users_RecordLogin 1 (str "1.1.1.1") 0 some_users empty_table).1.2 false empty_table empty_table
    some_users_wf eq_refl) as (t2 & an2 & E & _); [done|by_decide|by vm_compute|].
  exists t2, an2. exact E.
Defined.
