(* ===== verification/Credentials.v ===== *)
(** * Credentials (src/store/password.go, tokens.go, keys.go)

    Password hashes, one-time approval tokens and SSH keys. *)

From S2P Require Import Prelude GoStrings Base64 Sha256 GoTime Vault Sql Users.

(** ** password.go *)

Definition argonTime : Z := 3.
Definition argonMemory : Z := 65536.
Definition argonThreads : Z := 2.
Definition argonKeyLen : Z := 32.
Definition argonSaltLen : Z := 16.
(** [argon2.Version] *)
Definition argonVersion : Z := 19.

(** [SkipSpace] of [Sscanf]: white space goes, a newline is an error. *)
Fixpoint SkipSpace (fuel : nat) (s : bytes) : option bytes :=
  match fuel with
  | O => None
  | S f =>
      match s with
      | [] => Some []
      | b :: s' =>
          if b =? 10 then None
          else if ascii_space b then SkipSpace f s'
          else match wide_space s with Some n => SkipSpace f (drop n s) | None => Some s end
      end
  end.

Fixpoint scan_digits (s : bytes) : bytes * bytes :=
  match s with
  | b :: s' => match digit b with Some _ => let '(d, r) := scan_digits s' in (b :: d, r) | None => ([], s) end
  | [] => ([], [])
  end.

(** The verb [%d] into an integer of the given bounds; a sign is read only for
    a signed one. *)
Definition scan_d (signed : bool) (lo hi : Z) (s : bytes) : option (Z * bytes) :=
  match SkipSpace (S (length s)) s with
  | None => None
  | Some s1 =>
      let '(neg, s2) := match s1 with
                        | b :: t => if signed && (b =? 43) then (false, t)
                                    else if signed && (b =? 45) then (true, t) else (false, s1)
                        | [] => (false, s1)
                        end in
      match scan_digits s2 with
      | ([], _) => None
      | (ds, r) =>
          match undec 0 ds with
          | Some n => let x := if neg then - n else n in
                      if (lo <=? x) && (x <=? hi) then Some (x, r) else None
          | None => None
          end
      end
  end.

(** A literal of the format. *)
Fixpoint scan_lit (p s : bytes) : option bytes :=
  match p, s with
  | [], _ => Some s
  | a :: p', b :: s' => if a =? b then scan_lit p' s' else None
  | _ :: _, [] => None
  end.

(** [Sscanf(s, "v=%d", &version)] *)
Definition scan_version (s : bytes) : option Z :=
  match scan_lit (str "v=") s with
  | Some s1 => fst <$> scan_d true (-9223372036854775808) 9223372036854775807 s1
  | None => None
  end.

(** [Sscanf(s, "m=%d,t=%d,p=%d", &mem, &time, &threads)] *)
Definition scan_params (s : bytes) : option (Z * Z * Z) :=
  match scan_lit (str "m=") s with
  | None => None
  | Some s1 =>
      match scan_d false 0 4294967295 s1 with
      | None => None
      | Some (m, s2) =>
          match scan_lit (str ",t=") s2 with
          | None => None
          | Some s3 =>
              match scan_d false 0 4294967295 s3 with
              | None => None
              | Some (t, s4) =>
                  match scan_lit (str ",p=") s4 with
                  | None => None
                  | Some s5 =>
                      match scan_d false 0 255 s5 with
                      | None => None
                      | Some (p, _) => Some (m, t, p)
                      end
                  end
              end
          end
      end
  end.

(** [argon2.IDKey] panics on zero rounds or zero threads. *)
Inductive verdict := VOk (b : bool) | VBadHash | VPanic.

#[export] Instance verdict_eq_dec : EqDecision verdict.
Proof. solve_decision. Defined.

Section Password.
Context `{Crypto}.

Definition HashPassword (password salt : bytes) : bytes :=
  let hash := argon2id password salt argonTime argonMemory argonThreads argonKeyLen in
  str "$argon2id$v=" ++ Itoa argonVersion ++ str "$m=" ++ Itoa argonMemory ++ str ",t=" ++ Itoa argonTime ++
  str ",p=" ++ Itoa argonThreads ++ str "$" ++ RawStdEncode salt ++ str "$" ++ RawStdEncode hash.

Definition VerifyPassword (encoded password : bytes) : verdict :=
  match Split encoded 36 with
  | [_; alg; ver; params; salt64; hash64] =>
      if negb (beq alg (str "argon2id")) then VBadHash
      else match scan_version ver with
           | None => VBadHash
           | Some version =>
               if negb (version =? argonVersion) then VBadHash
               else match scan_params params with
                    | None => VBadHash
                    | Some (mem, time, threads) =>
                        match RawStdDecode salt64, RawStdDecode hash64 with
                        | Some salt, Some want =>
                            if (time <? 1) || (threads <? 1) then VPanic
                            else VOk (beq (argon2id password salt time mem threads (u32 (len want))) want)
                        | _, _ => VBadHash
                        end
                    end
           end
  | _ => VBadHash
  end.
End Password.

(** ** tokens.go *)

Definition TokenTTL : Z := 72 * Hour.

Definition hashToken (plain : bytes) : bytes := RawStdEncode (Sum256 plain).

Record tokenRow := TokenRow {
  t_user_id : Z; t_hash : bytes; t_expires_at : bytes; t_used_at : option bytes
}.

Definition set_used (at_ : bytes) (r : tokenRow) : tokenRow :=
  TokenRow (t_user_id r) (t_hash r) (t_expires_at r) (Some at_).

(** [raw]: the 32 random bytes. *)
Definition Tokens_Issue (us : users) (userID : Z) (raw : bytes) (now : Z) (t : table tokenRow) :
    result err bytes * table tokenRow :=
  let plain := RawURLEncode raw in
  if negb (user_exists userID us) then (Err ErrForeignKey, t)
  else match insert (TokenRow userID (hashToken plain) (fmtTime (now + TokenTTL)) None) t with
       | Err e => (Err e, t)
       | Ok (_, t') => (Ok plain, t')
       end.

(** The loop over the user's unused tokens. *)
Definition token_match (want : bytes) (now : Z) (x : Z * tokenRow) : bool :=
  beq (t_hash x.2) want && (now <? parseTime (t_expires_at x.2)).

Definition unused (userID : Z) : Z -> tokenRow -> bool :=
  λ _ r, (t_user_id r =? userID) && is_null (t_used_at r).

Definition Redeem_find (userID : Z) (plain : bytes) (now : Z) (t : table tokenRow) : option Z :=
  fst <$> List.find (token_match (hashToken plain) now) (select (unused userID) t).

(** The UPDATE that consumes the token, unless someone was faster. *)
Definition Redeem_mark (id now : Z) (t : table tokenRow) : result err () * table tokenRow :=
  let '(t', n) := update (λ i r, (i =? id) && is_null (t_used_at r)) (set_used (fmtTime now)) t in
  (if n =? 1 then Ok () else Err ErrTokenInvalid, t').

Definition Tokens_Redeem (userID : Z) (plain : bytes) (now : Z) (t : table tokenRow) :
    result err () * table tokenRow :=
  match Redeem_find userID plain now t with
  | None => (Err ErrTokenInvalid, t)
  | Some id => Redeem_mark id now t
  end.

(** ** keys.go *)

(** golang.org/x/crypto/ssh: parsing an authorized_keys line to a public key and
    its comment, its canonical line, and its SHA256 fingerprint. *)
Class SshKeys := {
  ParseAuthorizedKey : bytes -> option (bytes * bytes);
  MarshalAuthorizedKey : bytes -> bytes;
  FingerprintSHA256 : bytes -> bytes
}.

Definition SysOpLevel : Z := 80.

Record keyRow := KeyRow {
  k_user_id : Z; k_public_key : bytes; k_fingerprint : bytes; k_comment : bytes;
  k_added_at : bytes; k_revoked_at : option bytes
}.

Record Key := MkKey {
  KID : Z; KUserID : Z; PublicKey : bytes; Fingerprint : bytes; Comment : bytes;
  AddedAt : Z; RevokedAt : option Z
}.

Definition set_revoked (at_ : bytes) (r : keyRow) : keyRow :=
  KeyRow (k_user_id r) (k_public_key r) (k_fingerprint r) (k_comment r) (k_added_at r) (Some at_).

Definition is_sysop (level : Z) : bool := SysOpLevel <=? level.

Section Keys.
Context `{SshKeys}.

Definition ValidatePublicKey (line : bytes) : bool := negb (is_null (ParseAuthorizedKey line)).

Definition Keys_scan (x : Z * keyRow) : Key :=
  MkKey x.1 (k_user_id x.2) (k_public_key x.2) (k_fingerprint x.2) (k_comment x.2)
    (parseTime (k_added_at x.2)) (parseTime <$> k_revoked_at x.2).

Definition Keys_byID (id : Z) (t : table keyRow) : result err Key :=
  match row id t with None => Err ErrNoRows | Some r => Ok (Keys_scan (id, r)) end.

(** Active keys of that fingerprint on other accounts, with the owner's level. *)
Definition others_level (us : users) (userID : Z) (fp : bytes) (t : table keyRow) : list Z :=
  select (λ _ r, beq (k_fingerprint r) fp && is_null (k_revoked_at r) && negb (k_user_id r =? userID)) t
    ≫= λ x, option_list (c_access_level <$> row (k_user_id x.2) us).

Definition Keys_Add (us : users) (userID : Z) (authorizedKey : bytes) (now : Z) (t : table keyRow) :
    result err Key * table keyRow :=
  match ParseAuthorizedKey authorizedKey with
  | None => (Err ErrBadKey, t)
  | Some (pub, comment) =>
      let normalised := TrimSpace (MarshalAuthorizedKey pub) in
      let fp := FingerprintSHA256 pub in
      match row userID us with
      | None => (Err ErrNoRows, t)
      | Some u =>
          if existsb (λ l, Bool.eqb (is_sysop l) (is_sysop (c_access_level u))) (others_level us userID fp t)
          then (Err ErrKeyTaken, t)
          else match insert (KeyRow userID normalised fp comment (fmtTime now) None) t with
               | Err e => (Err e, t)
               | Ok (id, t') => (Keys_byID id t', t')
               end
      end
  end.

Definition Keys_ByFingerprint (fp : bytes) (t : table keyRow) : option Key :=
  Keys_scan <$> head (select (λ _ r, beq (k_fingerprint r) fp && is_null (k_revoked_at r)) t).

Definition Keys_Active (userID : Z) (t : table keyRow) : list Key :=
  Keys_scan <$> select (λ _ r, (k_user_id r =? userID) && is_null (k_revoked_at r)) t.

Definition Keys_All (userID : Z) (t : table keyRow) : list Key :=
  Keys_scan <$> select (λ _ r, k_user_id r =? userID) t.

Definition Keys_Revoke (id now : Z) (t : table keyRow) : table keyRow :=
  (update (λ i r, (i =? id) && is_null (k_revoked_at r)) (set_revoked (fmtTime now)) t).1.

Definition Keys_Authorizes (userID : Z) (offered : bytes) (t : table keyRow) : bool :=
  existsb (λ k, beq (Fingerprint k) (FingerprintSHA256 offered)) (Keys_Active userID t).
End Keys.

(** ** Lemmas *)

Lemma alphabet_no_dollar u s : Forall (b64_char u) s -> 36 ∉ s.
Proof. rewrite Forall_forall. intros H Hin. apply H, b64_char_bounds in Hin. lia. Qed.

Lemma is_null_true {A} (o : option A) : is_null o = true <-> o = None.
Proof. by destruct o. Qed.

(** Tokens of a given hash are issued no more; anyone redeems anything. *)
Inductive tok_step (us : users) (h : bytes) : table tokenRow -> table tokenRow -> Prop :=
  | ts_issue user raw now t r t' :
      Tokens_Issue us user raw now t = (r, t') -> hashToken (RawURLEncode raw) <> h -> tok_step us h t t'
  | ts_redeem user plain now t r t' : Tokens_Redeem user plain now t = (r, t') -> tok_step us h t t'
  | ts_mark id now t r t' : Redeem_mark id now t = (r, t') -> tok_step us h t t'.

(** No unused token of that user has that hash. *)
Definition spent (userID : Z) (h : bytes) (t : table tokenRow) : Prop :=
  forall i r, (i, r) ∈ rows t -> t_user_id r = userID -> t_hash r = h -> t_used_at r <> None.

Lemma mark_table id now t : (Redeem_mark id now t).2 =
  (update (λ i r, (i =? id) && is_null (t_used_at r)) (set_used (fmtTime now)) t).1.
Proof. done. Qed.

Lemma spent_mark u h id now t : spent u h t -> spent u h (Redeem_mark id now t).2.
Proof.
  intros Hs i r Hi Hu Hh. rewrite mark_table in Hi. apply update_rows in Hi as (r0 & Hi & ->).
  destruct (_ && _); [done|]. by apply (Hs i r0).
Qed.

Lemma spent_step us u h t t' : tok_step us h t t' -> spent u h t -> spent u h t'.
Proof.
  intros [user raw now ta r tb E Hne|user plain now ta r tb E|id now ta r tb E] Hs.
  - unfold Tokens_Issue in E. destruct (negb _); [by injection E as <- <-|].
    destruct (insert _ _) as [[id t'']|] eqn:Ei; injection E as <- <-; [|done].
    intros i x Hi Hu Hh. rewrite (insert_rows _ _ _ _ Ei) in Hi.
    apply elem_of_app in Hi as [Hi|Hi%list_elem_of_singleton]; [by apply (Hs i x)|].
    injection Hi as -> ->. by destruct Hne.
  - unfold Tokens_Redeem in E. destruct (Redeem_find _ _ _ _) as [id|]; [|by injection E as <- <-].
    rewrite <-(f_equal snd E : _ = tb). by apply spent_mark.
  - rewrite <-(f_equal snd E : _ = tb). by apply spent_mark.
Qed.

Lemma find_unused u plain now t i :
  Redeem_find u plain now t = Some i ->
  exists r, (i, r) ∈ rows t /\ t_user_id r = u /\ t_hash r = hashToken plain /\ t_used_at r = None /\
            now < parseTime (t_expires_at r).
Proof.
  unfold Redeem_find. destruct (List.find _ _) as [[j r]|] eqn:E; [|done]. intros [= <-].
  apply List.find_some in E as [E Hm]. apply list_elem_of_In, elem_of_select in E as [Hin Hu].
  unfold unused in Hu. apply andb_true_iff in Hu as [Hu%Z.eqb_eq Hn%is_null_true].
  unfold token_match in Hm. apply andb_true_iff in Hm as [Hm%beq_true Ht%Z.ltb_lt]. by exists r.
Qed.

Lemma spent_no_match u plain now t : spent u (hashToken plain) t -> Redeem_find u plain now t = None.
Proof.
  intros Hs. destruct (Redeem_find u plain now t) as [i|] eqn:E; [|done].
  apply find_unused in E as (r & Hin & Hu & Hh & Hn & _). by destruct (Hs i r).
Qed.

(** That token was consumed. *)
Definition consumed (id : Z) (t : table tokenRow) : Prop :=
  wf t /\ id <= seq t /\ forall r, (id, r) ∈ rows t -> t_used_at r <> None.

Lemma consumed_mark id j now t : consumed id t -> consumed id (Redeem_mark j now t).2.
Proof.
  intros (Hw & Hq & Hc). rewrite mark_table. split_and!; [by apply wf_update|done|].
  intros r Hi. apply update_rows in Hi as (r0 & Hi & ->). destruct (_ && _); [done|]. by apply Hc.
Qed.

Lemma consumed_step us h id t t' : tok_step us h t t' -> consumed id t -> consumed id t'.
Proof.
  intros [user raw now ta r tb E Hne|user plain now ta r tb E|j now ta r tb E] Hc.
  - unfold Tokens_Issue in E. destruct (negb _); [by injection E as <- <-|].
    destruct (insert _ _) as [[j t'']|] eqn:Ei; injection E as <- <-; [|done].
    destruct Hc as (Hw & Hq & Hc). split_and!; [by eapply wf_insert|..].
    + unfold insert in Ei. destruct (_ <? _); [|done]. injection Ei as <- <-. simpl. lia.
    + intros x Hi. rewrite (insert_rows _ _ _ _ Ei) in Hi.
      apply elem_of_app in Hi as [Hi|Hi%list_elem_of_singleton]; [by apply Hc|].
      injection Hi as -> ->. unfold insert in Ei. destruct (_ <? _); [|done]. injection Ei as Ei _. lia.
  - unfold Tokens_Redeem in E. destruct (Redeem_find _ _ _ _) as [j|]; [|by injection E as <- <-].
    rewrite <-(f_equal snd E : _ = tb). by apply consumed_mark.
  - rewrite <-(f_equal snd E : _ = tb). by apply consumed_mark.
Qed.

Lemma consumed_refused id now t : consumed id t -> (Redeem_mark id now t).1 = Err ErrTokenInvalid.
Proof.
  intros (_ & _ & Hc). unfold Redeem_mark. cbn [fst update].
  destruct (Z.eqb_spec (count (λ i r, (i =? id) && is_null (t_used_at r)) t) 1) as [E|]; [|done].
  assert (0 < count (λ i r, (i =? id) && is_null (t_used_at r)) t) as (i & y & Hin & Hy)%count_pos by lia.
  apply andb_true_iff in Hy as [->%Z.eqb_eq Hny%is_null_true]. by destruct (Hc y Hin).
Qed.

(** Redeeming consumes one unused, unexpired token of that user. *)
Lemma Redeem_ok u plain now t t' :
  Tokens_Redeem u plain now t = (Ok (), t') ->
  exists id, Redeem_find u plain now t = Some id /\
    t' = (update (λ i r, (i =? id) && is_null (t_used_at r)) (set_used (fmtTime now)) t).1.
Proof.
  unfold Tokens_Redeem. destruct (Redeem_find _ _ _ _) as [id|]; [|done].
  intros E. exists id. split; [done|]. by apply (f_equal snd) in E.
Qed.

(** The one unused token of that user and hash, once it is issued. *)
Lemma Issue_only us user raw now t plain t1 :
  spent user (hashToken (RawURLEncode raw)) t -> Tokens_Issue us user raw now t = (Ok plain, t1) ->
  plain = RawURLEncode raw /\
  exists id, insert (TokenRow user (hashToken plain) (fmtTime (now + TokenTTL)) None) t = Ok (id, t1) /\
  forall i r, (i, r) ∈ rows t1 -> t_user_id r = user -> t_hash r = hashToken plain -> t_used_at r = None ->
    i = id /\ t_expires_at r = fmtTime (now + TokenTTL).
Proof.
  intros Hfresh. unfold Tokens_Issue. destruct (negb _); [done|].
  destruct (insert _ t) as [[id t1']|] eqn:Ei; [|done]. intros [= <- <-]. split; [done|].
  exists id. split; [done|]. intros i r Hin Hu Hh Hn. rewrite (insert_rows _ _ _ _ Ei) in Hin.
  apply elem_of_app in Hin as [Hin|Hin%list_elem_of_singleton]; [by destruct (Hfresh i r)|].
  by injection Hin as -> ->.
Qed.

Lemma consume_spent user h id now (t : table tokenRow) :
  (forall i r, (i, r) ∈ rows t -> t_user_id r = user -> t_hash r = h -> t_used_at r = None -> i = id) ->
  spent user h (update (λ i r, (i =? id) && is_null (t_used_at r)) (set_used (fmtTime now)) t).1.
Proof.
  intros Honly i x Hin Hux Hhx. apply update_rows in Hin as (x0 & Hin & ->).
  destruct ((i =? id) && is_null (t_used_at x0)) eqn:E; [done|]. intros Hnx.
  rewrite (Honly i x0 Hin Hux Hhx Hnx), Z.eqb_refl, Hnx in E. done.
Qed.

Lemma consume_consumed id now (t : table tokenRow) :
  wf t -> id <= seq t ->
  consumed id (update (λ i r, (i =? id) && is_null (t_used_at r)) (set_used (fmtTime now)) t).1.
Proof.
  intros Hw Hq. split_and!; [by apply wf_update|done|]. intros x Hin.
  apply update_rows in Hin as (x0 & Hin & ->). rewrite Z.eqb_refl.
  by destruct x0 as [? ? ? []].
Qed.

Section Laws.
Context `{CryptoLaws}.

Lemma Verify_HashPassword password salt p :
  bytes_ok salt ->
  VerifyPassword (HashPassword password salt) p =
    VOk (beq (argon2id p salt argonTime argonMemory argonThreads argonKeyLen)
             (argon2id password salt argonTime argonMemory argonThreads argonKeyLen)).
Proof.
  intros Hs. unfold HashPassword. set (hash := argon2id password salt _ _ _ _).
  assert (Hh : bytes_ok hash) by apply argon2id_ok.
  assert (Hl : len hash = argonKeyLen) by by apply argon2id_len.
  change (str "$argon2id$v=" ++ Itoa argonVersion ++ str "$m=" ++ Itoa argonMemory ++ str ",t=" ++
    Itoa argonTime ++ str ",p=" ++ Itoa argonThreads ++ str "$" ++ RawStdEncode salt ++ str "$" ++ RawStdEncode hash)
    with ([] ++ 36 :: (str "argon2id" ++ 36 :: (str "v=19" ++ 36 :: (str "m=65536,t=3,p=2" ++ 36 ::
      (RawStdEncode salt ++ 36 :: RawStdEncode hash))))).
  assert (N : forall s, Forall (λ b, b <> 36) s -> 36 ∉ s) by (intros s; rewrite Forall_forall; naive_solver).
  unfold VerifyPassword.
  rewrite !Split_app, Split_single;
    [|eapply alphabet_no_dollar, encode_chars, Hh|eapply alphabet_no_dollar, encode_chars, Hs|apply N; by_decide..].
  change (negb (beq (str "argon2id") (str "argon2id"))) with false. cbv iota.
  replace (scan_version (str "v=19")) with (Some 19) by by vm_compute.
  change (negb (19 =? argonVersion)) with false. cbv iota.
  replace (scan_params (str "m=65536,t=3,p=2")) with (Some (65536, 3, 2)) by by vm_compute.
  rewrite !RawStd_roundtrip by done. by rewrite Hl.
Qed.

(** A password verifies against the hash made of it under any salt, another
    password exactly when Argon2id gives it the same key, never with an error;
    an account without a password yet has a hash no password verifies
    against. *)
Theorem Verify_Hash (password other salt : bytes) (Hs : bytes_ok salt) :
  VerifyPassword (HashPassword password salt) password = VOk true /\
  VerifyPassword (HashPassword password salt) other =
    VOk (beq (argon2id other salt argonTime argonMemory argonThreads argonKeyLen)
             (argon2id password salt argonTime argonMemory argonThreads argonKeyLen)) /\
  VerifyPassword [] other = VBadHash.
Proof. by rewrite !Verify_HashPassword, beq_refl by done. Qed.
End Laws.

(** C14: a token just issued redeems once for its user: whoever else redeems
    what in between, and however two redemptions race between their SELECT and
    their UPDATE, after one success that plaintext never redeems for the user
    again (unless the same token is issued anew); it is refused at and after
    its 72 hours. *)
Theorem token_single_use (us : users) (user : Z) (raw plain : bytes) (now w : Z)
  (t t1 t2 : table tokenRow)
  (Hw : wf t) (Hfresh : spent user (hashToken (RawURLEncode raw)) t) (Ht : time_ok (now + TokenTTL))
  (Hi : Tokens_Issue us user raw now t = (Ok plain, t1))
  (Hr : Tokens_Redeem user plain w t1 = (Ok (), t2)) :
  w < now + TokenTTL /\
  (forall w', now + TokenTTL <= w' -> (Tokens_Redeem user plain w' t1).1 = Err ErrTokenInvalid) /\
  (forall t3 w', rtc (tok_step us (hashToken plain)) t2 t3 ->
     Tokens_Redeem user plain w' t3 = (Err ErrTokenInvalid, t3)) /\
  (forall id, Redeem_find user plain w t1 = Some id ->
     forall t3 w', rtc (tok_step us (hashToken plain)) t2 t3 ->
     (Redeem_mark id w' t3).1 = Err ErrTokenInvalid).
Proof.
  destruct (Issue_only _ _ _ _ _ _ _ Hfresh Hi) as (-> & id & Ei & Honly). set (h := hashToken _) in *.
  assert (Hw1 := wf_insert _ _ _ _ Hw Ei).
  destruct (Redeem_ok _ _ _ _ _ Hr) as (i & Hf & ->).
  assert (Hexp : forall w' j, Redeem_find user (RawURLEncode raw) w' t1 = Some j -> j = id /\ w' < now + TokenTTL).
  { intros w' j Hj. apply find_unused in Hj as (r & Hin & Hu & Hh & Hn & Hx).
    destruct (Honly j r Hin Hu Hh Hn) as [-> Ee]. by rewrite Ee, parseTime_fmtTime in Hx. }
  destruct (Hexp w i Hf) as [-> Hlt]. set (t2 := (update _ _ t1).1) in *.
  split_and!; [done| | |].
  - intros w' Hw'. unfold Tokens_Redeem. destruct (Redeem_find _ _ w' t1) as [j|] eqn:E; [|done].
    destruct (Hexp w' j E). lia.
  - intros t3 w' H3. unfold Tokens_Redeem. rewrite spent_no_match; [done|].
    assert (H2 : spent user h t2) by (apply consume_spent; intros; by eapply Honly).
    clear -H3 H2. induction H3 as [|x y z Hxy _ IH]; [done|]. apply IH. by eapply spent_step.
  - intros j Hj t3 w' H3. apply consumed_refused. destruct (Hexp w j Hj) as [-> _].
    assert (H2 : consumed id t2).
    { apply consume_consumed; [done|]. unfold insert in Ei. destruct (_ <? _); [|done].
      injection Ei as <- <-. simpl. lia. }
    clear -H3 H2. induction H3 as [|x y z Hxy _ IH]; [done|]. apply IH. by eapply consumed_step.
Qed.

(** ** Keys *)

Section KeyProps.
Context `{SshKeys}.

(** A fingerprint is active on at most one account of each tier. *)
Definition one_per_tier (us : users) (t : table keyRow) : Prop :=
  forall i r j s a b, (i, r) ∈ rows t -> (j, s) ∈ rows t ->
  k_revoked_at r = None -> k_revoked_at s = None -> k_fingerprint r = k_fingerprint s ->
  row (k_user_id r) us = Some a -> row (k_user_id s) us = Some b ->
  is_sysop (c_access_level a) = is_sysop (c_access_level b) -> k_user_id r = k_user_id s.

Lemma in_others us userID fp t l :
  l ∈ others_level us userID fp t <->
  exists i r u, (i, r) ∈ rows t /\ k_fingerprint r = fp /\ k_revoked_at r = None /\ k_user_id r <> userID /\
    row (k_user_id r) us = Some u /\ l = c_access_level u.
Proof.
  unfold others_level. rewrite list_elem_of_bind. split.
  - intros ([i r] & Hl & Hs). apply elem_of_select in Hs as [Hin Hp]. simpl in *.
    rewrite !andb_true_iff, beq_true, is_null_true, negb_true_iff, Z.eqb_neq in Hp.
    destruct (row (k_user_id r) us) as [u|] eqn:E; simpl in Hl; [|by apply elem_of_nil in Hl].
    apply list_elem_of_singleton in Hl as ->. exists i, r, u. naive_solver.
  - intros (i & r & u & Hin & Hf & Hr & Hne & Hu & ->). exists (i, r). simpl. rewrite Hu. simpl.
    split; [by apply list_elem_of_singleton|]. apply elem_of_select. split; [done|]. simpl.
    by rewrite !andb_true_iff, beq_true, is_null_true, negb_true_iff, Z.eqb_neq.
Qed.

Lemma Keys_Add_inv us userID line now t k t' :
  Keys_Add us userID line now t = (Ok k, t') ->
  exists pub comment u id,
    ParseAuthorizedKey line = Some (pub, comment) /\ row userID us = Some u /\
    insert (KeyRow userID (TrimSpace (MarshalAuthorizedKey pub)) (FingerprintSHA256 pub) comment (fmtTime now) None) t
      = Ok (id, t') /\
    (forall l, l ∈ others_level us userID (FingerprintSHA256 pub) t -> is_sysop l <> is_sysop (c_access_level u)).
Proof.
  unfold Keys_Add. destruct (ParseAuthorizedKey line) as [[pub comment]|]; [|done].
  destruct (row userID us) as [u|]; [|done]. destruct (existsb _ _) eqn:Ex; [done|].
  destruct (insert _ t) as [[id t'']|] eqn:Ei; [|done]. intros [= _ <-].
  exists pub, comment, u, id. split_and!; [done..|]. intros l Hl E.
  assert (existsb (λ l, Bool.eqb (is_sysop l) (is_sysop (c_access_level u)))
            (others_level us userID (FingerprintSHA256 pub) t) = true) as Ht; [|by rewrite Ht in Ex].
  apply existsb_exists. exists l. split; [by apply list_elem_of_In|]. by apply Bool.eqb_true_iff.
Qed.

Lemma one_per_tier_add us userID line now t k t' :
  one_per_tier us t -> Keys_Add us userID line now t = (Ok k, t') -> one_per_tier us t'.
Proof.
  intros Hone (pub & c & u & id & _ & Hu & Ei & Hno)%Keys_Add_inv i r j s a b Hi Hj.
  rewrite (insert_rows _ _ _ _ Ei) in Hi, Hj.
  apply elem_of_app in Hi as [Hi|Hi%list_elem_of_singleton], Hj as [Hj|Hj%list_elem_of_singleton].
  - by apply (Hone i r j s).
  - injection Hj as -> ->. simpl. intros Hr _ Hf Ha Hb Ht. rewrite Hu in Hb. injection Hb as <-.
    destruct (decide (k_user_id r = userID)); [done|]. exfalso. apply (Hno (c_access_level a)); [|done].
    apply in_others. naive_solver.
  - injection Hi as -> ->. simpl. intros _ Hs Hf Ha Hb Ht. rewrite Hu in Ha. injection Ha as <-.
    destruct (decide (userID = k_user_id s)); [done|]. exfalso. apply (Hno (c_access_level b)); [|done].
    apply in_others. naive_solver.
  - by injection Hi as -> ->; injection Hj as -> ->.
Qed.

Lemma one_per_tier_revoke us id now t : one_per_tier us t -> one_per_tier us (Keys_Revoke id now t).
Proof.
  intros Hone i r j s a b Hi Hj Hr Hs. apply update_rows in Hi as (r0 & Hi & ->), Hj as (s0 & Hj & ->).
  destruct ((i =? id) && _); [done|]. destruct ((j =? id) && _); [done|]. by apply (Hone i r0 j s0).
Qed.

Lemma Authorizes_spec userID pub t :
  Keys_Authorizes userID pub t = true <->
  exists i r, (i, r) ∈ rows t /\ k_user_id r = userID /\ k_revoked_at r = None /\ k_fingerprint r = FingerprintSHA256 pub.
Proof.
  unfold Keys_Authorizes, Keys_Active. rewrite existsb_exists. split.
  - intros (x & Hx%list_elem_of_In & Hf%beq_true). apply list_elem_of_fmap in Hx as ([i r] & -> & Hs).
    apply elem_of_select in Hs as [Hin Hq]. simpl in *. apply andb_true_iff in Hq as [Hq%Z.eqb_eq Hn%is_null_true].
    by exists i, r.
  - intros (i & r & Hin & Hq & Hn & Hf). exists (Keys_scan (i, r)). split; [|by apply beq_true].
    apply list_elem_of_In, list_elem_of_fmap. exists (i, r). split; [done|]. apply elem_of_select. split; [done|].
    simpl. by rewrite Hq, Hn, Z.eqb_refl.
Qed.

(** C38: registering and revoking keys keep every SSH key active on at most one
    account of each tier; a registration refused for that reason leaves the
    table alone; a key just registered authorizes its owner, and revoking that
    row withdraws it unless another active row of the owner carries it. *)
Theorem keys_per_tier (us : users) (userID now : Z) (line pub comment : bytes) (t t' : table keyRow) (k : Key)
  (Hw : wf t) (Hone : one_per_tier us t) (Hp : ParseAuthorizedKey line = Some (pub, comment))
  (Ha : Keys_Add us userID line now t = (Ok k, t')) :
  one_per_tier us t' /\ (forall id w, one_per_tier us (Keys_Revoke id w t')) /\
  Keys_Authorizes userID pub t' = true /\
  (forall w, Keys_Authorizes userID pub t = false -> Keys_Authorizes userID pub (Keys_Revoke (KID k) w t') = false) /\
  (forall other u l, other <> userID -> row other us = Some u -> row userID us = Some l ->
     is_sysop (c_access_level u) = is_sysop (c_access_level l) ->
     Keys_Add us other line now t' = (Err ErrKeyTaken, t')).
Proof.
  assert (H1 := one_per_tier_add _ _ _ _ _ _ _ Hone Ha). assert (Ha' := Ha).
  apply Keys_Add_inv in Ha as (pub' & c & u & id & Hp' & Hu & Ei & Hno).
  rewrite Hp in Hp'. injection Hp' as <- <-.
  assert (Hk : KID k = id).
  { unfold Keys_Add in Ha'. rewrite Hp, Hu in Ha'. destruct (existsb _ _); [done|]. rewrite Ei in Ha'.
    unfold Keys_byID in Ha'. rewrite (row_insert _ _ _ _ Hw Ei), decide_True in Ha' by done.
    by injection Ha' as <-. }
  assert (Hin : (id, KeyRow userID (TrimSpace (MarshalAuthorizedKey pub)) (FingerprintSHA256 pub) comment
    (fmtTime now) None) ∈ rows t').
  { rewrite (insert_rows _ _ _ _ Ei). apply elem_of_app. right. by apply list_elem_of_singleton. }
  split_and!; [done|by intros; apply one_per_tier_revoke| | |].
  - apply Authorizes_spec. by eexists _, _.
  - intros w Hf. apply not_true_is_false. rewrite Authorizes_spec. intros (i & r & Hi & Hq & Hn & Hfp).
    apply update_rows in Hi as (r0 & Hi & ->). rewrite Hk in *.
    rewrite (insert_rows _ _ _ _ Ei) in Hi. apply elem_of_app in Hi as [Hi|Hi%list_elem_of_singleton].
    + apply not_true_iff_false in Hf. apply Hf, Authorizes_spec. exists i, r0. by destruct ((i =? id) && _).
    + injection Hi as -> ->. by rewrite Z.eqb_refl in Hn.
  - intros other uo l Ho Huo Hl Ht. rewrite Hu in Hl. injection Hl as <-.
    unfold Keys_Add. rewrite Hp, Huo. replace (existsb _ _) with true; [done|]. symmetry.
    apply existsb_exists. exists (c_access_level u). split; [|by apply Bool.eqb_true_iff].
    apply list_elem_of_In, in_others. exists id. eexists. exists u. split_and!; [exact Hin|done..].
Qed.

(** The rule is not kept by a change of level: when a regular account that
    shares a key with a SysOp is approved at a SysOp level, the key is active on
    two SysOp accounts, though registering it there would be refused. *)
Theorem promotion_shares_key (us : users) (a b i j level : Z) (ra rb : userRow) (ka kb : keyRow) (t : table keyRow)
  (Hw : wf us) (Hab : a <> b) (Ha : row a us = Some ra) (Hb : row b us = Some rb)
  (Hsa : is_sysop (c_access_level ra) = true) (Hi : (i, ka) ∈ rows t) (Hj : (j, kb) ∈ rows t)
  (Hka : k_user_id ka = a) (Hkb : k_user_id kb = b) (Hna : k_revoked_at ka = None) (Hnb : k_revoked_at kb = None)
  (Hf : k_fingerprint ka = k_fingerprint kb) (Hl : SysOpLevel <= level) :
  ~ one_per_tier (Users_Approve b level us) t.
Proof.
  intros Hone. apply Hab. rewrite <-Hka, <-Hkb.
  assert (Hrow : forall x, row x (Users_Approve b level us) =
    (λ r, if by_id b x r then set_status StatusApproved level r else r) <$> row x us) by (intros; by apply row_update).
  apply (Hone i ka j kb ra (set_status StatusApproved level rb)); try done.
  - rewrite Hka, Hrow, Ha. simpl. unfold by_id. by rewrite (proj2 (Z.eqb_neq a b)).
  - rewrite Hkb, Hrow, Hb. simpl. unfold by_id. by rewrite Z.eqb_refl.
  - rewrite Hsa. symmetry. by apply Z.leb_le.
Qed.
End KeyProps.

(** ** Witnesses *)

Lemma Verify_Hash_witness :
  VerifyPassword (H := toy) (HashPassword (H := toy) (str "hunter2") (replicate 16 1)) (str "hunter2") = VOk true.
Proof. apply (Verify_Hash (H := toy) (H0 := toy_laws) _ (str "x")). by_decide. Defined.

Definition issued : table tokenRow := (Tokens_Issue some_users 1 (str "r4nd0m") 0 empty_table).2.
Definition issued_plain : bytes := RawURLEncode (str "r4nd0m").

Lemma token_single_use_witness :
  Tokens_Redeem 1 issued_plain 5 (Tokens_Redeem 1 issued_plain 4 issued).2 =
    (Err ErrTokenInvalid, (Tokens_Redeem 1 issued_plain 4 issued).2).
Proof.
  destruct (token_single_use some_users 1 (str "r4nd0m") issued_plain 0 4 empty_table issued
    (Tokens_Redeem 1 issued_plain 4 issued).2) as (_ & _ & Hs & _).
  - apply wf_empty.
  - intros i r Hi. exact (not_in_empty _ _ Hi).
  - by_decide.
  - vm_compute. reflexivity.
  - vm_compute. reflexivity.
  - apply Hs. constructor.
Defined.

(** Keys that are their own canonical line and fingerprint. *)
Definition toy_ssh : SshKeys :=
  {| ParseAuthorizedKey := λ l, if beq l [] then None else Some (l, []);
     MarshalAuthorizedKey := λ k, k; FingerprintSHA256 := λ k, k |}.

Lemma keys_per_tier_witness :
  Keys_Authorizes (H := toy_ssh) 1 (str "K") (Keys_Add (H := toy_ssh) some_users 1 (str "K") 0 empty_table).2 = true.
Proof.
  destruct (Keys_Add (H := toy_ssh) some_users 1 (str "K") 0 empty_table) as [[k|e] t'] eqn:E;
    [|by vm_compute in E].
  apply (keys_per_tier (H := toy_ssh) some_users 1 0 (str "K") (str "K") [] empty_table t' k);
    [apply wf_empty|intros i r j s a b Hi; by apply elem_of_nil in Hi|done|exact E].
Defined.

Definition with_sysop : users :=
  Table [(1, neo); (2, set_status StatusApproved 90 neo)] 2.
Definition shared_key : table keyRow :=
  Table [(1, KeyRow 1 (str "K") (str "fp") [] (fmtTime 0) None);
         (2, KeyRow 2 (str "K") (str "fp") [] (fmtTime 0) None)] 2.

Lemma promotion_shares_key_witness : ~ one_per_tier (Users_Approve 1 80 with_sysop) shared_key.
Proof.
  apply (promotion_shares_key with_sysop 2 1 2 1 80 (set_status StatusApproved 90 neo) neo
    (KeyRow 2 (str "K") (str "fp") [] (fmtTime 0) None) (KeyRow 1 (str "K") (str "fp") [] (fmtTime 0) None));
    try done.
  - split; [by repeat constructor| |done]. repeat constructor; done.
  - right. constructor.
  - constructor.
Defined.
