(* ===== verification/Boards.v ===== *)
(** * Message boards (src/store/messages.go, readptr.go)

    Areas, messages and threaded replies, with their foreign keys; the per-user
    read pointers.  Subject and body are sealed columns. *)

From S2P Require Import Prelude GoStrings GoTime Vault Sql Users.

Record areaRow := AreaRow { ar_name : bytes; ar_description : bytes; ar_min_level : Z }.
Record MessageArea := MkArea { AreaId : Z; AreaName : bytes; AreaDescription : bytes; AreaMin : Z }.

Abbreviation areas := (table areaRow).

Definition Areas_scan (x : Z * areaRow) : MessageArea :=
  MkArea x.1 (ar_name x.2) (ar_description x.2) (ar_min_level x.2).

Definition Areas_Create (name description : bytes) (minLevel : Z) (t : areas) : result err MessageArea * areas :=
  if 0 <? count (λ _ r, beq (ar_name r) name) t then (Err ErrUnique, t)
  else match insert (AreaRow name description minLevel) t with
       | Err e => (Err e, t)
       | Ok (id, t') => (Ok (MkArea id name description minLevel), t')
       end.

Definition Areas_Visible (accessLevel : Z) (t : areas) : list MessageArea :=
  Areas_scan <$> order_by (λ x y, text_leb (ar_name x.2) (ar_name y.2))
    (select (λ _ r, ar_min_level r <=? accessLevel) t).

Definition Areas_Count (t : areas) : Z := len (rows t).

Definition Areas_ByID (id accessLevel : Z) (t : areas) : result err MessageArea :=
  match row id t with
  | None => Err ErrNotFound
  | Some r => if accessLevel <? ar_min_level r then Err ErrNotFound else Ok (Areas_scan (id, r))
  end.

Definition seedAreas : list (bytes * bytes) :=
  [(str "General", str "General chatter and introductions");
   (str "Retro Computing", str "BBSes, ANSI art, old iron")].

Fixpoint seed_areas (l : list (bytes * bytes)) (t : areas) : result err () * areas :=
  match l with
  | [] => (Ok (), t)
  | (n, d) :: l' =>
      match Areas_Create n d 0 t with
      | (Err e, t') => (Err e, t')
      | (Ok _, t') => seed_areas l' t'
      end
  end.

Definition EnsureSeedAreas (t : areas) : result err () * areas :=
  if 0 <? Areas_Count t then (Ok (), t) else seed_areas seedAreas t.

(** ** Messages *)

Record messageRow := MessageRow {
  ms_area_id : Z; ms_author_id : Z; ms_parent_id : option Z;
  ms_subject : bytes; ms_body : bytes; ms_posted_at : bytes
}.

Record Message := MkMessage {
  MsgID : Z; AreaID : Z; AuthorID : Z; ParentID : option Z; Subject : bytes; Body : bytes; PostedAt : Z
}.

Definition set_text (subj body : bytes) (r : messageRow) : messageRow :=
  MessageRow (ms_area_id r) (ms_author_id r) (ms_parent_id r) subj body (ms_posted_at r).

Abbreviation messages := (table messageRow).

Definition exists_id {R} (id : Z) (t : table R) : bool := 0 <? count (by_id id) t.

(** The foreign keys of a new row. *)
Definition message_refs_ok (us : users) (ars : areas) (t : messages) (areaID authorID : Z) (parent : option Z) : bool :=
  exists_id areaID ars && exists_id authorID us &&
  match parent with None => true | Some p => exists_id p t end.

Section Messages.
Context `{Crypto}.
Variable v : Vault.
(** [strings.ToLower]. *)
Variable ToLower : bytes -> bytes.

Definition Messages_Post (us : users) (ars : areas) (areaID authorID : Z) (parentID : option Z)
    (subject body : bytes) (now : Z) (n1 n2 : bytes) (t : messages) : result err Message * messages :=
  if negb (message_refs_ok us ars t areaID authorID parentID) then (Err ErrForeignKey, t)
  else match insert (MessageRow areaID authorID parentID (seal v n1 subject) (seal v n2 body) (fmtTime now)) t with
       | Err e => (Err e, t)
       | Ok (id, t') => (Ok (MkMessage id areaID authorID parentID subject body now), t')
       end.

Definition owned (id authorID : Z) : Z -> messageRow -> bool :=
  λ i r, (i =? id) && (ms_author_id r =? authorID).

Definition Messages_Edit (id authorID : Z) (subject body n1 n2 : bytes) (t : messages) :
    result err () * messages :=
  let '(t', n) := update (owned id authorID) (set_text (seal v n1 subject) (seal v n2 body)) t in
  (if n =? 0 then Err ErrNotOwner else Ok (), t').

(** The rows a delete of [id] removes, and the rows left whose parent it would
    remove: SQLite then refuses the statement as a whole. *)
Definition doomed (id : Z) : Z -> messageRow -> bool :=
  λ i r, (i =? id) || bool_decide (ms_parent_id r = Some id).

Definition orphaned (id : Z) (t : messages) : Z -> messageRow -> bool :=
  λ i r, negb (doomed id i r) &&
         match ms_parent_id r with Some p => 0 <? count (λ j s, (j =? p) && doomed id j s) t | None => false end.

Definition Messages_Delete (id : Z) (t : messages) : result err () * messages :=
  if 0 <? count (orphaned id t) t then (Err ErrForeignKey, t) else (Ok (), (delete (doomed id) t).1).

Definition Messages_scan (x : Z * messageRow) : result err Message :=
  match open v (ms_subject x.2) with
  | Err e => Err (ErrVault e)
  | Ok subj =>
      match open v (ms_body x.2) with
      | Err e => Err (ErrVault e)
      | Ok body => Ok (MkMessage x.1 (ms_area_id x.2) (ms_author_id x.2) (ms_parent_id x.2) subj body
                         (parseTime (ms_posted_at x.2)))
      end
  end.

Definition Messages_list (l : list (Z * messageRow)) : result err (list Message) := mapR Messages_scan l.

Definition top_level (areaID : Z) : Z -> messageRow -> bool :=
  λ _ r, (ms_area_id r =? areaID) && is_null (ms_parent_id r).

Definition Messages_Thread (areaID : Z) (t : messages) : result err (list Message) :=
  Messages_list (select (top_level areaID) t).

Definition Messages_ThreadSorted (areaID : Z) (newestFirst : bool) (t : messages) : result err (list Message) :=
  let l := select (top_level areaID) t in Messages_list (if newestFirst then reverse l else l).

Definition Messages_ByAuthor (areaID authorID : Z) (t : messages) : result err (list Message) :=
  Messages_list (select (λ _ r, (ms_area_id r =? areaID) && (ms_author_id r =? authorID)) t).

Definition hit (q : bytes) (m : Message) : bool :=
  Contains (ToLower (Subject m)) q || Contains (ToLower (Body m)) q.

Definition Messages_Search (areaID : Z) (query : bytes) (t : messages) : result err (list Message) :=
  match Messages_list (select (λ _ r, ms_area_id r =? areaID) t) with
  | Err e => Err e
  | Ok all => Ok (List.filter (hit (ToLower query)) all)
  end.

Definition Messages_Replies (parentID : Z) (t : messages) : result err (list Message) :=
  Messages_list (select (λ _ r, bool_decide (ms_parent_id r = Some parentID)) t).

Definition Messages_ByID (id : Z) (t : messages) : result err Message :=
  match row id t with None => Err ErrNotFound | Some r => Messages_scan (id, r) end.
End Messages.

(** ** Read pointers: a user and an area to the last id seen and the time *)

Abbreviation readPointers := (gmap (Z * Z) (Z * bytes)).

Definition LastSeen (userID areaID : Z) (p : readPointers) : Z := default 0 (fst <$> p !! (userID, areaID)).

Definition Mark (us : users) (ars : areas) (userID areaID maxID now : Z) (p : readPointers) :
    result err () * readPointers :=
  match p !! (userID, areaID) with
  | Some (old, _) => (Ok (), <[(userID, areaID) := (Z.max old maxID, fmtTime now)]> p)
  | None =>
      if exists_id userID us && exists_id areaID ars
      then (Ok (), <[(userID, areaID) := (maxID, fmtTime now)]> p)
      else (Err ErrForeignKey, p)
  end.

Definition newer (areaID last : Z) : Z -> messageRow -> bool := λ i r, (ms_area_id r =? areaID) && (last <? i).

Definition NewCount (userID areaID : Z) (p : readPointers) (t : messages) : Z :=
  count (newer areaID (LastSeen userID areaID p)) t.

Definition MaxMessageID (areaID : Z) (t : messages) : Z :=
  foldr Z.max 0 ((select (λ _ r, ms_area_id r =? areaID) t).*1).

(** ** Lemmas *)

Lemma max_spec l (i : Z) : i ∈ l -> i <= foldr Z.max 0 l.
Proof. induction 1 as [x l|x y l _ IH]; simpl; lia. Qed.

Lemma MaxMessageID_spec areaID t i r :
  (i, r) ∈ rows t -> ms_area_id r = areaID -> i <= MaxMessageID areaID t.
Proof.
  intros Hi Ha. apply max_spec, list_elem_of_fmap. exists (i, r). split; [done|].
  apply elem_of_select. simpl. by rewrite Ha, Z.eqb_refl.
Qed.

Lemma exists_id_spec {R} id (t : table R) : exists_id id t = true <-> exists r, (id, r) ∈ rows t.
Proof.
  unfold exists_id. rewrite Z.ltb_lt, count_pos. unfold by_id. split.
  - intros (i & r & Hi & ->%Z.eqb_eq). by exists r.
  - intros [r Hr]. exists id, r. by rewrite Z.eqb_refl.
Qed.

Lemma owned_count id a (t : messages) :
  wf t -> count (owned id a) t = match row id t with
                                 | Some r => if ms_author_id r =? a then 1 else 0
                                 | None => 0
                                 end.
Proof.
  intros Hw. rewrite (count_at _ id) by (done || by intros i r [->%Z.eqb_eq _]%andb_true_iff).
  unfold owned. by rewrite Z.eqb_refl.
Qed.

(** Replies and no replies to replies. *)
Definition no_grandchildren (id : Z) (t : messages) : Prop :=
  forall j s k r, (j, s) ∈ rows t -> ms_parent_id s = Some id -> (k, r) ∈ rows t -> ms_parent_id r = Some j ->
  doomed id k r = true.

Lemma orphaned_none id t :
  count (orphaned id t) t = 0 <-> no_grandchildren id t.
Proof.
  rewrite count_zero. split.
  - intros Hz j s k r Hj Hs Hk Hr. specialize (Hz k r Hk). unfold orphaned in Hz. rewrite Hr in Hz.
    destruct (doomed id k r); [done|]. simpl in Hz.
    replace (0 <? _) with true in Hz; [done|]. symmetry. apply Z.ltb_lt, count_pos. exists j, s.
    split; [done|]. unfold doomed. rewrite Z.eqb_refl, Hs, bool_decide_true by done. by rewrite orb_true_r.
  - intros Hg k r Hk. unfold orphaned. destruct (doomed id k r) eqn:Ed; [done|]. simpl.
    destruct (ms_parent_id r) as [p|] eqn:Hp; [|done]. apply Z.ltb_ge.
    enough (count (λ j s, (j =? p) && doomed id j s) t = 0) by lia. apply count_zero. intros j s Hj.
    apply not_true_iff_false. intros [->%Z.eqb_eq Hd]%andb_true_iff. unfold doomed in Hd.
    apply orb_true_iff in Hd as [->%Z.eqb_eq|Hs%bool_decide_eq_true].
    + unfold doomed in Ed. rewrite Hp in Ed. apply orb_false_iff in Ed as [_ Ed].
      by rewrite bool_decide_true in Ed.
    + by rewrite (Hg p s k r Hj Hs Hk Hp) in Ed.
Qed.

(** ** Properties *)

Section Props.
Context `{CryptoLaws}.
Variable v : Vault.

(** An edit goes through exactly when the message exists and the caller
    wrote it; it then reads back with the new text and everything else as it
    was; other messages are untouched, and a refused edit changes nothing. *)
Theorem Edit_owner_only (id author : Z) (subject body n1 n2 : bytes) (t : messages) (r : messageRow)
  (Hw : wf t) (Hr : row id t = Some r) (Hn1 : nonce_ok n1) (Hn2 : nonce_ok n2)
  (Hs : bytes_ok subject) (Hb : bytes_ok body) :
  let '(res, t') := Messages_Edit v id author subject body n1 n2 t in
  (res = Ok () <-> ms_author_id r = author) /\
  (res = Ok () -> Messages_ByID v id t' =
     Ok (MkMessage id (ms_area_id r) author (ms_parent_id r) subject body (parseTime (ms_posted_at r)))) /\
  (res <> Ok () -> res = Err ErrNotOwner /\ forall i, row i t' = row i t) /\
  (forall i, i <> id -> row i t' = row i t).
Proof.
  unfold Messages_Edit. cbn [update]. rewrite owned_count, Hr by done.
  assert (Hrow := fun i => row_update (owned id author) (set_text (seal v n1 subject) (seal v n2 body)) t i Hw).
  unfold update in Hrow. cbn [fst] in Hrow.
  assert (Hoth : forall i, i <> id -> row i (Table ((λ x, if owned id author x.1 x.2
      then (x.1, set_text (seal v n1 subject) (seal v n2 body) x.2) else x) <$> rows t) (seq t)) = row i t).
  { intros i Hi. rewrite Hrow. destruct (row i t) as [s|]; [|done]. simpl. unfold owned.
    by rewrite (proj2 (Z.eqb_neq i id)). }
  destruct (Z.eqb_spec (ms_author_id r) author) as [Ha|Ha]; simpl (_ =? 0); cbv iota.
  - split_and!; [done| |done|done]. intros _. unfold Messages_ByID. rewrite Hrow, Hr. cbn [fmap option_fmap option_map].
    unfold owned. rewrite Z.eqb_refl, Ha, Z.eqb_refl. cbn [andb]. unfold Messages_scan. cbn.
    rewrite !open_seal by done. by rewrite Ha.
  - split_and!; [done|done| |done]. intros _. split; [done|]. intros i.
    destruct (decide (i = id)) as [->|]; [|by apply Hoth]. rewrite Hrow, Hr. simpl. unfold owned.
    by rewrite (proj2 (Z.eqb_neq (ms_author_id r) author) Ha), andb_false_r.
Qed.
End Props.

(** Deleting a message removes it and its direct replies, and nothing else,
    as long as none of those replies was itself replied to; once one was, the
    database refuses every delete of the message and nothing changes, so the
    post cannot be removed. *)
Theorem Delete_message (id : Z) (t : messages) (Hw : wf t) :
  let '(res, t') := Messages_Delete id t in
  (no_grandchildren id t -> res = Ok () /\
     (forall i r, (i, r) ∈ rows t' <-> (i, r) ∈ rows t /\ i <> id /\ ms_parent_id r <> Some id)) /\
  (~ no_grandchildren id t -> res = Err ErrForeignKey /\ t' = t).
Proof.
  unfold Messages_Delete. destruct (Z.ltb_spec 0 (count (orphaned id t) t)) as [Hc|Hc].
  - split; [|done]. intros Hg. apply orphaned_none in Hg. lia.
  - assert (Hz : count (orphaned id t) t = 0)
      by (pose proof (len_nonneg (select (orphaned id t) t)); unfold count in *; lia).
    split; [|intros Hg; by apply orphaned_none in Hz]. intros _. split; [done|]. intros i r.
    rewrite delete_rows. unfold doomed. rewrite orb_false_iff, Z.eqb_neq, bool_decide_eq_false. tauto.
Qed.

Lemma Mark_spec us ars u a m now p p' :
  0 <= m -> Mark us ars u a m now p = (Ok (), p') ->
  LastSeen u a p' = Z.max (LastSeen u a p) m /\
  forall u' a', (u', a') <> (u, a) -> LastSeen u' a' p' = LastSeen u' a' p.
Proof.
  intros Hm. unfold Mark, LastSeen. destruct (p !! (u, a)) as [[old at_]|].
  - intros [= <-]. split; [by rewrite lookup_insert_eq|]. intros. by rewrite lookup_insert_ne.
  - destruct (_ && _); [|done]. intros [= <-]. split; [rewrite lookup_insert_eq; simpl; lia|].
    intros. by rewrite lookup_insert_ne.
Qed.

(** A read pointer never moves back, whatever is marked; marking the newest
    message leaves nothing new, one more post in an area is one more new
    message for every user, and marking one area does not touch another user
    or area. *)
Theorem read_pointers (us : users) (ars : areas) (u a m now : Z) (p p' : readPointers) (t : messages)
  (Hm0 : 0 <= m) (Hm : Mark us ars u a m now p = (Ok (), p')) :
  LastSeen u a p' = Z.max (LastSeen u a p) m /\
  (forall u' a', (u', a') <> (u, a) -> NewCount u' a' p' t = NewCount u' a' p t) /\
  (m = MaxMessageID a t -> NewCount u a p' t = 0) /\
  (forall u' a' r id t', insert r t = Ok (id, t') -> LastSeen u' a' p' <= seq t ->
     NewCount u' a' p' t' = NewCount u' a' p' t + (if ms_area_id r =? a' then 1 else 0)).
Proof.
  destruct (Mark_spec us ars u a m now p p' Hm0 Hm) as [E Eo]. split_and!; [done| | |].
  - intros u' a' Hne. unfold NewCount. by rewrite Eo.
  - intros ->. apply count_zero. intros i r Hi. unfold newer. rewrite E.
    destruct (Z.eqb_spec (ms_area_id r) a) as [Ha|]; [|done]. simpl. apply Z.ltb_ge.
    pose proof (MaxMessageID_spec a t i r Hi Ha). lia.
  - intros u' a' r id t' Hi Hle. unfold NewCount. rewrite (count_insert _ _ _ _ _ Hi). f_equal.
    unfold newer. destruct (ms_area_id r =? a'); [|done]. simpl.
    unfold insert in Hi. destruct (_ <? _); [|done]. injection Hi as <- _.
    by rewrite (proj2 (Z.ltb_lt _ _)) by lia.
Qed.

(** ** Witnesses *)

Definition post (parent : option Z) : messageRow := MessageRow 1 1 parent [] [] (fmtTime 0).
Definition thread3 : messages := Table [(1, post None); (2, post (Some 1)); (3, post (Some 2))] 3.

Lemma thread3_wf : wf thread3.
Proof. split; [repeat constructor; done| |done]. repeat constructor; simpl; lia. Qed.

Lemma Edit_owner_only_witness :
  (Messages_Edit (H := toy) toy_vault 2 9 [] [] toy_nonce toy_nonce thread3).1 = Err ErrNotOwner.
Proof.
  pose proof (Edit_owner_only (H := toy) (H0 := toy_laws) toy_vault 2 9 [] [] toy_nonce toy_nonce thread3 (post (Some 1))
    thread3_wf eq_refl ltac:(by_decide) ltac:(by_decide) ltac:(constructor) ltac:(constructor)) as P.
  destruct (Messages_Edit _ _ _ _ _ _ _ _) as [res t']. destruct P as (Hi & _ & Hn & _). simpl.
  apply Hn. intros Hok. by apply Hi in Hok.
Defined.

Lemma Delete_message_witness : Messages_Delete 1 thread3 = (Err ErrForeignKey, thread3).
Proof.
  pose proof (Delete_message 1 thread3 thread3_wf) as P. destruct (Messages_Delete 1 thread3) as [res t'].
  destruct P as [_ P]. destruct P as [-> ->]; [|done]. intros Hg.
  specialize (Hg 2 (post (Some 1)) 3 (post (Some 2))).
  assert (Hd : doomed 1 3 (post (Some 2)) = true); [|by vm_compute in Hd].
  apply Hg; [right; left|done|right; right; left|done].
Defined.

Lemma read_pointers_witness :
  exists p', Mark some_users (Table [(1, AreaRow [] [] 0)] 1) 1 1 3 0 ∅ = (Ok (), p') /\ NewCount 1 1 p' thread3 = 0.
Proof.
  destruct (Mark some_users (Table [(1, AreaRow [] [] 0)] 1) 1 1 3 0 ∅) as [[[]|e] p'] eqn:E; [|by vm_compute in E].
  exists p'. split; [done|].
  destruct (read_pointers some_users (Table [(1, AreaRow [] [] 0)] 1) 1 1 3 0 ∅ p' thread3 ltac:(done) E)
    as (_ & _ & H0 & _). by apply H0.
Defined.
