(* ===== verification/Mail.v ===== *)
(** * Mail and moderation (src/store/mail.go, blocks.go, reports.go)

    Private messages, personal mutes and the abuse-report queue. *)

From S2P Require Import Prelude GoStrings GoTime Vault Sql Users Boards.

Record mailRow := MailRow {
  p_from_id : Z; p_to_id : Z; p_subject : bytes; p_body : bytes; p_sent_at : bytes; p_read_at : option bytes
}.

Record PrivateMessage := MkMail {
  PID : Z; FromID : Z; ToID : Z; MailSubject : bytes; MailBody : bytes; SentAt : Z; ReadAt : option Z
}.

Definition set_read (at_ : bytes) (r : mailRow) : mailRow :=
  MailRow (p_from_id r) (p_to_id r) (p_subject r) (p_body r) (p_sent_at r) (Some at_).

Abbreviation mailbox := (table mailRow).

Section Mail.
Context `{Crypto}.
Variable v : Vault.

Definition Mail_Send (us : users) (fromID toID : Z) (subject body : bytes) (now : Z) (n1 n2 : bytes) (t : mailbox) :
    result err PrivateMessage * mailbox :=
  if negb (exists_id fromID us && exists_id toID us) then (Err ErrForeignKey, t)
  else match insert (MailRow fromID toID (seal v n1 subject) (seal v n2 body) (fmtTime now) None) t with
       | Err e => (Err e, t)
       | Ok (id, t') => (Ok (MkMail id fromID toID subject body now None), t')
       end.

Definition Mail_scan (x : Z * mailRow) : result err PrivateMessage :=
  match open v (p_subject x.2) with
  | Err e => Err (ErrVault e)
  | Ok subj =>
      match open v (p_body x.2) with
      | Err e => Err (ErrVault e)
      | Ok body => Ok (MkMail x.1 (p_from_id x.2) (p_to_id x.2) subj body (parseTime (p_sent_at x.2))
                         (parseTime <$> p_read_at x.2))
      end
  end.

Definition Mail_Inbox (userID : Z) (t : mailbox) : result err (list PrivateMessage) :=
  mapR Mail_scan (reverse (select (λ _ r, p_to_id r =? userID) t)).

Definition unread (userID : Z) : Z -> mailRow -> bool := λ _ r, (p_to_id r =? userID) && is_null (p_read_at r).

Definition Mail_UnreadCount (userID : Z) (t : mailbox) : Z := count (unread userID) t.

Definition with_read (at_ : Z) (m : PrivateMessage) : PrivateMessage :=
  MkMail (PID m) (FromID m) (ToID m) (MailSubject m) (MailBody m) (SentAt m) (Some at_).

Definition Mail_Get (id userID now : Z) (t : mailbox) : result err PrivateMessage * mailbox :=
  match row id t with
  | None => (Err ErrNotFound, t)
  | Some r =>
      match Mail_scan (id, r) with
      | Err e => (Err e, t)
      | Ok m =>
          if negb (ToID m =? userID) && negb (FromID m =? userID) then (Err ErrNotFound, t)
          else if (ToID m =? userID) && is_null (ReadAt m) then
            (Ok (with_read now m), (update (by_id id) (set_read (fmtTime now)) t).1)
          else (Ok m, t)
      end
  end.

Definition received (id userID : Z) : Z -> mailRow -> bool := λ i r, (i =? id) && (p_to_id r =? userID).

Definition Mail_Delete (id userID : Z) (t : mailbox) : result err () * mailbox :=
  let '(t', n) := delete (received id userID) t in
  (if n =? 0 then Err ErrNotFound else Ok (), t').
End Mail.

(** ** blocks.go *)

Record blockRow := BlockRow { b_blocker : Z; b_blocked : Z; b_created_at : bytes }.

Abbreviation blocks := (table blockRow).

Definition block_is (a b : Z) : Z -> blockRow -> bool := λ _ r, (b_blocker r =? a) && (b_blocked r =? b).

(** INSERT OR IGNORE: a duplicate is skipped, a missing user is still an error. *)
Definition Blocks_Block (us : users) (blockerID blockedID now : Z) (t : blocks) : result err () * blocks :=
  if blockerID =? blockedID then (Ok (), t)
  else if 0 <? count (block_is blockerID blockedID) t then (Ok (), t)
  else if negb (exists_id blockerID us && exists_id blockedID us) then (Err ErrForeignKey, t)
  else match insert (BlockRow blockerID blockedID (fmtTime now)) t with
       | Err e => (Err e, t)
       | Ok (_, t') => (Ok (), t')
       end.

Definition Blocks_Unblock (blockerID blockedID : Z) (t : blocks) : blocks :=
  (delete (block_is blockerID blockedID) t).1.

Definition Blocks_IsBlocked (blockerID blockedID : Z) (t : blocks) : bool :=
  0 <? count (block_is blockerID blockedID) t.

Definition Blocks_BlockedSet (blockerID : Z) (t : blocks) : gset Z :=
  list_to_set ((λ x, b_blocked x.2) <$> select (λ _ r, b_blocker r =? blockerID) t).

Definition Blocks_List (blockerID : Z) (t : blocks) : list Z :=
  (λ x, b_blocked x.2) <$> order_by (λ x y, text_leb (b_created_at x.2) (b_created_at y.2))
    (select (λ _ r, b_blocker r =? blockerID) t).

(** ** reports.go *)

Record reportRow := ReportRow {
  r_reporter : Z; r_target : Z; r_context : bytes; r_note : bytes; r_created_at : bytes;
  r_resolved_at : option bytes; r_resolved_by : option Z
}.

Record Report := MkReport {
  RepID : Z; ReporterID : Z; TargetID : Z; RepContext : bytes; RepNote : bytes; RepCreatedAt : Z;
  ResolvedAt : option Z; ResolvedBy : option Z
}.

Definition set_resolved (at_ : bytes) (by_ : Z) (r : reportRow) : reportRow :=
  ReportRow (r_reporter r) (r_target r) (r_context r) (r_note r) (r_created_at r) (Some at_) (Some by_).

Definition Reports_scan (x : Z * reportRow) : Report :=
  MkReport x.1 (r_reporter x.2) (r_target x.2) (r_context x.2) (r_note x.2) (parseTime (r_created_at x.2))
    (parseTime <$> r_resolved_at x.2) (r_resolved_by x.2).

Definition Reports_byID (id : Z) (t : table reportRow) : result err Report :=
  match row id t with None => Err ErrNoRows | Some r => Ok (Reports_scan (id, r)) end.

Definition Reports_File (us : users) (reporterID targetID : Z) (context note : bytes) (now : Z) (t : table reportRow) :
    result err Report * table reportRow :=
  if negb (exists_id reporterID us && exists_id targetID us) then (Err ErrForeignKey, t)
  else match insert (ReportRow reporterID targetID (TrimSpace context) (TrimSpace note) (fmtTime now) None None) t with
       | Err e => (Err e, t)
       | Ok (id, t') => (Reports_byID id t', t')
       end.

Definition open_report : Z -> reportRow -> bool := λ _ r, is_null (r_resolved_at r).

Definition Reports_Open (t : table reportRow) : list Report := Reports_scan <$> select open_report t.
Definition Reports_OpenCount (t : table reportRow) : Z := count open_report t.

Definition Reports_Resolve (us : users) (id sysopID now : Z) (t : table reportRow) :
    result err () * table reportRow :=
  let p := λ i r, (i =? id) && open_report i r in
  if (0 <? count p t) && negb (exists_id sysopID us) then (Err ErrForeignKey, t)
  else (Ok (), (update p (set_resolved (fmtTime now) sysopID) t).1).

(** ** Lemmas *)

Lemma Block_spec us a b now t t' :
  Blocks_Block us a b now t = (Ok (), t') -> a <> b ->
  Blocks_IsBlocked a b t' = true /\
  (forall x y, (x, y) <> (a, b) -> Blocks_IsBlocked x y t' = Blocks_IsBlocked x y t).
Proof.
  unfold Blocks_Block. intros E Hab. rewrite (proj2 (Z.eqb_neq a b) Hab) in E.
  destruct (0 <? count (block_is a b) t) eqn:Hc; [by injection E as <-|].
  destruct (negb _); [done|]. destruct (insert _ t) as [[id t'']|] eqn:Ei; [|done]. injection E as <-.
  unfold Blocks_IsBlocked. split.
  - apply Z.ltb_lt. rewrite (count_insert _ _ _ _ _ Ei). unfold block_is at 2. simpl. rewrite !Z.eqb_refl.
    pose proof (len_nonneg (select (block_is a b) t)). unfold count. simpl. lia.
  - intros x y Hne. rewrite (count_insert _ _ _ _ _ Ei). unfold block_is at 2. simpl.
    replace ((a =? x) && (b =? y)) with false; [by rewrite Z.add_0_r|].
    by destruct (Z.eqb_spec a x), (Z.eqb_spec b y); subst.
Qed.

Lemma Unblock_spec a b t :
  Blocks_IsBlocked a b (Blocks_Unblock a b t) = false.
Proof.
  unfold Blocks_IsBlocked. apply Z.ltb_ge. enough (count (block_is a b) (Blocks_Unblock a b t) = 0) by lia.
  apply count_zero. intros i r Hi. by apply delete_rows in Hi as [_ Hi].
Qed.

Section Props.
Context `{CryptoLaws}.
Variable v : Vault.

(** What [Send] leaves in the table. *)
Lemma Send_row us f to s b now n1 n2 t m t' :
  wf t -> nonce_ok n1 -> nonce_ok n2 -> bytes_ok s -> bytes_ok b -> time_ok now ->
  Mail_Send v us f to s b now n1 n2 t = (Ok m, t') ->
  m = MkMail (PID m) f to s b now None /\ wf t' /\ (forall i, i <> PID m -> row i t' = row i t) /\
  exists r, row (PID m) t' = Some r /\ Mail_scan v (PID m, r) = Ok m /\ p_read_at r = None /\
    p_to_id r = to /\ p_from_id r = f /\ Mail_UnreadCount to t' = Mail_UnreadCount to t + 1.
Proof.
  intros Hw H1 H2 Hs Hb Ht. unfold Mail_Send. destruct (negb _); [done|].
  destruct (insert _ t) as [[id t'']|] eqn:Ei; [|done]. intros [= <- <-]. cbn [PID].
  split_and!; [done|by eapply wf_insert|intros i Hi; by rewrite (row_insert _ _ _ _ Hw Ei), decide_False|].
  eexists. rewrite (row_insert _ _ _ _ Hw Ei), decide_True by done.
  split_and!; [done| |done..|].
  - unfold Mail_scan. cbn. by rewrite !open_seal, parseTime_fmtTime.
  - unfold Mail_UnreadCount. rewrite (count_insert _ _ _ _ _ Ei). unfold unread at 2. simpl. by rewrite Z.eqb_refl.
Qed.

(** ** Reading and deleting a row *)

Section Letter.
Variables (m : PrivateMessage) (r : mailRow) (t : mailbox).
Context (Hr : row (PID m) t = Some r) (Hsc : Mail_scan v (PID m, r) = Ok m) (Hft : FromID m <> ToID m) (Hw : wf t).

Lemma Get_sender w : Mail_Get v (PID m) (FromID m) w t = (Ok m, t).
Proof.
  unfold Mail_Get. rewrite Hr, Hsc, Z.eqb_refl, andb_false_r. by rewrite (proj2 (Z.eqb_neq (ToID m) (FromID m))) by congruence.
Qed.

Lemma Get_stranger w u : u <> FromID m -> u <> ToID m -> Mail_Get v (PID m) u w t = (Err ErrNotFound, t).
Proof.
  intros H1 H2. unfold Mail_Get. rewrite Hr, Hsc.
  by rewrite (proj2 (Z.eqb_neq (ToID m) u)), (proj2 (Z.eqb_neq (FromID m) u)) by congruence.
Qed.

Lemma Get_first w : ReadAt m = None ->
  Mail_Get v (PID m) (ToID m) w t = (Ok (with_read w m), (update (by_id (PID m)) (set_read (fmtTime w)) t).1).
Proof. intros Hn. unfold Mail_Get. by rewrite Hr, Hsc, Hn, Z.eqb_refl. Qed.

Lemma Get_again w : is_null (ReadAt m) = false -> Mail_Get v (PID m) (ToID m) w t = (Ok m, t).
Proof. intros Hn. unfold Mail_Get. by rewrite Hr, Hsc, Hn, Z.eqb_refl. Qed.

(** The row once it is marked. *)
Lemma row_read w : row (PID m) (update (by_id (PID m)) (set_read (fmtTime w)) t).1 = Some (set_read (fmtTime w) r).
Proof. rewrite row_update, Hr by done. simpl. unfold by_id. by rewrite Z.eqb_refl. Qed.

Lemma row_read_other w i : i <> PID m -> row i (update (by_id (PID m)) (set_read (fmtTime w)) t).1 = row i t.
Proof.
  intros Hi. rewrite row_update by done. destruct (row i t) as [x|]; [|done]. simpl. unfold by_id. by rewrite (proj2 (Z.eqb_neq i (PID m))).
Qed.

Lemma scan_read w : time_ok w -> Mail_scan v (PID m, set_read (fmtTime w) r) = Ok (with_read w m).
Proof.
  intros Hwt. revert Hsc. unfold Mail_scan. cbn. destruct (open v (p_subject r)) as [x|]; [|done]. destruct (open v (p_body r)) as [y|]; [|done].
  intros [= <-]. unfold with_read. cbn. by rewrite parseTime_fmtTime.
Qed.

Lemma Unread_first w : p_read_at r = None ->
  Mail_UnreadCount (p_to_id r) (update (by_id (PID m)) (set_read (fmtTime w)) t).1 = Mail_UnreadCount (p_to_id r) t - 1.
Proof.
  intros Hn. unfold Mail_UnreadCount. rewrite (count_update_id _ _ _ _ _ Hw Hr).
  replace (unread (p_to_id r) (PID m) r) with true by (unfold unread; by rewrite Hn, Z.eqb_refl).
  replace (unread (p_to_id r) (PID m) (set_read (fmtTime w) r)) with false by (unfold unread; by rewrite andb_false_r). lia.
Qed.

Lemma count_received u : count (received (PID m) u) t = if p_to_id r =? u then 1 else 0.
Proof.
  rewrite (count_at _ (PID m)) by (done || by intros i x [->%Z.eqb_eq _]%andb_true_iff).
  rewrite Hr. unfold received. by rewrite Z.eqb_refl.
Qed.

(** A deletion takes the row from its recipient, and nothing from anybody else. *)
Lemma Delete_row u i : row i (Mail_Delete (PID m) u t).2 = if decide (i = PID m /\ p_to_id r = u) then None else row i t.
Proof.
  assert (E : row i (Mail_Delete (PID m) u t).2 = match row i t with Some x => if received (PID m) u i x then None else Some x | None => None end)
    by by apply (row_delete (received (PID m) u)).
  rewrite E. unfold received. case_decide as Hd.
  - destruct Hd as [-> <-]. by rewrite Hr, !Z.eqb_refl.
  - destruct (row i t) as [x|] eqn:Ex; [|done]. destruct (Z.eqb_spec i (PID m)) as [->|]; [|done].
    rewrite Hr in Ex. injection Ex as <-. destruct (Z.eqb_spec (p_to_id r) u); [naive_solver|done].
Qed.

Lemma Delete_answer u : (Mail_Delete (PID m) u t).1 = if p_to_id r =? u then Ok () else Err ErrNotFound.
Proof. unfold Mail_Delete. cbn [delete fst]. rewrite count_received. by destruct (_ =? u). Qed.
End Letter.

(** C15: mail reads back for its sender and its recipient as it was sent, and as
    "not found" for everyone else; only the recipient's reading marks it read, the
    first one, which takes it off the unread count, and no later reading of
    anybody moves that moment; only the recipient can delete it, and then it is
    gone, also for its sender; sending, reading and deleting it leave every other
    message as it was. *)
Theorem mail_privacy (us : users) (f to now w : Z) (s b n1 n2 : bytes) (t t' : mailbox) (m : PrivateMessage)
  (Hw : wf t) (Hn1 : nonce_ok n1) (Hn2 : nonce_ok n2) (Hs : bytes_ok s) (Hb : bytes_ok b) (Ht : time_ok now)
  (Hne : f <> to) (Hm : Mail_Send v us f to s b now n1 n2 t = (Ok m, t')) :
  (forall i, i <> PID m -> row i t' = row i t) /\
  Mail_Get v (PID m) f w t' = (Ok m, t') /\
  (forall u, u <> f -> u <> to -> Mail_Get v (PID m) u w t' = (Err ErrNotFound, t')) /\
  (let '(got, t2) := Mail_Get v (PID m) to w t' in
   got = Ok (with_read w m) /\ Mail_UnreadCount to t2 = Mail_UnreadCount to t' - 1 /\
   (forall i, i <> PID m -> row i t2 = row i t') /\
   (time_ok w -> forall w2 u, (u = f \/ u = to -> Mail_Get v (PID m) u w2 t2 = (Ok (with_read w m), t2)) /\
      (u <> f -> u <> to -> Mail_Get v (PID m) u w2 t2 = (Err ErrNotFound, t2)))) /\
  (forall u, u <> to -> (Mail_Delete (PID m) u t').1 = Err ErrNotFound /\
                        forall i, row i (Mail_Delete (PID m) u t').2 = row i t') /\
  (let '(done_, t3) := Mail_Delete (PID m) to t' in
   done_ = Ok () /\ (forall u w2, Mail_Get v (PID m) u w2 t3 = (Err ErrNotFound, t3)) /\
   (forall i, i <> PID m -> row i t3 = row i t')).
Proof.
  destruct (Send_row us f to s b now n1 n2 t m t' Hw Hn1 Hn2 Hs Hb Ht Hm)
    as (Em & Hw' & Hoth & r & Hr & Hsc & Hnr & Hto & _ & _).
  assert (Ef : f = FromID m) by by rewrite Em. assert (Et : to = ToID m) by by rewrite Em.
  assert (Hn : ReadAt m = None) by by rewrite Em. clear Em Hm. rewrite Et in Hto. subst f to. split_and!.
  - exact Hoth.
  - by apply (Get_sender m r).
  - intros u. by apply (Get_stranger m r).
  - rewrite (Get_first m r) by done. split_and!; [done|rewrite <-Hto; by apply Unread_first|by apply row_read_other|].
    intros Hwt w2 u. assert (Hr2 := row_read m r t' Hr Hw' w). assert (Hsc2 := scan_read m r Hsc w Hwt).
    split; [intros [-> | ->]|intros H1 H2].
    + exact (Get_sender (with_read w m) _ _ Hr2 Hsc2 Hne w2).
    + exact (Get_again (with_read w m) _ _ Hr2 Hsc2 w2 eq_refl).
    + exact (Get_stranger (with_read w m) _ _ Hr2 Hsc2 w2 u H1 H2).
  - intros u Hu. rewrite (Delete_answer m r) by done. rewrite Hto, (proj2 (Z.eqb_neq (ToID m) u)) by congruence. split; [done|].
    intros i. rewrite (Delete_row m r) by done. rewrite decide_False by (rewrite Hto; naive_solver). done.
  - pose proof (Delete_answer m r t' Hr Hw' (ToID m)) as A. pose proof (Delete_row m r t' Hr Hw' (ToID m)) as D.
    destruct (Mail_Delete _ _ _) as [a t3]. cbn [fst snd] in *. rewrite Hto, Z.eqb_refl in A. split_and!; [done| |].
    + intros u w2. unfold Mail_Get. rewrite D, decide_True by done. done.
    + intros i Hi. rewrite D, decide_False by naive_solver. done.
Qed.
End Props.

(** ** Witness *)

Definition two_users : users := Table [(1, neo); (2, set_login [] [] neo)] 2.

Lemma mail_privacy_witness :
  exists m t', Mail_Send (H := toy) toy_vault two_users 1 2 (str "hi") (str "there") 0 toy_nonce toy_nonce empty_table
                 = (Ok m, t') /\
  Mail_Get (H := toy) toy_vault (PID m) 3 9 t' = (Err ErrNotFound, t').
Proof.
  destruct (Mail_Send (H := toy) toy_vault two_users 1 2 (str "hi") (str "there") 0 toy_nonce toy_nonce empty_table)
    as [[m|e] t'] eqn:E; [|by vm_compute in E].
  exists m, t'. split; [done|].
  destruct (mail_privacy (H := toy) (H0 := toy_laws) toy_vault two_users 1 2 0 9 (str "hi") (str "there") toy_nonce toy_nonce
    empty_table t' m wf_empty ltac:(by_decide) ltac:(by_decide) (str_ok _) (str_ok _) ltac:(by_decide) ltac:(done) E)
    as (_ & _ & Ho & _). by apply Ho.
Defined.
