(* ===== verification/Sealed.v ===== *)
(** * Sealed tables behave like plain ones (mail.go and messages.go of src/store)

    The abstract specification of private mail and of the message boards: lists
    of letters and of posts in plain text, with the last id given out.  The tables
    with their sealed columns refine it: any sequence of calls is answered as the
    plain lists answer it.  What both have in common is the class [SealedRow]. *)

From S2P Require Import Prelude GoStrings GoTime Vault Sql Users Boards Mail.

(** ** Plain tables *)

(** A row as the repository returns it knows its id. *)
Class SealedRow (R M : Type) := {
  scan : Z * R -> result err M;
  mid : M -> Z;
  scan_id i r m : scan (i, r) = Ok m -> mid m = i
}.

(** The entries in the order of their ids, and the last id given out. *)
Record plain (M : Type) := Plain { entries : list M; given : Z }.
Arguments Plain {M}.
Arguments entries {M}.
Arguments given {M}.

Definition nothing {M} : plain M := Plain [] 0.

Section Plain.
Context {M : Type}.

Definition add (mk : Z -> M) (a : plain M) : result err (Z * plain M) :=
  if given a <? maxRowid then let id := given a + 1 in Ok (id, Plain (entries a ++ [mk id]) id) else Err ErrFull.
Definition pick (q : M -> bool) (a : plain M) : list M := List.filter q (entries a).
Definition change (q : M -> bool) (f : M -> M) (a : plain M) : plain M :=
  Plain ((λ m, if q m then f m else m) <$> entries a) (given a).
Definition remove (q : M -> bool) (a : plain M) : plain M := Plain (List.filter (λ m, negb (q m)) (entries a)) (given a).
Definition amount (q : M -> bool) (a : plain M) : Z := len (pick q a).
End Plain.

(** [t] holds, sealed, what [a] holds. *)
Definition holds `{SealedRow R M} (t : table R) (a : plain M) : Prop :=
  Forall2 (λ x m, scan x = Ok m) (rows t) (entries a) /\ seq t = given a.

Section Holds.
Context `{SealedRow R M}.
Implicit Types (t : table R) (a : plain M).

(** The two conditions say the same of a row and of its entry. *)
Definition agree (p : Z -> R -> bool) (q : M -> bool) : Prop := forall i r m, scan (i, r) = Ok m -> p i r = q m.

Lemma holds_nothing : holds empty_table nothing.
Proof. by split. Qed.

Lemma filter_agree p q l k : agree p q -> Forall2 (λ x m, scan x = Ok m) l k ->
  Forall2 (λ x m, scan x = Ok m) (List.filter (λ x, p x.1 x.2) l) (List.filter q k).
Proof.
  intros Ha. induction 1 as [|[i r] m l k Hx _ IH]; [constructor|]. cbn. rewrite (Ha i r m Hx). destruct (q m); [by constructor|done].
Qed.

Lemma holds_select p q t a : holds t a -> agree p q -> Forall2 (λ x m, scan x = Ok m) (select p t) (pick q a).
Proof. intros [Hr _] Ha. by apply filter_agree. Qed.

Lemma holds_list p q t a : holds t a -> agree p q -> mapR scan (select p t) = Ok (pick q a).
Proof. intros Hh Ha. by apply mapR_ok, holds_select. Qed.

Lemma holds_count p q t a : holds t a -> agree p q -> count p t = amount q a.
Proof. intros Hh Ha. unfold count, amount, len. by rewrite (Forall2_length _ _ _ (holds_select p q t a Hh Ha)). Qed.

Lemma agree_id id : agree (by_id id) (λ m, mid m =? id).
Proof. intros i r m Hm. unfold by_id. by rewrite (scan_id i r m). Qed.

(** Looking a row up by its id, when the ids are distinct or not. *)
Lemma holds_row id t a : holds t a ->
  match row id t with
  | Some r => exists m, scan (id, r) = Ok m /\ head (pick (λ m, mid m =? id) a) = Some m
  | None => head (pick (λ m, mid m =? id) a) = None
  end.
Proof.
  intros Hh. pose proof (holds_select _ _ t a Hh (agree_id id)) as F. unfold row, by_id in *.
  assert (Hall : forall x, x ∈ select (λ i _, i =? id) t -> x.1 = id).
  { intros x [_ Hx]%elem_of_select. by apply Z.eqb_eq in Hx. }
  destruct F as [|[i r] m l k Hx _]; [done|]. cbn. pose proof (Hall (i, r) ltac:(by left)) as Hi. cbn in Hi. subst i. by exists m.
Qed.

Lemma holds_add r mk t a : holds t a -> (forall id, scan (id, r) = Ok (mk id)) ->
  match insert r t, add mk a with
  | Ok (i, t'), Ok (j, a') => i = j /\ holds t' a'
  | Err e, Err e' => e = e'
  | _, _ => False
  end.
Proof.
  intros [Hr Hs] Hm. unfold insert, add. rewrite Hs. destruct (given a <? maxRowid); [|done]. split; [done|]. split; [|done].
  apply Forall2_app; [done|]. by repeat constructor.
Qed.

Lemma holds_change p q f g t a : holds t a -> agree p q ->
  (forall i r m, scan (i, r) = Ok m -> scan (i, f r) = Ok (g m)) -> holds (update p f t).1 (change q g a).
Proof.
  intros [Hr Hs] Ha Hf. split; [|done]. cbn. apply Forall2_fmap. eapply Forall2_impl; [exact Hr|].
  intros [i r] m Hm. cbn in *. rewrite (Ha i r m Hm). destruct (q m); cbn; [by apply Hf|done].
Qed.

Lemma holds_remove p q t a : holds t a -> agree p q -> holds (delete p t).1 (remove q a).
Proof.
  intros [Hr Hs] Ha. split; [|done]. cbn. apply (filter_agree (λ i r, negb (p i r)) (λ m, negb (q m))); [|done].
  intros i r m Hm. by rewrite (Ha i r m Hm).
Qed.

(** The answers of a run of calls. *)
Fixpoint answers {C A S} (call : C -> S -> A * S) (cs : list C) (s : S) : list A * S :=
  match cs with
  | [] => ([], s)
  | c :: cs => let '(x, s) := call c s in let '(xs, s) := answers call cs s in (x :: xs, s)
  end.

(** A simulation, call by call, is one of whole runs. *)
Lemma answers_refine {C A S S'} (ok : C -> Prop) (R_ : S -> S' -> Prop) (f : C -> S -> A * S) (g : C -> S' -> A * S') cs s s' :
  (forall c s s', ok c -> R_ s s' -> (f c s).1 = (g c s').1 /\ R_ (f c s).2 (g c s').2) ->
  Forall ok cs -> R_ s s' ->
  (answers f cs s).1 = (answers g cs s').1 /\ R_ (answers f cs s).2 (answers g cs s').2.
Proof.
  intros Hsim Hok. revert s s'. induction Hok as [|c cs Hc _ IH]; intros s s' Hs; [done|]. cbn.
  destruct (Hsim c s s' Hc Hs) as [E Hs1]. destruct (f c s) as [x s1], (g c s') as [y s1']. cbn in *. subst y.
  destruct (IH s1 s1' Hs1) as [E2 Hs2]. destruct (answers f cs s1), (answers g cs s1'). cbn in *. by subst.
Qed.
End Holds.

(** ** Private mail *)

#[export] Program Instance mail_sealed `{Crypto} (v : Vault) : SealedRow mailRow PrivateMessage :=
  {| scan := Mail_scan v; mid := PID |}.
Next Obligation.
  intros ? v i r m. unfold Mail_scan. cbn. destruct (open v (p_subject r)), (open v (p_body r)); try done. by intros [= <-].
Qed.

(** The letters, as their senders and recipients know them. *)
Module Letters.
Abbreviation t := (plain PrivateMessage).

Definition Send (us : users) (f to : Z) (s b : bytes) (now : Z) (a : t) : result err PrivateMessage * t :=
  if negb (exists_id f us && exists_id to us) then (Err ErrForeignKey, a)
  else match add (λ id, MkMail id f to s b now None) a with
       | Err e => (Err e, a)
       | Ok (id, a') => (Ok (MkMail id f to s b now None), a')
       end.

Definition to_me (u : Z) (m : PrivateMessage) : bool := ToID m =? u.
Definition unread (u : Z) (m : PrivateMessage) : bool := to_me u m && is_null (ReadAt m).
Definition number (id : Z) (m : PrivateMessage) : bool := PID m =? id.

Definition Inbox (u : Z) (a : t) : result err (list PrivateMessage) := Ok (reverse (pick (to_me u) a)).
Definition UnreadCount (u : Z) (a : t) : Z := amount (unread u) a.

Definition Get (id u now : Z) (a : t) : result err PrivateMessage * t :=
  match head (pick (number id) a) with
  | None => (Err ErrNotFound, a)
  | Some m =>
      if negb (to_me u m) && negb (FromID m =? u) then (Err ErrNotFound, a)
      else if unread u m then (Ok (with_read now m), change (number id) (with_read now) a)
      else (Ok m, a)
  end.

Definition Delete (id u : Z) (a : t) : result err () * t :=
  let mine m := number id m && to_me u m in
  (if amount mine a =? 0 then Err ErrNotFound else Ok (), remove mine a).
End Letters.

(** The calls, with the accounts, the clock and the random bytes they meet, and
    the answers. *)
Inductive mail_call :=
  | MSend (us : users) (from to : Z) (subject body : bytes) (now : Z) (n1 n2 : bytes)
  | MInbox (user : Z)
  | MUnread (user : Z)
  | MGet (id user now : Z)
  | MDelete (id user : Z).

Inductive mail_answer :=
  | ALetter (r : result err PrivateMessage)
  | ALetters (r : result err (list PrivateMessage))
  | ANumber (n : Z)
  | ADone (r : result err ()).

Definition mail_call_ok (c : mail_call) : Prop :=
  match c with
  | MSend _ _ _ s b now n1 n2 => bytes_ok s /\ bytes_ok b /\ time_ok now /\ nonce_ok n1 /\ nonce_ok n2
  | MGet _ _ now => time_ok now
  | _ => True
  end.

#[export] Instance mail_call_ok_dec c : Decision (mail_call_ok c).
Proof. destruct c; cbn; apply _. Defined.

Definition mail_call_on `{Crypto} (v : Vault) (c : mail_call) (t : mailbox) : mail_answer * mailbox :=
  match c with
  | MSend us f to s b now n1 n2 => let '(r, t) := Mail_Send v us f to s b now n1 n2 t in (ALetter r, t)
  | MInbox u => (ALetters (Mail_Inbox v u t), t)
  | MUnread u => (ANumber (Mail_UnreadCount u t), t)
  | MGet id u now => let '(r, t) := Mail_Get v id u now t in (ALetter r, t)
  | MDelete id u => let '(r, t) := Mail_Delete id u t in (ADone r, t)
  end.

Definition letters_call (c : mail_call) (a : Letters.t) : mail_answer * Letters.t :=
  match c with
  | MSend us f to s b now _ _ => let '(r, a) := Letters.Send us f to s b now a in (ALetter r, a)
  | MInbox u => (ALetters (Letters.Inbox u a), a)
  | MUnread u => (ANumber (Letters.UnreadCount u a), a)
  | MGet id u now => let '(r, a) := Letters.Get id u now a in (ALetter r, a)
  | MDelete id u => let '(r, a) := Letters.Delete id u a in (ADone r, a)
  end.

Section MailRefines.
Context `{CryptoLaws}.
Variable v : Vault.
#[local] Abbreviation same := (holds (H := mail_sealed v)).

Lemma mail_scan_columns i r m : Mail_scan v (i, r) = Ok m ->
  PID m = i /\ FromID m = p_from_id r /\ ToID m = p_to_id r /\ is_null (ReadAt m) = is_null (p_read_at r).
Proof.
  unfold Mail_scan. cbn. destruct (open v (p_subject r)), (open v (p_body r)); try done. intros [= <-]. cbn. by destruct (p_read_at r).
Qed.

Lemma agree_mail (p : Z -> mailRow -> bool) (q : PrivateMessage -> bool) :
  (forall i r m, PID m = i -> FromID m = p_from_id r -> ToID m = p_to_id r -> is_null (ReadAt m) = is_null (p_read_at r) -> p i r = q m) ->
  agree (H := mail_sealed v) p q.
Proof. intros Hpq i r m Hm. apply mail_scan_columns in Hm as (? & ? & ? & ?). by apply Hpq. Qed.

Lemma scan_set_read now i r m : time_ok now -> Mail_scan v (i, r) = Ok m -> Mail_scan v (i, set_read (fmtTime now) r) = Ok (with_read now m).
Proof.
  intros Ht. unfold Mail_scan. cbn. destruct (open v (p_subject r)), (open v (p_body r)); try done. intros [= <-].
  by rewrite parseTime_fmtTime.
Qed.

Lemma mail_call_refines c t a : mail_call_ok c -> same t a ->
  (mail_call_on v c t).1 = (letters_call c a).1 /\ same (mail_call_on v c t).2 (letters_call c a).2.
Proof.
  intros Hc Hh. destruct c as [us f to s b now n1 n2|u|u|id u now|id u]; cbn in *.
  - destruct Hc as (Hs & Hb & Ht & Hn1 & Hn2). unfold Mail_Send, Letters.Send. destruct (negb _); [done|].
    set (mk := λ id, MkMail id f to s b now None).
    assert (Hmk : forall id, Mail_scan v (id, MailRow f to (seal v n1 s) (seal v n2 b) (fmtTime now) None) = Ok (mk id)).
    { intros id. unfold Mail_scan. cbn. by rewrite !open_seal, parseTime_fmtTime. }
    pose proof (holds_add (H := mail_sealed v) _ mk t a Hh Hmk) as Ha.
    destruct (insert _ t) as [[i t']|e], (add mk a) as [[j a']|e']; cbn; try done; [by destruct Ha as [-> Ha]|by subst].
  - split; [|done]. f_equal. unfold Mail_Inbox, Letters.Inbox. apply mapR_ok, Forall2_reverse.
    apply (holds_select (H := mail_sealed v)); [done|]. apply agree_mail. unfold Letters.to_me. congruence.
  - split; [|done]. f_equal. unfold Mail_UnreadCount, Letters.UnreadCount. apply (holds_count (H := mail_sealed v)); [done|].
    apply agree_mail. unfold Mail.unread, Letters.unread, Letters.to_me. congruence.
  - unfold Mail_Get, Letters.Get. pose proof (holds_row (H := mail_sealed v) id t a Hh) as Hr.
    destruct (row id t) as [r|]; cbn in Hr; [|unfold Letters.number; by rewrite Hr].
    destruct Hr as (m & Hm & Hp). unfold Letters.number in *. rewrite Hm, Hp. unfold Letters.to_me.
    destruct (negb _ && negb _); [done|]. unfold Letters.unread, Letters.to_me. destruct (_ && is_null _); [|done]. cbn. split; [done|].
    apply (holds_change (H := mail_sealed v)); [done|apply (agree_id (H := mail_sealed v))|]. intros. by apply scan_set_read.
  - unfold Mail_Delete, Letters.Delete. cbn [delete]. set (q := λ m, Letters.number id m && Letters.to_me u m).
    assert (Ha : agree (H := mail_sealed v) (received id u) q).
    { apply agree_mail. unfold received, q, Letters.number, Letters.to_me. congruence. }
    rewrite (holds_count (H := mail_sealed v) _ _ t a Hh Ha). split; [done|]. cbn. by apply (holds_remove (H := mail_sealed v)).
Qed.
End MailRefines.

(** ** Message boards *)

#[export] Program Instance message_sealed `{Crypto} (v : Vault) : SealedRow messageRow Message :=
  {| scan := Messages_scan v; mid := MsgID |}.
Next Obligation.
  intros ? v i r m. unfold Messages_scan. cbn. destruct (open v (ms_subject r)), (open v (ms_body r)); try done. by intros [= <-].
Qed.

(** The posts, as everyone reads them. *)
Module Posts.
Abbreviation t := (plain Message).

Definition number (id : Z) (m : Message) : bool := MsgID m =? id.
Definition in_area (area : Z) (m : Message) : bool := AreaID m =? area.
Definition reply_to (id : Z) (m : Message) : bool := bool_decide (ParentID m = Some id).
Definition top (area : Z) (m : Message) : bool := in_area area m && is_null (ParentID m).
Definition from (author : Z) (m : Message) : bool := AuthorID m =? author.

(** A parent must be there. *)
Definition Post (us : users) (ars : areas) (area author : Z) (parent : option Z) (s b : bytes) (now : Z) (a : t) :
    result err Message * t :=
  if negb (exists_id area ars && exists_id author us && match parent with None => true | Some p => 0 <? amount (number p) a end)
  then (Err ErrForeignKey, a)
  else match add (λ id, MkMessage id area author parent s b now) a with
       | Err e => (Err e, a)
       | Ok (id, a') => (Ok (MkMessage id area author parent s b now), a')
       end.

Definition with_text (s b : bytes) (m : Message) : Message :=
  MkMessage (MsgID m) (AreaID m) (AuthorID m) (ParentID m) s b (PostedAt m).

Definition Edit (id author : Z) (s b : bytes) (a : t) : result err () * t :=
  let mine m := number id m && from author m in
  (if amount mine a =? 0 then Err ErrNotOwner else Ok (), change mine (with_text s b) a).

(** A post goes with its replies, unless one of them was replied to. *)
Definition goes (id : Z) (m : Message) : bool := number id m || reply_to id m.
Definition stranded (id : Z) (a : t) (m : Message) : bool :=
  negb (goes id m) && match ParentID m with Some p => 0 <? amount (λ n, number p n && goes id n) a | None => false end.
Definition Delete (id : Z) (a : t) : result err () * t :=
  if 0 <? amount (stranded id a) a then (Err ErrForeignKey, a) else (Ok (), remove (goes id) a).

Definition ByID (id : Z) (a : t) : result err Message :=
  match head (pick (number id) a) with None => Err ErrNotFound | Some m => Ok m end.
Definition Thread (area : Z) (newestFirst : bool) (a : t) : list Message :=
  let l := pick (top area) a in if newestFirst then reverse l else l.
Definition Replies (id : Z) (a : t) : list Message := pick (reply_to id) a.
Definition ByAuthor (area author : Z) (a : t) : list Message := pick (λ m, in_area area m && from author m) a.
Definition Search (lower : bytes -> bytes) (area : Z) (q : bytes) (a : t) : list Message :=
  List.filter (hit lower (lower q)) (pick (in_area area) a).
End Posts.

Inductive board_call :=
  | BPost (us : users) (ars : areas) (area author : Z) (parent : option Z) (subject body : bytes) (now : Z) (n1 n2 : bytes)
  | BEdit (id author : Z) (subject body n1 n2 : bytes)
  | BDelete (id : Z)
  | BByID (id : Z)
  | BThread (area : Z) (newestFirst : bool)
  | BReplies (id : Z)
  | BByAuthor (area author : Z)
  | BSearch (area : Z) (query : bytes).

Inductive board_answer :=
  | APost (r : result err Message)
  | APosts (r : result err (list Message))
  | ASettled (r : result err ()).

Definition board_call_ok (c : board_call) : Prop :=
  match c with
  | BPost _ _ _ _ _ s b now n1 n2 => bytes_ok s /\ bytes_ok b /\ time_ok now /\ nonce_ok n1 /\ nonce_ok n2
  | BEdit _ _ s b n1 n2 => bytes_ok s /\ bytes_ok b /\ nonce_ok n1 /\ nonce_ok n2
  | _ => True
  end.

#[export] Instance board_call_ok_dec c : Decision (board_call_ok c).
Proof. destruct c; cbn; apply _. Defined.

Definition board_call_on `{Crypto} (v : Vault) (lower : bytes -> bytes) (c : board_call) (t : messages) : board_answer * messages :=
  match c with
  | BPost us ars area author p s b now n1 n2 => let '(r, t) := Messages_Post v us ars area author p s b now n1 n2 t in (APost r, t)
  | BEdit id author s b n1 n2 => let '(r, t) := Messages_Edit v id author s b n1 n2 t in (ASettled r, t)
  | BDelete id => let '(r, t) := Messages_Delete id t in (ASettled r, t)
  | BByID id => (APost (Messages_ByID v id t), t)
  | BThread area nf => (APosts (Messages_ThreadSorted v area nf t), t)
  | BReplies id => (APosts (Messages_Replies v id t), t)
  | BByAuthor area author => (APosts (Messages_ByAuthor v area author t), t)
  | BSearch area q => (APosts (Messages_Search v lower area q t), t)
  end.

Definition posts_call (lower : bytes -> bytes) (c : board_call) (a : Posts.t) : board_answer * Posts.t :=
  match c with
  | BPost us ars area author p s b now _ _ => let '(r, a) := Posts.Post us ars area author p s b now a in (APost r, a)
  | BEdit id author s b _ _ => let '(r, a) := Posts.Edit id author s b a in (ASettled r, a)
  | BDelete id => let '(r, a) := Posts.Delete id a in (ASettled r, a)
  | BByID id => (APost (Posts.ByID id a), a)
  | BThread area nf => (APosts (Ok (Posts.Thread area nf a)), a)
  | BReplies id => (APosts (Ok (Posts.Replies id a)), a)
  | BByAuthor area author => (APosts (Ok (Posts.ByAuthor area author a)), a)
  | BSearch area q => (APosts (Ok (Posts.Search lower area q a)), a)
  end.

Section BoardsRefine.
Context `{CryptoLaws}.
Variable v : Vault.
Variable lower : bytes -> bytes.
#[local] Abbreviation same := (holds (H := message_sealed v)).

Lemma message_scan_columns i r m : Messages_scan v (i, r) = Ok m ->
  MsgID m = i /\ AreaID m = ms_area_id r /\ AuthorID m = ms_author_id r /\ ParentID m = ms_parent_id r.
Proof. unfold Messages_scan. cbn. destruct (open v (ms_subject r)), (open v (ms_body r)); try done. by intros [= <-]. Qed.

Lemma agree_post (p : Z -> messageRow -> bool) (q : Message -> bool) :
  (forall i r m, MsgID m = i -> AreaID m = ms_area_id r -> AuthorID m = ms_author_id r -> ParentID m = ms_parent_id r -> p i r = q m) ->
  agree (H := message_sealed v) p q.
Proof. intros Hpq i r m Hm. apply message_scan_columns in Hm as (? & ? & ? & ?). by apply Hpq. Qed.

Lemma posts_listed p q t a : same t a ->
  (forall i r m, MsgID m = i -> AreaID m = ms_area_id r -> AuthorID m = ms_author_id r -> ParentID m = ms_parent_id r -> p i r = q m) ->
  Messages_list v (select p t) = Ok (pick q a).
Proof. intros Hh Hpq. by apply (holds_list (H := message_sealed v)), agree_post. Qed.

Lemma posts_counted p q t a : same t a ->
  (forall i r m, MsgID m = i -> AreaID m = ms_area_id r -> AuthorID m = ms_author_id r -> ParentID m = ms_parent_id r -> p i r = q m) ->
  count p t = amount q a.
Proof. intros Hh Hpq. by apply (holds_count (H := message_sealed v)), agree_post. Qed.

Lemma scan_set_text i r m s b n1 n2 : bytes_ok s -> bytes_ok b -> nonce_ok n1 -> nonce_ok n2 ->
  Messages_scan v (i, r) = Ok m -> Messages_scan v (i, set_text (seal v n1 s) (seal v n2 b) r) = Ok (Posts.with_text s b m).
Proof.
  intros Hs Hb H1 H2. unfold Messages_scan. cbn. destruct (open v (ms_subject r)), (open v (ms_body r)); try done. intros [= <-].
  by rewrite !open_seal.
Qed.

Lemma delete_refines id t a : same t a ->
  (Messages_Delete id t).1 = (Posts.Delete id a).1 /\ same (Messages_Delete id t).2 (Posts.Delete id a).2.
Proof.
  intros Hh. unfold Messages_Delete, Posts.Delete.
  assert (Hd : forall i r m, MsgID m = i -> ParentID m = ms_parent_id r -> doomed id i r = Posts.goes id m).
  { intros i r m E1 E2. unfold doomed, Posts.goes, Posts.number, Posts.reply_to. by rewrite E1, E2. }
  rewrite (posts_counted (orphaned id t) (Posts.stranded id a) t a Hh).
  - destruct (0 <? _); [done|]. split; [done|]. cbn. apply (holds_remove (H := message_sealed v)); [done|]. apply agree_post. eauto.
  - intros i r m E1 E2 E3 E4. unfold orphaned, Posts.stranded. rewrite (Hd i r m), <-E4 by done. f_equal.
    destruct (ParentID m) as [p|]; [|done]. f_equal. apply posts_counted; [done|]. intros j s n F1 F2 F3 F4.
    unfold Posts.number. by rewrite (Hd j s n), F1.
Qed.

Lemma board_call_refines c t a : board_call_ok c -> same t a ->
  (board_call_on v lower c t).1 = (posts_call lower c a).1 /\ same (board_call_on v lower c t).2 (posts_call lower c a).2.
Proof.
  intros Hc Hh. destruct c as [us ars area author p s b now n1 n2|id author s b n1 n2|id|id|area nf|id|area author|area q]; cbn in *.
  - destruct Hc as (Hs & Hb & Ht & Hn1 & Hn2). unfold Messages_Post, message_refs_ok, Posts.Post.
    assert (Hp : (match p with None => true | Some p => exists_id p t end) = (match p with None => true | Some p => 0 <? amount (Posts.number p) a end)).
    { destruct p as [p|]; [|done]. unfold exists_id. f_equal. apply posts_counted; [done|]. intros i r m E _ _ _. unfold by_id, Posts.number. by rewrite E. }
    rewrite Hp. destruct (negb _); [done|]. set (mk := λ id, MkMessage id area author p s b now).
    assert (Hmk : forall id, Messages_scan v (id, MessageRow area author p (seal v n1 s) (seal v n2 b) (fmtTime now)) = Ok (mk id)).
    { intros id. unfold Messages_scan. cbn. by rewrite !open_seal, parseTime_fmtTime. }
    pose proof (holds_add (H := message_sealed v) _ mk t a Hh Hmk) as Ha.
    destruct (insert _ t) as [[i t']|e], (add mk a) as [[j a']|e']; cbn; try done; [by destruct Ha as [-> Ha]|by subst].
  - destruct Hc as (Hs & Hb & Hn1 & Hn2). unfold Messages_Edit, Posts.Edit. cbn [update]. set (q := λ m, Posts.number id m && Posts.from author m).
    assert (Hq : forall i r m, MsgID m = i -> AreaID m = ms_area_id r -> AuthorID m = ms_author_id r -> ParentID m = ms_parent_id r -> owned id author i r = q m).
    { intros i r m E1 _ E3 _. unfold owned, q, Posts.number, Posts.from. by rewrite E1, E3. }
    rewrite (posts_counted _ _ t a Hh Hq). split; [done|]. cbn. apply (holds_change (H := message_sealed v)); [done|by apply agree_post|].
    intros i r m. by apply scan_set_text.
  - destruct (delete_refines id t a Hh) as [E Hh']. destruct (Messages_Delete id t), (Posts.Delete id a). cbn in *. by subst.
  - split; [|done]. f_equal. unfold Messages_ByID, Posts.ByID. pose proof (holds_row (H := message_sealed v) id t a Hh) as Hr.
    destruct (row id t) as [r|]; cbn in Hr; unfold Posts.number; [|by rewrite Hr]. destruct Hr as (m & Hm & ->). done.
  - split; [|done]. f_equal. unfold Messages_ThreadSorted, Posts.Thread.
    assert (Hl : Forall2 (λ x m, Messages_scan v x = Ok m) (select (top_level area) t) (pick (Posts.top area) a)).
    { apply mapR_ok, posts_listed; [done|]. intros i r m _ E2 _ E4. unfold top_level, Posts.top, Posts.in_area. by rewrite E2, E4. }
    apply mapR_ok. destruct nf; [by apply Forall2_reverse|done].
  - split; [|done]. f_equal. apply posts_listed; [done|]. intros i r m _ _ _ E4. unfold Posts.reply_to. by rewrite E4.
  - split; [|done]. f_equal. apply posts_listed; [done|]. intros i r m _ E2 E3 _. unfold Posts.in_area, Posts.from. by rewrite E2, E3.
  - split; [|done]. f_equal. unfold Messages_Search, Posts.Search.
    rewrite (posts_listed _ (Posts.in_area area) t a Hh); [done|]. intros i r m _ E2 _ _. unfold Posts.in_area. by rewrite E2.
Qed.
End BoardsRefine.

(** ** Properties *)

(** C11: Private mail with its sealed subjects and bodies answers every sequence of
    calls, errors included, as plain lists of letters answer it, whatever random
    bytes the sealing draws; what is left in the table is, opened, what is left in
    the lists. *)
Theorem mail_refines `{CryptoLaws} (v : Vault) (cs : list mail_call) (Hok : Forall mail_call_ok cs) :
  let '(concrete, t) := answers (mail_call_on v) cs empty_table in
  let '(abstract, a) := answers letters_call cs nothing in
  concrete = abstract /\ mapR (Mail_scan v) (rows t) = Ok (entries a) /\ seq t = given a.
Proof.
  destruct (answers_refine mail_call_ok (holds (H := mail_sealed v)) (mail_call_on v) letters_call cs empty_table nothing) as [E Hh];
    [intros; by apply mail_call_refines|done|apply holds_nothing|].
  destruct (answers _ cs empty_table) as [xs t], (answers letters_call cs nothing) as [ys a]. destruct Hh as [Hr Hs].
  split_and!; [done|by apply mapR_ok|done].
Qed.

(** C12: The message boards likewise: posts, edits, deletions with their replies,
    threads, searches and every refusal are those of plain lists of posts. *)
Theorem boards_refine `{CryptoLaws} (v : Vault) (lower : bytes -> bytes) (cs : list board_call) (Hok : Forall board_call_ok cs) :
  let '(concrete, t) := answers (board_call_on v lower) cs empty_table in
  let '(abstract, a) := answers (posts_call lower) cs nothing in
  concrete = abstract /\ mapR (Messages_scan v) (rows t) = Ok (entries a) /\ seq t = given a.
Proof.
  destruct (answers_refine board_call_ok (holds (H := message_sealed v)) (board_call_on v lower) (posts_call lower) cs empty_table nothing) as [E Hh];
    [intros; by apply board_call_refines|done|apply holds_nothing|].
  destruct (answers _ cs empty_table) as [xs t], (answers _ cs nothing) as [ys a]. destruct Hh as [Hr Hs].
  split_and!; [done|by apply mapR_ok|done].
Qed.

(** ** Witnesses *)

Definition some_letters : list mail_call :=
  [MSend two_users 1 2 (str "hi") (str "there") 0 toy_nonce toy_nonce; MUnread 2; MGet 1 3 5; MGet 1 2 5; MUnread 2;
   MSend two_users 1 9 [] [] 0 toy_nonce toy_nonce; MDelete 1 1; MInbox 2].

Definition letter (r : option Z) : PrivateMessage := MkMail 1 1 2 (str "hi") (str "there") 0 r.

Lemma mail_refines_witness :
  (answers (mail_call_on (H := toy) toy_vault) some_letters empty_table).1 =
    [ALetter (Ok (letter None)); ANumber 1; ALetter (Err ErrNotFound); ALetter (Ok (letter (Some 5))); ANumber 0;
     ALetter (Err ErrForeignKey); ADone (Err ErrNotFound); ALetters (Ok [letter (Some 5)])].
Proof.
  pose proof (mail_refines (H := toy) (H0 := toy_laws) toy_vault some_letters ltac:(by_decide)) as R.
  destruct (answers (mail_call_on (H := toy) toy_vault) some_letters empty_table) as [xs t].
  destruct (answers letters_call some_letters nothing) as [ys a] eqn:E. destruct R as [-> _]. vm_compute in E. injection E as <- <-. reflexivity.
Defined.

Definition one_board : areas := Table [(1, AreaRow (str "General") [] 0)] 1.
Definition some_posts : list board_call :=
  [BPost two_users one_board 1 1 None (str "a") (str "b") 0 toy_nonce toy_nonce;
   BPost two_users one_board 1 2 (Some 1) (str "re") (str "c") 1 toy_nonce toy_nonce;
   BPost two_users one_board 1 2 (Some 7) [] [] 1 toy_nonce toy_nonce; BEdit 2 1 [] [] toy_nonce toy_nonce; BDelete 1; BThread 1 true].

Lemma boards_refine_witness :
  (answers (board_call_on (H := toy) toy_vault lower_ascii) some_posts empty_table).1 =
    [APost (Ok (MkMessage 1 1 1 None (str "a") (str "b") 0)); APost (Ok (MkMessage 2 1 2 (Some 1) (str "re") (str "c") 1));
     APost (Err ErrForeignKey); ASettled (Err ErrNotOwner); ASettled (Ok ()); APosts (Ok [])].
Proof.
  pose proof (boards_refine (H := toy) (H0 := toy_laws) toy_vault lower_ascii some_posts ltac:(by_decide)) as R.
  destruct (answers (board_call_on (H := toy) toy_vault lower_ascii) some_posts empty_table) as [xs t].
  destruct (answers (posts_call lower_ascii) some_posts nothing) as [ys a] eqn:E. destruct R as [-> _]. vm_compute in E. injection E as <- <-. reflexivity.
Defined.
