(* ===== verification/Files.v ===== *)
(** * The file library (src/store/files.go)

    File areas, file entries and the sealed blobs next to the database.  The
    blob directory maps file names to contents; whether a write succeeds is an
    argument. *)

From S2P Require Import Prelude GoStrings GoTime Vault Sql Users Boards.

Definition MaxFileBytes : Z := 10 * 2 ^ 20.
Definition MaxUserBytes : Z := 100 * 2 ^ 20.

Record fareaRow := FareaRow { fa_name : bytes; fa_min_level : Z }.
Record FileArea := MkFileArea { FAID : Z; FAName : bytes; FAMin : Z }.

Abbreviation fareas := (table fareaRow).

Definition FileAreas_scan (x : Z * fareaRow) : FileArea := MkFileArea x.1 (fa_name x.2) (fa_min_level x.2).

Definition FileAreas_Create (name : bytes) (minLevel : Z) (t : fareas) : result err FileArea * fareas :=
  if 0 <? count (λ _ r, beq (fa_name r) name) t then (Err ErrUnique, t)
  else match insert (FareaRow name minLevel) t with
       | Err e => (Err e, t)
       | Ok (id, t') => (Ok (MkFileArea id name minLevel), t')
       end.

Definition FileAreas_Count (t : fareas) : Z := len (rows t).

Definition FileAreas_Visible (accessLevel : Z) (t : fareas) : list FileArea :=
  FileAreas_scan <$> order_by (λ x y, text_leb (fa_name x.2) (fa_name y.2))
    (select (λ _ r, fa_min_level r <=? accessLevel) t).

Definition FileAreas_ByID (id accessLevel : Z) (t : fareas) : result err FileArea :=
  match row id t with
  | None => Err ErrNotFound
  | Some r => if accessLevel <? fa_min_level r then Err ErrNotFound else Ok (FileAreas_scan (id, r))
  end.

Definition EnsureSeedFileAreas (t : fareas) : result err () * fareas :=
  if 0 <? FileAreas_Count t then (Ok (), t)
  else match FileAreas_Create (str "General Files") 0 t with
       | (Ok _, t') => (Ok (), t')
       | (Err e, t') => (Err e, t')
       end.

(** ** Entries *)

Record fileRow := FileRow {
  f_area_id : Z; f_filename : bytes; f_path : bytes; f_size : Z; f_description : bytes;
  f_uploader_id : Z; f_downloads : Z; f_uploaded_at : bytes
}.

Record FileEntry := MkFile {
  FID : Z; FAreaID : Z; Filename : bytes; SizeBytes : Z; FDescription : bytes;
  UploaderID : Z; DownloadCount : Z; UploadedAt : Z
}.

Definition set_path (p : bytes) (r : fileRow) : fileRow :=
  FileRow (f_area_id r) (f_filename r) p (f_size r) (f_description r) (f_uploader_id r) (f_downloads r) (f_uploaded_at r).
Definition bump (r : fileRow) : fileRow :=
  FileRow (f_area_id r) (f_filename r) (f_path r) (f_size r) (f_description r) (f_uploader_id r) (f_downloads r + 1)
    (f_uploaded_at r).

(** The table and the blobs by file name. *)
Record library := Lib { entries : table fileRow; blobs : gmap bytes bytes }.

(** The base name of [blobPath]. *)
Definition blobName (id : Z) : bytes := Itoa id ++ str ".bin".

Definition same_name (areaID : Z) (name : bytes) : Z -> fileRow -> bool :=
  λ _ r, (f_area_id r =? areaID) && nocase_eqb (f_filename r) name.

Definition sum_sizes (l : list (Z * fileRow)) : Z := foldr (λ x a, f_size x.2 + a) 0 l.

Definition UserBytes (uploaderID : Z) (t : table fileRow) : Z :=
  sum_sizes (select (λ _ r, f_uploader_id r =? uploaderID) t).

Definition Files_scan (x : Z * fileRow) : FileEntry :=
  MkFile x.1 (f_area_id x.2) (f_filename x.2) (f_size x.2) (f_description x.2) (f_uploader_id x.2)
    (f_downloads x.2) (parseTime (f_uploaded_at x.2)).

(** SQLite's LIKE: '%' any text, '_' one UTF-8 character, ASCII letters fold. *)
Definition skip_char (s : bytes) : option bytes :=
  match s with
  | [] => None
  | b :: s' =>
      Some (if 192 <=? b then
              (fix cont (s : bytes) := match s with
                                       | c :: t => if (128 <=? c) && (c <? 192) then cont t else s
                                       | [] => []
                                       end) s'
            else s')
  end.

Fixpoint like (fuel : nat) (pat s : bytes) : bool :=
  match fuel with
  | O => false
  | S f =>
      match pat with
      | [] => bool_decide (s = [])
      | p :: pat' =>
          if p =? 37 then
            like f pat' s || match skip_char s with Some s' => like f pat s' | None => false end
          else match s with
               | [] => false
               | b :: s' =>
                   if p =? 95 then match skip_char s with Some s2 => like f pat' s2 | None => false end
                   else (lower_byte p =? lower_byte b) && like f pat' s'
               end
      end
  end.

Definition LIKE (s pat : bytes) : bool := like (S (length s + length pat)) pat s.

(** [os.WriteFile] of a blob: it is there, or the write fails and leaves this at its
    name, if anything. *)
Inductive saving := Saved | Unsaved (part : option bytes).

Definition leave (name : bytes) (part : option bytes) (m : gmap bytes bytes) : gmap bytes bytes :=
  match part with Some x => <[name := x]> m | None => m end.

Section Files.
Context `{Crypto}.
Variable v : Vault.

Definition Files_Add (us : users) (ars : fareas) (areaID uploaderID : Z) (filename description content : bytes)
    (now : Z) (nonce : bytes) (wr : saving) (l : library) : result err FileEntry * library :=
  let t := entries l in
  if MaxFileBytes <? len content then (Err ErrTooLarge, l)
  else if 0 <? count (same_name areaID filename) t then (Err ErrDuplicateName, l)
  else if MaxUserBytes <? UserBytes uploaderID t + len content then (Err ErrQuotaExceeded, l)
  else if negb (exists_id areaID ars && exists_id uploaderID us) then (Err ErrForeignKey, l)
  else match insert (FileRow areaID filename [] (len content) description uploaderID 0 (fmtTime now)) t with
       | Err e => (Err e, l)
       | Ok (id, t') =>
           match wr with
           | Saved =>
               (Ok (MkFile id areaID filename (len content) description uploaderID 0 now),
                Lib (update (by_id id) (set_path (blobName id)) t').1
                    (<[blobName id := Seal v nonce content]> (blobs l)))
           | Unsaved part => (Err ErrIO, Lib t' (leave (blobName id) part (blobs l)))
           end
       end.

Definition Files_Content (id : Z) (l : library) : result err bytes * library :=
  match blobs l !! blobName id with
  | None => (Err ErrIO, l)
  | Some sealed =>
      match Open v sealed with
      | Err e => (Err (ErrVault e), l)
      | Ok plain => (Ok plain, Lib (update (by_id id) bump (entries l)).1 (blobs l))
      end
  end.
End Files.

Definition in_area (areaID : Z) : Z -> fileRow -> bool := λ _ r, f_area_id r =? areaID.

Definition Files_ListByArea (areaID : Z) (t : table fileRow) : list FileEntry :=
  Files_scan <$> reverse (select (in_area areaID) t).

Definition sort_key (by_ : bytes) (l : list (Z * fileRow)) : list (Z * fileRow) :=
  if beq by_ (str "name") then
    order_by (λ x y, text_leb (lower_ascii (f_filename x.2)) (lower_ascii (f_filename y.2))) l
  else if beq by_ (str "size") then order_by (λ x y, f_size y.2 <=? f_size x.2) l
  else if beq by_ (str "downloads") then order_by (λ x y, f_downloads y.2 <=? f_downloads x.2) l
  else if beq by_ (str "oldest") then l
  else reverse l.

Definition Files_ListSorted (areaID : Z) (by_ : bytes) (t : table fileRow) : list FileEntry :=
  Files_scan <$> sort_key by_ (select (in_area areaID) t).

Definition Files_Search (areaID : Z) (query : bytes) (t : table fileRow) : list FileEntry :=
  let pat := [37] ++ query ++ [37] in
  Files_scan <$> reverse (select (λ i r, in_area areaID i r && (LIKE (f_filename r) pat || LIKE (f_description r) pat)) t).

Definition Files_ByUploader (areaID uploaderID : Z) (t : table fileRow) : list FileEntry :=
  Files_scan <$> reverse (select (λ i r, in_area areaID i r && (f_uploader_id r =? uploaderID)) t).

Definition Files_ByID (id : Z) (t : table fileRow) : result err FileEntry :=
  match row id t with None => Err ErrNotFound | Some r => Ok (Files_scan (id, r)) end.

(** The row goes first; a missing blob is then an error. *)
Definition Files_Delete (id : Z) (l : library) : result err () * library :=
  let t' := (delete (by_id id) (entries l)).1 in
  (match blobs l !! blobName id with Some _ => Ok () | None => Err ErrIO end,
   Lib t' (base.delete (blobName id) (blobs l))).

Example LIKE_ex : LIKE (str "README.txt") (str "%readme%") = true /\ LIKE (str "ab") (str "%a_b%") = false.
Proof. split; reflexivity. Qed.

(** ** Lemmas *)

Lemma sum_sizes_app l k : sum_sizes (l ++ k) = sum_sizes l + sum_sizes k.
Proof. induction l as [|x l IH]; [done|]. simpl. unfold sum_sizes in *. lia. Qed.

(** Every size is a length, no file and no user is over its bound, and names
    are distinct in an area up to case. *)
Record lib_inv (l : library) : Prop := {
  li_wf : wf (entries l);
  li_size : forall i r, (i, r) ∈ rows (entries l) -> 0 <= f_size r <= MaxFileBytes;
  li_quota : forall u, UserBytes u (entries l) <= MaxUserBytes;
  li_names : forall i r j s, (i, r) ∈ rows (entries l) -> (j, s) ∈ rows (entries l) ->
    f_area_id r = f_area_id s -> nocase_eqb (f_filename r) (f_filename s) = true -> i = j
}.

Lemma lib_inv_empty : lib_inv (Lib empty_table ∅).
Proof.
  split; cbn; [apply wf_empty|intros i r Hi; exact (not_in_empty _ _ Hi)|done|intros i r j s Hi; exact (not_in_empty _ _ Hi)].
Qed.

(** An update that leaves sizes and uploaders alone. *)
Lemma UserBytes_update p f t u : (forall r, f_size (f r) = f_size r /\ f_uploader_id (f r) = f_uploader_id r) ->
  UserBytes u (update p f t).1 = UserBytes u t.
Proof.
  intros Hf. unfold UserBytes, select, update. cbn [rows fst].
  induction (rows t) as [|[i r] l IH]; [done|]. cbn [fmap list_fmap List.filter fst snd].
  destruct (Hf r) as (E1 & E2).
  destruct (p i r); cbn [fst snd]; rewrite ?E2; destruct (f_uploader_id r =? u);
    unfold sum_sizes in *; cbn [foldr snd] in *; rewrite ?E1; lia.
Qed.

Lemma UserBytes_delete p t u : (forall i r, (i, r) ∈ rows t -> 0 <= f_size r) -> UserBytes u (delete p t).1 <= UserBytes u t.
Proof.
  intros Hs. unfold UserBytes, select, delete. cbn [rows fst].
  assert (Hs' : forall x, x ∈ rows t -> 0 <= f_size x.2) by (intros [i r] Hi; apply (Hs i r Hi)).
  clear Hs. induction (rows t) as [|x l IH]; [done|]. cbn [List.filter].
  assert (0 <= f_size x.2) by (apply Hs'; constructor).
  assert (IH' := IH (λ y Hy, Hs' y (list_elem_of_further _ _ _ Hy))).
  destruct (p x.1 x.2); cbn [negb List.filter]; destruct (f_uploader_id x.2 =? u);
    unfold sum_sizes in *; cbn [foldr] in *; lia.
Qed.

(** An update of columns the bounds do not mention. *)
Lemma inv_update p f t b :
  (forall r, f_size (f r) = f_size r /\ f_uploader_id (f r) = f_uploader_id r /\
             f_area_id (f r) = f_area_id r /\ f_filename (f r) = f_filename r) ->
  lib_inv (Lib t b) -> forall b', lib_inv (Lib (update p f t).1 b').
Proof.
  intros Hf [Hw Hs Hq Hn] b'. split; cbn [entries] in *.
  - by apply wf_update.
  - intros i r (r0 & Hi & ->)%update_rows. specialize (Hs i r0 Hi).
    destruct (p i r0); [|done]. by destruct (Hf r0) as (-> & _).
  - intros u. etrans; [|apply (Hq u)]. rewrite UserBytes_update; [done|]. intros r. by destruct (Hf r) as (? & ? & _).
  - intros i r j s (r0 & Hi & ->)%update_rows (s0 & Hj & ->)%update_rows Ha E.
    apply (Hn i r0 j s0 Hi Hj); destruct (Hf r0) as (_ & _ & A1 & A2), (Hf s0) as (_ & _ & B1 & B2);
      destruct (p i r0), (p j s0); congruence.
Qed.

Lemma inv_insert r t id t' b :
  lib_inv (Lib t b) -> insert r t = Ok (id, t') -> 0 <= f_size r <= MaxFileBytes ->
  count (same_name (f_area_id r) (f_filename r)) t = 0 ->
  UserBytes (f_uploader_id r) t + f_size r <= MaxUserBytes ->
  forall b', lib_inv (Lib t' b').
Proof.
  intros [Hw Hs Hq Hn] Ei Hr Hc Hu b'. cbn [entries] in *. rewrite count_zero in Hc. unfold same_name in Hc.
  split; cbn [entries].
  - by eapply wf_insert.
  - intros i x Hi. rewrite (insert_rows _ _ _ _ Ei) in Hi.
    apply elem_of_app in Hi as [Hi|Hi%list_elem_of_singleton]; [by eapply Hs|]. by injection Hi as -> ->.
  - intros u. unfold UserBytes. rewrite (select_insert _ _ _ _ _ Ei), sum_sizes_app.
    destruct (Z.eqb_spec (f_uploader_id r) u) as [<-|_].
    + unfold UserBytes in Hu. simpl. lia.
    + simpl. specialize (Hq u). unfold UserBytes in Hq. lia.
  - intros i x j s Hi Hj Ha E. rewrite (insert_rows _ _ _ _ Ei) in Hi, Hj.
    apply elem_of_app in Hi as [Hi|Hi%list_elem_of_singleton], Hj as [Hj|Hj%list_elem_of_singleton].
    + by eapply Hn.
    + injection Hj as -> ->. specialize (Hc i x Hi). by rewrite Ha, Z.eqb_refl, E in Hc.
    + injection Hi as -> ->. specialize (Hc j s Hj). by rewrite <-Ha, Z.eqb_refl, nocase_sym, E in Hc.
    + congruence.
Qed.

Lemma inv_delete p t b : lib_inv (Lib t b) -> forall b', lib_inv (Lib (delete p t).1 b').
Proof.
  intros [Hw Hs Hq Hn] b'. cbn [entries] in *. split; cbn [entries].
  - by apply wf_delete.
  - intros i r [Hi _]%delete_rows. by eapply Hs.
  - intros u. etrans; [|apply (Hq u)]. apply UserBytes_delete. intros i r Hi. apply (Hs i r Hi).
  - intros i r j s [Hi _]%delete_rows [Hj _]%delete_rows. by eapply Hn.
Qed.

(** Blob names of different ids differ. *)
Lemma blobName_inj i j : int64_ok i -> int64_ok j -> blobName i = blobName j -> i = j.
Proof.
  unfold blobName. intros Hi Hj E. apply app_inj_2 in E as [E _]; [|done].
  apply (f_equal Atoi) in E. rewrite !Atoi_Itoa in E by done. congruence.
Qed.

Lemma wf_int64 {R} (t : table R) id r : wf t -> row id t = Some r -> int64_ok id /\ 0 < id <= seq t.
Proof.
  intros [_ Hr Hq] Hrow. apply row_in in Hrow. rewrite Forall_forall in Hr.
  specialize (Hr id ltac:(apply list_elem_of_fmap; by exists (id, r))). unfold int64_ok, maxRowid in *. lia.
Qed.

Section Props.
Context `{Crypto}.
Variable v : Vault.

(** Uploads (whose blob may fail to be written), downloads and deletions. *)
Inductive lib_step (us : users) (ars : fareas) : library -> library -> Prop :=
  | ls_add a u fn d c now n wr l r l' :
      Files_Add v us ars a u fn d c now n wr l = (r, l') -> lib_step us ars l l'
  | ls_content id l r l' : Files_Content v id l = (r, l') -> lib_step us ars l l'
  | ls_delete id l r l' : Files_Delete id l = (r, l') -> lib_step us ars l l'.

Lemma Add_cases us ars a u fn d c now n wr l r l' :
  Files_Add v us ars a u fn d c now n wr l = (r, l') ->
  (l' = l /\ exists e, r = Err e /\ e <> ErrIO) \/
  exists id t', insert (FileRow a fn [] (len c) d u 0 (fmtTime now)) (entries l) = Ok (id, t') /\
    len c <= MaxFileBytes /\ count (same_name a fn) (entries l) = 0 /\
    UserBytes u (entries l) + len c <= MaxUserBytes /\
    ((exists part, wr = Unsaved part /\ r = Err ErrIO /\ l' = Lib t' (leave (blobName id) part (blobs l))) \/
     (wr = Saved /\ r = Ok (MkFile id a fn (len c) d u 0 now) /\
      l' = Lib (update (by_id id) (set_path (blobName id)) t').1 (<[blobName id := Seal v n c]> (blobs l)))).
Proof.
  unfold Files_Add. destruct (Z.ltb_spec MaxFileBytes (len c)); [intros [= <- <-]; left; eauto|].
  destruct (Z.ltb_spec 0 (count (same_name a fn) (entries l))) as [|Hc]; [intros [= <- <-]; left; eauto|].
  destruct (Z.ltb_spec MaxUserBytes (UserBytes u (entries l) + len c)); [intros [= <- <-]; left; eauto|].
  destruct (negb _); [intros [= <- <-]; left; eauto|].
  destruct (insert _ _) as [[id t']|e] eqn:Ei.
  2:{ intros [= <- <-]. left. split; [done|]. exists e. split; [done|]. intros ->. unfold insert in Ei. by destruct (_ <? _). }
  assert (count (same_name a fn) (entries l) = 0)
    by (pose proof (len_nonneg (select (same_name a fn) (entries l))); unfold count in *; lia).
  destruct wr as [|part]; intros [= <- <-]; right; exists id, t'; split_and!; eauto.
Qed.

Lemma lib_step_inv us ars l l' : lib_step us ars l l' -> lib_inv l -> lib_inv l'.
Proof.
  intros [a u fn d c now n wr x r y E|id x r y E|id x r y E] Hi; destruct x as [t b].
  - apply Add_cases in E as [[-> _]|(id & t' & Ei & Hc & Hn & Hu & E)]; [done|].
    assert (Ht : forall b', lib_inv (Lib t' b')).
    { eapply inv_insert; [exact Hi|exact Ei|..]; cbn; [pose proof (len_nonneg c); lia|done|done]. }
    destruct E as [(part & _ & _ & ->)|(_ & _ & ->)]; [done|]. by eapply inv_update with (b := b).
  - unfold Files_Content in E. destruct (_ !! _) as [sealed|]; [|by injection E as <- <-].
    destruct (Open v sealed); injection E as <- <-; [|done]. by eapply inv_update with (b := b).
  - unfold Files_Delete in E. injection E as <- <-. by eapply inv_delete.
Qed.

(** Whatever is uploaded, downloaded and deleted, in any order and with any
    failed write, no stored file is over 10 MiB, no user's files add up to more
    than 100 MiB, and no two files of an area share a name up to case. *)
Theorem library_bounds (us : users) (ars : fareas) (l : library)
  (Hl : rtc (lib_step us ars) (Lib empty_table ∅) l) :
  (forall i r, (i, r) ∈ rows (entries l) -> 0 <= f_size r <= MaxFileBytes) /\
  (forall u, UserBytes u (entries l) <= MaxUserBytes) /\
  (forall i r j s, (i, r) ∈ rows (entries l) -> (j, s) ∈ rows (entries l) ->
     f_area_id r = f_area_id s -> nocase_eqb (f_filename r) (f_filename s) = true -> i = j).
Proof.
  assert (H0 := lib_inv_empty).
  assert (Hi : lib_inv l); [|by destruct Hi].
  remember (Lib empty_table ∅) as l0 eqn:E. clear E. induction Hl as [|x y z Hxy _ IH]; [done|].
  apply IH. by eapply lib_step_inv.
Qed.

(** A blob at the name of a new row does not matter to the rows that were there. *)
Lemma other_content (l : library) id r t' b t2 j x : wf (entries l) -> insert r (entries l) = Ok (id, t') ->
  row j (entries l) = Some x -> b !! blobName j = leave (blobName id) (b !! blobName id) (blobs l) !! blobName j ->
  (Files_Content v j (Lib t2 b)).1 = (Files_Content v j l).1.
Proof.
  intros Hw Ei Hj Hb. assert (Hw' := wf_insert _ _ _ _ Hw Ei). unfold Files_Content. cbn [blobs].
  assert (E : b !! blobName j = blobs l !! blobName j).
  { rewrite Hb. unfold leave. destruct (b !! blobName id); [|done]. rewrite lookup_insert_ne; [done|].
    intros E. destruct (wf_int64 _ _ _ Hw Hj) as [Hj64 Hjr].
    assert (Hid : row id t' = Some r) by (by rewrite (row_insert _ _ _ _ Hw Ei), decide_True).
    destruct (wf_int64 _ _ _ Hw' Hid) as [Hid64 _].
    apply blobName_inj in E as ->; [|done..]. destruct (insert_fresh _ _ _ _ Hw Ei). congruence. }
  rewrite E. destruct (blobs l !! blobName j) as [sealed|]; [by destruct (Open v sealed)|done].
Qed.

(** C39: an upload is downloaded as the same bytes, counting the download; its
    blob's name comes from the row id alone, so no file name the caller picks
    reaches another file's blob, and the other files still download as before;
    an upload whose write fails is reported, yet its row stays and keeps
    counting against the quota and the name, and nothing changes on the disk but
    what the failed write left at the name of that new row. *)
Theorem upload_download (us : users) (ars : fareas) (a u now : Z) (fn d c n : bytes) (wr : saving)
  (l l' : library) (r : result err FileEntry)
  (HL : CryptoLaws) (Hi : lib_inv l) (Hn : nonce_ok n)
  (Ha : Files_Add v us ars a u fn d c now n wr l = (r, l')) :
  (forall f, r = Ok f ->
     (Files_Content v (FID f) l').1 = Ok c /\
     (forall x, row (FID f) (entries l') = Some x ->
        row (FID f) (entries (Files_Content v (FID f) l').2) = Some (bump x)) /\
     blobs l' = <[blobName (FID f) := Seal v n c]> (blobs l) /\
     (forall j x, row j (entries l) = Some x -> (Files_Content v j l').1 = (Files_Content v j l).1)) /\
  (r = Err ErrIO -> UserBytes u (entries l') = UserBytes u (entries l) + len c /\
     0 < count (same_name a fn) (entries l') /\
     (exists id part, wr = Unsaved part /\ row id (entries l) = None /\ blobs l' = leave (blobName id) part (blobs l)) /\
     (forall j x, row j (entries l) = Some x -> (Files_Content v j l').1 = (Files_Content v j l).1)).
Proof.
  apply Add_cases in Ha as [[-> (e & -> & He)]|(id & t' & Ei & Hc & Hc0 & Hu & [(part & -> & -> & ->)|(-> & -> & ->)])].
  - split; [done|]. congruence.
  - split; [done|]. intros _. cbn [entries blobs]. split_and!.
    + unfold UserBytes. rewrite (select_insert _ _ _ _ _ Ei), sum_sizes_app. cbn [f_uploader_id].
      rewrite Z.eqb_refl. simpl. lia.
    + rewrite (count_insert _ _ _ _ _ Ei), Hc0. unfold same_name. cbn. by rewrite Z.eqb_refl, nocase_refl.
    + exists id, part. split_and!; [done| |done]. by destruct (insert_fresh _ _ _ _ (li_wf _ Hi) Ei).
    + intros j x Hj. eapply (other_content l id); [apply Hi|exact Ei|exact Hj|].
      unfold leave. destruct part as [y|]; [by rewrite lookup_insert_eq|]. destruct (blobs l !! blobName id) eqn:Eb; [|done].
      by rewrite insert_id.
  - split; [|done]. intros f [= <-]. cbn [FID entries blobs].
    destruct Hi as [Hw _ _ _]. assert (Hw' := wf_insert _ _ _ _ Hw Ei). split_and!; [| |done|].
    + unfold Files_Content. cbn [blobs]. rewrite lookup_insert_eq, Open_Seal by apply Hn. done.
    + intros x Hx. unfold Files_Content. cbn [blobs entries]. rewrite lookup_insert_eq, Open_Seal by apply Hn.
      cbn [snd entries]. rewrite row_update, Hx by by apply wf_update. simpl. unfold by_id. by rewrite Z.eqb_refl.
    + intros j x Hj. eapply (other_content l id); [done|exact Ei|exact Hj|]. by rewrite lookup_insert_eq.
Qed.
End Props.

(** ** Witnesses *)

Definition one_area : fareas := Table [(1, FareaRow (str "General Files") 0)] 1.
Definition uploaded : library :=
  (Files_Add (H := toy) toy_vault some_users one_area 1 1 (str "a.txt") [] (str "hello") 0 toy_nonce Saved
     (Lib empty_table ∅)).2.

Lemma library_bounds_witness : UserBytes 1 (entries uploaded) <= MaxUserBytes.
Proof.
  apply (library_bounds (H := toy) toy_vault some_users one_area uploaded). eapply rtc_once, ls_add.
  apply surjective_pairing.
Defined.

Lemma upload_download_witness :
  (Files_Content (H := toy) toy_vault 1 uploaded).1 = Ok (str "hello").
Proof.
  destruct (Files_Add (H := toy) toy_vault some_users one_area 1 1 (str "a.txt") [] (str "hello") 0 toy_nonce Saved
     (Lib empty_table ∅)) as [[f|e] l'] eqn:E; [|by vm_compute in E].
  assert (Hf : FID <$> res_opt (Files_Add (H := toy) toy_vault some_users one_area 1 1 (str "a.txt") [] (str "hello") 0
     toy_nonce Saved (Lib empty_table ∅)).1 = Some 1) by (vm_compute; reflexivity).
  destruct (upload_download (H := toy) toy_vault some_users one_area 1 1 0 (str "a.txt") [] (str "hello") toy_nonce Saved
     (Lib empty_table ∅) l' (Ok f) toy_laws) as [P _]; [|by_decide|exact E|].
  - split; cbn; [apply wf_empty|intros i r Hi; exact (not_in_empty _ _ Hi)|done|
      intros i r j s Hi; exact (not_in_empty _ _ Hi)].
  - unfold uploaded. rewrite E in Hf |- *. injection Hf as Hf. rewrite <-Hf. by apply P.
Defined.
