(* ===== verification/Uploads.v ===== *)
(** * Uploads at the same time (Add, Delete and Content of src/store/files.go)

    Every session may upload, download and delete while others do.  [Add] runs
    under the store's upload mutex, statement by statement; deletions and download
    counters are not under it and come in between.  What holds of the library then. *)

From S2P Require Import Prelude GoStrings GoTime Vault Sql Users Boards Mail Files.

(** ** State *)

(** The arguments of [Add], the time it reads, the nonce it draws, and what
    becomes of the write of its blob. *)
Record request := Request {
  q_area : Z; q_user : Z; q_name : bytes; q_description : bytes; q_content : bytes; q_now : Z; q_nonce : bytes; q_writes : saving
}.

(** How far a call of [Add] has come. *)
Inductive upload :=
  | Called (q : request)
  | Entered (q : request)
  | NameFree (q : request)
  | InQuota (q : request)
  | Inserted (q : request) (id : Z)
  | OnDisk (q : request) (id : Z)
  | Returned (q : request) (r : result err FileEntry).

(** The calls that hold the mutex. *)
Definition busy (p : upload) : Prop := match p with Called _ | Returned _ _ => False | _ => True end.
Definition asked (p : upload) : request :=
  match p with Called q | Entered q | NameFree q | InQuota q | Inserted q _ | OnDisk q _ | Returned q _ => q end.

(** [removals]: the deletions whose row is gone and whose blob is still to go.
    [origin] tells, for the proofs, which call inserted a row. *)
Record shared := Shared {
  lib : library;
  mutex : option Z;
  uploads : gmap Z upload;
  removals : gmap Z Z;
  origin : gmap Z request
}.

Definition empty_shared : shared := Shared (Lib empty_table ∅) None ∅ ∅ ∅.

(** Call [i] comes to [p], the mutex to [o] and the library to [l]. *)
Definition move (i : Z) (p : upload) (o : option Z) (l : library) (s : shared) : shared :=
  Shared l o (<[i := p]> (uploads s)) (removals s) (origin s).
Definition inserted_by (id : Z) (q : request) (s : shared) : shared :=
  Shared (lib s) (mutex s) (uploads s) (removals s) (<[id := q]> (origin s)).

(** ** Steps *)

Section Steps.
Context `{Crypto}.
Variable v : Vault.
Variables (us : users) (ars : fareas).

(** The next statement of call [i]; [None]: it waits for the mutex or has returned. *)
Definition upload_step (i : Z) (s : shared) : option shared :=
  let t := entries (lib s) in
  let return_ q r := Some (move i (Returned q r) None (lib s) s) in
  let go p := Some (move i p (Some i) (lib s) s) in
  match uploads s !! i with
  | None => None
  | Some (Called q) =>
      if MaxFileBytes <? len (q_content q) then Some (move i (Returned q (Err ErrTooLarge)) (mutex s) (lib s) s)
      else match mutex s with Some _ => None | None => go (Entered q) end
  | Some (Entered q) =>
      if 0 <? count (same_name (q_area q) (q_name q)) t then return_ q (Err ErrDuplicateName) else go (NameFree q)
  | Some (NameFree q) =>
      if MaxUserBytes <? UserBytes (q_user q) t + len (q_content q) then return_ q (Err ErrQuotaExceeded) else go (InQuota q)
  | Some (InQuota q) =>
      if negb (exists_id (q_area q) ars && exists_id (q_user q) us) then return_ q (Err ErrForeignKey)
      else match insert (FileRow (q_area q) (q_name q) [] (len (q_content q)) (q_description q) (q_user q) 0 (fmtTime (q_now q))) t with
           | Err e => return_ q (Err e)
           | Ok (id, t') => Some (inserted_by id q (move i (Inserted q id) (Some i) (Lib t' (blobs (lib s))) s))
           end
  | Some (Inserted q id) =>
      match q_writes q with
      | Saved => Some (move i (OnDisk q id) (Some i) (Lib t (<[blobName id := Seal v (q_nonce q) (q_content q)]> (blobs (lib s)))) s)
      | Unsaved part => Some (move i (Returned q (Err ErrIO)) None (Lib t (leave (blobName id) part (blobs (lib s)))) s)
      end
  | Some (OnDisk q id) =>
      Some (move i (Returned q (Ok (MkFile id (q_area q) (q_name q) (len (q_content q)) (q_description q) (q_user q) 0 (q_now q)))) None
        (Lib (update (by_id id) (set_path (blobName id)) t).1 (blobs (lib s))) s)
  | Some (Returned _ _) => None
  end.

(** [Delete]: the row, and later the blob. *)
Definition delete_row (k id : Z) (s : shared) : shared :=
  Shared (Lib (delete (by_id id) (entries (lib s))).1 (blobs (lib s))) (mutex s) (uploads s) (<[k := id]> (removals s)) (origin s).
Definition delete_blob (k id : Z) (s : shared) : shared :=
  Shared (Lib (entries (lib s)) (base.delete (blobName id) (blobs (lib s)))) (mutex s) (uploads s) (base.delete k (removals s)) (origin s).

(** The counter of [Content], whenever the blob was read. *)
Definition count_download (id : Z) (s : shared) : shared :=
  Shared (Lib (update (by_id id) bump (entries (lib s))).1 (blobs (lib s))) (mutex s) (uploads s) (removals s) (origin s).

(** Files are deleted by the id they were listed with. *)
Inductive step : shared -> shared -> Prop :=
  | step_call i q s : uploads s !! i = None -> nonce_ok (q_nonce q) -> step s (move i (Called q) (mutex s) (lib s) s)
  | step_upload i s s' : upload_step i s = Some s' -> step s s'
  | step_delete k id s : removals s !! k = None -> 0 < id <= seq (entries (lib s)) -> step s (delete_row k id s)
  | step_unlink k id s : removals s !! k = Some id -> step s (delete_blob k id s)
  | step_download id s : step s (count_download id s).

(** A schedule: who takes the next step. *)
Inductive turn := Calls (i : Z) (q : request) | Goes (i : Z) | Deletes (k id : Z) | Unlinks (k : Z) | Downloads (id : Z).

Definition take_turn (t : turn) (s : shared) : option shared :=
  match t with
  | Calls i q => if uploads s !! i is None then Some (move i (Called q) (mutex s) (lib s) s) else None
  | Goes i => upload_step i s
  | Deletes k id =>
      if is_null (removals s !! k) && (0 <? id) && (id <=? seq (entries (lib s))) then Some (delete_row k id s) else None
  | Unlinks k => match removals s !! k with Some id => Some (delete_blob k id s) | None => None end
  | Downloads id => Some (count_download id s)
  end.

Fixpoint run (ts : list turn) (s : shared) : option shared :=
  match ts with
  | [] => Some s
  | t :: ts => match take_turn t s with Some s' => run ts s' | None => None end
  end.

(** Call [i] alone, for up to [n] statements. *)
Fixpoint finish (n : nat) (i : Z) (s : shared) : shared :=
  match n with O => s | S n => match upload_step i s with Some s' => finish n i s' | None => s end end.
End Steps.

(** ** Lemmas *)

Section Invariant.
Context `{CryptoLaws}.
Variable v : Vault.
Variables (us : users) (ars : fareas).

(** The row a request inserted, whatever its path and counter. *)
Definition describes (q : request) (r : fileRow) : Prop :=
  f_area_id r = q_area q /\ f_filename r = q_name q /\ f_size r = len (q_content q) /\ f_description r = q_description q /\
  f_uploader_id r = q_user q /\ f_uploaded_at r = fmtTime (q_now q).

Definition sealed (q : request) : bytes := Seal v (q_nonce q) (q_content q).

(** What a call knows between its statements. *)
Definition knows (t : table fileRow) (b : gmap bytes bytes) (og : gmap Z request) (p : upload) : Prop :=
  let fits q := len (q_content q) <= MaxFileBytes in
  match p with
  | Called _ => True
  | Entered q => fits q
  | NameFree q => fits q /\ count (same_name (q_area q) (q_name q)) t = 0
  | InQuota q => fits q /\ count (same_name (q_area q) (q_name q)) t = 0 /\ UserBytes (q_user q) t + len (q_content q) <= MaxUserBytes
  | Inserted q id => og !! id = Some q /\ 0 < id <= seq t /\ forall r, (id, r) ∈ rows t -> f_path r = []
  | OnDisk q id => og !! id = Some q /\ 0 < id <= seq t /\ forall r, (id, r) ∈ rows t -> b !! blobName id = Some (sealed q)
  | Returned q (Ok f) => og !! FID f = Some q /\ 0 < FID f <= seq t /\ forall r, (FID f, r) ∈ rows t -> f_path r = blobName (FID f)
  | Returned q (Err _) => True
  end.

Record inv (s : shared) : Prop := {
  u_lib : lib_inv (lib s);
  u_mutex : forall i, mutex s = Some i <-> exists p, uploads s !! i = Some p /\ busy p;
  u_knows : forall i p, uploads s !! i = Some p -> nonce_ok (q_nonce (asked p)) /\ knows (entries (lib s)) (blobs (lib s)) (origin s) p;
  u_gone : forall k id, removals s !! k = Some id -> 0 < id <= seq (entries (lib s)) /\ forall r, (id, r) ∉ rows (entries (lib s));
  u_origin : forall id q, origin s !! id = Some q -> nonce_ok (q_nonce q) /\ 0 < id <= seq (entries (lib s));
  u_rows : forall id r, (id, r) ∈ rows (entries (lib s)) -> exists q, origin s !! id = Some q /\ describes q r /\
    (f_path r = [] \/ f_path r = blobName id /\ blobs (lib s) !! blobName id = Some (sealed q))
}.

(** Blobs of different rows have different names. *)
Lemma blob_other (t : table fileRow) i j : wf t -> 0 < i <= seq t -> 0 < j <= seq t -> i <> j -> blobName i <> blobName j.
Proof. intros Hw Hi Hj Hne E. destruct (wf_seq t Hw). apply Hne, blobName_inj; [unfold int64_ok, maxRowid in *; lia..|done]. Qed.

Lemma row_range (t : table fileRow) i r : wf t -> (i, r) ∈ rows t -> 0 < i <= seq t.
Proof. intros Hw Hi. apply (in_row t i r Hw) in Hi. by destruct (wf_int64 t i r Hw Hi). Qed.

(** [t'] has no rows but those of [t], with other counters at most. *)
Definition shrinks (t t' : table fileRow) : Prop :=
  seq t' = seq t /\ (forall u, UserBytes u t' <= UserBytes u t) /\
  forall i r', (i, r') ∈ rows t' -> exists r, (i, r) ∈ rows t /\ f_path r' = f_path r /\ f_area_id r' = f_area_id r /\ f_filename r' = f_filename r /\
    forall q, describes q r -> describes q r'.

Lemma shrinks_refl t : shrinks t t.
Proof. split_and!; [done|done|]. intros i r Hi. by exists r. Qed.

Lemma shrinks_delete p t : (forall i r, (i, r) ∈ rows t -> 0 <= f_size r) -> shrinks t (delete p t).1.
Proof. intros Hs. split_and!; [done|intros u; by apply UserBytes_delete|]. intros i r [Hi _]%delete_rows. by exists r. Qed.

Lemma shrinks_bump p t : shrinks t (update p bump t).1.
Proof.
  split_and!; [done|intros u; rewrite UserBytes_update; [done|by intros []]|]. intros i r' (r & Hi & ->)%update_rows.
  exists r. by destruct (p i r).
Qed.

Lemma knows_shrink t t' b b' og p : shrinks t t' -> (forall i r, (i, r) ∈ rows t' -> b' !! blobName i = b !! blobName i) ->
  knows t b og p -> knows t' b' og p.
Proof.
  intros (Hq & Hu & Hr) Hb.
  assert (Hc : forall a n, count (same_name a n) t = 0 -> count (same_name a n) t' = 0).
  { intros a n. rewrite !count_zero. intros Hz i r' Hi. destruct (Hr i r' Hi) as (r & Hi0 & _ & E1 & E2 & _). unfold same_name. rewrite E1, E2. by apply (Hz i r). }
  destruct p as [q|q|q|q|q id|q id|q [f|e]]; cbn; rewrite ?Hq; try done.
  - intros [? ?]. auto.
  - intros (? & ? & ?). split_and!; auto. specialize (Hu (q_user q)). lia.
  - intros (? & ? & Hk). split; [done|]. split; [done|]. intros r' Hi. destruct (Hr id r' Hi) as (r & Hi0 & -> & _). by apply Hk.
  - intros (? & ? & Hk). split; [done|]. split; [done|]. intros r' Hi. rewrite (Hb id r' Hi). destruct (Hr id r' Hi) as (r & Hi0 & _). by apply (Hk r).
  - intros (? & ? & Hk). split; [done|]. split; [done|]. intros r' Hi. destruct (Hr _ r' Hi) as (r & Hi0 & -> & _). by apply Hk.
Qed.

(** Deletions, blobs unlinked and counters. *)
Lemma inv_shrink s l rm : inv s -> lib_inv l -> shrinks (entries (lib s)) (entries l) ->
  (forall i r, (i, r) ∈ rows (entries l) -> blobs l !! blobName i = blobs (lib s) !! blobName i) ->
  (forall k id, rm !! k = Some id -> 0 < id <= seq (entries l) /\ forall r, (id, r) ∉ rows (entries l)) ->
  inv (Shared l (mutex s) (uploads s) rm (origin s)).
Proof.
  intros [U1 U2 U3 U4 U5 U6] Hl Hsh Hb Hrm. split; cbn; try done.
  - intros i p Hi. destruct (U3 i p Hi) as [? ?]. split; [done|]. by eapply knows_shrink.
  - intros id q Ho. destruct Hsh as (-> & _). by apply U5.
  - intros id r' Hi. destruct Hsh as (_ & _ & Hr). destruct (Hr id r' Hi) as (r & Hi0 & -> & _ & _ & Hd).
    destruct (U6 id r Hi0) as (q & Ho & Hq & Hp). exists q. rewrite (Hb id r' Hi). auto.
Qed.

(** A statement of call [i] that leaves the library alone. *)
Lemma inv_move s i p' o : inv s -> nonce_ok (q_nonce (asked p')) ->
  knows (entries (lib s)) (blobs (lib s)) (origin s) p' -> (busy p' <-> o = Some i) ->
  (forall j, j <> i -> o = Some j <-> mutex s = Some j) -> inv (move i p' o (lib s) s).
Proof.
  intros [U1 U2 U3 U4 U5 U6] Hn Hk Hb Ho. split; cbn; try done.
  - intros j. destruct (decide (j = i)) as [->|Hne].
    + rewrite lookup_insert_eq. naive_solver.
    + rewrite lookup_insert_ne, Ho by done. apply U2.
  - intros j q [[<- <-]|[_ Hj]]%lookup_insert_Some; [done|by apply (U3 j)].
Qed.

(** While [i] is busy, the others wait or have returned. *)
Lemma others_idle s i p j q : inv s -> uploads s !! i = Some p -> busy p -> uploads s !! j = Some q -> j <> i -> ~ busy q.
Proof.
  intros U Hi Hp Hj Hne Hq. assert (mutex s = Some i) by (apply (u_mutex s U); eauto). assert (mutex s = Some j) by (apply (u_mutex s U); eauto).
  congruence.
Qed.

Lemma busy_holds s i p : inv s -> uploads s !! i = Some p -> busy p -> mutex s = Some i.
Proof. intros U Hi Hp. apply (u_mutex s U). eauto. Qed.

(** The mutex after a statement of the call that held it. *)
Lemma mutex_after s i p p' o : inv s -> uploads s !! i = Some p -> busy p -> (busy p' <-> o = Some i) -> (forall j, o = Some j -> j = i) ->
  forall j, o = Some j <-> exists q, <[i := p']> (uploads s) !! j = Some q /\ busy q.
Proof.
  intros U Hi Hp Hb Ho j. destruct (decide (j = i)) as [->|Hne].
  - rewrite lookup_insert_eq. naive_solver.
  - rewrite lookup_insert_ne by done. split; [intros E; by apply Ho in E|]. intros (q & Hj & Hq). exfalso. by apply (others_idle s i p j q).
Qed.

(** Idle calls know nothing of what the busy one changes. *)
Lemma knows_idle t t' b b' og og' p : ~ busy p -> seq t <= seq t' ->
  (forall f, 0 < FID f <= seq t -> og' !! FID f = og !! FID f) ->
  (forall id r', (id, r') ∈ rows t' -> 0 < id <= seq t -> exists r, (id, r) ∈ rows t /\ (f_path r' = f_path r \/ f_path r' = blobName id)) ->
  knows t b og p -> knows t' b' og' p.
Proof.
  intros Hb Hs Ho Hr. destruct p as [q|q|q|q|q id|q id|q [f|e]]; try (by intros; exfalso; apply Hb); try done. cbn.
  intros (Hf & Hid & Hk). rewrite Ho by done. split; [done|]. split; [lia|]. intros r' Hi.
  destruct (Hr _ r' Hi Hid) as (r & Hi0 & [-> | ->]); [by apply Hk|done].
Qed.

Lemma inv_row s i q id t' : inv s -> uploads s !! i = Some (InQuota q) ->
  insert (FileRow (q_area q) (q_name q) [] (len (q_content q)) (q_description q) (q_user q) 0 (fmtTime (q_now q))) (entries (lib s)) = Ok (id, t') ->
  inv (inserted_by id q (move i (Inserted q id) (Some i) (Lib t' (blobs (lib s))) s)).
Proof.
  intros U Hi Ei. pose proof U as [U1 U2 U3 U4 U5 U6]. destruct (U3 i _ Hi) as [Hn (Hfit & Hc & Hq)].
  pose proof (insert_rows _ _ _ _ Ei) as Er. assert (Eid : id = seq (entries (lib s)) + 1 /\ seq t' = id).
  { unfold insert in Ei. destruct (_ <? _); [|done]. by injection Ei as <- <-. }
  destruct Eid as [Eid Es]. pose proof (wf_seq _ (li_wf _ U1)) as Hseq.
  assert (Hrow : forall j r, (j, r) ∈ rows t' -> (j, r) ∈ rows (entries (lib s)) \/
    (j = id /\ r = FileRow (q_area q) (q_name q) [] (len (q_content q)) (q_description q) (q_user q) 0 (fmtTime (q_now q)))).
  { intros j r. rewrite Er, elem_of_app, list_elem_of_singleton. intros [?|[= -> ->]]; auto. }
  split; cbn [lib mutex uploads removals origin inserted_by move entries blobs].
  - destruct (lib s) as [t b]. eapply inv_insert; [exact U1|exact Ei|cbn; pose proof (len_nonneg (q_content q)); lia|exact Hc|exact Hq].
  - eapply mutex_after; [exact U|exact Hi|..]; cbn; naive_solver.
  - intros j p [[<- <-]|[Hne Hj]]%lookup_insert_Some.
    + split; [done|]. cbn. rewrite lookup_insert_eq. split; [done|]. split; [lia|].
      intros r [Hin|[_ ->]]%Hrow; [|done]. pose proof (row_range _ _ _ (li_wf _ U1) Hin). lia.
    + destruct (U3 j p Hj) as [Hnj Hk]. split; [done|]. eapply (knows_idle (entries (lib s)) _ (blobs (lib s)) _ (origin s)); [by eapply others_idle; [exact U|exact Hi| |exact Hj|]|lia| |..|exact Hk].
      * intros f Hf. rewrite lookup_insert_ne; [done|lia].
      * intros k r' [Hk'|[-> _]]%Hrow Hr; [by exists r'; auto|lia].
  - intros k x Hk. destruct (U4 k x Hk) as [Hx Hr]. split; [lia|]. intros r [Hin|[-> _]]%Hrow; [by apply (Hr r)|lia].
  - intros x q' [[<- <-]|[_ Hx]]%lookup_insert_Some; [split; [done|lia]|]. destruct (U5 x q' Hx). split; [done|lia].
  - intros x r [Hin|[-> ->]]%Hrow.
    + destruct (U6 x r Hin) as (q' & Ho & Hd & Hp). exists q'. destruct (U5 x q' Ho) as [_ Hx]. rewrite lookup_insert_ne by lia. auto.
    + exists q. rewrite lookup_insert_eq. split_and!; auto. by split_and!.
Qed.

Lemma inv_blob s i q id : inv s -> uploads s !! i = Some (Inserted q id) ->
  inv (move i (OnDisk q id) (Some i) (Lib (entries (lib s)) (<[blobName id := sealed q]> (blobs (lib s)))) s).
Proof.
  intros U Hi. pose proof U as [U1 U2 U3 U4 U5 U6]. destruct (U3 i _ Hi) as [Hn (Ho & Hid & _)]. pose proof (li_wf _ U1) as Hw.
  split; cbn [lib mutex uploads removals origin move entries blobs]; try done.
  - destruct U1. by split.
  - eapply mutex_after; [exact U|exact Hi|..]; cbn; naive_solver.
  - intros j p [[<- <-]|[Hne Hj]]%lookup_insert_Some.
    + split; [done|]. cbn. split; [done|]. split; [done|]. intros r _. by rewrite lookup_insert_eq.
    + destruct (U3 j p Hj) as [Hnj Hk]. split; [done|]. eapply (knows_idle (entries (lib s)) _ (blobs (lib s)) _ (origin s)); [by eapply others_idle; [exact U|exact Hi| |exact Hj|]|lia|done| |exact Hk].
      intros k r' Hk' _. eauto.
  - intros x r Hx. destruct (U6 x r Hx) as (q' & Ho' & Hd & Hp). exists q'. split; [done|]. split; [done|].
    destruct (decide (x = id)) as [->|Hne]; [assert (q' = q) as -> by congruence; rewrite lookup_insert_eq; naive_solver|].
    rewrite lookup_insert_ne; [done|]. pose proof (row_range _ _ _ Hw Hx). by eapply blob_other.
Qed.

(** The write fails: what it leaves is at the name of a row without a path. *)
Lemma inv_unsaved s i q id part : inv s -> uploads s !! i = Some (Inserted q id) ->
  inv (move i (Returned q (Err ErrIO)) None (Lib (entries (lib s)) (leave (blobName id) part (blobs (lib s)))) s).
Proof.
  intros U Hi. pose proof U as [U1 U2 U3 U4 U5 U6]. destruct (U3 i _ Hi) as [Hn (Ho & Hid & Hpath)]. pose proof (li_wf _ U1) as Hw.
  split; cbn [lib mutex uploads removals origin move entries blobs]; try done.
  - destruct U1. by split.
  - eapply mutex_after; [exact U|exact Hi|..]; cbn; naive_solver.
  - intros j p [[<- <-]|[Hne Hj]]%lookup_insert_Some; [done|].
    destruct (U3 j p Hj) as [Hnj Hk]. split; [done|]. eapply (knows_idle (entries (lib s)) _ (blobs (lib s)) _ (origin s)); [by eapply others_idle; [exact U|exact Hi| |exact Hj|]|lia|done| |exact Hk].
    intros k r' Hk' _. eauto.
  - intros x r Hx. destruct (U6 x r Hx) as (q' & Ho' & Hd & Hp). exists q'. split; [done|]. split; [done|].
    destruct (decide (x = id)) as [->|Hne]; [left; by apply Hpath|]. unfold leave. destruct part as [y|]; [|done].
    rewrite lookup_insert_ne; [done|]. pose proof (row_range _ _ _ Hw Hx). by eapply blob_other.
Qed.

(** The last statement. *)
Lemma inv_path s i q id f : inv s -> uploads s !! i = Some (OnDisk q id) -> FID f = id ->
  inv (move i (Returned q (Ok f)) None (Lib (update (by_id id) (set_path (blobName id)) (entries (lib s))).1 (blobs (lib s))) s).
Proof.
  intros U Hi Hf. pose proof U as [U1 U2 U3 U4 U5 U6]. destruct (U3 i _ Hi) as [Hn (Ho & Hid & Hb)].
  split; cbn [lib mutex uploads removals origin move entries blobs]; try done.
  - destruct (lib s) as [t b]. by eapply inv_update.
  - eapply mutex_after; [exact U|exact Hi|..]; cbn; naive_solver.
  - intros j p [[<- <-]|[Hne Hj]]%lookup_insert_Some.
    + split; [done|]. cbn. rewrite Hf. split; [done|]. split; [done|]. intros r' (r & Hr & ->)%update_rows. unfold by_id. by rewrite Z.eqb_refl.
    + destruct (U3 j p Hj) as [Hnj Hk]. split; [done|]. eapply (knows_idle (entries (lib s)) _ (blobs (lib s)) _ (origin s)); [by eapply others_idle; [exact U|exact Hi| |exact Hj|]|done|done| |exact Hk].
      intros k r' (r & Hr & ->)%update_rows _. exists r. split; [done|]. unfold by_id. destruct (Z.eqb_spec k id) as [->|]; auto.
  - intros k x Hk. destruct (U4 k x Hk) as [Hx Hr]. split; [done|]. intros r' (r & Hin & _)%update_rows. by apply (Hr r).
  - intros x r' (r & Hr & ->)%update_rows. destruct (U6 x r Hr) as (q' & Ho' & Hd & Hp). exists q'. split; [done|]. unfold by_id.
    destruct (Z.eqb_spec x id) as [->|]; [|done]. assert (q' = q) as -> by congruence. split; [done|]. right. split; [done|]. by apply (Hb r).
Qed.

(** A statement of the call that holds the mutex and leaves the library alone. *)
Lemma inv_go s i p p' o : inv s -> uploads s !! i = Some p -> busy p -> asked p' = asked p ->
  knows (entries (lib s)) (blobs (lib s)) (origin s) p' -> (busy p' <-> o = Some i) -> (forall j, o = Some j -> j = i) ->
  inv (move i p' o (lib s) s).
Proof.
  intros U Hi Hp Ha Hk Hb Ho. pose proof (busy_holds s i p U Hi Hp) as Hm.
  eapply inv_move; [done|rewrite Ha; by apply (u_knows s U i)|done|done|].
  intros j Hne. split; [intros E; by apply Ho in E|congruence].
Qed.

Lemma inv_upload s s' i : upload_step v us ars i s = Some s' -> inv s -> inv s'.
Proof.
  intros St U. unfold upload_step in St. destruct (uploads s !! i) as [p|] eqn:Hi; [|done]. destruct (u_knows s U i p Hi) as [Hn Hk].
  assert (Hgo : forall p', busy p -> busy p' -> asked p' = asked p -> knows (entries (lib s)) (blobs (lib s)) (origin s) p' ->
    inv (move i p' (Some i) (lib s) s)) by (intros; eapply inv_go; naive_solver).
  assert (Hret : forall e, busy p -> inv (move i (Returned (asked p) (Err e)) None (lib s) s)) by (intros; eapply inv_go; naive_solver).
  destruct p as [q|q|q|q|q id|q id|q r]; cbn in Hk, Hn; [| | | | | |done].
  - destruct (Z.ltb_spec MaxFileBytes (len (q_content q))).
    + injection St as <-. eapply inv_move; [done|done|done| |done]. cbn. split; [done|].
      intros (p & Hp & Hb)%(u_mutex s U). rewrite Hi in Hp. by injection Hp as <-.
    + destruct (mutex s) eqn:Hm; [done|]. injection St as <-. eapply inv_move; [done|done|cbn; lia|naive_solver|].
      intros j Hne. rewrite Hm. split; [congruence|done].
  - destruct (Z.ltb_spec 0 (count (same_name (q_area q) (q_name q)) (entries (lib s)))); injection St as <-; [by apply Hret|].
    apply Hgo; [done..|]. cbn. split; [done|]. pose proof (len_nonneg (select (same_name (q_area q) (q_name q)) (entries (lib s)))).
    unfold count in *. lia.
  - destruct (Z.ltb_spec MaxUserBytes (UserBytes (q_user q) (entries (lib s)) + len (q_content q))); injection St as <-; [by apply Hret|].
    apply Hgo; [done..|]. cbn. destruct Hk. split_and!; [done..|lia].
  - destruct (negb _); [injection St as <-; by apply Hret|]. destruct (insert _ _) as [[id t']|e] eqn:Ei; injection St as <-; [|by apply Hret].
    by apply inv_row.
  - destruct (q_writes q) as [|part]; injection St as <-; [by apply inv_blob|by apply inv_unsaved].
  - injection St as <-. by apply inv_path.
Qed.

Lemma shared_inv s s' : step v us ars s s' -> inv s -> inv s'.
Proof.
  intros St U. pose proof (u_lib s U) as Ul. assert (Ul' : lib_inv (Lib (entries (lib s)) (blobs (lib s)))) by (by destruct (lib s)). destruct St as [i q s Hi Hn|i s s' Hs|k id s Hk Hid|k id s Hk|id s].
  - eapply inv_move; [done|done|done| |done]. cbn. split; [done|]. intros (p & Hp & _)%(u_mutex s U). congruence.
  - by eapply inv_upload.
  - apply inv_shrink; cbn; [done|exact (inv_delete _ _ _ Ul' _)|apply shrinks_delete; apply Ul|done|].
    intros j x [[<- <-]|[_ Hj]]%lookup_insert_Some.
    + split; [done|]. intros r [_ Hf]%delete_rows. unfold by_id in Hf. by rewrite Z.eqb_refl in Hf.
    + destruct (u_gone s U j x Hj) as [Hx Hr]. split; [done|]. intros r [Hin _]%delete_rows. by apply (Hr r).
  - destruct (u_gone s U k id Hk) as [Hid Hr]. apply inv_shrink; cbn; [done|by destruct Ul|apply shrinks_refl| |].
    + intros j r Hj. apply lookup_delete_ne. assert (id <> j) by (intros ->; by apply (Hr r)). pose proof (row_range _ _ _ (li_wf _ Ul) Hj).
      by apply (blob_other (entries (lib s)) id j (li_wf _ Ul)).
    + intros j x [_ Hj]%lookup_delete_Some. by apply (u_gone s U j).
  - apply inv_shrink; cbn; [done|by apply (inv_update _ bump _ (blobs (lib s)))|apply shrinks_bump|done|].
    intros j x Hj. destruct (u_gone s U j x Hj) as [Hx Hr]. split; [done|]. intros r' (r & Hin & _)%update_rows. by apply (Hr r).
Qed.

Lemma inv_empty : inv empty_shared.
Proof.
  split; cbn; try done.
  - split; cbn; [apply wf_empty|intros i r Hi; exact (not_in_empty _ _ Hi)|done|intros i r j s Hi; exact (not_in_empty _ _ Hi)].
  - intros i. split; [done|]. by intros (p & Hp & _).
  - intros id r Hi. exact (not_in_empty _ _ Hi).
Qed.

(** A call that no other step comes between is [Add] as one operation. *)
Lemma alone s i q : uploads s !! i = Some (Called q) -> mutex s = None ->
  let '(r, l) := Files_Add v us ars (q_area q) (q_user q) (q_name q) (q_description q) (q_content q) (q_now q) (q_nonce q) (q_writes q) (lib s) in
  let s' := finish v us ars 6 i s in uploads s' !! i = Some (Returned q r) /\ lib s' = l.
Proof.
  intros Hi Hm. unfold Files_Add, finish, upload_step. rewrite Hi, Hm.
  destruct (MaxFileBytes <? len (q_content q)); cbn; rewrite ?lookup_insert_eq; cbn; rewrite ?lookup_insert_eq; [done|].
  destruct (0 <? count (same_name (q_area q) (q_name q)) (entries (lib s))); cbn; rewrite ?lookup_insert_eq; cbn; rewrite ?lookup_insert_eq; [done|].
  destruct (MaxUserBytes <? UserBytes (q_user q) (entries (lib s)) + len (q_content q)); cbn; rewrite ?lookup_insert_eq; cbn; rewrite ?lookup_insert_eq; [done|].
  destruct (negb _); cbn; rewrite ?lookup_insert_eq; cbn; rewrite ?lookup_insert_eq; [done|].
  destruct (insert _ _) as [[id t']|e]; cbn; rewrite ?lookup_insert_eq; cbn; rewrite ?lookup_insert_eq; [|done].
  destruct (q_writes q); cbn; rewrite ?lookup_insert_eq; cbn; rewrite ?lookup_insert_eq; done.
Qed.
End Invariant.

(** A schedule is a run of the relation. *)
Definition turn_ok (t : turn) : Prop := match t with Calls _ q => nonce_ok (q_nonce q) | _ => True end.

#[export] Instance turn_ok_dec t : Decision (turn_ok t).
Proof. destruct t; cbn; apply _. Defined.

Lemma schedule_run `{Crypto} v us ars ts s s' : Forall turn_ok ts -> run v us ars ts s = Some s' -> rtc (step v us ars) s s'.
Proof.
  intros Hts. revert s. induction Hts as [|t ts Ht _ IH]; cbn; intros s Hs; [by injection Hs as <-|].
  destruct (take_turn v us ars t s) as [s1|] eqn:E; [|done]. eapply rtc_l; [|by apply IH].
  destruct t as [i q|i|k id|k|id]; cbn in E.
  - destruct (uploads s !! i) eqn:Hi; [done|]. injection E as <-. by apply step_call.
  - by eapply step_upload.
  - destruct (removals s !! k) eqn:Hk; [done|]. destruct (_ && _) eqn:Hid; [|done]. injection E as <-. bool_hyps. apply step_delete; [done|lia].
  - destruct (removals s !! k) eqn:Hk; [|done]. injection E as <-. by apply step_unlink.
  - injection E as <-. apply step_download.
Qed.

(** ** Theorem *)

(** C16: Whatever uploads, deletions and downloads run at the same time, interleaved at
    every statement: no file is over 10 MiB, no user's files add up to more than
    100 MiB and no two files of an area share a name up to case; every row is as
    some call of [Add] gave it; a file whose path is set reads back as exactly
    the bytes of that call, from the moment of that statement until its row is
    deleted; an upload that returned a file has set the path; the mutex never gets
    stuck; and an upload that nothing comes between is [Add] as one operation. *)
Theorem uploads_interleaved `{CryptoLaws} (v : Vault) (us : users) (ars : fareas) (s : shared)
    (Hrun : rtc (step v us ars) empty_shared s) :
  (forall id r, (id, r) ∈ rows (entries (lib s)) -> 0 <= f_size r <= MaxFileBytes /\
     exists q, origin s !! id = Some q /\ describes q r /\
     (f_path r <> [] -> (Files_Content v id (lib s)).1 = Ok (q_content q))) /\
  (forall u, UserBytes u (entries (lib s)) <= MaxUserBytes) /\
  (forall i r j x, (i, r) ∈ rows (entries (lib s)) -> (j, x) ∈ rows (entries (lib s)) ->
     f_area_id r = f_area_id x -> nocase_eqb (f_filename r) (f_filename x) = true -> i = j) /\
  (forall i q f, uploads s !! i = Some (Returned q (Ok f)) -> origin s !! FID f = Some q /\
     forall r, (FID f, r) ∈ rows (entries (lib s)) -> f_path r = blobName (FID f)) /\
  (forall i, mutex s = Some i -> is_Some (upload_step v us ars i s)) /\
  (forall i q, uploads s !! i = Some (Called q) -> mutex s = None ->
     let s' := finish v us ars 6 i s in
     exists r, uploads s' !! i = Some (Returned q r) /\
     Files_Add v us ars (q_area q) (q_user q) (q_name q) (q_description q) (q_content q) (q_now q) (q_nonce q) (q_writes q) (lib s) = (r, lib s')).
Proof.
  assert (U : inv v s).
  { revert Hrun. generalize (inv_empty v). generalize empty_shared. intros s0 U0. induction 1 as [|x y z St _ IH]; [done|].
    apply IH. by eapply shared_inv. }
  split_and!; try apply U.
  - intros id r Hr. split; [by eapply (li_size _ (u_lib v s U))|]. destruct (u_rows v s U id r Hr) as (q & Ho & Hd & Hp).
    exists q. split_and!; [done..|]. intros Hne. destruct Hp as [?|[_ Hb]]; [done|]. unfold Files_Content, sealed in *. rewrite Hb.
    rewrite Open_Seal; [done|]. by destruct (u_origin v s U id q Ho) as [[? _] _].
  - intros i q f Hi. by destruct (u_knows v s U i _ Hi) as [_ (? & _ & ?)].
  - intros i (p & Hi & Hp)%(u_mutex v s U). unfold upload_step. rewrite Hi. destruct p as [|q|q|q|q id|q id|]; try done.
    + by destruct (0 <? _).
    + by destruct (MaxUserBytes <? _).
    + destruct (negb _); [done|]. by destruct (insert _ _) as [[]|].
    + by destruct (q_writes q).
  - intros i q Hi Hm. pose proof (alone v us ars s i q Hi Hm) as A. destruct (Files_Add _ _ _ _ _ _ _ _ _ _ _ _) as [r l].
    destruct A as [A1 A2]. exists r. by rewrite A2.
Qed.

(** ** Witness *)

(** Two members upload a file of the same name at once; a third file is deleted
    while its upload runs: the upload still reports it stored, and its blob stays
    behind without a row. *)
Definition an_upload (user : Z) (name content : bytes) : request := Request 1 user name [] content 0 toy_nonce Saved.
Definition busy_day : list turn :=
  [Calls 1 (an_upload 1 (str "a.txt") (str "first")); Calls 2 (an_upload 2 (str "A.TXT") (str "second")); Goes 2; Goes 2; Goes 2; Goes 2; Goes 2; Goes 2;
   Goes 1; Goes 1; Downloads 1; Calls 3 (an_upload 1 (str "b.txt") (str "third")); Goes 3; Goes 3; Goes 3; Goes 3; Deletes 1 2; Unlinks 1; Goes 3; Goes 3].
Definition general : fareas := Table [(1, FareaRow (str "General Files") 0)] 1.
Definition end_of_day : shared := default empty_shared (run (H := toy) toy_vault two_users general busy_day empty_shared).

Lemma uploads_interleaved_witness :
  (uploads end_of_day !! 1 = Some (Returned (an_upload 1 (str "a.txt") (str "first")) (Err ErrDuplicateName))) /\
  (rows (entries (lib end_of_day))).*1 = [1] /\ is_Some (blobs (lib end_of_day) !! blobName 2) /\
  (Files_Content (H := toy) toy_vault 1 (lib end_of_day)).1 = Ok (str "second").
Proof.
  assert (Hrows : rows (entries (lib end_of_day)) = [(1, FileRow 1 (str "A.TXT") (str "1.bin") 6 [] 2 1 (fmtTime 0))]) by (vm_compute; reflexivity).
  destruct (uploads_interleaved (H := toy) (H0 := toy_laws) toy_vault two_users general end_of_day) as (R & _).
  - apply (schedule_run (H := toy) _ _ _ busy_day); [by_decide|vm_compute; reflexivity].
  - split_and!; [vm_compute; reflexivity|by rewrite Hrows|by_decide|].
    destruct (R 1 (FileRow 1 (str "A.TXT") (str "1.bin") 6 [] 2 1 (fmtTime 0))) as (_ & q & Ho & _ & Hq); [rewrite Hrows; left|].
    assert (q = an_upload 2 (str "A.TXT") (str "second")) as -> by (vm_compute in Ho; injection Ho as <-; reflexivity). by apply Hq.
Defined.
