(* ===== verification/AuditLog.v ===== *)
(** * The audit trail (src/audit/log.go)

    The hash-chained, encrypted JSONL file: emitting, reading back with
    verification, recovering the tip at start-up and re-keying.  [encoding/json]
    on [Event] is the class [EventJson]; [Minutes] is in nanoseconds here.
    Sinks and the stdout mirror, which receive the event after the write, keep
    no state of the trail. *)

From S2P Require Import Prelude GoStrings Base64 Sha256 Vault.

Record Event := MkEvent {
  Time : Z; Type_ : bytes; SessionID : bytes; RemoteIP : bytes; Transport : bytes;
  Username : bytes; Action : bytes; Detail : bytes; Minutes : Z
}.

#[export] Instance Event_eq_dec : EqDecision Event.
Proof. solve_decision. Defined.

Definition TypeConnect : bytes := str "connect".
Definition TypeActivity : bytes := str "activity".
Definition TypeDisconnect : bytes := str "disconnect".

(** [json.Marshal] and [json.Unmarshal]; [event_ok] are the events JSON carries
    faithfully (valid UTF-8 text, four-digit year). *)
Class EventJson := {
  marshal : Event -> option bytes;
  unmarshal : bytes -> option Event;
  event_ok : Event -> Prop
}.

Class EventJsonLaws `{EventJson} := {
  unmarshal_marshal e : event_ok e -> exists b, marshal e = Some b /\ bytes_ok b /\ unmarshal b = Some e
}.

Inductive auditErr := ErrMalformed | ErrBase64 | ErrChainBroken | ErrJson | ErrTooLong | ErrDecrypt | ErrWrite.

#[export] Instance auditErr_eq_dec : EqDecision auditErr.
Proof. solve_decision. Defined.

Definition genesis : bytes := str "admiralbbs/audit-genesis/v1".

(** The audit file (absent: [None]) and the logger's copy of the tip. *)
Record Logger := MkLogger { file : bytes; prevMAC : bytes }.

Definition splitLine (line : bytes) : result auditErr (bytes * bytes) :=
  match IndexByte line 46 with
  | None | Some O => Err ErrMalformed
  | Some i =>
      match RawURLDecode (take i line) with
      | None => Err ErrBase64
      | Some ct =>
          match RawURLDecode (drop (S i) line) with
          | None => Err ErrBase64
          | Some mac => Ok (ct, mac)
          end
      end
  end.

Definition hmacEqual (a b : bytes) : bool :=
  if negb (len a =? len b) then false
  else foldl Z.lor 0 (zip_with Z.lxor a b) =? 0.

(** One line of the trail. *)
Definition line (ct mac : bytes) : bytes := RawURLEncode ct ++ str "." ++ RawURLEncode mac.

(** [bufio.ScanLines] with the 8 MiB buffer: the text between newlines, a final
    empty piece excepted; a CR before the newline goes. *)
Definition maxLine : Z := 8 * 1024 * 1024.

Fixpoint drop_last_empty (l : list bytes) : list bytes :=
  match l with
  | [] => []
  | [x] => if beq x [] then [] else [x]
  | x :: l' => x :: drop_last_empty l'
  end.

Definition scan_lines (s : bytes) : list bytes := drop_last_empty (Split s 10).

Definition drop_cr (l : bytes) : bytes :=
  match last l with Some b => if b =? 13 then removelast l else l | None => l end.

Section Audit.
Context `{Crypto, EventJson}.

Definition chainTip (f : option bytes) (v : Vault) : result auditErr bytes :=
  match f with
  | None => Ok (MAC v [] genesis)
  | Some data =>
      if len (TrimSpace data) =? 0 then Ok (MAC v [] genesis)
      else match splitLine (default [] (last (Split (TrimSpace data) 10))) with
           | Err e => Err e
           | Ok (_, mac) => Ok mac
           end
  end.

Definition New (f : option bytes) (v : Vault) : result auditErr Logger :=
  match chainTip f v with
  | Err e => Err e
  | Ok tip => Ok (MkLogger (default [] f) tip)
  end.

(** [wr]: the write succeeded, or failed after some of its bytes. *)
Definition Emit (v : Vault) (nonce : bytes) (wr : option nat) (e : Event) (l : Logger) : Logger :=
  match marshal e with
  | None => l
  | Some plain =>
      let ct := Seal v nonce plain in
      let mac := MAC v (prevMAC l) ct in
      let text := line ct mac ++ [10] in
      match wr with
      | None => MkLogger (file l ++ text) mac
      | Some k => MkLogger (file l ++ take k text) (prevMAC l)
      end
  end.

(** The loop of [ReadAll]: Go returns events and error together. *)
Fixpoint read_loop (v : Vault) (prev : bytes) (acc : list Event) (ls : list bytes) :
    list Event * option auditErr :=
  match ls with
  | [] => (acc, None)
  | l :: ls' =>
      if maxLine <=? len l then (acc, Some ErrTooLong)
      else
        let t := TrimSpace (drop_cr l) in
        if beq t [] then read_loop v prev acc ls'
        else match splitLine t with
             | Err e => ([], Some e)
             | Ok (ct, mac) =>
                 if negb (hmacEqual (MAC v prev ct) mac) then (acc, Some ErrChainBroken)
                 else match Open v ct with
                      | Err _ => (acc, Some ErrChainBroken)
                      | Ok plain =>
                          match unmarshal plain with
                          | None => ([], Some ErrJson)
                          | Some e => read_loop v mac (acc ++ [e]) ls'
                          end
                      end
             end
  end.

Definition ReadAll (f : option bytes) (v : Vault) : list Event * option auditErr :=
  match f with
  | None => ([], None)
  | Some data => read_loop v (MAC v [] genesis) [] (scan_lines data)
  end.

(** The loop of [Rekey]; one nonce for each line. *)
Fixpoint rekey_loop (oldV newV : Vault) (prev : bytes) (ns : list bytes) (ls : list bytes) :
    result auditErr bytes :=
  match ls with
  | [] => Ok []
  | l :: ls' =>
      let t := TrimSpace l in
      if beq t [] then rekey_loop oldV newV prev ns ls'
      else match splitLine t with
           | Err e => Err e
           | Ok (ct, _) =>
               match Open oldV ct with
               | Err _ => Err ErrDecrypt
               | Ok plain =>
                   let nct := Seal newV (default [] (head ns)) plain in
                   let mac := MAC newV prev nct in
                   match rekey_loop oldV newV mac (tail ns) ls' with
                   | Err e => Err e
                   | Ok rest => Ok (line nct mac ++ [10] ++ rest)
                   end
               end
           end
  end.

(** The file afterwards: replaced as a whole, or untouched on any error; [wr]:
    writing and renaming the temporary file succeeds. *)
Definition Rekey (f : option bytes) (oldV newV : Vault) (ns : list bytes) (wr : bool) :
    result auditErr () * option bytes :=
  match f with
  | None => (Ok (), f)
  | Some data =>
      match rekey_loop oldV newV (MAC newV [] genesis) ns (Split (TrimSpace data) 10) with
      | Err e => (Err e, f)
      | Ok out => if wr then (Ok (), Some out) else (Err ErrWrite, f)
      end
  end.
End Audit.

(** ** Lemmas: text *)

Definition graphic (b : Z) : Prop := 33 <= b < 127.

Lemma trim_head wide f b s :
  graphic b -> wide (b :: s) = None -> trim_with wide f (b :: s) = b :: s.
Proof.
  intros Hb Hw. destruct f as [|f]; [done|]. cbn [trim_with].
  assert (Ha : ascii_space b = false).
  { unfold ascii_space, graphic in *. rewrite orb_false_iff, andb_false_iff, !Z.leb_gt, Z.eqb_neq. lia. }
  by rewrite Ha, Hw.
Qed.

Lemma wide_graphic b s : graphic b -> wide_space (b :: s) = None.
Proof.
  unfold graphic. intros Hb. unfold wide_space. destruct s as [|c s]; [done|].
  unfold wide_space2, wide_space3.
  destruct (Z.eqb_spec b 194); [lia|]. destruct (Z.eqb_spec b 225); [lia|].
  destruct (Z.eqb_spec b 226); [lia|]. destruct (Z.eqb_spec b 227); [lia|]. by destruct s.
Qed.

Lemma wide_rev_graphic b s : graphic b -> wide_space_rev (b :: s) = None.
Proof.
  unfold graphic. intros Hb. unfold wide_space_rev. destruct s as [|c s]; [done|].
  unfold wide_space2, wide_space3.
  destruct (Z.eqb_spec b 133); [lia|]. destruct (Z.eqb_spec b 160); [lia|]. rewrite andb_false_r. simpl.
  destruct s as [|z s]; [done|]. destruct (Z.eqb_spec b 128); [lia|].
  destruct (Z.leb_spec 128 b); [lia|]. destruct (Z.eqb_spec b 159); [lia|].
  destruct (Z.eqb_spec b 168); [lia|]. destruct (Z.eqb_spec b 169); [lia|]. destruct (Z.eqb_spec b 175); [lia|].
  simpl. by rewrite !andb_false_r.
Qed.

(** Text between graphic characters is its own trim, with or without a final
    newline. *)
Lemma TrimSpace_graphic b s c nl :
  graphic b -> graphic c -> nl = [] \/ nl = [10] -> TrimSpace ((b :: s ++ [c]) ++ nl) = b :: s ++ [c].
Proof.
  intros Hb Hc Hnl. unfold TrimSpace, TrimLeftSpace. cbn [app]. rewrite trim_head by (done || by apply wide_graphic).
  unfold TrimRightSpace. change (b :: (s ++ [c]) ++ nl) with ((b :: s ++ [c]) ++ nl).
  rewrite reverse_app. assert (E : reverse (b :: s ++ [c]) = c :: reverse (b :: s)).
  { change (b :: s ++ [c]) with ((b :: s) ++ [c]). by rewrite reverse_app. }
  destruct Hnl as [-> | ->].
  - change (reverse ([] : bytes)) with ([] : bytes). rewrite app_nil_l, E, trim_head by (done || by apply wide_rev_graphic).
    by rewrite <-E, reverse_involutive.
  - change (reverse [10]) with [10]. rewrite E, length_app, Nat.add_1_r. cbn [trim_with app].
    change (ascii_space 10) with true. cbv iota. rewrite trim_head by (done || by apply wide_rev_graphic).
    by rewrite <-E, reverse_involutive.
Qed.

(** A text of graphic characters at both ends. *)
Definition framed (s : bytes) : Prop := exists b c m, graphic b /\ graphic c /\ s = b :: m ++ [c].

Lemma TrimSpace_framed s nl : framed s -> nl = [] \/ nl = [10] -> TrimSpace (s ++ nl) = s.
Proof. intros (b & c & m & Hb & Hc & ->) Hnl. by apply TrimSpace_graphic. Qed.

Lemma framed_app a m b : framed a -> framed b -> framed (a ++ m ++ b).
Proof.
  intros (x & y & p & Hx & _ & ->) (z & w & q & _ & Hw & ->). exists x, w, (p ++ [y] ++ m ++ [z] ++ q).
  split_and!; [done..|]. cbn [app]. f_equal. rewrite <-!app_assoc. cbn [app]. by rewrite <-!app_assoc.
Qed.

Lemma drop_cr_framed s : framed s -> drop_cr s = s.
Proof.
  intros (b & c & m & _ & Hc & ->). unfold drop_cr. change (b :: m ++ [c]) with ((b :: m) ++ [c]).
  rewrite last_snoc. destruct (Z.eqb_spec c 13) as [->|]; [|done]. unfold graphic in Hc. lia.
Qed.

Lemma hmacEqual_spec a b : hmacEqual a b = true <-> a = b.
Proof.
  unfold hmacEqual. assert (G : forall n l k, length l = length k ->
    foldl Z.lor n (zip_with Z.lxor l k) = 0 <-> n = 0 /\ l = k).
  { intros n l. revert n. induction l as [|x l IH]; intros n [|y k] Hl; try done; simpl.
    - naive_solver.
    - rewrite IH by (simpl in Hl; lia). rewrite Z.lor_eq_0_iff, Z.lxor_eq_0_iff. naive_solver. }
  destruct (Z.eqb_spec (len a) (len b)) as [E|E]; simpl.
  - rewrite Z.eqb_eq, G by (unfold len in E; lia). naive_solver.
  - split; [done|]. by intros ->.
Qed.

(** ** Lemmas: lines *)

Lemma b64_graphic u c : b64_char u c -> graphic c.
Proof. intros H%b64_char_bounds. unfold graphic. lia. Qed.

Lemma encode_framed u b : bytes_ok b -> b <> [] -> framed (encode_raw u b).
Proof.
  intros Hb Hne. pose proof (encode_chars u b Hb) as Hc.
  assert (Hl : exists x y r, encode_raw u b = x :: y :: r) by (destruct b as [|? [|? [|? ?]]]; [done|by do 3 eexists..]).
  destruct Hl as (x & y & r & E). rewrite E in *. destruct (exists_last (l := y :: r)) as (m & z & Em); [done|].
  rewrite Em in *. apply Forall_cons in Hc as [Hx Hc]. apply Forall_app in Hc as [_ [Hz _]%Forall_cons].
  exists x, z, m. split_and!; [by eapply b64_graphic..|done].
Qed.

Lemma line_framed ct mac : bytes_ok ct -> ct <> [] -> bytes_ok mac -> mac <> [] -> framed (line ct mac).
Proof. intros. unfold line. apply framed_app; by apply (encode_framed true). Qed.

Lemma b64_no u c s : (c =? 46) || (c =? 10) = true -> Forall (b64_char u) s -> c ∉ s.
Proof.
  intros Hc Hs Hin. rewrite Forall_forall in Hs. apply Hs, b64_char_bounds in Hin.
  apply orb_true_iff in Hc as [->%Z.eqb_eq| ->%Z.eqb_eq]; lia.
Qed.

Lemma line_no_newline ct mac : bytes_ok ct -> bytes_ok mac -> 10 ∉ line ct mac.
Proof.
  intros Hc Hm. unfold line. rewrite !not_elem_of_app. split_and!.
  - by apply (b64_no true), encode_chars.
  - by vm_compute; intros ?%list_elem_of_singleton.
  - by apply (b64_no true), encode_chars.
Qed.

Lemma splitLine_line ct mac : bytes_ok ct -> ct <> [] -> bytes_ok mac -> splitLine (line ct mac) = Ok (ct, mac).
Proof.
  intros Hc Hne Hm. unfold splitLine, line. change (str ".") with [46]. cbn [app].
  rewrite IndexByte_app by by apply (b64_no true), encode_chars.
  destruct (length (RawURLEncode ct)) as [|n] eqn:E; [by apply nil_length_inv, encode_raw_nil in E|].
  rewrite take_app_length' by done. rewrite RawURL_roundtrip by done.
  replace (drop (S (S n)) (RawURLEncode ct ++ 46 :: RawURLEncode mac)) with (RawURLEncode mac).
  - by rewrite RawURL_roundtrip.
  - change (RawURLEncode ct ++ 46 :: RawURLEncode mac) with (RawURLEncode ct ++ [46] ++ RawURLEncode mac).
    rewrite app_assoc. symmetry. apply drop_app_length'. rewrite length_app, E. simpl. lia.
Qed.

(** A trail: one line each. *)
Definition text_of (ls : list bytes) : bytes := ls ≫= λ l, l ++ [10].

Lemma drop_last_empty_snoc l : drop_last_empty (l ++ [[]]) = l.
Proof. induction l as [|x l IH]; [done|]. simpl. destruct l; [done|]. simpl in *. by rewrite IH. Qed.

(** Complete lines, whatever comes after. *)
Lemma Split_text_app ls s : Forall (λ l, 10 ∉ l) ls -> Split (text_of ls ++ s) 10 = ls ++ Split s 10.
Proof.
  induction 1 as [|l ls Hl _ IH]; [done|]. unfold text_of in *. rewrite bind_cons, <-!app_assoc. cbn [app]. by rewrite Split_app, IH.
Qed.

Lemma Split_text ls : Forall (λ l, 10 ∉ l) ls -> Split (text_of ls) 10 = ls ++ [[]].
Proof. intros Hl. rewrite <-(app_nil_r (text_of ls)). by rewrite Split_text_app. Qed.

Lemma scan_text ls : Forall (λ l, 10 ∉ l) ls -> scan_lines (text_of ls) = ls.
Proof. intros. unfold scan_lines. by rewrite Split_text, drop_last_empty_snoc. Qed.

Lemma scan_text_app ls s : Forall (λ l, 10 ∉ l) ls -> scan_lines (text_of ls ++ s) = ls ++ scan_lines s.
Proof.
  intros Hls. unfold scan_lines. rewrite Split_text_app by done. pose proof (Split_nonempty s 10).
  induction ls as [|l ls IH]; [done|]. apply Forall_cons in Hls as [_ Hls].
  cbn [app drop_last_empty]. destruct (ls ++ Split s 10) eqn:E; [by apply app_nil in E as [_ ?]|]. by rewrite <-IH.
Qed.

Lemma text_of_app a b : text_of (a ++ b) = text_of a ++ text_of b.
Proof. apply bind_app. Qed.

(** The trimmed text of a trail splits into its lines. *)
Lemma trim_text ls :
  Forall framed ls -> ls <> [] -> exists t, TrimSpace (text_of ls) = t /\ framed t /\ t ++ [10] = text_of ls.
Proof.
  intros Hf Hne. destruct (exists_last Hne) as (l & x & ->). apply Forall_app in Hf as [Hl [Hx _]%Forall_cons].
  exists (text_of l ++ x). assert (E : text_of (l ++ [x]) = (text_of l ++ x) ++ [10]).
  { rewrite text_of_app. change (text_of [x]) with ((x ++ [10]) ++ []). by rewrite app_nil_r, app_assoc. }
  assert (Hf : framed (text_of l ++ x)).
  { destruct l as [|y l]; [done|]. apply Forall_cons in Hl as [Hy Hl]. unfold text_of. rewrite bind_cons.
    rewrite <-!app_assoc. rewrite (app_assoc [10]). by apply framed_app. }
  rewrite E. split_and!; [|done..]. apply TrimSpace_framed; auto.
Qed.

Lemma Split_trim ls :
  Forall framed ls -> Forall (λ l, 10 ∉ l) ls -> ls <> [] -> Split (TrimSpace (text_of ls)) 10 = ls.
Proof.
  intros Hf Hn Hne. destruct (trim_text ls Hf Hne) as (t & -> & _ & E).
  pose proof (Split_text ls Hn) as Hs. rewrite <-E in Hs.
  assert (G : forall s, Split (s ++ [10]) 10 = Split s 10 ++ [[]]).
  { induction s as [|b s IH]; [done|]. cbn [app Split]. rewrite IH. destruct (b =? 10); [done|].
    destruct (Split s 10) eqn:Es; [by apply Split_nonempty in Es|]. done. }
  rewrite G in Hs. by apply app_inj_2 in Hs as [Hs _].
Qed.

(** ** The chain *)

Section Chain.
Context `{Crypto, EventJson}.
Variable v : Vault.

(** The lines a chain of ciphertexts gets from a tip, and the tip they lead to. *)
Fixpoint chain (prev : bytes) (cts : list bytes) : list bytes :=
  match cts with
  | [] => []
  | ct :: cts' => line ct (MAC v prev ct) :: chain (MAC v prev ct) cts'
  end.

Definition tip (prev : bytes) (cts : list bytes) : bytes := foldl (MAC v) prev cts.

(** A ciphertext that reads as an event and whose line the reader takes. *)
Definition reads_as (ct : bytes) (e : Event) : Prop :=
  bytes_ok ct /\ (exists p, Open v ct = Ok p /\ unmarshal p = Some e) /\ len (RawURLEncode ct) + 44 < maxLine.

Lemma MAC_ok prev m : length (MAC v prev m) = 32%nat /\ bytes_ok (MAC v prev m).
Proof. apply HMAC_ok. Qed.

Lemma MAC_ne prev m : MAC v prev m <> [].
Proof. intros E. pose proof (proj1 (MAC_ok prev m)) as L. by rewrite E in L. Qed.

Lemma Open_ne ct p : Open v ct = Ok p -> ct <> [].
Proof. by intros E ->. Qed.

Lemma reads_as_ne ct e : reads_as ct e -> ct <> [].
Proof. intros (_ & (p & Hp & _) & _). by eapply Open_ne. Qed.

Lemma length_encode32 b : length b = 32%nat -> len (RawURLEncode b) = 43.
Proof. intros E. unfold RawURLEncode. do 33 (destruct b as [|? b]; try done). Qed.

Lemma chain_app prev a b : chain prev (a ++ b) = chain prev a ++ chain (tip prev a) b.
Proof. revert prev. induction a as [|ct a IH]; intros prev; [done|]. simpl. by rewrite IH. Qed.

Lemma tip_app prev a b : tip prev (a ++ b) = tip (tip prev a) b.
Proof. unfold tip. by rewrite foldl_app. Qed.

Lemma chain_lines prev cts es :
  Forall2 reads_as cts es -> Forall framed (chain prev cts) /\ Forall (λ l, 10 ∉ l) (chain prev cts).
Proof.
  intros Hf. revert prev. induction Hf as [|ct e cts es Hc _ IH]; intros prev; simpl; [done|].
  destruct (IH (MAC v prev ct)) as [IH1 IH2]. pose proof (reads_as_ne _ _ Hc). destruct Hc as (Hb & _).
  split; constructor; try done.
  - apply line_framed; [done|done|apply MAC_ok|apply MAC_ne].
  - apply line_no_newline; [done|apply MAC_ok].
Qed.

(** Reading one line. *)
Lemma read_line ct mac prev acc ls :
  bytes_ok ct -> ct <> [] -> bytes_ok mac -> mac <> [] -> len (line ct mac) < maxLine ->
  read_loop v prev acc (line ct mac :: ls) =
  (if negb (hmacEqual (MAC v prev ct) mac) then (acc, Some ErrChainBroken)
   else match Open v ct with
        | Err _ => (acc, Some ErrChainBroken)
        | Ok p => match unmarshal p with
                  | None => ([], Some ErrJson)
                  | Some e => read_loop v mac (acc ++ [e]) ls
                  end
        end).
Proof.
  intros Hc Hne Hm Hmne Hl. cbn [read_loop]. rewrite (proj2 (Z.leb_gt _ _)) by done.
  pose proof (line_framed ct mac Hc Hne Hm Hmne) as Hf.
  rewrite drop_cr_framed by done. rewrite <-(app_nil_r (line ct mac)), TrimSpace_framed by auto.
  destruct (beq (line ct mac) []) eqn:E.
  { apply beq_true in E. rewrite E in Hf. by destruct Hf as (? & ? & ? & _ & _ & ?). }
  by rewrite splitLine_line.
Qed.

Lemma length_line ct mac : length mac = 32%nat -> len (line ct mac) = len (RawURLEncode ct) + 44.
Proof.
  intros Hm. unfold line. rewrite !len_app, (length_encode32 mac) by done. change (len (str ".")) with 1. lia.
Qed.

Lemma read_chain_app prev acc cts es rest : Forall2 reads_as cts es ->
  read_loop v prev acc (chain prev cts ++ rest) = read_loop v (tip prev cts) (acc ++ es) rest.
Proof.
  intros Hf. revert prev acc. induction Hf as [|ct e cts es Hc _ IH]; intros prev acc; cbn [chain].
  { by rewrite app_nil_r. }
  pose proof (reads_as_ne _ _ Hc). destruct Hc as (Hb & (p & Hp & Hu) & Hl). cbn [app].
  rewrite read_line; [|done|done|apply MAC_ok|apply MAC_ne|by rewrite length_line by apply MAC_ok].
  replace (hmacEqual _ _) with true by (symmetry; by apply hmacEqual_spec). simpl.
  rewrite Hp, Hu, IH, <-app_assoc. done.
Qed.

Lemma read_chain prev acc cts es :
  Forall2 reads_as cts es -> read_loop v prev acc (chain prev cts) = (acc ++ es, None).
Proof. intros Hf. rewrite <-(app_nil_r (chain prev cts)). by rewrite (read_chain_app _ _ _ es). Qed.

Definition start : bytes := MAC v [] genesis.

(** The file of a trail; a new server's file may not exist yet. *)
Definition trail_file (cts : list bytes) : bytes := text_of (chain start cts).

Definition holds (f : option bytes) (cts : list bytes) (es : list Event) : Prop :=
  default [] f = trail_file cts /\ Forall2 reads_as cts es.

Lemma holds_read f cts es : holds f cts es -> ReadAll f v = (es, None).
Proof.
  intros [Hf Hr]. destruct (chain_lines start cts es Hr) as [_ Hn].
  destruct f as [d|]; simpl in *.
  - subst d. unfold trail_file. rewrite scan_text by done. by apply (read_chain start []).
  - destruct cts as [|ct cts]; [by inversion Hr|].
    pose proof (reads_as_ne ct) as Hne. unfold trail_file, text_of in Hf. cbn [chain] in Hf. rewrite bind_cons in Hf.
    apply (f_equal length) in Hf. rewrite !length_app in Hf. simpl in Hf. lia.
Qed.

Lemma last_chain prev cts ct : last (chain prev (cts ++ [ct])) = Some (line ct (tip prev (cts ++ [ct]))).
Proof. rewrite chain_app, tip_app. simpl. apply last_snoc. Qed.

Lemma holds_tip f cts es : holds f cts es -> chainTip f v = Ok (tip start cts).
Proof.
  intros [Hf Hr]. unfold chainTip. destruct f as [d|].
  - simpl in Hf. subst d. destruct (chain_lines start cts es Hr) as [Hfr Hn].
    destruct (decide (cts = [])) as [->|Hne]; [done|].
    destruct (exists_last Hne) as (cs & ct & ->). unfold trail_file.
    assert (Hcne : chain start (cs ++ [ct]) <> []) by (rewrite chain_app; by destruct (chain start cs)).
    destruct (trim_text _ Hfr Hcne) as (t & Et & Hft & _). rewrite Et.
    destruct (Z.eqb_spec (len t) 0) as [Hz|_].
    { apply len_nil_inv in Hz as ->. by destruct Hft as (? & ? & ? & _ & _ & ?). }
    rewrite <-Et, Split_trim, last_chain by done. simpl.
    assert (Hct : bytes_ok ct /\ ct <> []).
    { apply Forall2_app_inv_l in Hr as (e1 & e2 & _ & Hr & ->). inversion Hr; subst.
      split; [by destruct H3|by eapply reads_as_ne]. }
    rewrite splitLine_line; [done|apply Hct..|]. rewrite tip_app. apply MAC_ok.
  - destruct cts as [|ct cts]; [done|]. simpl in Hf. unfold trail_file, text_of in Hf. cbn [chain] in Hf.
    rewrite bind_cons in Hf. apply (f_equal length) in Hf. rewrite !length_app in Hf. simpl in Hf. lia.
Qed.
End Chain.

(** ** Serving: sessions of the server between restarts *)

Section Serve.
Context `{CryptoLaws, EventJsonLaws}.
Variable v : Vault.

(** One run of the server that emits some events. *)
Definition serve (f : option bytes) (evs : list (bytes * Event)) : result auditErr (option bytes) :=
  match New f v with
  | Err e => Err e
  | Ok l => Ok (Some (file (foldl (λ l x, Emit v x.1 None x.2 l) l evs)))
  end.

Fixpoint runs (f : option bytes) (ss : list (list (bytes * Event))) : result auditErr (option bytes) :=
  match ss with
  | [] => Ok f
  | s :: ss' => match serve f s with Err e => Err e | Ok f' => runs f' ss' end
  end.

(** An event JSON carries, drawn a nonce, short enough for the reader. *)
Definition emit_ok (x : bytes * Event) : Prop :=
  nonce_ok x.1 /\ event_ok x.2 /\
  forall b, marshal x.2 = Some b -> len (RawURLEncode (Seal v x.1 b)) + 44 < maxLine.

Lemma emit_holds x l cts es :
  emit_ok x -> file l = trail_file v cts -> prevMAC l = tip v (start v) cts -> Forall2 (reads_as v) cts es ->
  exists ct, file (Emit v x.1 None x.2 l) = trail_file v (cts ++ [ct]) /\
    prevMAC (Emit v x.1 None x.2 l) = tip v (start v) (cts ++ [ct]) /\ Forall2 (reads_as v) (cts ++ [ct]) (es ++ [x.2]).
Proof.
  intros (Hn & He & Hl) Hf Hp Hr. destruct (unmarshal_marshal x.2 He) as (b & Hm & Hb & Hu).
  unfold Emit. rewrite Hm. cbn [file prevMAC]. exists (Seal v x.1 b). rewrite Hf, Hp. split_and!.
  - unfold trail_file. rewrite chain_app, text_of_app. f_equal. cbn. by rewrite app_nil_r.
  - by rewrite tip_app.
  - apply Forall2_app; [done|]. constructor; [|done]. split_and!.
    + apply Seal_ok; [apply Hn|done].
    + exists b. split; [by apply Open_Seal, Hn|done].
    + by apply Hl.
Qed.

Lemma serve_holds f evs cts es :
  Forall emit_ok evs -> holds v f cts es ->
  exists f' cts', serve f evs = Ok f' /\ holds v f' cts' (es ++ evs.*2).
Proof.
  intros Hok Hh. unfold serve, New. rewrite (holds_tip v f cts es Hh). destruct Hh as [Hf Hr].
  set (l := MkLogger (default [] f) (tip v (start v) cts)).
  assert (G : exists cts', file (foldl (λ l x, Emit v x.1 None x.2 l) l evs) = trail_file v cts' /\
                           Forall2 (reads_as v) cts' (es ++ evs.*2)).
  { assert (Hl : file l = trail_file v cts /\ prevMAC l = tip v (start v) cts) by done.
    clearbody l. clear Hf f. revert l cts es Hr Hl.
    induction Hok as [|x evs Hx _ IH]; intros l cts es Hr [Hf Hp]; cbn [foldl fmap list_fmap].
    - exists cts. by rewrite app_nil_r.
    - destruct (emit_holds x l cts es Hx Hf Hp Hr) as (ct & Hf' & Hp' & Hr').
      destruct (IH _ _ _ Hr' (conj Hf' Hp')) as (cts' & Hf2 & Hr2). exists cts'. split; [done|].
      by rewrite <-app_assoc in Hr2. }
  destruct G as (cts' & Hf' & Hr'). eexists _, cts'. split; [done|]. by split.
Qed.

(** C17: across any number of runs of the server, each of which recovers the tip
    of the chain from the file and emits any events, the trail verifies and
    reads back as all the events of all the runs, in order. *)
Theorem audit_reads_back (ss : list (list (bytes * Event))) (Hok : Forall (Forall emit_ok) ss) :
  exists f, runs None ss = Ok f /\ ReadAll f v = (concat ((λ s : list (bytes * Event), s.*2) <$> ss), None).
Proof.
  assert (G : forall ss f cts es, Forall (Forall emit_ok) ss -> holds v f cts es ->
    exists f' cts', runs f ss = Ok f' /\ holds v f' cts' (es ++ concat ((λ s : list (bytes * Event), s.*2) <$> ss))).
  { clear ss Hok. induction ss as [|s ss IH]; intros f cts es Hok Hh; cbn [runs fmap list_fmap concat].
    - exists f, cts. by rewrite app_nil_r.
    - apply Forall_cons in Hok as [Hs Hss]. destruct (serve_holds f s cts es Hs Hh) as (f1 & c1 & E1 & Hh1).
      rewrite E1. destruct (IH f1 c1 _ Hss Hh1) as (f2 & c2 & E2 & Hh2). exists f2, c2.
      by rewrite <-app_assoc in Hh2. }
  destruct (G ss None [] [] Hok) as (f & cts & Hf & Hh); [by split|]. exists f. split; [done|].
  by apply holds_read in Hh.
Qed.
End Serve.

(** ** Tampering *)

Section Tamper.
Context `{Crypto, EventJson}.
Variable v : Vault.

(** The MACs of a chain, the genesis included. *)
Fixpoint tips (prev : bytes) (cts : list bytes) : list bytes :=
  match cts with [] => [prev] | ct :: cts' => prev :: tips (MAC v prev ct) cts' end.

(** Every text the logger ever had MACed for that chain. *)
Fixpoint inputs (prev : bytes) (cts : list bytes) : list bytes :=
  match cts with [] => [] | ct :: cts' => (prev ++ ct) :: inputs (MAC v prev ct) cts' end.

Definition maced (cts : list bytes) : list bytes := genesis :: inputs (start v) cts.

(** A line of the file that carries the right MAC of a text the logger never
    had MACed. *)
Definition forged (data : bytes) (cts : list bytes) : Prop :=
  exists l prev ct, l ∈ scan_lines data /\ splitLine (TrimSpace (drop_cr l)) = Ok (ct, MAC v prev ct) /\
    length prev = 32%nat /\ prev ++ ct ∉ maced cts.

Lemma inputs_inv prev cts x :
  length prev = 32%nat -> x ∈ inputs prev cts ->
  exists i p ct, x = p ++ ct /\ length p = 32%nat /\ tips prev cts !! i = Some p /\ cts !! i = Some ct.
Proof.
  revert prev. induction cts as [|ct cts IH]; intros prev Hp Hx; cbn [inputs] in Hx; [by apply elem_of_nil in Hx|].
  apply elem_of_cons in Hx as [->|Hx].
  - by exists 0%nat, prev, ct.
  - destruct (IH _ (proj1 (MAC_ok v prev ct)) Hx) as (i & p & c & ? & ? & ? & ?). by exists (S i), p, c.
Qed.

Lemma tips_tip prev cts i : (i <= length cts)%nat -> tips prev cts !! i = Some (tip v prev (take i cts)).
Proof.
  revert prev i. induction cts as [|ct cts IH]; intros prev [|i] Hi; try done; simpl in *; [lia|].
  rewrite IH by lia. done.
Qed.

Lemma tip_length prev cts : length prev = 32%nat -> length (tip v prev cts) = 32%nat.
Proof. revert prev. induction cts as [|ct cts IH]; intros prev Hp; [done|]. simpl. apply IH, MAC_ok. Qed.

(** A text the logger had MACed that starts with the [i]-th tip goes on with the
    [i]-th ciphertext. *)
Lemma maced_at cts i ct :
  NoDup (tips (start v) cts) -> (i <= length cts)%nat ->
  tip v (start v) (take i cts) ++ ct ∈ maced cts -> cts !! i = Some ct.
Proof.
  intros Hn Hi. assert (Hs : length (start v) = 32%nat) by apply MAC_ok.
  pose proof (tip_length (start v) (take i cts) Hs) as Hl.
  intros [E|Hx]%elem_of_cons.
  { apply (f_equal length) in E. rewrite length_app, Hl in E. vm_compute in E. lia. }
  apply inputs_inv in Hx as (j & p & c & E & Hp & Ht & Hc); [|done].
  apply app_inj_1 in E as [<- <-]; [|lia].
  assert (j = i) as ->; [|done]. eapply NoDup_lookup; [exact Hn|exact Ht|]. by apply tips_tip.
Qed.

Lemma read_prefix cts es i acc ls res :
  Forall2 (reads_as v) cts es -> NoDup (tips (start v) cts) -> (i <= length cts)%nat -> acc = take i es ->
  read_loop v (tip v (start v) (take i cts)) acc ls = (res, None) ->
  (exists k, res = take k es) \/
  exists l prev ct, l ∈ ls /\ splitLine (TrimSpace (drop_cr l)) = Ok (ct, MAC v prev ct) /\
    length prev = 32%nat /\ prev ++ ct ∉ maced cts.
Proof.
  intros Hr Hn. revert i acc. induction ls as [|l ls IH]; intros i acc Hi ->; cbn [read_loop].
  { intros [= <-]. left. by exists i. }
  destruct (maxLine <=? len l); [done|]. destruct (beq _ []).
  { intros E. destruct (IH i _ Hi eq_refl E) as [?|(x & p & c & Hx & ?)]; [by left|right].
    exists x, p, c. split; [by right|done]. }
  destruct (splitLine _) as [[ct mac]|] eqn:Es; [|done].
  destruct (hmacEqual _ mac) eqn:Em; simpl; [|done]. apply hmacEqual_spec in Em. subst mac.
  set (prev := tip v (start v) (take i cts)) in *.
  destruct (Open v ct) as [p|] eqn:Eo; [|done]. destruct (unmarshal p) as [e|] eqn:Eu; [|done].
  destruct (decide (prev ++ ct ∈ maced cts)) as [Hin|Hout].
  - apply maced_at in Hin; [|done..]. intros E.
    assert (Hlt : (i < length cts)%nat) by by eapply lookup_lt_Some.
    destruct (Forall2_lookup_l _ _ _ _ _ Hr Hin) as (e' & He' & (_ & (p' & Hp' & Hu') & _)).
    assert (e' = e) as -> by congruence.
    destruct (IH (S i) (take (S i) es)) as [?|(x & p0 & c & Hx & ?)]; [lia|done| |by left|right].
    + by rewrite (take_S_r cts i ct Hin), (take_S_r es i e He'), tip_app.
    + exists x, p0, c. split; [by right|done].
  - intros _. right. exists l, prev, ct. split_and!; [left|done| |done]. apply tip_length, MAC_ok.
Qed.

(** C18: a file that verifies but does not read as a prefix of the genuine
    trail contains a line with a correct MAC of a text the logger never had
    MACed, that is, an HMAC forgery (given that the genuine MACs are
    distinct): no edit, insertion or reordering passes.  But every prefix of
    the trail verifies: lines cut off at the end are not detected. *)
Theorem tampering (cts : list bytes) (es res : list Event) (data : bytes)
  (Hr : Forall2 (reads_as v) cts es) (Hn : NoDup (tips (start v) cts))
  (Hd : ReadAll (Some data) v = (res, None)) :
  ((exists k, res = take k es) \/ forged data cts) /\
  (forall k, ReadAll (Some (trail_file v (take k cts))) v = (take k es, None)).
Proof.
  split.
  - unfold ReadAll in Hd.
    by apply (read_prefix cts es 0 []) in Hd; [|done|done|lia|done].
  - intros k. apply (holds_read v _ (take k cts)). split; [done|]. by apply Forall2_take.
Qed.
End Tamper.

(** ** Re-keying *)

Section Rekey.
Context `{CryptoLaws, EventJson}.
Variables oldV newV : Vault.

(** A line whose ciphertext opens to a plaintext of an event, whatever its MAC;
    its new form is short enough for the reader. *)
Definition opens_as (n : bytes) (x : bytes * bytes) (e : Event) : Prop :=
  bytes_ok x.1 /\ bytes_ok x.2 /\ x.2 <> [] /\ nonce_ok n /\
  exists p, Open oldV x.1 = Ok p /\ bytes_ok p /\ unmarshal p = Some e /\
            len (RawURLEncode (Seal newV n p)) + 44 < maxLine.

Lemma opens_ne n x e : opens_as n x e -> x.1 <> [].
Proof. intros (_ & _ & _ & _ & p & Hp & _). by eapply Open_ne. Qed.

Lemma rekey_loop_spec prev ns xs es :
  Forall3 opens_as ns xs es ->
  exists cts, rekey_loop oldV newV prev ns ((λ x, line x.1 x.2) <$> xs) = Ok (text_of (chain newV prev cts)) /\
              Forall2 (reads_as newV) cts es.
Proof.
  intros Hf. revert prev. induction Hf as [|n x e ns xs es Hx _ IH]; intros prev; [by exists []|].
  pose proof (opens_ne n x e Hx) as Hne. destruct Hx as (Hc & Hm & Hmne & Hn & p & Hp & Hpb & Hu & Hl).
  rewrite fmap_cons. cbn [rekey_loop].
  pose proof (line_framed x.1 x.2 Hc Hne Hm Hmne) as Hfr.
  rewrite <-(app_nil_r (line x.1 x.2)), TrimSpace_framed by auto.
  destruct (beq (line x.1 x.2) []) eqn:E.
  { apply beq_true in E. rewrite E in Hfr. by destruct Hfr as (? & ? & ? & _ & _ & ?). }
  rewrite splitLine_line, Hp by done. cbn [tail]. change (default [] (head (n :: ns))) with n.
  destruct (IH (MAC newV prev (Seal newV n p))) as (cts & -> & Hr).
  exists (Seal newV n p :: cts). split.
  - cbn [chain]. unfold text_of. rewrite bind_cons. by rewrite <-app_assoc.
  - constructor; [|done]. split_and!; [apply Seal_ok; [apply Hn|done]| |done].
    exists p. split; [by apply Open_Seal, Hn|done].
Qed.

(** The lines of the input, and the re-keyed file. *)
Lemma opens_framed ns xs es :
  Forall3 opens_as ns xs es ->
  Forall framed ((λ x, line x.1 x.2) <$> xs) /\ Forall (λ l, 10 ∉ l) ((λ x, line x.1 x.2) <$> xs).
Proof.
  intros Hf. induction Hf as [|n x e ns xs es Hx _ IH]; [by split; constructor|].
  pose proof (opens_ne n x e Hx) as Hne. destruct Hx as (Hc & Hm & Hmne & _). destruct IH.
  split; constructor; try done; [by apply line_framed|by apply line_no_newline].
Qed.

Lemma Rekey_run ns xs es :
  Forall3 opens_as ns xs es -> xs <> [] ->
  exists f, (forall wr, Rekey (Some (text_of ((λ x, line x.1 x.2) <$> xs))) oldV newV ns wr =
               if wr then (Ok (), Some f) else (Err ErrWrite, Some (text_of ((λ x, line x.1 x.2) <$> xs)))) /\
            ReadAll (Some f) newV = (es, None).
Proof.
  intros Hf Hne. destruct (opens_framed ns xs es Hf) as [Hfr Hnl].
  destruct (rekey_loop_spec (MAC newV [] genesis) ns xs es Hf) as (cts & E & Hr).
  exists (text_of (chain newV (MAC newV [] genesis) cts)). split; [|by apply (holds_read newV _ cts)].
  intros wr. unfold Rekey. rewrite (Split_trim ((λ x, line x.1 x.2) <$> xs)) by (done || by destruct xs). by rewrite E.
Qed.

(** Re-keying a trail preserves its events under the new key, and on any
    failure leaves the file as it was; but it never looks at the old MACs:
    lines in any order, left out or with any MACs, which no reader would
    accept, come out as a trail that verifies. *)
Theorem rekey_trusts_lines (ns : list bytes) (xs : list (bytes * bytes)) (es : list Event)
  (Hf : Forall3 opens_as ns xs es) (Hne : xs <> []) :
  let data := text_of ((λ x, line x.1 x.2) <$> xs) in
  (exists f, Rekey (Some data) oldV newV ns true = (Ok (), Some f) /\ ReadAll (Some f) newV = (es, None)) /\
  Rekey (Some data) oldV newV ns false = (Err ErrWrite, Some data) /\
  (forall x, head xs = Some x -> x.2 <> MAC oldV (start oldV) x.1 -> len (line x.1 x.2) < maxLine ->
     ReadAll (Some data) oldV = ([], Some ErrChainBroken)).
Proof.
  intros data. destruct (Rekey_run ns xs es Hf Hne) as (f & Hrun & Hread).
  split_and!; [exists f; by split; [exact (Hrun true)|]|exact (Hrun false)|].
  destruct (opens_framed ns xs es Hf) as [Hfr Hnl].
  intros x Hx Hmac Hl. unfold ReadAll, data. rewrite scan_text by done.
  destruct xs as [|y xs]; [done|]. injection Hx as ->. cbn [fmap list_fmap].
  inversion Hf as [|n ? e ? ? ? Hy]; subst. pose proof (opens_ne _ _ _ Hy). destruct Hy as (Hc & Hm & Hmne & _).
  rewrite read_line by done. destruct (hmacEqual _ x.2) eqn:Eh; [|done]. by apply hmacEqual_spec in Eh.
Qed.
End Rekey.

(** ** Witnesses *)

(** Events that are all detail, written as that text. *)
Definition toy_event (d : bytes) : Event := MkEvent 0 [] [] [] [] [] [] d 0.

Definition toy_json : EventJson :=
  {| marshal := λ e, Some (Detail e); unmarshal := λ b, Some (toy_event b);
     event_ok := λ e, bytes_ok (Detail e) /\ e = toy_event (Detail e) |}.

Lemma toy_json_laws : @EventJsonLaws toy_json.
Proof. split. intros e [Hb He]. exists (Detail e). simpl. by rewrite <-He. Qed.

Lemma audit_reads_back_witness :
  exists f, runs (H := toy) (H1 := toy_json) toy_vault None
              [[(toy_nonce, toy_event (str "a")); (toy_nonce, toy_event (str "b"))]; [(toy_nonce, toy_event (str "c"))]]
            = Ok f /\
  ReadAll (H := toy) (H0 := toy_json) f toy_vault = (toy_event <$> [str "a"; str "b"; str "c"], None).
Proof.
  apply (audit_reads_back (H := toy) (H0 := toy_laws) (H1 := toy_json) (H2 := toy_json_laws) toy_vault
    [[(toy_nonce, toy_event (str "a")); (toy_nonce, toy_event (str "b"))]; [(toy_nonce, toy_event (str "c"))]]).
  assert (G : forall d, bytes_ok d -> len (RawURLEncode (Seal (H := toy) toy_vault toy_nonce d)) + 44 < maxLine ->
    emit_ok (H := toy) (H1 := toy_json) toy_vault (toy_nonce, toy_event d)).
  { intros d Hd Hl. split; [by_decide|]. split; [by split|]. intros b [= <-]. exact Hl. }
  repeat (apply Forall_nil_2 || apply Forall_cons_2); (apply G; [apply str_ok|vm_compute; reflexivity]).
Defined.

Definition two_cts : list bytes :=
  [Seal (H := toy) toy_vault toy_nonce (str "a"); Seal (H := toy) toy_vault toy_nonce (str "b")].

Lemma two_cts_read : Forall2 (reads_as (H := toy) (H0 := toy_json) toy_vault) two_cts (toy_event <$> [str "a"; str "b"]).
Proof.
  assert (G : forall d, bytes_ok d -> len (RawURLEncode (Seal (H := toy) toy_vault toy_nonce d)) + 44 < maxLine ->
    reads_as (H := toy) (H0 := toy_json) toy_vault (Seal (H := toy) toy_vault toy_nonce d) (toy_event d)).
  { intros d Hd Hl. split_and!; [| |done].
    - apply (Seal_ok (H := toy) (H0 := toy_laws)); [by_decide|done].
    - exists d. split; [|done]. by apply (Open_Seal (H := toy) (H0 := toy_laws)). }
  apply Forall2_cons_2; [|apply Forall2_cons_2; [|apply Forall2_nil_2]]; (apply G; [apply str_ok|vm_compute; reflexivity]).
Qed.

Lemma tampering_witness :
  ReadAll (H := toy) (H0 := toy_json) (Some (trail_file toy_vault (take 1 two_cts))) toy_vault
  = ([toy_event (str "a")], None).
Proof.
  destruct (tampering (H := toy) (H0 := toy_json) toy_vault two_cts (toy_event <$> [str "a"; str "b"]) []
    [] two_cts_read) as [_ P]; [by_decide|done|]. exact (P 1%nat).
Defined.

Lemma rekey_trusts_lines_witness :
  exists f, Rekey (H := toy) (Some (text_of [line (Seal (H := toy) toy_vault toy_nonce (str "a")) [1]])) toy_vault toy_vault
              [toy_nonce] true = (Ok (), Some f) /\
  ReadAll (H := toy) (H0 := toy_json) (Some f) toy_vault = ([toy_event (str "a")], None).
Proof.
  apply (rekey_trusts_lines (H := toy) (H0 := toy_laws) (H1 := toy_json) toy_vault toy_vault [toy_nonce]
    [(Seal (H := toy) toy_vault toy_nonce (str "a"), [1])] [toy_event (str "a")]); [|done].
  constructor; [|constructor]. split_and!; [by_decide|by_decide|done|by_decide|].
  exists (str "a"). split_and!; [by vm_compute|apply str_ok|done|vm_compute; reflexivity].
Defined.
