(* ===== verification/SessionLog.v ===== *)
(** * The session log (src/store/sessionlog.go)

    The SQL mirror of the audit trail, its pages, and the daily minutes.  The
    REAL column [minutes] and its sum are in nanoseconds here; their rounding
    to doubles is not modelled. *)

From S2P Require Import Prelude GoStrings GoTime Vault Sql AuditLog.

Record logRow := LogRow {
  s_session_id : bytes; s_username : bytes; s_transport : bytes; s_remote_ip : bytes; s_event_type : bytes;
  s_action : bytes; s_detail : bytes; s_minutes : Z; s_at : bytes
}.

Section SessionLog.
Context `{Crypto}.
Variable v : Vault.

(** Failures are logged and dropped. *)
Definition SessionLog_Emit (nonce : bytes) (e : Event) (t : table logRow) : table logRow :=
  match insert (LogRow (SessionID e) (Username e) (Transport e) (RemoteIP e) (Type_ e) (Action e)
                  (seal v nonce (Detail e)) (Minutes e) (fmtTime (Time e))) t with
  | Ok (_, t') => t'
  | Err _ => t
  end.

Definition SessionLog_Count (t : table logRow) : Z := len (rows t).

Definition SessionLog_scan (x : Z * logRow) : result err Event :=
  let r := x.2 in
  match open v (s_detail r) with
  | Err e => Err (ErrVault e)
  | Ok d => Ok (MkEvent (parseTime (s_at r)) (s_event_type r) (s_session_id r) (s_remote_ip r) (s_transport r)
                  (s_username r) (s_action r) d (s_minutes r))
  end.

Definition SessionLog_Page (limit offset : Z) (t : table logRow) : result err (list Event) :=
  mapR SessionLog_scan (take (Z.to_nat (Z.max 0 limit)) (drop (Z.to_nat (Z.max 0 offset)) (reverse (rows t)))).

Definition SessionLog_Recent (limit : Z) (t : table logRow) : result err (list Event) := SessionLog_Page limit 0 t.

(** The rows of the day: the stamps are compared as text. *)
Definition of_day (username : bytes) (now : Z) : Z -> logRow -> bool :=
  λ _ r, beq (s_username r) username && beq (s_event_type r) TypeDisconnect &&
         text_leb (fmtTime (TruncateDay now)) (s_at r).

Definition MinutesToday (username : bytes) (now : Z) (t : table logRow) : Z :=
  foldr (λ x a, s_minutes x.2 + a) 0 (select (of_day username now) t).

(** [VerifyAuditChain]: the count of events and the error. *)
Definition VerifyAuditChain `{EventJson} (f : option bytes) : Z * option auditErr :=
  let '(es, e) := ReadAll f v in (len es, e).
End SessionLog.

(** ** Lemmas: stamps as text *)

Definition text_lt (a b : bytes) : Prop := text_leb b a = false.

Lemma text_lt_cons c a b : text_lt a b -> text_lt (c :: a) (c :: b).
Proof. unfold text_lt. simpl. by rewrite Z.ltb_irrefl, Z.eqb_refl. Qed.

Lemma text_lt_head x y a b : x < y -> text_lt (x :: a) (y :: b).
Proof.
  intros H. unfold text_lt. simpl. rewrite orb_false_iff, andb_false_iff, Z.ltb_ge, Z.eqb_neq. lia.
Qed.

Lemma text_lt_app a a' b b' : length a = length a' -> text_lt a a' -> text_lt (a ++ b) (a' ++ b').
Proof.
  revert a'. induction a as [|x a IH]; intros [|y a'] Hl H; try done.
  unfold text_lt in *. simpl in *. apply orb_false_iff in H as [H1 H2].
  rewrite H1. simpl. apply andb_false_iff in H2 as [H2|H2]; [by rewrite H2|].
  rewrite IH by (done || lia). by rewrite andb_false_r.
Qed.

Lemma text_leb_app a b b' : text_leb (a ++ b) (a ++ b') = text_leb b b'.
Proof. induction a as [|x a IH]; [done|]. simpl. by rewrite Z.ltb_irrefl, Z.eqb_refl. Qed.

Lemma text_lt_pre a b b' : text_lt b b' -> text_lt (a ++ b) (a ++ b').
Proof. unfold text_lt. by rewrite text_leb_app. Qed.

Lemma text_lt_leb a b : text_lt a b -> text_leb a b = true.
Proof. apply text_leb_total. Qed.

Lemma two_lt n m : 0 <= n < m -> m < 100 -> text_lt (two n) (two m).
Proof.
  intros H1 H2. unfold two. destruct (decide (n / 10 = m / 10)) as [E|E].
  - rewrite E. apply text_lt_cons, text_lt_head. zdiv.
  - apply text_lt_head. zdiv.
Qed.

Lemma four_lt n m : 0 <= n < m -> m <= 9999 -> text_lt (four n) (four m).
Proof.
  intros H1 H2. unfold four. destruct (decide (n / 100 = m / 100)) as [E|E].
  - rewrite E. apply text_lt_pre, two_lt; zdiv.
  - apply text_lt_app; [done|]. apply two_lt; zdiv.
Qed.

(** The date and the time of day of a stamp. *)
Definition date_text (c : date) : bytes := four (year c) ++ [45] ++ two (month c) ++ [45] ++ two (day c).
Definition clock_text (sod : Z) : bytes :=
  two (sod / 3600) ++ [58] ++ two (sod / 60 mod 60) ++ [58] ++ two (sod mod 60).
Definition stamp (sec : Z) : bytes :=
  date_text (civil_from_days (sec / 86400)) ++ [84] ++ clock_text (sec mod 86400).

Lemma fmtTime_stamp t : fmtTime t = stamp (t / Second) ++ fraction (t mod Second) ++ [90].
Proof. unfold fmtTime, stamp, date_text, clock_text. cbv zeta. by rewrite <-!app_assoc. Qed.

Lemma date_lt z1 z2 :
  z1 < z2 -> 0 <= year (civil_from_days z1) -> year (civil_from_days z2) <= 9999 ->
  text_lt (date_text (civil_from_days z1)) (date_text (civil_from_days z2)).
Proof.
  intros Hz H1 H2. pose proof (date_key_mono z1 z2 Hz) as Hk.
  destruct (civil_roundtrip z1) as (M1 & D1 & _), (civil_roundtrip z2) as (M2 & D2 & _).
  pose proof (daysIn_any (month (civil_from_days z1)) (year (civil_from_days z1))).
  pose proof (daysIn_any (month (civil_from_days z2)) (year (civil_from_days z2))).
  unfold date_text, date_key in *. generalize dependent (civil_from_days z1). generalize dependent (civil_from_days z2).
  intros b B1 B2 B3 B4 a A1 A2 A3 A4 A5.
  destruct (decide (year a = year b)) as [Ey|]; [|apply text_lt_app; [done|apply four_lt; lia]].
  rewrite Ey. apply text_lt_pre, text_lt_cons.
  destruct (decide (month a = month b)) as [Em|]; [|apply text_lt_app; [done|apply two_lt; lia]].
  rewrite Em. apply text_lt_pre, text_lt_cons, two_lt; lia.
Qed.

Lemma clock_lt a b : 0 <= a < b -> b < 86400 -> text_lt (clock_text a) (clock_text b).
Proof.
  intros H1 H2. unfold clock_text.
  destruct (decide (a / 3600 = b / 3600)) as [Eh|]; [|apply text_lt_app; [done|apply two_lt; zdiv]].
  rewrite Eh. apply text_lt_pre, text_lt_cons.
  destruct (decide (a / 60 mod 60 = b / 60 mod 60)) as [Em|]; [|apply text_lt_app; [done|apply two_lt; zdiv]].
  rewrite Em. apply text_lt_pre, text_lt_cons, two_lt; zdiv.
Qed.

Lemma length_date c : length (date_text c) = 10%nat.
Proof. done. Qed.

Lemma stamp_lt a b : time_ok a -> time_ok b -> a / Second < b / Second -> text_lt (stamp (a / Second)) (stamp (b / Second)).
Proof.
  intros Ha Hb H. pose proof (year_bound a Ha). pose proof (year_bound b Hb). unfold stamp.
  set (x := a / Second) in *. set (y := b / Second) in *.
  destruct (decide (x / 86400 = y / 86400)) as [E|E].
  - rewrite E. apply text_lt_pre, text_lt_cons, clock_lt; zdiv.
  - apply text_lt_app; [done|]. apply date_lt; [zdiv|lia..].
Qed.

(** Text order of stamps against a whole second: time order, except that a
    fraction of that very second sorts before it ('.' precedes 'Z'). *)
Lemma stamp_order m t :
  time_ok m -> time_ok t -> m mod Second = 0 ->
  text_leb (fmtTime m) (fmtTime t) = bool_decide (m = t \/ m + Second <= t).
Proof.
  intros Hm Ht H0. rewrite !fmtTime_stamp, H0. change (fraction 0 ++ [90]) with [90].
  assert (Hl : forall s, length (stamp s) = 19%nat) by done. unfold Second in *.
  destruct (Z.lt_total (m / 1000000000) (t / 1000000000)) as [H|[H|H]].
  - rewrite bool_decide_true by (right; zdiv). apply text_lt_leb, text_lt_app; [done|by apply stamp_lt].
  - rewrite H, text_leb_app. destruct (decide (t mod 1000000000 = 0)) as [E|E].
    + rewrite E. change (fraction 0 ++ [90]) with [90]. rewrite bool_decide_true by (left; zdiv). done.
    + rewrite bool_decide_false by zdiv.
      assert (Hf : exists r, fraction (t mod 1000000000) = 46 :: r).
      { unfold fraction. destruct (drop_zeros _) eqn:Ed; [|by eexists]. exfalso.
        pose proof (parse_fraction_spec (t mod 1000000000) [] ltac:(unfold Second; zdiv)) as Hp.
        unfold fraction in Hp. rewrite Ed in Hp. simpl in Hp. congruence. }
      destruct Hf as [r ->]. done.
  - rewrite bool_decide_false by zdiv. apply (text_lt_app (stamp _) (stamp _)); [done|by apply stamp_lt].
Qed.

Lemma TruncateDay_spec now : TruncateDay now <= now < TruncateDay now + Day /\ TruncateDay now mod Second = 0.
Proof. unfold TruncateDay, zeroTime, Day, Second. split; zdiv. Qed.

(** ** Properties *)

Section Props.
Context `{CryptoLaws}.
Variable v : Vault.

(** What the mirror holds of a list of events. *)
Definition mirror (es : list (bytes * Event)) : table logRow :=
  foldl (λ t x, SessionLog_Emit v x.1 x.2 t) empty_table es.

Definition mirror_ok (x : bytes * Event) : Prop :=
  nonce_ok x.1 /\ bytes_ok (Detail x.2) /\ time_ok (Time x.2).

Definition logged (x : bytes * Event) : logRow :=
  LogRow (SessionID x.2) (Username x.2) (Transport x.2) (RemoteIP x.2) (Type_ x.2) (Action x.2)
    (seal v x.1 (Detail x.2)) (Minutes x.2) (fmtTime (Time x.2)).

Lemma mirror_rows es : len es < maxRowid -> (rows (mirror es)).*2 = logged <$> es /\ seq (mirror es) = len es.
Proof.
  unfold mirror. induction es as [|x es IH] using rev_ind; [done|]. rewrite len_app. intros Hl.
  rewrite foldl_app, fmap_app. cbn [foldl]. destruct IH as [IH1 IH2]; [unfold len in *; simpl in *; lia|].
  unfold SessionLog_Emit at 1 3. unfold insert. rewrite IH2.
  rewrite (proj2 (Z.ltb_lt _ _)) by (unfold len in *; simpl in *; lia). cbn [rows seq].
  rewrite fmap_app, IH1. split; [done|]. rewrite ?len_app. done.
Qed.

Lemma scan_logged i x : mirror_ok x -> SessionLog_scan v (i, logged x) = Ok x.2.
Proof.
  intros (Hn & Hd & Ht). unfold SessionLog_scan, logged. cbn. rewrite open_seal, parseTime_fmtTime by done.
  by destruct x as [n []].
Qed.

(** A page of the log viewer is the window of the events it asks for, newest
    first, whatever the limit and offset; negative ones count as zero. *)
Theorem Page_window (es : list (bytes * Event)) (limit offset : Z)
  (Hok : Forall mirror_ok es) (Hl : len es < maxRowid) :
  SessionLog_Page v limit offset (mirror es) =
  Ok (take (Z.to_nat limit) (drop (Z.to_nat offset) (reverse (es.*2)))).
Proof.
  destruct (mirror_rows es Hl) as [Hr _]. unfold SessionLog_Page.
  replace (Z.to_nat (Z.max 0 limit)) with (Z.to_nat limit) by lia.
  replace (Z.to_nat (Z.max 0 offset)) with (Z.to_nat offset) by lia.
  rewrite <-fmap_reverse, <-fmap_drop, <-fmap_take. apply mapR_ok.
  assert (F : Forall2 (λ x y, SessionLog_scan v x = Ok y) (rows (mirror es)) (es.*2)).
  { revert Hr. generalize (rows (mirror es)) as l. clear Hl. induction Hok as [|x es Hx _ IH]; intros [|[i r] l] Hr; try done.
    rewrite !fmap_cons in Hr. injection Hr as -> Hr. rewrite fmap_cons.
    constructor; [by apply scan_logged|by apply IH]. }
  rewrite fmap_take, fmap_drop, fmap_reverse. by apply Forall2_take, Forall2_drop, Forall2_reverse.
Qed.
End Props.

(** The minutes a user is charged today are those of the disconnects logged
    at UTC midnight exactly or from one second after it on; a session that
    ended in the first second after midnight, but not on the second, is not
    charged at all, though it ended today; a session logged under the same
    name in another case never is. *)
Theorem MinutesToday_spec (username : bytes) (now t mins : Z) (r : logRow)
  (Hnow : time_ok now) (Ht : time_ok t) (Hr : s_at r = fmtTime t) (Hm : s_minutes r = mins)
  (Hty : s_event_type r = TypeDisconnect) (tbl tbl' : table logRow) (id : Z) (Hi : insert r tbl = Ok (id, tbl')) :
  let midnight := TruncateDay now in
  MinutesToday username now tbl' = MinutesToday username now tbl +
    (if bool_decide (s_username r = username /\ (t = midnight \/ midnight + Second <= t)) then mins else 0).
Proof.
  cbv zeta. destruct (TruncateDay_spec now) as [Hd H0].
  assert (Hmid : time_ok (TruncateDay now)).
  { unfold time_ok, TruncateDay, zeroTime, Day, Second in *. zdiv. }
  unfold MinutesToday. rewrite (select_insert _ _ _ _ _ Hi), foldr_app.
  assert (E : of_day username now id r = bool_decide (s_username r = username /\
             (t = TruncateDay now \/ TruncateDay now + Second <= t))).
  { unfold of_day. rewrite Hr, Hty, beq_refl, andb_true_r, stamp_order by done. unfold beq.
    rewrite <-bool_decide_and. apply bool_decide_ext. naive_solver. }
  rewrite E. assert (F : forall l a, foldr (λ (x : Z * logRow) b, s_minutes x.2 + b) a l =
                                     foldr (λ x b, s_minutes x.2 + b) 0 l + a).
  { induction l as [|x l IH]; intros a; [done|]. simpl. rewrite IH. lia. }
  rewrite F. f_equal. case_bool_decide; simpl; lia.
Qed.

(** ** Witnesses *)

Definition goodbye (t : Z) : Event := MkEvent t TypeDisconnect [] [] [] (str "neo") [] [] (30 * Minute).

Lemma Page_window_witness :
  SessionLog_Page (H := toy) toy_vault 1 (-5)
    (mirror (H := toy) toy_vault [(toy_nonce, goodbye 0); (toy_nonce, goodbye Hour)]) = Ok [goodbye Hour].
Proof.
  rewrite (Page_window (H := toy) (H0 := toy_laws) toy_vault [(toy_nonce, goodbye 0); (toy_nonce, goodbye Hour)] 1 (-5));
    [done| |done].
  repeat (apply Forall_nil_2 || apply Forall_cons_2); (split_and!; [by_decide|constructor|by_decide]).
Defined.

(** Half an hour that ends a millisecond after midnight is free. *)
Lemma MinutesToday_spec_witness :
  MinutesToday (str "neo") (Day + Hour) (mirror (H := toy) toy_vault [(toy_nonce, goodbye (Day + 1000000))]) = 0.
Proof.
  pose proof (MinutesToday_spec (str "neo") (Day + Hour) (Day + 1000000) (30 * Minute)
    (logged (H := toy) toy_vault (toy_nonce, goodbye (Day + 1000000)))
    ltac:(by_decide) ltac:(by_decide) eq_refl eq_refl eq_refl empty_table
    (mirror (H := toy) toy_vault [(toy_nonce, goodbye (Day + 1000000))]) 1 eq_refl) as P.
  cbv zeta in P. rewrite P. vm_compute. reflexivity.
Defined.
