(* ===== verification/GoNet.v ===== *)
(** * IP addresses (Go's net package)

    [ParseIP], [IP.String], [ParseCIDR], [IPNet.Contains] and [IPNet.String] on
    16-byte addresses, IPv4 ones in their IPv4-in-IPv6 form, as [ParseIP]
    returns them; and [SplitHostPort]. *)

From S2P Require Import Prelude GoStrings.

Abbreviation IP := bytes.

Definition v4InV6Prefix : bytes := [0; 0; 0; 0; 0; 0; 0; 0; 0; 0; 255; 255].

Definition To4 (ip : IP) : option bytes :=
  if (len ip =? 16) && beq (take 12 ip) v4InV6Prefix then Some (drop 12 ip)
  else if len ip =? 4 then Some ip else None.

(** ** IPv4 *)

(** A decimal octet without leading zero. *)
Definition octet (s : bytes) : option Z :=
  match s with
  | [] => None
  | b :: s' =>
      if (b =? 48) && negb (bool_decide (s' = [])) then None
      else match undec 0 s with
           | Some n => if n <=? 255 then Some n else None
           | None => None
           end
  end.

Definition parseIPv4 (s : bytes) : option bytes :=
  match Split s 46 with
  | [a; b; c; d] =>
      match octet a, octet b, octet c, octet d with
      | Some a, Some b, Some c, Some d => Some [a; b; c; d]
      | _, _, _, _ => None
      end
  | _ => None
  end.

(** ** IPv6 *)

Definition hex (b : Z) : option Z :=
  if (48 <=? b) && (b <=? 57) then Some (b - 48)
  else if (97 <=? b) && (b <=? 102) then Some (b - 87)
  else if (65 <=? b) && (b <=? 70) then Some (b - 55)
  else None.

(** The hex digits that start the text: how many, their value, the rest. *)
Fixpoint hex_run (acc n : Z) (s : bytes) : Z * Z * bytes :=
  match s with
  | [] => (n, acc, [])
  | b :: s' => match hex b with Some d => hex_run (16 * acc + d) (n + 1) s' | None => (n, acc, s) end
  end.

(** The loop over the groups: the bytes so far, where the ellipsis stands in
    them, and the unread text.  [fuel] is the eight groups. *)
Fixpoint groups (fuel : nat) (ip : bytes) (ell : option nat) (s : bytes) : option (bytes * option nat * bytes) :=
  match fuel with
  | O => Some (ip, ell, s)
  | S f =>
      let '(n, acc, r) := hex_run 0 0 s in
      if (n =? 0) || (4 <? n) then None
      else
        match r with
        | [] => Some (ip ++ [acc / 256; acc mod 256], ell, [])
        | c :: r1 =>
            if c =? 46 then
              if bool_decide (ell = None) && negb (len ip =? 12) then None
              else if 16 <? len ip + 4 then None
              else match parseIPv4 s with Some v4 => Some (ip ++ v4, ell, []) | None => None end
            else if negb (c =? 58) then None
            else
              let ip' := ip ++ [acc / 256; acc mod 256] in
              match r1 with
              | [] => None
              | d :: r2 =>
                  if d =? 58 then
                    match ell with
                    | Some _ => None
                    | None => match r2 with
                              | [] => Some (ip', Some (length ip'), [])
                              | _ => groups f ip' (Some (length ip')) r2
                              end
                    end
                  else groups f ip' ell r1
              end
        end
  end.

Definition finish (r : option (bytes * option nat * bytes)) : option IP :=
  match r with
  | Some (ip, ell, []) =>
      if len ip <? 16 then
        match ell with
        | None => None
        | Some e => Some (take e ip ++ replicate (16 - length ip) 0 ++ drop e ip)
        end
      else match ell with None => Some ip | Some _ => None end
  | _ => None
  end.

Definition parseIPv6 (s : bytes) : option IP :=
  match s with
  | a :: b :: s' =>
      if (a =? 58) && (b =? 58) then
        match s' with [] => Some (replicate 16 0) | _ => finish (groups 8 [] (Some 0%nat) s') end
      else finish (groups 8 [] None s)
  | _ => finish (groups 8 [] None s)
  end.

(** The first of '.', ':' and '%' tells the family; a zone is refused. *)
Inductive family := V4 | V6 | NoFamily.

Fixpoint family_of (s : bytes) : family :=
  match s with
  | [] => NoFamily
  | b :: s' => if b =? 46 then V4 else if b =? 58 then V6 else if b =? 37 then NoFamily else family_of s'
  end.

(** [netip.ParseAddr] without zones: the 16 bytes and the bit length. *)
Definition ParseAddr (s : bytes) : option (IP * Z) :=
  match family_of s with
  | V4 => match parseIPv4 s with Some v4 => Some (v4InV6Prefix ++ v4, 32) | None => None end
  | V6 => match IndexByte s 37 with
          | Some _ => None
          | None => match parseIPv6 s with Some ip => Some (ip, 128) | None => None end
          end
  | NoFamily => None
  end.

Definition ParseIP (s : bytes) : option IP := fst <$> ParseAddr s.

(** ** Printing *)

Definition hex_char (d : Z) : Z := if d <? 10 then 48 + d else 87 + d.

Definition appendHex (x : Z) : bytes :=
  (if 4096 <=? x then [hex_char (x / 4096)] else []) ++
  (if 256 <=? x then [hex_char (x / 256 mod 16)] else []) ++
  (if 16 <=? x then [hex_char (x / 16 mod 16)] else []) ++ [hex_char (x mod 16)].

Fixpoint words16 (b : bytes) : list Z :=
  match b with x :: y :: b' => (256 * x + y) :: words16 b' | _ => [] end.

Fixpoint zeros (l : list Z) : nat := match l with x :: l' => if x =? 0 then S (zeros l') else O | [] => O end.

(** The first longest run of at least two zero groups: its start and length. *)
Fixpoint best_run (i : nat) (best : nat * nat) (l : list Z) : nat * nat :=
  match l with
  | [] => best
  | x :: l' =>
      let n := zeros l in
      best_run (S i) (if (1 <? n)%nat && (best.2 <? n)%nat then (i, n) else best) l'
  end.

Definition string6 (ip : IP) : bytes :=
  let w := words16 ip in
  let '(st, n) := best_run 0 (0%nat, 0%nat) w in
  if (n =? 0)%nat then Join (appendHex <$> w) [58]
  else Join (appendHex <$> take st w) [58] ++ [58; 58] ++ Join (appendHex <$> drop (st + n) w) [58].

Definition string4 (v4 : bytes) : bytes := Join (Itoa <$> v4) [46].

Definition IP_String (ip : IP) : bytes :=
  match To4 ip with Some v4 => string4 v4 | None => string6 ip end.

(** [Equal]: an IPv4 address equals its IPv6 form. *)
Definition IP_Equal (a b : IP) : bool :=
  match To4 a, To4 b with Some x, Some y => beq x y | None, None => beq a b | _, _ => false end.

(** ** Networks: the network number and the mask, both of 4 or both of 16 bytes *)

Record IPNet := MkNet { net_ip : bytes; net_mask : bytes }.

(** [CIDRMask(n, bits)] *)
Fixpoint mask_bytes (k : nat) (n : Z) : bytes :=
  match k with
  | O => []
  | S k' => (if 8 <=? n then 255 else if n <=? 0 then 0 else 256 - 2 ^ (8 - n)) :: mask_bytes k' (n - 8)
  end.

Definition mask_ip (ip m : bytes) : bytes :=
  let ip' := if (len m =? 4) && (len ip =? 16) && beq (take 12 ip) v4InV6Prefix then drop 12 ip else ip in
  zip_with Z.land ip' m.

(** [dtoi]: digits, below 0xFFFFFF. *)
Definition dtoi (s : bytes) : option Z :=
  match s with
  | [] => None
  | _ => match undec 0 s with Some n => if n <? 16777215 then Some n else None | None => None end
  end.

Definition ParseCIDR (s : bytes) : option (IP * IPNet) :=
  match IndexByte s 47 with
  | None => None
  | Some i =>
      match ParseAddr (take i s) with
      | None => None
      | Some (ip, bits) =>
          match dtoi (drop (S i) s) with
          | None => None
          | Some n =>
              if bits <? n then None
              else let m := mask_bytes (Z.to_nat (bits / 8)) n in Some (ip, MkNet (mask_ip ip m) m)
          end
      end
  end.

(** [networkNumberAndMask] *)
Definition network (n : IPNet) : bytes * bytes :=
  match To4 (net_ip n) with
  | Some x => (x, if len (net_mask n) =? 16 then drop 12 (net_mask n) else net_mask n)
  | None => (net_ip n, net_mask n)
  end.

Definition Contains (n : IPNet) (ip : IP) : bool :=
  let '(nn, m) := network n in
  let x := default ip (To4 ip) in
  (len x =? len nn) && beq (zip_with Z.land nn m) (zip_with Z.land x m).

(** [simpleMaskLength] of the masks [CIDRMask] makes. *)
Fixpoint mask_length (m : bytes) : Z :=
  match m with
  | [] => 0
  | b :: m' => if b =? 255 then 8 + mask_length m' else 8 - Z.log2 (256 - b)
  end.

Definition IPNet_String (n : IPNet) : bytes :=
  let '(nn, m) := network n in IP_String nn ++ [47] ++ Itoa (mask_length m).

(** ** SplitHostPort *)

Definition LastIndexByte (s : bytes) (c : Z) : option nat :=
  (λ i, (length s - 1 - i)%nat) <$> IndexByte (reverse s) c.

(** The host of "host:port" or "[host]:port"; an error otherwise. *)
Definition SplitHostPort (s : bytes) : option (bytes * bytes) :=
  match LastIndexByte s 58 with
  | None => None
  | Some i =>
      let port := drop (S i) s in
      match s with
      | 91 :: _ =>
          match IndexByte s 93 with
          | None => None
          | Some e =>
              if negb (S e =? i)%nat then None
              else if GoStrings.Contains (drop 1 s) [91] || GoStrings.Contains (drop (S e) s) [93] then None
              else Some (take (e - 1) (drop 1 s), port)
          end
      | _ =>
          let host := take i s in
          if GoStrings.Contains host [58] || GoStrings.Contains s [91] || GoStrings.Contains s [93] then None
          else Some (host, port)
      end
  end.

(** [hostOf] and [ipOf] of the transport and session packages. *)
Definition hostOf (addr : option bytes) : bytes :=
  match addr with
  | None => []
  | Some a => match SplitHostPort a with Some (h, _) => h | None => a end
  end.

Example ParseIP_ex1 : ParseIP (str "203.0.113.7") = Some (v4InV6Prefix ++ [203; 0; 113; 7]).
Proof. by vm_compute. Qed.
Example ParseIP_ex2 : IP_String <$> ParseIP (str "2001:DB8:0:0:1::1") = Some (str "2001:db8::1:0:0:1").
Proof. by vm_compute. Qed.
Example ParseIP_ex3 : IP_String <$> ParseIP (str "::ffff:10.0.0.1") = Some (str "10.0.0.1").
Proof. by vm_compute. Qed.
Example ParseIP_ex4 : ParseIP (str "01.2.3.4") = None /\ ParseIP (str "1:2:3:4:5:6:7:8:9") = None /\
  ParseIP (str "::1%eth0") = None /\ ParseIP (str "1::2::3") = None.
Proof. by vm_compute. Qed.
Example ParseCIDR_ex : (IPNet_String ∘ snd) <$> ParseCIDR (str "192.168.17.200/20") = Some (str "192.168.16.0/20").
Proof. by vm_compute. Qed.
Example ParseCIDR_ex6 : (IPNet_String ∘ snd) <$> ParseCIDR (str "2001:db8:abcd::1/33") = Some (str "2001:db8:8000::/33").
Proof. by vm_compute. Qed.
Example SplitHostPort_ex : hostOf (Some (str "[::1]:2323")) = str "::1" /\ hostOf (Some (str "10.0.0.1:22")) = str "10.0.0.1".
Proof. by vm_compute. Qed.

(** ** Lemmas: IPv4 *)

Lemma Itoa_octet x : 0 <= x <= 255 -> octet (Itoa x) = Some x /\ 46 ∉ Itoa x /\ 58 ∉ Itoa x /\ 47 ∉ Itoa x /\ 37 ∉ Itoa x.
Proof.
  intros H. assert (C : all_range 256 (λ x, bool_decide (octet (Itoa x) = Some x /\
    46 ∉ Itoa x /\ 58 ∉ Itoa x /\ 47 ∉ Itoa x /\ 37 ∉ Itoa x)) = true) by by vm_compute.
  apply (all_range_spec _ _) with (x := x) in C; [|lia]. by apply bool_decide_eq_true in C.
Qed.

Lemma parseIPv4_string4 a b c d :
  bytes_ok [a; b; c; d] -> parseIPv4 (string4 [a; b; c; d]) = Some [a; b; c; d].
Proof.
  intros H. repeat (apply Forall_cons in H as [? H]). unfold byte_ok in *.
  destruct (Itoa_octet a), (Itoa_octet b), (Itoa_octet c), (Itoa_octet d); try lia.
  unfold parseIPv4, string4. rewrite Split_Join; [|done|repeat (constructor; [tauto|]); constructor].
  cbn [fmap list_fmap]. by repeat match goal with E : octet _ = Some _ |- _ => rewrite E; clear E end.
Qed.

Lemma family_v4 s t : 46 ∉ s -> 58 ∉ s -> 37 ∉ s -> family_of (s ++ 46 :: t) = V4.
Proof.
  induction s as [|b s IH]; intros H1 H2 H3; [done|]. cbn [app family_of].
  apply not_elem_of_cons in H1 as [? ?], H2 as [? ?], H3 as [? ?].
  rewrite !(proj2 (Z.eqb_neq b _)) by congruence. by apply IH.
Qed.

(** Printing and parsing an IPv4 address gives it back. *)
Lemma ParseIP_v4 v4 :
  length v4 = 4%nat -> bytes_ok v4 -> ParseAddr (IP_String (v4InV6Prefix ++ v4)) = Some (v4InV6Prefix ++ v4, 32).
Proof.
  intros Hl Hb. unfold IP_String, To4. destruct v4 as [|a [|b [|c [|d [|]]]]]; try done.
  change ((len (v4InV6Prefix ++ [a; b; c; d]) =? 16) && beq (take 12 (v4InV6Prefix ++ [a; b; c; d])) v4InV6Prefix)
    with true. cbv iota. change (drop 12 (v4InV6Prefix ++ [a; b; c; d])) with [a; b; c; d].
  unfold ParseAddr. assert (E : family_of (string4 [a; b; c; d]) = V4).
  { pose proof Hb as [Ha _]%Forall_cons. unfold byte_ok in Ha. destruct (Itoa_octet a) as (_ & ? & ? & ? & ?); [lia|].
    unfold string4. cbn [fmap list_fmap Join]. by apply family_v4. }
  by rewrite E, parseIPv4_string4.
Qed.
