(* ===== verification/Bans.v ===== *)
(** * The IP ban list (src/store/bans.go)

    Patterns are addresses or CIDR blocks; both transports ask [IsBanned] for
    every source before anything else. *)

From S2P Require Import Prelude GoStrings GoNet GoTime Vault Sql Users.

Record banRow := BanRow {
  bn_pattern : bytes; bn_reason : bytes; bn_by : option Z; bn_at : bytes; bn_lifted_at : option bytes
}.

Record Ban := MkBan {
  BanID : Z; Pattern : bytes; Reason : bytes; BannedBy : option Z; BannedAt : Z; LiftedAt : option Z
}.

Abbreviation bans := (table banRow).

Definition set_lifted (at_ : bytes) (r : banRow) : banRow :=
  BanRow (bn_pattern r) (bn_reason r) (bn_by r) (bn_at r) (Some at_).

Definition NormalizeBanPattern (pattern : bytes) : option bytes :=
  let p := TrimSpace pattern in
  if beq p [] then None
  else if GoStrings.Contains p [47] then (λ x, IPNet_String x.2) <$> ParseCIDR p
  else IP_String <$> ParseIP p.

Definition Bans_scan (x : Z * banRow) : Ban :=
  MkBan x.1 (bn_pattern x.2) (bn_reason x.2) (bn_by x.2) (parseTime (bn_at x.2)) (parseTime <$> bn_lifted_at x.2).

Definition Bans_byID (id : Z) (t : bans) : result err Ban :=
  match row id t with None => Err ErrNoRows | Some r => Ok (Bans_scan (id, r)) end.

Definition Bans_Add (us : users) (pattern reason : bytes) (bannedBy now : Z) (t : bans) : result err Ban * bans :=
  match NormalizeBanPattern pattern with
  | None => (Err ErrBadPattern, t)
  | Some canon =>
      let by_ := if 0 <? bannedBy then Some bannedBy else None in
      if match by_ with Some u => negb (user_exists u us) | None => false end then (Err ErrForeignKey, t)
      else match insert (BanRow canon (TrimSpace reason) by_ (fmtTime now) None) t with
           | Err e => (Err e, t)
           | Ok (id, t') => (Bans_byID id t', t')
           end
  end.

Definition in_force : Z -> banRow -> bool := λ _ r, is_null (bn_lifted_at r).

Definition Bans_Lift (id now : Z) (t : bans) : bans :=
  (update (λ i r, (i =? id) && in_force i r) (set_lifted (fmtTime now)) t).1.

Definition Bans_Active (t : bans) : list Ban := Bans_scan <$> reverse (select in_force t).

(** One turn of the loop of [IsBanned]. *)
Definition covers (pattern : bytes) (ip : IP) : bool :=
  if GoStrings.Contains pattern [47] then
    match ParseCIDR pattern with Some (_, n) => GoNet.Contains n ip | None => false end
  else match ParseIP pattern with Some b => IP_Equal b ip | None => false end.

Definition IsBanned (ip : bytes) (t : bans) : bool :=
  match ParseIP (TrimSpace ip) with
  | None => false
  | Some parsed => existsb (λ b, covers (Pattern b) parsed) (Bans_Active t)
  end.

(** ** Lemmas *)

Definition num4 (v4 : bytes) : Z := foldl (λ a b, 256 * a + b) 0 v4.
Definition mapped (v4 : bytes) : IP := v4InV6Prefix ++ v4.

Lemma Contains_slash s : GoStrings.Contains s [47] = true <-> 47 ∈ s.
Proof.
  induction s as [|b s IH]; cbn [GoStrings.Contains HasPrefix].
  - split; [done|]. by intros ?%elem_of_nil.
  - replace (HasPrefix s []) with true by by destruct s.
    rewrite orb_true_iff, andb_true_r, Z.eqb_eq, IH, elem_of_cons. naive_solver.
Qed.

Lemma string4_no_slash a b c d : bytes_ok [a; b; c; d] -> 47 ∉ string4 [a; b; c; d].
Proof.
  intros H. repeat (apply Forall_cons in H as [? H]). unfold byte_ok in *.
  destruct (Itoa_octet a), (Itoa_octet b), (Itoa_octet c), (Itoa_octet d); try lia.
  unfold string4. cbn [fmap list_fmap Join]. rewrite !not_elem_of_app.
  assert (47 ∉ [46]) by by intros ?%list_elem_of_singleton. tauto.
Qed.

Lemma To4_mapped (v4 : bytes) : length v4 = 4%nat -> To4 (mapped v4) = Some v4.
Proof. intros H. destruct v4 as [|a [|b [|c [|d [|]]]]]; done. Qed.

Lemma IP_String_mapped (v4 : bytes) : length v4 = 4%nat -> IP_String (mapped v4) = string4 v4.
Proof. intros H. unfold IP_String. by rewrite To4_mapped. Qed.

(** A mask byte keeps the high bits. *)
Lemma land_mask b k : 0 <= b < 256 -> 0 <= k <= 8 -> Z.land b (256 - 2 ^ (8 - k)) = 2 ^ (8 - k) * (b / 2 ^ (8 - k)).
Proof.
  intros Hb Hk.
  assert (C : all_range 9 (λ k, all_range 256 (λ b, Z.land b (256 - 2 ^ (8 - k)) =? 2 ^ (8 - k) * (b / 2 ^ (8 - k)))) = true)
    by by vm_compute.
  apply (all_range_spec _ _) with (x := k) in C; [|lia].
  apply (all_range_spec _ _) with (x := b) in C; [|lia]. by apply Z.eqb_eq.
Qed.

Lemma mask_length_bytes n : 0 <= n <= 32 -> mask_length (mask_bytes 4 n) = n.
Proof.
  intros Hn. assert (C : all_range 33 (λ n, mask_length (mask_bytes 4 n) =? n) = true) by by vm_compute.
  apply (all_range_spec _ _) with (x := n) in C; [|lia]. by apply Z.eqb_eq.
Qed.

(** Masked bytes are bytes, and masking is idempotent. *)
Lemma mask_byte_cases n : exists k, 0 <= k <= 8 /\
  (if 8 <=? n then 255 else if n <=? 0 then 0 else 256 - 2 ^ (8 - n)) = 256 - 2 ^ (8 - k) /\
  k = Z.max 0 (Z.min 8 n).
Proof.
  exists (Z.max 0 (Z.min 8 n)). destruct (Z.leb_spec 8 n); [by rewrite Z.min_l by lia|].
  destruct (Z.leb_spec n 0); [by rewrite Z.max_l by lia|]. split_and!; [lia..| |lia].
  by rewrite Z.max_r, Z.min_r by lia.
Qed.

Definition keep_bits (b k : Z) : Z := 2 ^ (8 - k) * (b / 2 ^ (8 - k)).

Lemma land_mask_byte b n : 0 <= b < 256 ->
  Z.land b (if 8 <=? n then 255 else if n <=? 0 then 0 else 256 - 2 ^ (8 - n)) = keep_bits b (Z.max 0 (Z.min 8 n)).
Proof. intros Hb. destruct (mask_byte_cases n) as (k & Hk & -> & ->). by apply land_mask. Qed.

Lemma keep_bits_ok b k : 0 <= b < 256 -> 0 <= k <= 8 -> 0 <= keep_bits b k < 256 /\ keep_bits (keep_bits b k) k = keep_bits b k.
Proof.
  intros Hb Hk. assert (C : all_range 9 (λ k, all_range 256 (λ b, (0 <=? keep_bits b k) && (keep_bits b k <? 256) &&
    (keep_bits (keep_bits b k) k =? keep_bits b k))) = true) by by vm_compute.
  apply (all_range_spec _ _) with (x := k) in C; [|lia].
  apply (all_range_spec _ _) with (x := b) in C; [|lia]. bool_hyps. lia.
Qed.

Definition mask4 (v4 : bytes) (n : Z) : bytes := zip_with Z.land v4 (mask_bytes 4 n).

Lemma mask4_spec a b c d n :
  bytes_ok [a; b; c; d] -> 0 <= n <= 32 ->
  mask4 [a; b; c; d] n = [keep_bits a (Z.max 0 (Z.min 8 n)); keep_bits b (Z.max 0 (Z.min 8 (n - 8)));
                          keep_bits c (Z.max 0 (Z.min 8 (n - 16))); keep_bits d (Z.max 0 (Z.min 8 (n - 24)))].
Proof.
  intros H Hn. repeat (apply Forall_cons in H as [? H]). unfold byte_ok in *.
  unfold mask4. cbn [mask_bytes zip_with]. rewrite !land_mask_byte by lia.
  by replace (n - 8 - 8) with (n - 16) by lia; replace (n - 16 - 8) with (n - 24) by lia.
Qed.

(** Two addresses have the same network part when their first [n] bits agree. *)
Lemma mask4_eq a b c d a' b' c' d' n :
  bytes_ok [a; b; c; d] -> bytes_ok [a'; b'; c'; d'] -> 0 <= n <= 32 ->
  mask4 [a; b; c; d] n = mask4 [a'; b'; c'; d'] n <->
  num4 [a; b; c; d] / 2 ^ (32 - n) = num4 [a'; b'; c'; d'] / 2 ^ (32 - n).
Proof.
  intros H H' Hn. rewrite !mask4_spec by done.
  repeat (apply Forall_cons in H as [? H]). repeat (apply Forall_cons in H' as [? H']). unfold byte_ok in *.
  unfold num4. cbn [foldl].
  assert (Hc : n ∈ seqZ 0 33) by (apply elem_of_seqZ; lia).
  let l := eval vm_compute in (seqZ 0 33) in change (seqZ 0 33) with l in Hc.
  assert (Hinj : forall w x y z w' x' y' z' : Z, [w; x; y; z] = [w'; x'; y'; z'] <-> w = w' /\ x = x' /\ y = y' /\ z = z')
    by naive_solver.
  rewrite Hinj. unfold keep_bits.
  repeat (apply elem_of_cons in Hc as [-> | Hc]); try (by apply elem_of_nil in Hc);
    repeat match goal with |- context [2 ^ ?e] => let v := eval vm_compute in (2 ^ e) in change (2 ^ e) with v end; zdiv.
Qed.

Lemma quad (v4 : bytes) : length v4 = 4%nat -> exists a b c d, v4 = [a; b; c; d].
Proof. intros H. destruct v4 as [|a [|b [|c [|d [|]]]]]; try done. by exists a, b, c, d. Qed.

Lemma mask4_shape v4 n : length v4 = 4%nat -> bytes_ok v4 -> 0 <= n <= 32 ->
  length (mask4 v4 n) = 4%nat /\ bytes_ok (mask4 v4 n) /\ mask4 (mask4 v4 n) n = mask4 v4 n.
Proof.
  intros Hl Hb Hn. destruct (quad v4 Hl) as (a & b & c & d & ->). rewrite (mask4_spec a b c d) by done.
  repeat (apply Forall_cons in Hb as [? Hb]).
  assert (G : forall x k, byte_ok x -> byte_ok (keep_bits x (Z.max 0 (Z.min 8 k))) /\
    keep_bits (keep_bits x (Z.max 0 (Z.min 8 k))) (Z.max 0 (Z.min 8 k)) = keep_bits x (Z.max 0 (Z.min 8 k))).
  { intros x k Hx. unfold byte_ok in *. apply keep_bits_ok; lia. }
  split_and!; [done| |].
  - repeat (apply Forall_cons_2; [by apply G|]). constructor.
  - rewrite mask4_spec; [|repeat (apply Forall_cons_2; [by apply G|]); constructor|done].
    by rewrite !(fun x k H => proj2 (G x k H)) by done.
Qed.

Lemma Itoa_digits n : 0 <= n <= 32 -> 47 ∉ Itoa n /\ dtoi (Itoa n) = Some n.
Proof.
  intros Hn. assert (C : all_range 33 (λ n, bool_decide (47 ∉ Itoa n /\ dtoi (Itoa n) = Some n)) = true) by by vm_compute.
  apply (all_range_spec _ _) with (x := n) in C; [|lia]. by apply bool_decide_eq_true in C.
Qed.

Lemma mask_bytes_not16 n : (len (mask_bytes 4 n) =? 16) = false.
Proof. done. Qed.

Lemma net4_string v4 n : length v4 = 4%nat -> bytes_ok v4 -> 0 <= n <= 32 ->
  IPNet_String (MkNet (mask4 v4 n) (mask_bytes 4 n)) = string4 (mask4 v4 n) ++ 47 :: Itoa n.
Proof.
  intros Hl Hb Hn. destruct (mask4_shape v4 n Hl Hb Hn) as (Hml & _ & _).
  unfold IPNet_String, network. cbn [net_ip net_mask].
  assert (E : To4 (mask4 v4 n) = Some (mask4 v4 n)).
  { destruct (quad _ Hml) as (a & b & c & d & ->). done. }
  rewrite E, mask_bytes_not16. unfold IP_String. rewrite E.
  by rewrite mask_length_bytes.
Qed.

(** What an address pattern and a block pattern cover, once stored. *)
Lemma covers_address q x : length q = 4%nat -> bytes_ok q -> length x = 4%nat ->
  covers (string4 q) (mapped x) = beq q x.
Proof.
  intros Hq Hb Hx. unfold covers. destruct (GoStrings.Contains (string4 q) [47]) eqn:E.
  { apply Contains_slash in E. destruct (quad q Hq) as (a & b & c & d & ->). destruct (string4_no_slash a b c d Hb E). }
  unfold ParseIP. rewrite <-IP_String_mapped, ParseIP_v4 by done. simpl. unfold IP_Equal.
  rewrite (To4_mapped x) by done.
  change (match To4 (mapped q) with Some x0 => beq x0 x | None => false end = beq q x). by rewrite To4_mapped.
Qed.

Lemma covers_block q n x : length q = 4%nat -> bytes_ok q -> length x = 4%nat -> 0 <= n <= 32 ->
  covers (string4 (mask4 q n) ++ 47 :: Itoa n) (mapped x) = beq (mask4 q n) (mask4 x n).
Proof.
  intros Hq Hb Hx Hn. destruct (mask4_shape q n Hq Hb Hn) as (Hml & Hmb & Hmm). unfold covers.
  assert (E : GoStrings.Contains (string4 (mask4 q n) ++ 47 :: Itoa n) [47] = true).
  { apply Contains_slash, elem_of_app. right. left. }
  assert (Hns : 47 ∉ string4 (mask4 q n)).
  { destruct (quad _ Hml) as (a & b & c & d & Em). rewrite Em in *. by apply string4_no_slash. }
  rewrite E. unfold ParseCIDR. rewrite IndexByte_app by done.
  rewrite take_app_length'; [|done].
  replace (drop (S (length (string4 (mask4 q n)))) (string4 (mask4 q n) ++ 47 :: Itoa n)) with (Itoa n).
  2:{ change (47 :: Itoa n) with ([47] ++ Itoa n). rewrite app_assoc. symmetry. apply drop_app_length'.
      rewrite length_app. simpl. lia. }
  rewrite <-IP_String_mapped, ParseIP_v4, (proj2 (Itoa_digits n Hn)) by done. cbv beta iota.
  rewrite (proj2 (Z.ltb_ge 32 n)) by lia. change (Z.to_nat (32 / 8)) with 4%nat. cbv zeta.
  assert (Ei : mask_ip (mapped (mask4 q n)) (mask_bytes 4 n) = mask4 q n).
  { unfold mask_ip. destruct (quad _ Hml) as (a & b & c & d & Em). rewrite Em in *.
    change ((len (mask_bytes 4 n) =? 4) && (len (mapped [a; b; c; d]) =? 16) &&
      beq (take 12 (mapped [a; b; c; d])) v4InV6Prefix) with true. cbv iota.
    change (drop 12 (mapped [a; b; c; d])) with [a; b; c; d]. exact Hmm. }
  change (v4InV6Prefix ++ mask4 q n) with (mapped (mask4 q n)). rewrite Ei.
  unfold GoNet.Contains, network. cbn [net_ip net_mask].
  assert (Et : To4 (mask4 q n) = Some (mask4 q n)) by (destruct (quad _ Hml) as (a & b & c & d & ->); done).
  rewrite Et, mask_bytes_not16. rewrite To4_mapped by done. simpl default.
  replace (len x =? len (mask4 q n)) with true by (unfold len; rewrite Hx, Hml; done).
  change (beq (mask4 (mask4 q n) n) (mask4 x n) = beq (mask4 q n) (mask4 x n)). by rewrite Hmm.
Qed.

(** The patterns of IPv4: an address, or a block of its first [n] bits. *)
Definition v4_pattern (p q : bytes) (n : Z) : Prop :=
  length q = 4%nat /\ bytes_ok q /\ 0 <= n <= 32 /\
  (GoStrings.Contains (TrimSpace p) [47] = false /\ ParseIP (TrimSpace p) = Some (mapped q) /\ n = 32 \/
   GoStrings.Contains (TrimSpace p) [47] = true /\
   ParseCIDR (TrimSpace p) = Some (mapped q, MkNet (mask4 q n) (mask_bytes 4 n))).

Lemma IsBanned_add ip r (t t' : bans) id :
  insert r t = Ok (id, t') -> bn_lifted_at r = None ->
  IsBanned ip t' = IsBanned ip t || match ParseIP (TrimSpace ip) with Some x => covers (bn_pattern r) x | None => false end.
Proof.
  intros Hi Hr. unfold IsBanned. destruct (ParseIP _) as [x|]; [|done]. unfold Bans_Active.
  rewrite (select_insert _ _ _ _ _ Hi). unfold in_force at 2. rewrite Hr. cbn [is_null].
  rewrite reverse_app, fmap_app, existsb_app. cbn. rewrite orb_false_r. apply orb_comm.
Qed.

Lemma normalize_v4 p q n : v4_pattern p q n ->
  exists canon, NormalizeBanPattern p = Some canon /\
    forall x, length x = 4%nat -> bytes_ok x ->
      covers canon (mapped x) = bool_decide (num4 x / 2 ^ (32 - n) = num4 q / 2 ^ (32 - n)).
Proof.
  intros (Hq & Hb & Hn & Hp). unfold NormalizeBanPattern. destruct (beq (TrimSpace p) []) eqn:Ee.
  { apply beq_true in Ee. rewrite Ee in Hp. by destruct Hp as [(_ & Hp & _)|(Hp & _)]. }
  assert (G : forall x, length x = 4%nat -> bytes_ok x -> beq (mask4 q n) (mask4 x n) =
    bool_decide (num4 x / 2 ^ (32 - n) = num4 q / 2 ^ (32 - n))).
  { intros x Hx Hxb. destruct (quad q Hq) as (a & b & c & d & ->), (quad x Hx) as (a' & b' & c' & d' & ->).
    unfold beq. apply bool_decide_ext. rewrite mask4_eq by done. naive_solver. }
  destruct Hp as [(Hs & Hp & ->)|(Hs & Hp)]; rewrite Hs, Hp; simpl; eexists; (split; [done|]); intros x Hx Hxb.
  - rewrite IP_String_mapped, covers_address by done. rewrite <-G by done.
    assert (M : forall y, length y = 4%nat -> bytes_ok y -> mask4 y 32 = y).
    { intros y Hy Hyb. destruct (quad y Hy) as (a & b & c & d & ->). rewrite mask4_spec by done.
      unfold keep_bits. cbn. by rewrite !Z.div_1_r, !Z.mul_1_l || (repeat f_equal; zdiv). }
    by rewrite !M.
  - by rewrite net4_string, covers_block, G.
Qed.

(** C40: A ban of an IPv4 address or block, once it is stored, refuses of the IPv4 sources
    exactly those whose first bits it names, however ban and source are spelled,
    on top of those already refused; lifting that ban restores exactly what was refused before; a
    source that does not parse is never refused. *)
Theorem ban_covers (us : users) (p reason q : bytes) (n by_ now : Z) (t t' : bans) (b : Ban)
  (Hw : wf t) (Hp : v4_pattern p q n) (Ha : Bans_Add us p reason by_ now t = (Ok b, t')) :
  (forall ip x, ParseIP (TrimSpace ip) = Some (mapped x) -> length x = 4%nat -> bytes_ok x ->
     IsBanned ip t' = IsBanned ip t || bool_decide (num4 x / 2 ^ (32 - n) = num4 q / 2 ^ (32 - n))) /\
  (forall ip w, IsBanned ip (Bans_Lift (BanID b) w t') = IsBanned ip t) /\
  (forall ip, ParseIP (TrimSpace ip) = None -> IsBanned ip t' = false).
Proof.
  destruct (normalize_v4 p q n Hp) as (canon & Hc & Hcov). unfold Bans_Add in Ha. rewrite Hc in Ha.
  destruct (match _ with Some u => _ | None => false end); [done|].
  destruct (insert _ t) as [[id t'']|] eqn:Ei; [|done]. injection Ha as Hb <-.
  assert (Hid : BanID b = id).
  { unfold Bans_byID in Hb. rewrite (row_insert _ _ _ _ Hw Ei), decide_True in Hb by done. by injection Hb as <-. }
  split_and!.
  - intros ip x Hx Hl Hxb. rewrite (IsBanned_add ip _ _ _ _ Ei eq_refl), Hx. by rewrite Hcov.
  - intros ip w. rewrite Hid. unfold IsBanned. destruct (ParseIP _) as [x|]; [|done]. f_equal.
    unfold Bans_Active. f_equal. f_equal. unfold Bans_Lift, select, update. cbn [rows fst].
    rewrite (insert_rows _ _ _ _ Ei). rewrite fmap_app, List.filter_app. cbn. rewrite Z.eqb_refl. cbn.
    rewrite app_nil_r. destruct (insert_fresh _ _ _ _ Hw Ei) as [Hf _].
    assert (Hne : forall j r, (j, r) ∈ rows t -> j <> id).
    { intros j r Hj ->. apply (in_row _ _ _ Hw) in Hj. congruence. }
    clear -Hne. induction (rows t) as [|[j r] l IH]; [done|]. cbn [fmap list_fmap List.filter fst snd].
    rewrite (proj2 (Z.eqb_neq j id)) by (eapply Hne; left). cbn [andb fst snd].
    rewrite IH; [done|]. intros k s Hk. eapply Hne. by right.
  - intros ip Hip. unfold IsBanned. by rewrite Hip.
Qed.

(** ** Witness *)

Lemma ban_covers_witness :
  exists b t', Bans_Add some_users (str " 10.1.2.3/8 ") (str "spam") 0 0 empty_table = (Ok b, t') /\
  IsBanned (str "::ffff:10.200.0.9") t' = true.
Proof.
  destruct (Bans_Add some_users (str " 10.1.2.3/8 ") (str "spam") 0 0 empty_table) as [[b|e] t'] eqn:E;
    [|by vm_compute in E].
  exists b, t'. split; [done|].
  destruct (ban_covers some_users (str " 10.1.2.3/8 ") (str "spam") [10; 1; 2; 3] 8 0 0 empty_table t' b wf_empty)
    as (P & _); [|exact E|].
  - split_and!; [done|by_decide|done|done|]. right. split; vm_compute; reflexivity.
  - rewrite (P (str "::ffff:10.200.0.9") [10; 200; 0; 9]); [|vm_compute; reflexivity|done|by_decide].
    vm_compute. reflexivity.
Defined.
