(* ===== verification/Rekey.v ===== *)
(** * Key rotation (src/store/rekey.go, src/cmd/rekey/main.go)

    Every sealed column of every table in one transaction, then the blobs of
    the file library one file at a time, then the audit trail, and last the
    salt file of the new key. *)

From S2P Require Import Prelude GoStrings GoTime Base64 Vault Sql Users Boards Mail AuditLog SessionLog.

(** The sealed columns of a table, read in order and set together. *)
Class SealedColumns (R : Type) := {
  cols : R -> list bytes;
  with_cols : list bytes -> R -> R
}.

(** [sealedColumns]. *)
#[export] Instance user_columns : SealedColumns userRow := {|
  cols r := [c_real_name r; c_email r];
  with_cols l r := match l with [name; email] => set_sealed name email r | _ => r end
|}.
#[export] Instance membership_columns : SealedColumns membershipRow := {|
  cols r := [m_note r];
  with_cols l r := match l with
    | [n] => MembershipRow (m_user_id r) (m_applied_at r) (m_reviewed_by r) (m_reviewed_at r) (m_decision r) n
    | _ => r
    end
|}.
#[export] Instance message_columns : SealedColumns messageRow := {|
  cols r := [ms_subject r; ms_body r];
  with_cols l r := match l with [s; b] => set_text s b r | _ => r end
|}.
#[export] Instance mail_columns : SealedColumns mailRow := {|
  cols r := [p_subject r; p_body r];
  with_cols l r := match l with
    | [s; b] => MailRow (p_from_id r) (p_to_id r) s b (p_sent_at r) (p_read_at r)
    | _ => r
    end
|}.
#[export] Instance log_columns : SealedColumns logRow := {|
  cols r := [s_detail r];
  with_cols l r := match l with
    | [d] => LogRow (s_session_id r) (s_username r) (s_transport r) (s_remote_ip r) (s_event_type r) (s_action r) d
               (s_minutes r) (s_at r)
    | _ => r
    end
|}.

(** The columns that are set are the columns that are read. *)
Class ColumnLaws (R : Type) `{SealedColumns R} :=
  cols_with_cols : forall args r, length args = length (cols r) -> cols (with_cols args r) = args.

#[export] Instance user_laws : ColumnLaws userRow.
Proof. intros [|? [|? []]] r E; done. Qed.
#[export] Instance membership_laws : ColumnLaws membershipRow.
Proof. intros [|? []] r E; done. Qed.
#[export] Instance message_laws : ColumnLaws messageRow.
Proof. intros [|? [|? []]] r E; done. Qed.
#[export] Instance mail_laws : ColumnLaws mailRow.
Proof. intros [|? [|? []]] r E; done. Qed.
#[export] Instance log_laws : ColumnLaws logRow.
Proof. intros [|? []] r E; done. Qed.

Record database := DB {
  db_users : users; db_memberships : table membershipRow; db_messages : messages; db_mail : mailbox;
  db_log : table logRow
}.

(** What is at a name of the library's directory, and the directory as
    [os.ReadDir] lists it. *)
Inductive entry := Subdir | Blob (content : bytes).
Inductive directory := Missing | Unreadable | Listing (l : list (bytes * entry)).

(** [filepath.Ext] of a base name: from its last dot on. *)
Fixpoint ext_loop (rev acc : bytes) : bytes :=
  match rev with
  | [] => []
  | b :: rev' => if b =? 46 then b :: acc else ext_loop rev' (b :: acc)
  end.
Definition Ext (name : bytes) : bytes := ext_loop (reverse name) [].

Section Rekey.
Context `{Crypto}.
Variables oldV newV : Vault.
(** The [k]th nonce [rand.Read] yields. *)
Variable rnd : nat -> bytes.

Definition reseal (s : bytes) (k : nat) : result err (bytes * nat) :=
  if beq s [] then Ok ([], k)
  else match RawStdDecode s with
       | None => Err ErrScan
       | Some ct =>
           match Open oldV ct with
           | Err e => Err (ErrVault e)
           | Ok plain => Ok (RawStdEncode (Seal newV (rnd k) plain), S k)
           end
       end.

Fixpoint reseal_all (vals : list bytes) (k : nat) : result err (list bytes * nat) :=
  match vals with
  | [] => Ok ([], k)
  | s :: vals' =>
      match reseal s k with
      | Err e => Err e
      | Ok (nv, k1) => match reseal_all vals' k1 with Err e => Err e | Ok (args, k2) => Ok (nv :: args, k2) end
      end
  end.

Section Table.
Context {R : Type} `{SealedColumns R}.

(** The second loop of [rekeyTable]: one UPDATE per row of the batch. *)
Fixpoint rekey_rows (batch : list (Z * list bytes)) (t : table R) (k : nat) : result err (table R * nat) :=
  match batch with
  | [] => Ok (t, k)
  | (id, vals) :: batch' =>
      match reseal_all vals k with
      | Err e => Err e
      | Ok (args, k') => rekey_rows batch' (update (by_id id) (with_cols args) t).1 k'
      end
  end.

Definition rekeyTable (t : table R) (k : nat) : result err (table R * nat) :=
  rekey_rows ((λ x, (x.1, cols x.2)) <$> rows t) t k.
End Table.

(** The transaction: the tables in the order of [sealedColumns]. *)
Definition rekey_tables (d : database) : result err (database * nat) :=
  match rekeyTable (db_users d) 0 with
  | Err e => Err e
  | Ok (us, k1) =>
  match rekeyTable (db_memberships d) k1 with
  | Err e => Err e
  | Ok (ms, k2) =>
  match rekeyTable (db_messages d) k2 with
  | Err e => Err e
  | Ok (msgs, k3) =>
  match rekeyTable (db_mail d) k3 with
  | Err e => Err e
  | Ok (pms, k4) =>
  match rekeyTable (db_log d) k4 with
  | Err e => Err e
  | Ok (lg, k5) => Ok (DB us ms msgs pms lg, k5)
  end end end end end.

(** The loop over the directory. [rd]: the file can be read; [wr]: what is left
    of the file if writing it fails. *)
Fixpoint rekey_blobs (rd : bytes -> bool) (wr : bytes -> option bytes) (l : list (bytes * entry)) (k : nat) :
    result err () * list (bytes * entry) :=
  match l with
  | [] => (Ok (), [])
  | (name, e) :: l' =>
      match e with
      | Blob sealed =>
          if beq (Ext name) (str ".bin") then
            if negb (rd name) then (Err ErrIO, l)
            else match Open oldV sealed with
                 | Err e => (Err (ErrVault e), l)
                 | Ok plain =>
                     match wr name with
                     | Some junk => (Err ErrIO, (name, Blob junk) :: l')
                     | None =>
                         let '(r, l2) := rekey_blobs rd wr l' (S k) in
                         (r, (name, Blob (Seal newV (rnd k) plain)) :: l2)
                     end
                 end
          else let '(r, l2) := rekey_blobs rd wr l' k in (r, (name, e) :: l2)
      | Subdir => let '(r, l2) := rekey_blobs rd wr l' k in (r, (name, e) :: l2)
      end
  end.

(** [commit]: the transaction commits. *)
Definition RekeyDB (commit : bool) (rd : bytes -> bool) (wr : bytes -> option bytes) (d : database) (f : directory) :
    result err () * database * directory :=
  match rekey_tables d with
  | Err e => (Err e, d, f)
  | Ok (d', k) =>
      if negb commit then (Err ErrIO, d, f)
      else match f with
           | Missing => (Ok (), d', f)
           | Unreadable => (Err ErrIO, d', f)
           | Listing l => let '(r, l') := rekey_blobs rd wr l k in (r, d', Listing l')
           end
  end.
End Rekey.

(** ** The command (src/cmd/rekey/main.go) *)

Record data := Data { dt_db : database; dt_files : directory; dt_audit : option bytes; dt_salt : option bytes }.

Inductive rekeyErr :=
  | ENoKeys | ESameKey | EReadSalt | EVault (e : vaultErr) | EDb (e : err) | EAudit (e : auditErr) | EWriteSalt.

(** What the machine does to one run: the random bytes, whether the transaction
    commits, which blobs can be read and what failed writes leave. *)
Record machine := Machine {
  new_salt : bytes; nonces : nat -> bytes; audit_nonces : list bytes; commits : bool;
  readable : bytes -> bool; torn : bytes -> option bytes; audit_written : bool; salt_torn : option (option bytes)
}.

Section Command.
Context `{Crypto}.

Definition rekey_main (m : machine) (oldSecret newSecret : bytes) (d : data) : option rekeyErr * data :=
  if beq oldSecret [] || beq newSecret [] then (Some ENoKeys, d)
  else if beq oldSecret newSecret then (Some ESameKey, d)
  else match dt_salt d with
  | None => (Some EReadSalt, d)
  | Some oldSalt =>
  match NewVault oldSecret oldSalt with
  | Err e => (Some (EVault e), d)
  | Ok oldV =>
  let newSalt := GenerateSalt (new_salt m) in
  match NewVault newSecret newSalt with
  | Err e => (Some (EVault e), d)
  | Ok newV =>
  let '(r, db', fs') := RekeyDB oldV newV (nonces m) (commits m) (readable m) (torn m) (dt_db d) (dt_files d) in
  match r with
  | Err e => (Some (EDb e), Data db' fs' (dt_audit d) (dt_salt d))
  | Ok _ =>
  let '(r, au') := Rekey (dt_audit d) oldV newV (audit_nonces m) (audit_written m) in
  match r with
  | Err e => (Some (EAudit e), Data db' fs' au' (dt_salt d))
  | Ok _ =>
  match salt_torn m with
  | Some left_ => (Some EWriteSalt, Data db' fs' au' left_)
  | None => (None, Data db' fs' au' (Some newSalt))
  end end end end end end.
End Command.

(** ** Lemmas *)

Section Laws.
Context `{CryptoLaws}.
Variables oldV newV : Vault.
Variable rnd : nat -> bytes.
Hypothesis Hrnd : forall k, nonce_ok (rnd k).

(** A column the old key opens; a column and its new form. *)
Definition opens (s : bytes) : Prop := exists p, bytes_ok p /\ open oldV s = Ok p.
Definition same_text (s s' : bytes) : Prop :=
  open newV s' = open oldV s /\ (s' = [] <-> s = []) /\ (s <> [] -> exists n p, nonce_ok n /\ bytes_ok p /\ s' = seal newV n p).

Lemma reseal_opens s k : opens s -> exists s' k', reseal oldV newV rnd s k = Ok (s', k') /\ same_text s s'.
Proof.
  intros (p & Hp & Ho). unfold reseal. pose proof Ho as Ho'. unfold open in Ho'.
  destruct (beq s []) eqn:E; [apply beq_true in E as ->; by exists [], k|].
  destruct (RawStdDecode s) as [ct|]; [|done]. rewrite Ho'. eexists _, _. split; [done|].
  change (RawStdEncode (Seal newV (rnd k) p)) with (seal newV (rnd k) p).
  split; [by rewrite open_seal, Ho|]. split; [|intros _; by exists (rnd k), p]. apply beq_false in E. split; [|done]. intros E'. exfalso.
  unfold seal in E'. apply encode_raw_nil, (f_equal length) in E'.
  unfold Seal in E'. rewrite length_app, (proj1 (Hrnd k)) in E'. done.
Qed.

Lemma reseal_all_opens l k :
  Forall opens l -> exists l' k', reseal_all oldV newV rnd l k = Ok (l', k') /\ Forall2 same_text l l'.
Proof.
  intros Hl. revert k. induction Hl as [|s l Hs _ IH]; intros k; [by exists [], k|]. cbn [reseal_all].
  destruct (reseal_opens s k Hs) as (s' & k1 & -> & Ht). destruct (IH k1) as (l' & k2 & -> & Hf).
  eexists _, _. split; [done|]. by constructor.
Qed.

Section Tables.
Context {R : Type} `{SealedColumns R}.

Definition rekeyed_row (x y : Z * R) : Prop :=
  y.1 = x.1 /\ exists args, Forall2 same_text (cols x.2) args /\ y.2 = with_cols args x.2.

Definition rekeyed (t t' : table R) : Prop := seq t' = seq t /\ Forall2 rekeyed_row (rows t) (rows t').

Definition table_opens (t : table R) : Prop := wf t /\ Forall (λ x, Forall opens (cols x.2)) (rows t).

Lemma update_absent (l : list (Z * R)) id f :
  id ∉ l.*1 -> (λ x, if by_id id x.1 x.2 then (x.1, f x.2) else x) <$> l = l.
Proof.
  induction l as [|[i r] l IH]; [done|]. rewrite !fmap_cons, not_elem_of_cons. intros [Hi Hl]. cbn in Hi.
  rewrite IH by done. unfold by_id. simpl. by rewrite (proj2 (Z.eqb_neq i id)) by congruence.
Qed.

Lemma update_at (l1 l2 : list (Z * R)) id r f s :
  NoDup ((l1 ++ (id, r) :: l2).*1) ->
  (update (by_id id) f (Table (l1 ++ (id, r) :: l2) s)).1 = Table (l1 ++ (id, f r) :: l2) s.
Proof.
  rewrite fmap_app, NoDup_app, fmap_cons, NoDup_cons. intros (_ & Hd & Hl2 & _). unfold update. cbn [fst rows seq].
  rewrite fmap_app, fmap_cons, !update_absent; [|done|].
  - unfold by_id. simpl. by rewrite Z.eqb_refl.
  - intros Hi. apply (Hd _ Hi). left.
Qed.

Lemma rekey_rows_spec (todo done_ : list (Z * R)) s k :
  NoDup ((done_ ++ todo).*1) -> Forall (λ x, Forall opens (cols x.2)) todo ->
  exists todo' k', rekey_rows oldV newV rnd ((λ x, (x.1, cols x.2)) <$> todo) (Table (done_ ++ todo) s) k =
                     Ok (Table (done_ ++ todo') s, k') /\ Forall2 rekeyed_row todo todo'.
Proof.
  intros Hn Hf. revert done_ k Hn. induction Hf as [|[id r] todo Hr _ IH]; intros done_ k Hn.
  { by exists [], k. }
  rewrite fmap_cons. cbn [rekey_rows fst snd]. destruct (reseal_all_opens (cols r) k Hr) as (args & k1 & -> & Ha).
  rewrite update_at by done. rewrite cons_middle, app_assoc in Hn |- *.
  destruct (IH (done_ ++ [(id, with_cols args r)]) k1) as (todo' & k2 & E & Hf).
  { rewrite !fmap_app in *. exact Hn. }
  eexists _, k2. rewrite E, <-app_assoc. split; [done|]. constructor; [|done]. split; [done|]. by exists args.
Qed.

Lemma rekeyTable_spec (t : table R) k :
  table_opens t -> exists t' k', rekeyTable oldV newV rnd t k = Ok (t', k') /\ rekeyed t t'.
Proof.
  intros [Hw Hf]. unfold rekeyTable. destruct t as [l s].
  destruct (rekey_rows_spec l [] s k) as (l' & k' & E & Hl); [by apply NoDup_sorted, Hw|done|].
  by exists (Table l' s), k'.
Qed.

(** No column with text in it opens under the old key. *)
Definition shut (t : table R) : Prop := Forall (λ x, Forall (λ s, s <> [] -> is_Ok (open oldV s) = false) (cols x.2)) (rows t).

(** The old key rejects what the new one seals. *)
Definition rejects : Prop := forall n p, aead_open (aead oldV) n (aead_seal (aead newV) n p) = None.

Lemma open_rejected n p : rejects -> nonce_ok n -> bytes_ok p -> open oldV (seal newV n p) = Err ErrOpen.
Proof.
  intros Hj [Hn Hb] Hp. unfold open, seal. destruct (beq _ []) eqn:E.
  { apply beq_true, encode_raw_nil, (f_equal length) in E. unfold Seal in E. by rewrite length_app, Hn in E. }
  rewrite RawStd_roundtrip by by apply Seal_ok. unfold Open, Seal. rewrite length_app, Hn.
  replace (_ <? NonceSize)%nat with false by (symmetry; apply Nat.ltb_ge; lia).
  by rewrite take_app_length', drop_app_length', Hj.
Qed.

Lemma rekeyed_shut `{!ColumnLaws R} t t' : rejects -> rekeyed t t' -> shut t'.
Proof.
  intros Hj [_ Hf]. unfold shut. induction Hf as [|x y l l' (_ & args & Ha & Ey) _ IH]; constructor; [|done].
  rewrite Ey, cols_with_cols by (symmetry; by eapply Forall2_length).
  clear Ey. induction Ha as [|s s' ss ss' (_ & Hnil & Hs) _ IHa]; [constructor|]. constructor; [|exact IHa].
  intros Hne. destruct Hs as (n & p & Hn & Hp & ->); [naive_solver|]. by rewrite open_rejected.
Qed.

(** A query that does not look at the sealed columns selects the same rows. *)
Lemma select_rekeyed (p : Z -> R -> bool) t t' :
  (forall i args r, p i (with_cols args r) = p i r) -> rekeyed t t' ->
  Forall2 rekeyed_row (select p t) (select p t').
Proof.
  intros Hp [_ Hf]. unfold select. induction Hf as [|x y l l' Hxy _ IH]; [constructor|]. cbn [List.filter].
  assert (E : p y.1 y.2 = p x.1 x.2) by (destruct Hxy as [-> (args & _ & ->)]; apply Hp).
  rewrite E. destruct (p x.1 x.2); [by constructor|done].
Qed.

Lemma row_rekeyed t t' id : rekeyed t t' -> option_Forall2 (λ r r', rekeyed_row (id, r) (id, r')) (row id t) (row id t').
Proof.
  intros Hr. unfold row.
  pose proof (select_rekeyed (λ i _, i =? id) t t' (λ _ _ _, eq_refl) Hr) as Hf.
  destruct Hf as [|[i r] [i' r'] l l' (E & args & Ha & E') _]; constructor. by split; [|exists args].
Qed.
End Tables.
End Laws.

(** Loops over related rows that scan to the same values. *)
Lemma mapR_related {E A B C} (P : A -> B -> Prop) (f : A -> result E C) (g : B -> result E C) l l' :
  Forall2 P l l' -> (forall x y, P x y -> g y = f x) -> mapR g l' = mapR f l.
Proof. intros Hf Hp. induction Hf as [|x y l l' Hxy _ IH]; [done|]. simpl. by rewrite (Hp x y Hxy), IH. Qed.

(** ** What the rest of the server reads *)

Section Reads.
Context `{CryptoLaws}.
Variables oldV newV : Vault.

Record database_opens (d : database) : Prop := {
  do_users : table_opens oldV (db_users d); do_memberships : table_opens oldV (db_memberships d);
  do_messages : table_opens oldV (db_messages d); do_mail : table_opens oldV (db_mail d);
  do_log : table_opens oldV (db_log d)
}.

(** What the old vault still reads: nothing but empty columns. *)
Record locked_out (d : database) : Prop := {
  lo_users : shut oldV (db_users d); lo_memberships : shut oldV (db_memberships d); lo_messages : shut oldV (db_messages d);
  lo_mail : shut oldV (db_mail d); lo_log : shut oldV (db_log d)
}.

(** The blobs the rotation takes open. *)
Definition blob_opens (x : bytes * entry) : Prop :=
  match x.2 with Blob s => Ext x.1 = str ".bin" -> exists p, Open oldV s = Ok p | Subdir => True end.

(** The repositories answer the same with the new vault as they did with the old. *)
Record reads_alike (d d' : database) : Prop := {
  ra_user id : Users_ByID newV id (db_users d') = Users_ByID oldV id (db_users d);
  ra_handle h : Users_ByHandle newV h (db_users d') = Users_ByHandle oldV h (db_users d);
  ra_pending : Memberships_Pending newV (db_memberships d') = Memberships_Pending oldV (db_memberships d);
  ra_thread a : Messages_Thread newV a (db_messages d') = Messages_Thread oldV a (db_messages d);
  ra_message id : Messages_ByID newV id (db_messages d') = Messages_ByID oldV id (db_messages d);
  ra_inbox u : Mail_Inbox newV u (db_mail d') = Mail_Inbox oldV u (db_mail d);
  ra_mail id u now : (Mail_Get newV id u now (db_mail d')).1 = (Mail_Get oldV id u now (db_mail d)).1;
  ra_log n o : SessionLog_Page newV n o (db_log d') = SessionLog_Page oldV n o (db_log d)
}.

Definition blob_alike (x y : bytes * entry) : Prop :=
  y.1 = x.1 /\ match x.2, y.2 with
  | Blob s, Blob s' => if beq (Ext x.1) (str ".bin") then Open newV s' = Open oldV s else s' = s
  | Subdir, Subdir => True
  | _, _ => False
  end.

(** A scan opens the columns in turn, and they open alike. *)
Ltac scan_alike :=
  let i := fresh in let args := fresh in let Ha := fresh in
  match goal with |- rekeyed_row _ _ ?x ?y -> _ => destruct x, y; intros (i & args & Ha & ?) end;
  simpl in *; subst;
  repeat match goal with
  | Hf : Forall2 _ (_ :: _) _ |- _ => apply Forall2_cons_inv_l in Hf as (? & ? & [? _] & ? & ->)
  | Hf : Forall2 _ [] _ |- _ => apply Forall2_nil_inv_l in Hf as ->
  end;
  simpl; repeat match goal with Ho : open newV _ = _ |- _ => rewrite Ho; clear Ho end; done.

Lemma user_scan_alike (x y : Z * userRow) :
  rekeyed_row oldV newV x y -> Users_scan newV y.1 y.2 = Users_scan oldV x.1 x.2.
Proof. unfold Users_scan. scan_alike. Qed.

Lemma membership_scan_alike (x y : Z * membershipRow) :
  rekeyed_row oldV newV x y -> Memberships_scan newV y.1 y.2 = Memberships_scan oldV x.1 x.2.
Proof. unfold Memberships_scan. scan_alike. Qed.

Lemma message_scan_alike (x y : Z * messageRow) :
  rekeyed_row oldV newV x y -> Messages_scan newV y = Messages_scan oldV x.
Proof. unfold Messages_scan. scan_alike. Qed.

Lemma mail_scan_alike (x y : Z * mailRow) : rekeyed_row oldV newV x y -> Mail_scan newV y = Mail_scan oldV x.
Proof. unfold Mail_scan. scan_alike. Qed.

Lemma log_scan_alike (x y : Z * logRow) : rekeyed_row oldV newV x y -> SessionLog_scan newV y = SessionLog_scan oldV x.
Proof. unfold SessionLog_scan. scan_alike. Qed.

Record db_rekeyed (d d' : database) : Prop := {
  dr_users : rekeyed oldV newV (db_users d) (db_users d');
  dr_memberships : rekeyed oldV newV (db_memberships d) (db_memberships d');
  dr_messages : rekeyed oldV newV (db_messages d) (db_messages d');
  dr_mail : rekeyed oldV newV (db_mail d) (db_mail d');
  dr_log : rekeyed oldV newV (db_log d) (db_log d')
}.

Lemma rekey_tables_spec rnd d :
  (forall k, nonce_ok (rnd k)) -> database_opens d ->
  exists d' k, rekey_tables oldV newV rnd d = Ok (d', k) /\ db_rekeyed d d'.
Proof.
  intros Hrnd [H1 H2 H3 H4 H5]. unfold rekey_tables.
  destruct (rekeyTable_spec oldV newV rnd Hrnd _ 0 H1) as (us & k1 & -> & R1).
  destruct (rekeyTable_spec oldV newV rnd Hrnd _ k1 H2) as (ms & k2 & -> & R2).
  destruct (rekeyTable_spec oldV newV rnd Hrnd _ k2 H3) as (msgs & k3 & -> & R3).
  destruct (rekeyTable_spec oldV newV rnd Hrnd _ k3 H4) as (pms & k4 & -> & R4).
  destruct (rekeyTable_spec oldV newV rnd Hrnd _ k4 H5) as (lg & k5 & -> & R5).
  eexists _, k5. by split.
Qed.

Lemma rekeyed_locked d d' : rejects oldV newV -> db_rekeyed d d' -> locked_out d'.
Proof. intros Hj [R1 R2 R3 R4 R5]. split; (eapply rekeyed_shut; [exact _|exact Hj|eassumption]). Qed.

Lemma first_user_alike l l' :
  Forall2 (rekeyed_row oldV newV) l l' -> first_user newV l' = first_user oldV l.
Proof.
  intros Hf. destruct Hf as [|[i r] [j s] l l' Hr _]; [done|]. by apply (user_scan_alike (i, r) (j, s)).
Qed.

Lemma by_id_alike {R C} `{SealedColumns R} (f g : Z * R -> result err C) e t t' id :
  rekeyed oldV newV t t' -> (forall x y, rekeyed_row oldV newV x y -> g y = f x) ->
  match row id t' with None => Err e | Some r => g (id, r) end = match row id t with None => Err e | Some r => f (id, r) end.
Proof. intros Hr Hs. destruct (row_rekeyed oldV newV t t' id Hr) as [r r' Hrr|]; [by apply Hs|done]. Qed.

Lemma Mail_Get_scan v id u now t :
  (Mail_Get v id u now t).1 =
  match row id t with
  | None => Err ErrNotFound
  | Some r => match Mail_scan v (id, r) with
              | Err e => Err e
              | Ok m => if negb (ToID m =? u) && negb (FromID m =? u) then Err ErrNotFound
                        else if (ToID m =? u) && is_null (ReadAt m) then Ok (with_read now m) else Ok m
              end
  end.
Proof. unfold Mail_Get. repeat (go_case; try done). Qed.

Lemma rekeyed_reads d d' : db_rekeyed d d' -> reads_alike d d'.
Proof.
  intros [R1 R2 R3 R4 R5]. split; intros.
  - by apply first_user_alike, select_rekeyed.
  - apply first_user_alike, select_rekeyed; [|done]. by intros i [|a [|b [|]]] r.
  - eapply mapR_related; [|apply membership_scan_alike]. apply select_rekeyed; [|done]. by intros i [|a [|]] r.
  - eapply mapR_related; [|apply message_scan_alike]. apply select_rekeyed; [|done]. by intros i [|b [|c [|]]] r.
  - unfold Messages_ByID. apply by_id_alike; [done|apply message_scan_alike].
  - eapply mapR_related; [|apply mail_scan_alike]. apply Forall2_reverse, select_rekeyed; [|done].
    by intros i [|b [|c [|]]] r.
  - rewrite !Mail_Get_scan. apply (by_id_alike
      (λ x, match Mail_scan oldV x with Err e => Err e | Ok m => _ end)
      (λ x, match Mail_scan newV x with Err e => Err e | Ok m => _ end)); [done|].
    intros x y Hxy. by rewrite (mail_scan_alike x y Hxy).
  - eapply mapR_related; [|apply log_scan_alike]. apply Forall2_take, Forall2_drop, Forall2_reverse, R5.
Qed.

Lemma rekey_blobs_spec rnd rd wr l k :
  (forall k, nonce_ok (rnd k)) -> (forall x, rd x = true) -> (forall x, wr x = None) -> Forall blob_opens l ->
  exists l', rekey_blobs oldV newV rnd rd wr l k = (Ok (), l') /\ Forall2 blob_alike l l'.
Proof.
  intros Hrnd Hrd Hwr Hl. revert k. induction Hl as [|[name e] l Hx _ IH]; intros k; [by exists []|].
  cbn [rekey_blobs]. destruct e as [|s].
  { destruct (IH k) as (l' & -> & Hf). eexists. split; [done|]. by constructor. }
  destruct (beq (Ext name) (str ".bin")) eqn:Ee.
  - rewrite Hrd, Hwr. destruct Hx as [p Hp]; [by apply beq_true|]. rewrite Hp. cbn [negb].
    destruct (IH (S k)) as (l' & -> & Hf). eexists. split; [done|]. constructor; [|done].
    split; [done|]. cbn [fst snd]. rewrite Ee, Hp. by apply Open_Seal, Hrnd.
  - destruct (IH k) as (l' & -> & Hf). eexists. split; [done|]. constructor; [|done].
    split; [done|]. cbn [fst snd]. by rewrite Ee.
Qed.
End Reads.

(** ** The command *)

Section CommandSpec.
Context `{CryptoLaws, EventJson}.

(** A data directory of [oldV] and a machine on which nothing fails. *)
Record healthy (oldV newV : Vault) (m : machine) (d : data) (l : list (bytes * entry)) (es : list Event) : Prop := {
  he_db : database_opens oldV (dt_db d);
  he_files : dt_files d = Listing l;
  he_blobs : Forall (blob_opens oldV) l;
  he_audit : exists xs, Forall3 (opens_as oldV newV) (audit_nonces m) xs es /\ xs <> [] /\
               dt_audit d = Some (text_of ((λ x, line x.1 x.2) <$> xs));
  he_nonces : forall k, nonce_ok (nonces m k);
  he_run : commits m = true /\ (forall x, readable m x = true) /\ (forall x, torn m x = None) /\
           audit_written m = true /\ salt_torn m = None
}.

(** C22: a rotation that nothing interrupts succeeds, and a server restarted with
    the new secret on the directory it leaves reads what the old one read: the
    salt file yields the new vault, under which every repository answers as
    before, every blob opens to the same content and the audit trail verifies
    and holds the same events. *)
Theorem rekey_restart (m : machine) (os ns s0 rnd : bytes) (wr : bool) (oldV newV : Vault) (d : data)
  (l : list (bytes * entry)) (es : list Event)
  (Hs : dt_salt d = Some s0) (Ho : NewVault os s0 = Ok oldV) (Hn : NewVault ns (new_salt m) = Ok newV)
  (Hd : os <> ns) (Hh : healthy oldV newV m d l es) :
  exists d' l', rekey_main m os ns d = (None, d') /\
  LoadOrCreateSalt (dt_salt d') rnd wr = (Ok (new_salt m), dt_salt d') /\
  reads_alike oldV newV (dt_db d) (dt_db d') /\
  dt_files d' = Listing l' /\ Forall2 (blob_alike oldV newV) l l' /\
  ReadAll (dt_audit d') newV = (es, None).
Proof.
  destruct Hh as [Hdb Hfs Hbl (xs & Hxs & Hne & Hau) Hk (Hc & Hrd & Htn & Haw & Hst)].
  destruct (rekey_tables_spec oldV newV (nonces m) _ Hk Hdb) as (db' & k & Et & Hdr).
  destruct (rekey_blobs_spec oldV newV (nonces m) _ _ l k Hk Hrd Htn Hbl) as (l' & Eb & Hbl').
  destruct (Rekey_run oldV newV _ xs es Hxs Hne) as (f & Ef & Hf).
  assert (Hsalt : os <> [] /\ ns <> [] /\ len (new_salt m) = saltLen).
  { unfold NewVault in *. split_and!; [by intros -> | by intros -> |].
    destruct (len ns =? 0); [done|]. destruct (len (new_salt m) =? saltLen) eqn:E; [|done]. by apply Z.eqb_eq. }
  destruct Hsalt as (H1' & H2' & H3'). apply beq_false in H1', H2', Hd.
  unfold rekey_main. rewrite H1', H2', Hd, Hs, Ho. cbn [orb]. unfold GenerateSalt. rewrite Hn. unfold RekeyDB.
  rewrite Et, Hc, Hfs, Eb, Hau, Ef, Haw, Hst. cbn [negb].
  eexists _, l'. split; [done|]. cbn [dt_salt dt_db dt_files dt_audit].
  split_and!; [|by apply rekeyed_reads|done|done|done].
  unfold LoadOrCreateSalt. by rewrite H3'.
Qed.

(** C23: the command stops at a failure of its database step with the salt and
    the audit trail as they were, and before the commit nothing at all has
    changed; but once the transaction has committed, a blob that cannot be read,
    opened or written, or a library that cannot be listed, leaves a database that
    answers under the new vault what it answered under the old one, while the salt
    file still holds the salt of the old vault; and if the cipher rejects under
    the old key what was sealed under the new one, the vault a server makes from
    the old secret and that file opens no column that has any text. *)
Theorem rekey_commits_first (m : machine) (os ns s0 : bytes) (oldV newV : Vault) (d d' : data) (e : err)
  (Hs : dt_salt d = Some s0) (Ho : NewVault os s0 = Ok oldV) (Hn : NewVault ns (new_salt m) = Ok newV)
  (Hk : forall k, nonce_ok (nonces m k)) (Hr : rekey_main m os ns d = (Some (EDb e), d')) :
  dt_salt d' = Some s0 /\ dt_audit d' = dt_audit d /\
  (commits m = false -> d' = d) /\
  (commits m = true -> database_opens oldV (dt_db d) ->
     reads_alike oldV newV (dt_db d) (dt_db d') /\ (rejects oldV newV -> locked_out oldV (dt_db d'))).
Proof.
  unfold rekey_main in Hr. rewrite Hs, Ho in Hr. unfold GenerateSalt in Hr. rewrite Hn in Hr.
  destruct (beq os [] || beq ns []); [done|]. destruct (beq os ns); [done|].
  destruct (RekeyDB _ _ _ _ _ _ _ _) as [[[[]|e'] db'] fs'] eqn:E.
  { destruct (Rekey _ _ _ _ _) as [[?|?] ?]; [|done]. by destruct (salt_torn m). }
  injection Hr as -> <-. cbn [dt_salt dt_audit dt_db]. split_and!; [done|done|..].
  - intros Hc. unfold RekeyDB in E. rewrite Hc in E.
    destruct (rekey_tables _ _ _ _) as [[db2 k]|e2]; injection E as _ <- <-; rewrite <-Hs; by destruct d.
  - intros Hc Hdb. destruct (rekey_tables_spec oldV newV (nonces m) _ Hk Hdb) as (db2 & k & Et & Hdr).
    assert (db' = db2) as ->.
    { unfold RekeyDB in E. rewrite Et, Hc in E. cbn [negb] in E. destruct (dt_files d); [done|by injection E as _ <- _|].
      destruct (rekey_blobs _ _ _ _ _ _ _). by injection E as _ <- _. }
    split; [by apply rekeyed_reads|]. intros Hj. by eapply rekeyed_locked.
Qed.
End CommandSpec.

(** ** Witnesses *)

Definition old_vault : Vault := {| aead := @argon2id toy (str "old") (replicate 16 1) 3 65536 4 32;
  key := Some (@argon2id toy (str "old") (replicate 16 1) 3 65536 4 32);
  macKey := Sha256.HMAC (@argon2id toy (str "old") (replicate 16 1) 3 65536 4 32) (str "admiralbbs/audit-mac/v1") |}.
Definition new_vault : Vault := {| aead := @argon2id toy (str "new") (replicate 16 2) 3 65536 4 32;
  key := Some (@argon2id toy (str "new") (replicate 16 2) 3 65536 4 32);
  macKey := Sha256.HMAC (@argon2id toy (str "new") (replicate 16 2) 3 65536 4 32) (str "admiralbbs/audit-mac/v1") |}.

(** The toy cipher rejects what a key that differs sealed. *)
Lemma toy_other k k' n p : take (length k) (toy_byte <$> k') <> (toy_byte <$> k) -> (length k <= length k')%nat ->
  @aead_open toy k n (@aead_seal toy k' n p) = None.
Proof.
  intros Hne Hl. cbn. unfold toy_open, toy_seal. rewrite take_app_le by by rewrite length_fmap.
  destruct (beq _ _) eqn:E; [|done]. by apply beq_true in E.
Qed.

(** One letter, one blob, one event. *)
Definition demo_db : database :=
  DB empty_table empty_table empty_table
     (Table [(1, MailRow 1 2 (seal (H := toy) old_vault toy_nonce (str "hi")) [] [] None)] 1) empty_table.
Definition demo_trail : list (bytes * bytes) := [(Seal (H := toy) old_vault toy_nonce (str "a"), [1])].
Definition demo_data : data :=
  Data demo_db (Listing [(str "1.bin", Blob (Seal (H := toy) old_vault toy_nonce (str "blob")))])
       (Some (text_of ((λ x, line x.1 x.2) <$> demo_trail))) (Some (replicate 16 1)).
Definition demo_machine (readable_ : bool) : machine :=
  Machine (replicate 16 2) (λ _, toy_nonce) [toy_nonce] true (λ _, readable_) (λ _, None) true None.

Lemma demo_db_opens : @database_opens toy old_vault demo_db.
Proof.
  assert (G : forall R (c : SealedColumns R), @table_opens toy old_vault R c empty_table) by (split; [apply wf_empty|constructor]).
  split; try apply G. split; [by apply (wf_insert (MailRow 1 2 (seal (H := toy) old_vault toy_nonce (str "hi")) [] [] None)
    empty_table 1); [apply wf_empty|]|].
  apply Forall_cons_2; [|constructor]. repeat (apply Forall_cons_2 || apply Forall_nil_2).
  - exists (str "hi"). split; [apply str_ok|]. by apply (open_seal (H0 := toy_laws)); by_decide || apply str_ok.
  - by exists [].
Qed.

Lemma rekey_restart_witness :
  exists d', rekey_main (H := toy) (demo_machine true) (str "old") (str "new") demo_data = (None, d') /\
  ReadAll (H := toy) (H0 := toy_json) (dt_audit d') new_vault = ([toy_event (str "a")], None).
Proof.
  destruct (rekey_restart (H := toy) (H0 := toy_laws) (H1 := toy_json) (demo_machine true) (str "old") (str "new")
    (replicate 16 1) [] true old_vault new_vault demo_data
    [(str "1.bin", Blob (Seal (H := toy) old_vault toy_nonce (str "blob")))] [toy_event (str "a")]
    eq_refl eq_refl eq_refl) as (d' & l' & E & _ & _ & _ & _ & R); [by_decide| |exists d'; exact (conj E R)].
  split; [apply demo_db_opens|reflexivity| | |intros; by_decide|by repeat split].
  - apply Forall_cons_2; [|constructor]. intros _. exists (str "blob"). by vm_compute.
  - exists demo_trail. split_and!; [|done|done]. constructor; [|constructor].
    split_and!; [by_decide|by_decide|done|by_decide|].
    exists (str "a"). split_and!; [by vm_compute|apply str_ok|done|vm_compute; reflexivity].
Defined.

(** The blob cannot be read: the letter is lost to the old secret. *)
Lemma rekey_commits_first_witness :
  exists d', rekey_main (H := toy) (demo_machine false) (str "old") (str "new") demo_data
    = (Some (EDb ErrIO), d') /\ dt_salt d' = Some (replicate 16 1) /\
  Messages_ByID (H := toy) new_vault 1 (db_messages (dt_db d')) = Err ErrNotFound /\
  is_Ok (Mail_Inbox (H := toy) new_vault 2 (db_mail (dt_db d'))) = true /\
  locked_out (H := toy) old_vault (dt_db d') /\ (exists r, (1, r) ∈ rows (db_mail (dt_db d')) /\ cols r <> [[]; []]).
Proof.
  destruct (rekey_main (H := toy) (demo_machine false) (str "old") (str "new") demo_data) as [o d'] eqn:E.
  assert (Eo : o = Some (EDb ErrIO)) by (change o with (o, d').1; rewrite <-E; vm_compute; reflexivity).
  destruct (rekey_commits_first (H := toy) (H0 := toy_laws) (demo_machine false) (str "old") (str "new")
    (replicate 16 1) old_vault new_vault demo_data d' ErrIO eq_refl eq_refl eq_refl) as (S & _ & _ & R).
  { intros k. by_decide. }
  { rewrite E, Eo. reflexivity. }
  exists d'. split; [rewrite Eo; reflexivity|]. split; [exact S|]. destruct (R eq_refl demo_db_opens) as [[_ _ _ _ Rm Ri _ _] L].
  rewrite Rm, Ri. split_and!; [vm_compute; reflexivity|vm_compute; reflexivity|apply L|].
  - intros n p. apply toy_other; vm_compute; [discriminate|lia].
  - change d' with (o, d').2. rewrite <-E. eexists. split; [left|vm_compute; discriminate].
Defined.
