(* ===== verification/Login.v ===== *)
(** * Getting in (src/menu/login.go; the authenticator of src/cmd/admiralbbs/main.go)

    The first factor, a registered key of an approved handle, and the second, the
    password or the one-time token of a first login.  The world is the caller's
    session, the tables the login touches, the events of the audit trail and a
    clock that is read once per tick. *)

From S2P Require Import Prelude GoStrings Base64 GoTime Vault Sql Users Credentials Input Screen Terminal AuditLog.

Definition minPasswordLen : Z := 8.
Definition genericLoginFail : bytes := str "login failed".

(** What a [session.Session] knows of its caller. *)
Record caller := Caller {
  cl_id : bytes; cl_ip : bytes; cl_transport : bytes; cl_username : bytes; cl_cap : Capability; cl_colorblind : bool
}.

Record world := World {
  w_session : session; w_users : users; w_tokens : table tokenRow; w_anomalies : table anomalyRow;
  w_log : list Event; w_tick : nat
}.

Inductive outcome := Granted (u : User) | Refused | Panicked.

Definition with_session (s : session) (w : world) : world :=
  World s (w_users w) (w_tokens w) (w_anomalies w) (w_log w) (w_tick w).
Definition with_users (t : users) (w : world) : world :=
  World (w_session w) t (w_tokens w) (w_anomalies w) (w_log w) (w_tick w).
Definition with_tokens (t : table tokenRow) (w : world) : world :=
  World (w_session w) (w_users w) t (w_anomalies w) (w_log w) (w_tick w).
Definition with_anomalies (t : table anomalyRow) (w : world) : world :=
  World (w_session w) (w_users w) (w_tokens w) t (w_log w) (w_tick w).
Definition with_hash (h : bytes) (u : User) : User :=
  MkUser (ID u) (Handle u) h (RealName u) (Email u) (AccessLevel u) (Status u) (DailyMinutes u) (Points u)
    (Colorblind u) (CreatedAt u) (LastLoginAt u).

(** Reading the caller. *)
Definition readLine (w : world) : option bytes * world :=
  let '(r, s) := ReadLine (w_session w) in (r, with_session s w).
Definition readPassword (w : world) : option bytes * world :=
  let '(r, s) := ReadPassword (w_session w) in (r, with_session s w).

(** [w.Color(screen.Green); w.Print(text); w.Reset()] *)
Definition prompt (text : bytes) (s : Writer) : Writer := Reset (Print text (Color Green s)).

Section Login.
Context `{Crypto, SshKeys}.
Variable v : Vault.
Variable c : caller.
Variable clock : nat -> Z.
(** The salt of a new password hash. *)
Variable salt : bytes.

(** A [screen.Writer] on the session. *)
Definition draw (f : Writer -> Writer) (w : world) : world :=
  with_session (emit (out (f (Screen.New (ANSI (cl_cap c)) (Terminal.Cols (cl_cap c)) (Some (cl_colorblind c)))))
                     (w_session w)) w.

Definition now (w : world) : Z := clock (w_tick w).
Definition tick (w : world) : world :=
  World (w_session w) (w_users w) (w_tokens w) (w_anomalies w) (w_log w) (S (w_tick w)).

(** [Session.Activity]. *)
Definition Activity (action detail : bytes) (w : world) : world :=
  let e := MkEvent (now w) TypeActivity (cl_id c) (cl_ip c) (cl_transport c) (cl_username c) action detail 0 in
  tick (World (w_session w) (w_users w) (w_tokens w) (w_anomalies w) (w_log w ++ [e]) (w_tick w)).

(** The SSH authenticator of [main]. *)
Definition authenticator (username key : bytes) (us : users) (ks : table keyRow) : bool :=
  match Users_ByHandle v username us with
  | Err _ => false
  | Ok u => beq (Status u) StatusApproved && Keys_Authorizes (ID u) key ks
  end.

Definition refused_line (text : bytes) (w : world) : outcome * world := (Refused, draw (ColorLine Red text) w).

(** The second half of [onboard], from the redeemed token on. *)
Definition set_first_password (u : User) (w : world) : outcome * world :=
  let w := draw (λ s, prompt (str "New password: ")
    (Line (str "Set your password (min 8 chars). It is never sent in the clear again.") (Print CRLF s))) w in
  match readPassword w with
  | (None, w) => (Refused, w)
  | (Some p1, w) =>
  match readPassword (draw (prompt (str "Confirm password: ")) w) with
  | (None, w) => (Refused, w)
  | (Some p2, w) =>
      if negb (beq p1 p2) || (len p1 <? minPasswordLen)
      then refused_line (str "passwords did not match or were too short") w
      else
        let hash := HashPassword p1 salt in
        let w := with_users (Users_SetPassword (ID u) hash (w_users w)) w in
        let w := tick (with_users (Users_TouchLogin (ID u) (now w) (w_users w)) w) in
        let w := draw (ColorLine Cyan (str "Password set. Welcome aboard!")) (Activity (str "onboarded") [] w) in
        (Granted (with_hash hash u), w)
  end end.

Definition onboard (u : User) (w : world) : outcome * world :=
  let w := draw (λ s, prompt (str "Token: ") (Line (str "Enter the one-time token your SysOp sent you.")
    (ColorLine Cyan (str "Welcome, " ++ Handle u ++ str " — first login.") (Clear s)))) w in
  match readLine w with
  | (None, w) => (Refused, w)
  | (Some tok, w) =>
  let '(r, t) := Tokens_Redeem (ID u) (TrimSpace tok) (now w) (w_tokens w) in
  let w := tick (with_tokens t w) in
  match r with
  | Err _ =>
      (Refused, Activity (str "onboard-failed") (str "bad token")
                  (draw (ColorLine Red (str "invalid or expired token")) w))
  | Ok _ => set_first_password u w
  end end.

(** A correct password. *)
Definition enter (u : User) (w : world) : world :=
  let '(r, us, an) := Users_RecordLogin (ID u) (cl_ip c) (now w) (w_users w) (w_anomalies w) in
  let w := tick (with_anomalies an (with_users us w)) in
  match r with
  | Ok true => Activity (str "login") (str "ok (rapid-ip-change flagged)") w
  | _ => Activity (str "login") (str "ok") w
  end.

(** The loop of [verify] with [attempts] left; the back-off between attempts is
    not observable here. *)
Fixpoint verify_loop (attempts : nat) (u : User) (w : world) : outcome * world :=
  match attempts with
  | O => (Refused, w)
  | S n =>
  match readPassword (draw (prompt (str "Password: ")) w) with
  | (None, w) => (Refused, w)
  | (Some pw, w) =>
  match VerifyPassword (PasswordHash u) pw with
  | VPanic => (Panicked, w)
  | VOk true => (Granted u, enter u w)
  | _ => verify_loop n u (draw (ColorLine Red genericLoginFail) (Activity (str "login-failed") [] w))
  end end end.

Definition verify (u : User) (w : world) : outcome * world := verify_loop 3 u w.

Definition RunLogin (w : world) : outcome * world :=
  match Users_ByHandle v (cl_username c) (w_users w) with
  | Err _ => refused_line genericLoginFail w
  | Ok u =>
      if negb (beq (Status u) StatusApproved) then refused_line genericLoginFail w
      else if beq (PasswordHash u) [] then onboard u w
      else verify u w
  end.
End Login.

(** ** Lemmas *)

(** The caller, with [i] still to send, sends [p] as a line, escapes and editing
    keys resolved. *)
Definition typed (i p : bytes) : Prop := exists j, j `suffix_of` i /\ edited [] (plain j) = Some p.

(** Lines typed plainly, each ended by the return key. *)
Definition typing (ps : list bytes) : bytes := ps ≫= λ p, p ++ [13].
Definition line_ok (p : bytes) : Prop := Forall line_byte p /\ len p <= MaxLineLen.

Lemma skip_csi_suffix s : skip_csi s `suffix_of` s.
Proof.
  induction s as [|b s IH]; [done|]. simpl. destruct (csi_final b); [by exists [b]|]. by apply suffix_cons_r.
Qed.

Lemma nextByte_loop_suffix f s : s_in (nextByte_loop f s).2 `suffix_of` s_in s.
Proof.
  revert s. induction f as [|f IH]; intros s; [done|]. cbn [nextByte_loop].
  destruct (s_in s) as [|b i] eqn:E; [cbn [snd]; by rewrite E|].
  destruct (b =? ESC); [|by apply suffix_cons_r].
  destruct i as [|nb i2]; [by apply suffix_cons_r|]. destruct (nb =? 91); [destruct (existsb _ _)|].
  - etrans; [apply IH|]. do 2 apply suffix_cons_r. apply skip_csi_suffix.
  - cbn. apply suffix_nil.
  - etrans; [apply IH|]. by do 2 apply suffix_cons_r.
Qed.

Lemma line_loop_suffix f echo buf s : s_in (line_loop f echo buf s).2 `suffix_of` s_in s.
Proof.
  revert buf s. induction f as [|f IH]; intros buf s; [done|]. cbn [line_loop]. unfold nextByte.
  pose proof (nextByte_loop_suffix (S (length (s_in s))) s) as Hn.
  destruct (nextByte_loop _ s) as [[b|] s']; [|done]. cbn [snd] in Hn.
  repeat go_case; try exact Hn; (etrans; [apply IH|exact Hn]).
Qed.

(** A read: the line, the input it leaves, and nothing else changed. *)
Lemma readPassword_inv w p w1 :
  readPassword w = (Some p, w1) ->
  edited [] (plain (s_in (w_session w))) = Some p /\ s_in (w_session w1) `suffix_of` s_in (w_session w) /\
  w1 = with_session (w_session w1) w.
Proof.
  unfold readPassword, ReadPassword. set (s := w_session w). set (f := S (length (s_in s))).
  pose proof (line_loop_spec f false [] s ltac:(lia)) as Hs. pose proof (line_loop_suffix f false [] s) as Hx.
  destruct (line_loop f false [] s) as [r s']. simpl in Hs, Hx. by intros [= -> <-].
Qed.

Lemma readLine_inv w p w1 :
  readLine w = (Some p, w1) ->
  edited [] (plain (s_in (w_session w))) = Some p /\ s_in (w_session w1) `suffix_of` s_in (w_session w) /\
  w1 = with_session (w_session w1) w.
Proof.
  unfold readLine, ReadLine. set (s := w_session w). set (f := S (length (s_in s))).
  pose proof (line_loop_spec f true [] s ltac:(lia)) as Hs. pose proof (line_loop_suffix f true [] s) as Hx.
  destruct (line_loop f true [] s) as [r s']. simpl in Hs, Hx. by intros [= -> <-].
Qed.

Lemma readPassword_typed w p ps i :
  s_in (w_session w) = typing (p :: ps) ++ i -> line_ok p ->
  exists s1, readPassword w = (Some p, with_session s1 w) /\ s_in s1 = typing ps ++ i.
Proof.
  intros E [Hp Hl]. unfold readPassword, ReadPassword.
  destruct (line_loop_typed (S (length (s_in (w_session w)))) false [] p 13 (typing ps ++ i) (w_session w))
    as (s' & -> & E'); try done; [|lia|by exists s'].
  rewrite E. unfold typing. rewrite bind_cons, <-!app_assoc. done.
Qed.

Lemma readLine_typed w p ps i :
  s_in (w_session w) = typing (p :: ps) ++ i -> line_ok p ->
  exists s1, readLine w = (Some p, with_session s1 w) /\ s_in s1 = typing ps ++ i.
Proof.
  intros E [Hp Hl]. unfold readLine, ReadLine.
  destruct (line_loop_typed (S (length (s_in (w_session w)))) true [] p 13 (typing ps ++ i) (w_session w))
    as (s' & -> & E'); try done; [|lia|by exists s'].
  rewrite E. unfold typing. rewrite bind_cons, <-!app_assoc. done.
Qed.

(** A read changes nothing but the session. *)
Lemma readPassword_frame w : exists s, (readPassword w).2 = with_session s w.
Proof. unfold readPassword. destruct (ReadPassword _) as [r s]. by exists s. Qed.
Lemma readLine_frame w : exists s, (readLine w).2 = with_session s w.
Proof. unfold readLine. destruct (ReadLine _) as [r s]. by exists s. Qed.

(** Split on the next read of a login. *)
Ltac read_next :=
  lazymatch goal with
  | |- context [readPassword ?x] =>
      let s := fresh "s" in destruct (readPassword_frame x) as [s ?F]; destruct (readPassword x) as [[?|] ?]
  | |- context [readLine ?x] =>
      let s := fresh "s" in destruct (readLine_frame x) as [s ?F]; destruct (readLine x) as [[?|] ?]
  end; simpl in *; subst.

Section Laws.
Context `{CryptoLaws}.
Variable v : Vault.
Variable c : caller.
Variable clock : nat -> Z.
Variable salt : bytes.

Lemma draw_session f w : exists s1, draw c f w = with_session s1 w /\ s_in s1 = s_in (w_session w).
Proof. by eexists. Qed.

Lemma draw_in f w : s_in (w_session (draw c f w)) = s_in (w_session w).
Proof. done. Qed.

(** An update of one account that keeps its handle. *)
Lemma select_update_map {R} (p q : Z -> R -> bool) f (t : table R) :
  (forall i r, p i (f r) = p i r) ->
  select p (update q f t).1 = (λ x, if q x.1 x.2 then (x.1, f x.2) else x) <$> select p t.
Proof.
  intros Hp. unfold select, update. cbn [fst rows]. induction (rows t) as [|[i r] l IH]; [done|].
  rewrite fmap_cons. cbn [List.filter fst snd].
  destruct (q i r) eqn:E; cbn [fst snd]; rewrite ?Hp; destruct (p i r); rewrite ?fmap_cons, IH; cbn; by rewrite ?E.
Qed.

Lemma ByHandle_update h t u f :
  Users_ByHandle v h t = Ok u -> (forall r, c_handle (f r) = c_handle r) ->
  exists r, Users_scan v (ID u) r = Ok u /\
            Users_ByHandle v h (update (by_id (ID u)) f t).1 = Users_scan v (ID u) (f r).
Proof.
  intros Hu Hf. unfold Users_ByHandle in *. rewrite select_update_map by (intros; unfold same_handle; by rewrite Hf).
  destruct (select (same_handle h) t) as [|[i r] l]; [done|]. cbn [first_user] in Hu. rewrite fmap_cons.
  assert (i = ID u) as ->.
  { unfold Users_scan in Hu. destruct (scan_int _); [|done].
    destruct (open v (c_real_name r)), (open v (c_email r)); try done. by injection Hu as <-. }
  exists r. split; [done|]. cbn [fst snd first_user]. unfold by_id at 1. by rewrite Z.eqb_refl.
Qed.

Lemma scan_set_password h id r u :
  Users_scan v id r = Ok u -> Users_scan v id (set_password h r) = Ok (with_hash h u).
Proof.
  unfold Users_scan. simpl. destruct (scan_int _); [|done].
  destruct (open v (c_real_name r)), (open v (c_email r)); try done. by intros [= <-].
Qed.

Lemma scan_set_login a ip id r u :
  Users_scan v id r = Ok u ->
  exists u', Users_scan v id (set_login a ip r) = Ok u' /\ ID u' = ID u /\ PasswordHash u' = PasswordHash u /\
             Status u' = Status u.
Proof.
  unfold Users_scan. simpl. destruct (scan_int _); [|done].
  destruct (open v (c_real_name r)), (open v (c_email r)); try done. intros [= <-]. by eexists.
Qed.

Lemma set_password_stored h t u hash now_ :
  Users_ByHandle v h t = Ok u ->
  exists u', Users_ByHandle v h (Users_TouchLogin (ID u) now_ (Users_SetPassword (ID u) hash t)) = Ok u' /\
             ID u' = ID u /\ PasswordHash u' = hash /\ Status u' = Status u.
Proof.
  intros Hu. unfold Users_SetPassword.
  destruct (ByHandle_update h t u (set_password hash) Hu ltac:(done)) as (r & Hr & E).
  rewrite (scan_set_password _ _ _ _ Hr) in E.
  destruct (ByHandle_update h _ _ (λ r, set_login (fmtTime now_) (c_last_login_ip r) r) E ltac:(done)) as (r2 & Hr2 & E2).
  destruct (scan_set_login (fmtTime now_) (c_last_login_ip r2) _ _ _ Hr2) as (u' & Hu' & HI & HP & HS).
  exists u'. unfold Users_TouchLogin. cbn [ID with_hash] in *. by rewrite E2, Hu'.
Qed.

Lemma enter_tokens u w : w_tokens (enter c clock u w) = w_tokens w.
Proof. unfold enter. destruct (Users_RecordLogin _ _ _ _ _) as [[r us] an]. by destruct r as [[]|]. Qed.

(** Success of the loop is a verified password the caller typed. *)
Lemma verify_loop_granted n u u' w w' :
  verify_loop c clock n u w = (Granted u', w') ->
  u' = u /\ w_tokens w' = w_tokens w /\
  exists pw, typed (s_in (w_session w)) pw /\ VerifyPassword (PasswordHash u) pw = VOk true.
Proof.
  revert w. induction n as [|n IH]; intros w; [done|]. cbn [verify_loop].
  destruct (readPassword _) as [[pw|] w1] eqn:E; [|done].
  apply readPassword_inv in E as (E & Hx & Hw). rewrite draw_in in E, Hx.
  assert (G : forall w2, w_tokens w2 = w_tokens w -> s_in (w_session w2) = s_in (w_session w1) ->
    verify_loop c clock n u w2 = (Granted u', w') -> u' = u /\ w_tokens w' = w_tokens w /\
    exists pw, typed (s_in (w_session w)) pw /\ VerifyPassword (PasswordHash u) pw = VOk true).
  { intros w2 Ht Hi (-> & -> & pw2 & (j & Hj & Hp) & Hv)%IH. split_and!; [done..|]. exists pw2. split; [|done].
    exists j. split; [|done]. rewrite Hi in Hj. by etrans. }
  destruct (VerifyPassword (PasswordHash u) pw) as [[]| |] eqn:Ev; [|by apply G; rewrite Hw..|done].
  intros [= <- <-]. split; [done|]. split; [by rewrite enter_tokens, Hw|]. exists pw. split; [|done]. by exists (s_in (w_session w)).
Qed.

(** The two outcomes of setting the first password. *)
Lemma set_first_password_inv u u' w w' :
  set_first_password c clock salt u w = (Granted u', w') ->
  exists p, typed (s_in (w_session w)) p /\ minPasswordLen <= len p /\ u' = with_hash (HashPassword p salt) u /\
    w_tokens w' = w_tokens w /\
    w_users w' = Users_TouchLogin (ID u) (now clock w) (Users_SetPassword (ID u) (HashPassword p salt) (w_users w)).
Proof.
  unfold set_first_password. destruct (readPassword _) as [[p1|] w1] eqn:E1; [|done].
  destruct (readPassword (draw c _ w1)) as [[p2|] w2] eqn:E2; [|done].
  apply readPassword_inv in E1 as (E1 & X1 & H1), E2 as (E2 & X2 & H2). rewrite draw_in in E1, X1, E2, X2.
  destruct (negb (beq p1 p2) || (len p1 <? minPasswordLen)) eqn:E; [done|]. bool_hyps. intros [= <- <-].
  exists p1. rewrite H2, H1. split_and!; [by exists (s_in (w_session w))|done..].
Qed.

(** What a caller proves beyond the key: the password of the account, or a token
    redeemed now and a new password of at least eight bytes. *)
Definition second_factor (u : User) (w w' : world) : Prop :=
  (PasswordHash u <> [] /\ w_tokens w' = w_tokens w /\
   exists pw, typed (s_in (w_session w)) pw /\ VerifyPassword (PasswordHash u) pw = VOk true) \/
  (PasswordHash u = [] /\
   exists tok pw, typed (s_in (w_session w)) tok /\ typed (s_in (w_session w)) pw /\
     Tokens_Redeem (ID u) (TrimSpace tok) (now clock w) (w_tokens w) = (Ok (), w_tokens w') /\
     minPasswordLen <= len pw /\
     exists u2, Users_ByHandle v (cl_username c) (w_users w') = Ok u2 /\ ID u2 = ID u /\
                PasswordHash u2 = HashPassword pw salt).

(** Of the accounts, statements about account [id] alone led from [t] to [t']. *)
Definition only_account (id : Z) (t t' : users) : Prop :=
  forall I : users -> Prop, (forall f t, I t -> I (update (by_id id) f t).1) -> I t -> I t'.

Lemma only_account_refl id t : only_account id t t.
Proof. by intros I _. Qed.

Lemma enter_users u w : only_account (ID u) (w_users w) (w_users (enter c clock u w)).
Proof.
  intros I Hu Hi. unfold enter, Users_RecordLogin.
  destruct (row (ID u) (w_users w)) as [r|]; [|exact Hi].
  destruct (rapid_change _ _ _) as [gap|]; [destruct (insert _ _) as [[k an]|e]|]; [exact (Hu _ _ Hi)|exact Hi|exact (Hu _ _ Hi)].
Qed.

Lemma verify_loop_users n u w : only_account (ID u) (w_users w) (w_users (verify_loop c clock n u w).2).
Proof.
  revert w. induction n as [|n IH]; intros w; [by intros I _|]. cbn [verify_loop]. read_next; [|by intros I _].
  destruct (VerifyPassword _ _) as [[]| |]; [exact (enter_users u (with_session _ w))|..|by intros I _].
  all: match goal with |- context [verify_loop _ _ _ _ ?w1] => exact (IH w1) end.
Qed.

Lemma set_first_password_users u w : only_account (ID u) (w_users w) (w_users (set_first_password c clock salt u w).2).
Proof.
  unfold set_first_password. cbv zeta. read_next; [|by intros I _]. read_next; [|by intros I _].
  destruct (_ || _); [by intros I _|]. intros I Hu Hi. exact (Hu _ _ (Hu _ _ Hi)).
Qed.

(** What a successful login proves and changes. *)
Lemma RunLogin_granted w w' u' :
  RunLogin v c clock salt w = (Granted u', w') ->
  exists u, Users_ByHandle v (cl_username c) (w_users w) = Ok u /\ Status u = StatusApproved /\ ID u' = ID u /\
  AccessLevel u' = AccessLevel u /\ second_factor u w w' /\ only_account (ID u) (w_users w) (w_users w').
Proof.
  unfold RunLogin. destruct (Users_ByHandle _ _ _) as [u|] eqn:Eu; [|done]. intros Hr. exists u. split; [done|].
  destruct (beq (Status u) StatusApproved) eqn:Es; [|done]. apply beq_true in Es. cbn [negb] in Hr. split; [done|].
  destruct (beq (PasswordHash u) []) eqn:Eh.
  - apply beq_true in Eh. unfold onboard in Hr. destruct (readLine _) as [[tok|] w1] eqn:El; [|done].
    apply readLine_inv in El as (El & X1 & H1). rewrite draw_in in El, X1.
    destruct (Tokens_Redeem _ _ _ _) as [r t] eqn:Et. destruct r as [[]|]; [|done].
    pose proof (set_first_password_users u (tick (with_tokens t w1))) as Hon. rewrite Hr in Hon.
    apply set_first_password_inv in Hr as (p & (j & Hj & Hp) & Hlen & -> & Ht & Hus). do 2 (split; [done|]).
    split; [|by rewrite H1 in Hon]. right.
    split; [done|]. exists tok, p. split_and!; [by exists (s_in (w_session w))| | |done|].
    + exists j. split; [|done]. etrans; [exact Hj|exact X1].
    + rewrite Ht. rewrite H1 in Et. exact Et.
    + rewrite Hus. destruct (set_password_stored (cl_username c) (w_users w) u (HashPassword p salt)
        (now clock (tick (with_tokens t w1))) Eu) as (u2 & E2 & HI & HP & _).
      exists u2. split_and!; [|done|done]. rewrite <-E2, H1. done.
  - apply beq_false in Eh. pose proof (verify_loop_users 3 u w) as Hon. unfold verify in Hr. rewrite Hr in Hon.
    apply verify_loop_granted in Hr as (-> & Ht & Hp). do 2 (split; [done|]). split; [|done]. by left.
Qed.

(** C1: nobody gets in on the key alone: the account of that handle is approved,
    and the caller typed a password its stored hash verifies, or, if it had
    none, a token the store then redeemed and a password of at least eight
    bytes, which is the account's password from then on. *)
Theorem login_needs_secret (w w' : world) (u' : User)
  (Hr : RunLogin v c clock salt w = (Granted u', w')) :
  exists u, Users_ByHandle v (cl_username c) (w_users w) = Ok u /\ Status u = StatusApproved /\ ID u' = ID u /\
  ((PasswordHash u <> [] /\ w_tokens w' = w_tokens w /\
    exists pw, typed (s_in (w_session w)) pw /\ VerifyPassword (PasswordHash u) pw = VOk true) \/
   (PasswordHash u = [] /\
    exists tok pw, typed (s_in (w_session w)) tok /\ typed (s_in (w_session w)) pw /\
      Tokens_Redeem (ID u) (TrimSpace tok) (now clock w) (w_tokens w) = (Ok (), w_tokens w') /\
      minPasswordLen <= len pw /\
      exists u2, Users_ByHandle v (cl_username c) (w_users w') = Ok u2 /\ ID u2 = ID u /\
                 PasswordHash u2 = HashPassword pw salt)).
Proof. destruct (RunLogin_granted w w' u' Hr) as (u & Hu & Hs & Hi & _ & Hf & _). by exists u. Qed.

(** A login that does not succeed leaves accounts and anomalies alone. *)
Lemma verify_loop_refused n u w :
  (forall x, (verify_loop c clock n u w).1 <> Granted x) ->
  w_users (verify_loop c clock n u w).2 = w_users w /\ w_anomalies (verify_loop c clock n u w).2 = w_anomalies w.
Proof.
  revert w. induction n as [|n IH]; intros w; [done|]. cbn [verify_loop]. read_next; [|done].
  destruct (VerifyPassword _ _) as [[]| |]; [intros Hf; by destruct (Hf u)|..|done].
  all: match goal with |- context [verify_loop _ _ _ _ ?w1] => exact (IH w1) end.
Qed.

Lemma RunLogin_refused w :
  (forall x, (RunLogin v c clock salt w).1 <> Granted x) ->
  w_users (RunLogin v c clock salt w).2 = w_users w /\ w_anomalies (RunLogin v c clock salt w).2 = w_anomalies w.
Proof.
  unfold RunLogin. destruct (Users_ByHandle _ _ _) as [u|]; [|done]. destruct (negb _); [done|].
  destruct (beq (PasswordHash u) []); [|apply verify_loop_refused]. unfold onboard. cbv zeta. read_next; [|done].
  destruct (Tokens_Redeem _ _ _ _) as [r t]. destruct r as [[]|]; [|done].
  unfold set_first_password. cbv zeta. read_next; [|done]. read_next; [|done]. destruct (_ || _); [done|].
  intros Hf. by edestruct Hf.
Qed.

(** A login only consumes input. *)
Definition to_read (w : world) : nat := length (s_in (w_session w)).

Lemma readPassword_le w : (to_read (readPassword w).2 <= to_read w)%nat.
Proof.
  unfold readPassword, ReadPassword. pose proof (line_loop_suffix (S (length (s_in (w_session w)))) false [] (w_session w)) as Hs.
  destruct (line_loop _ _ _ _) as [r s]. by apply suffix_length.
Qed.
Lemma readLine_le w : (to_read (readLine w).2 <= to_read w)%nat.
Proof.
  unfold readLine, ReadLine. pose proof (line_loop_suffix (S (length (s_in (w_session w)))) true [] (w_session w)) as Hs.
  destruct (line_loop _ _ _ _) as [r s]. by apply suffix_length.
Qed.

Lemma enter_unread u w : to_read (enter c clock u w) = to_read w.
Proof. unfold enter. destruct (Users_RecordLogin _ _ _ _ _) as [[r us] an]. by destruct r as [[]|]. Qed.

Lemma verify_loop_le n u w : (to_read (verify_loop c clock n u w).2 <= to_read w)%nat.
Proof.
  revert w. induction n as [|n IH]; intros w; [done|]. cbn [verify_loop].
  pose proof (readPassword_le (draw c (prompt (str "Password: ")) w)) as Hl.
  destruct (readPassword _) as [[pw|] w1]; [|done]. destruct (VerifyPassword _ _) as [[]| |]; [|etrans; [apply IH|done]..|done].
  cbn [snd]. by rewrite enter_unread.
Qed.

Lemma RunLogin_le w : (to_read (RunLogin v c clock salt w).2 <= to_read w)%nat.
Proof.
  unfold RunLogin. destruct (Users_ByHandle _ _ _) as [u|]; [|done]. destruct (negb _); [done|].
  destruct (beq (PasswordHash u) []); [|apply verify_loop_le]. unfold onboard. cbv zeta.
  match goal with |- context [readLine ?x] => pose proof (readLine_le x) as H1; destruct (readLine x) as [[tok|] w1] end; [|done].
  destruct (Tokens_Redeem _ _ _ _) as [r t]. destruct r as [[]|]; [|done]. unfold set_first_password. cbv zeta.
  match goal with |- context [readPassword ?x] => pose proof (readPassword_le x) as H2; destruct (readPassword x) as [[p1|] w2] end;
    [|exact (Nat.le_trans _ _ _ H2 H1)].
  match goal with |- context [readPassword ?x] => pose proof (readPassword_le x) as H3; destruct (readPassword x) as [[p2|] w3] end;
    [|exact (Nat.le_trans _ _ _ H3 (Nat.le_trans _ _ _ H2 H1))].
  destruct (_ || _); exact (Nat.le_trans _ _ _ H3 (Nat.le_trans _ _ _ H2 H1)).
Qed.

(** One attempt on a typed line. *)
Lemma verify_loop_typed n u ps i w :
  length ps = n -> s_in (w_session w) = typing ps ++ i -> Forall line_ok ps ->
  Forall (λ p, VerifyPassword (PasswordHash u) p <> VPanic) ps ->
  exists w', if existsb (λ p, bool_decide (VerifyPassword (PasswordHash u) p = VOk true)) ps
    then verify_loop c clock n u w = (Granted u, w')
    else verify_loop c clock n u w = (Refused, w') /\ w_users w' = w_users w /\ w_tokens w' = w_tokens w /\
         Action <$> w_log w' = (Action <$> w_log w) ++ replicate n (str "login-failed") /\ s_in (w_session w') = i.
Proof.
  intros Hn. revert n w Hn. induction ps as [|p ps IH]; intros [|n] w Hn Hin Hok Hnp; try done.
  { exists w. simpl. split_and!; try done. by rewrite app_nil_r. }
  apply Forall_cons in Hok as [Hp Hok], Hnp as [Hv Hnp]. injection Hn as Hn.
  destruct (readPassword_typed (draw c (prompt (str "Password: ")) w) p ps i Hin Hp) as (s1 & E & Hs1).
  cbn [existsb verify_loop]. rewrite E.
  destruct (VerifyPassword (PasswordHash u) p) as [[]| |] eqn:Ev; [by eexists|..|done].
  all: match goal with |- exists w', if _ || _ then verify_loop _ _ _ _ ?w1 = _ else _ =>
    destruct (IH n w1 Hn Hs1 Hok Hnp) as [w' H'] end; exists w'.
  all: simpl (bool_decide _ || _); destruct (existsb _ ps); [done|].
  all: destruct H' as (H1 & H2 & H3 & H4 & H5); split_and!; [done|done|done| |done].
  all: rewrite H4; cbn [w_log draw Activity tick with_session]; rewrite fmap_app, <-app_assoc; done.
Qed.

(** C3: a member gets three tries per connection: with three lines typed, the
    login succeeds exactly if one of them verifies; otherwise it is refused with
    accounts and tokens untouched, three failures in the audit trail and nothing
    more of the input read. *)
Theorem three_tries (w : world) (u : User) (ps : list bytes) (i : bytes)
  (Hu : Users_ByHandle v (cl_username c) (w_users w) = Ok u) (Hs : Status u = StatusApproved)
  (Hh : PasswordHash u <> []) (Hn : length ps = 3%nat) (Hi : s_in (w_session w) = typing ps ++ i)
  (Hl : Forall line_ok ps) (Hp : Forall (λ p, VerifyPassword (PasswordHash u) p <> VPanic) ps) :
  exists w', if existsb (λ p, bool_decide (VerifyPassword (PasswordHash u) p = VOk true)) ps
    then RunLogin v c clock salt w = (Granted u, w')
    else RunLogin v c clock salt w = (Refused, w') /\ w_users w' = w_users w /\ w_tokens w' = w_tokens w /\
         Action <$> w_log w' = (Action <$> w_log w) ++ replicate 3 (str "login-failed") /\ s_in (w_session w') = i.
Proof.
  unfold RunLogin. rewrite Hu, Hs, beq_refl. apply beq_false in Hh. rewrite Hh. by apply verify_loop_typed.
Qed.

(** A password good enough, typed twice. *)
Definition chosen (p1 p2 : bytes) : bool := beq p1 p2 && (minPasswordLen <=? len p1).

Lemma set_first_password_typed u w p1 p2 i :
  s_in (w_session w) = typing [p1; p2] ++ i -> line_ok p1 -> line_ok p2 ->
  exists w', if chosen p1 p2
    then set_first_password c clock salt u w = (Granted (with_hash (HashPassword p1 salt) u), w') /\
         exists t, w_users w' = Users_TouchLogin (ID u) t (Users_SetPassword (ID u) (HashPassword p1 salt) (w_users w))
    else set_first_password c clock salt u w = (Refused, w') /\ w_users w' = w_users w /\ w_tokens w' = w_tokens w.
Proof.
  intros Hi H1 H2. unfold set_first_password. cbv zeta.
  match goal with |- context [readPassword (draw c ?f w)] =>
    destruct (readPassword_typed (draw c f w) p1 [p2] i Hi H1) as (s1 & -> & E1) end.
  match goal with |- context [readPassword (draw c ?f ?w1)] =>
    destruct (readPassword_typed (draw c f w1) p2 [] i E1 H2) as (s2 & -> & E2) end.
  assert (Ec : negb (beq p1 p2) || (len p1 <? minPasswordLen) = negb (chosen p1 p2)).
  { unfold chosen. rewrite negb_andb. f_equal. by rewrite Z.ltb_antisym. }
  rewrite Ec. destruct (chosen p1 p2); simpl negb; cbv iota; eexists; (split; [done|]); [by eexists|done].
Qed.

Lemma onboard_typed u w tok ps i t2 :
  s_in (w_session w) = typing (tok :: ps) ++ i -> line_ok tok ->
  Tokens_Redeem (ID u) (TrimSpace tok) (now clock w) (w_tokens w) = (Ok (), t2) ->
  exists w2, s_in (w_session w2) = typing ps ++ i /\ w_users w2 = w_users w /\ w_tokens w2 = t2 /\
    onboard c clock salt u w = set_first_password c clock salt u w2.
Proof.
  intros Hi Ht Hr. unfold onboard. cbv zeta.
  match goal with |- context [readLine (draw c ?f w)] =>
    destruct (readLine_typed (draw c f w) tok ps i Hi Ht) as (s1 & -> & E1) end.
  change (now clock (with_session s1 (draw c _ w))) with (now clock w).
  change (w_tokens (with_session s1 (draw c _ w))) with (w_tokens w).
  rewrite Hr. eexists (tick (with_tokens t2 (with_session s1 w))); by split_and!.
Qed.

(** A token that only one unused row of the user's carries is spent by a redemption. *)
Lemma redeem_spends us user raw ti t0 t plain now_ t2 :
  spent user (hashToken (RawURLEncode raw)) t0 -> Tokens_Issue us user raw ti t0 = (Ok plain, t) ->
  Tokens_Redeem user plain now_ t = (Ok (), t2) -> forall t', (Tokens_Redeem user plain t' t2).1 = Err ErrTokenInvalid.
Proof.
  intros Hf Hi Hr t'. destruct (Issue_only _ _ _ _ _ _ _ Hf Hi) as (-> & id & _ & Honly).
  apply Redeem_ok in Hr as (j & Hj & ->). apply find_unused in Hj as (r & Hin & Hu & Hh & Hn & _).
  destruct (Honly j r Hin Hu Hh Hn) as [-> _].
  unfold Tokens_Redeem. rewrite spent_no_match; [done|].
  apply consume_spent. intros k x Hk Hku Hkh Hkn. by destruct (Honly k x Hk Hku Hkh Hkn).
Qed.

(** C2: a first login with a valid token: typing a password of at least eight
    bytes twice gets the member in, now and, with that password, on any later
    connection; anything else is refused and has burnt the token: the account
    still has no password, and no redemption of the token succeeds any more. *)
Theorem first_login (w : world) (u : User) (us0 : users) (t0 t2 : table tokenRow) (tok p1 p2 i raw plain : bytes) (ti : Z)
  (Hu : Users_ByHandle v (cl_username c) (w_users w) = Ok u) (Hs : Status u = StatusApproved)
  (Hh : PasswordHash u = []) (Hsalt : bytes_ok salt)
  (Hf : spent (ID u) (hashToken (RawURLEncode raw)) t0) (Hi : Tokens_Issue us0 (ID u) raw ti t0 = (Ok plain, w_tokens w))
  (Hin : s_in (w_session w) = typing [tok; p1; p2] ++ i) (Hl : Forall line_ok [tok; p1; p2]) (Htok : TrimSpace tok = plain)
  (Hr : Tokens_Redeem (ID u) plain (now clock w) (w_tokens w) = (Ok (), t2)) :
  exists o w', RunLogin v c clock salt w = (o, w') /\
  if chosen p1 p2 then
    o = Granted (with_hash (HashPassword p1 salt) u) /\
    forall wl il, w_users wl = w_users w' -> s_in (w_session wl) = typing [p1] ++ il ->
      exists ul wl', RunLogin v c clock salt wl = (Granted ul, wl') /\ ID ul = ID u
  else
    o = Refused /\ Users_ByHandle v (cl_username c) (w_users w') = Ok u /\
    forall t', (Tokens_Redeem (ID u) plain t' (w_tokens w')).1 = Err ErrTokenInvalid.
Proof.
  apply Forall_cons in Hl as [Lt Hl], Hl as [L1 Hl], Hl as [L2 _]. subst plain.
  destruct (onboard_typed u w tok [p1; p2] i t2 Hin Lt Hr) as (w2 & E1 & E2 & E3 & E4).
  destruct (set_first_password_typed u w2 p1 p2 i E1 L1 L2) as (w' & E).
  assert (G : RunLogin v c clock salt w = set_first_password c clock salt u w2).
  { unfold RunLogin. by rewrite Hu, Hs, Hh, beq_refl. }
  rewrite G. destruct (chosen p1 p2).
  - destruct E as (-> & t & Hus). eexists _, w'. split; [done|]. split; [done|]. intros wl il Hwl Hil.
    rewrite E2 in Hus. destruct (set_password_stored (cl_username c) (w_users w) u (HashPassword p1 salt) t Hu)
      as (ul & Hul & HI & HP & HS).
    exists ul. unfold RunLogin. rewrite Hwl, Hus, Hul, HS, Hs, beq_refl. simpl negb. cbv iota.
    assert (Hne : beq (PasswordHash ul) [] = false) by by rewrite HP. rewrite Hne.
    unfold verify. cbn [verify_loop].
    destruct (readPassword_typed (draw c (prompt (str "Password: ")) wl) p1 [] il Hil L1) as (s1 & -> & _).
    rewrite HP, Verify_HashPassword, beq_refl by done. by eexists.
  - destruct E as (-> & Hus & Ht). eexists _, w'. split; [done|]. split; [done|]. rewrite Hus, E2. split; [done|].
    rewrite Ht, E3. by eapply redeem_spends.
Qed.
End Laws.

(** ** Witnesses *)

Definition a_caller : caller := Caller (str "s-1") (str "1.2.3.4") (str "ssh") (str "neo")
  {| ANSI := true; CP437 := true; Terminal.Cols := 80; Rows := 25 |} false.
Definition arrives (i : bytes) (us : users) (t : table tokenRow) : world :=
  World {| s_in := i; s_out := []; s_resets := 0 |} us t empty_table [] 0.
Definition on_time (n : nat) : Z := Z.of_nat n.
Definition a_salt : bytes := replicate 16 3.
Definition a_password : bytes := str "hunter22".
Definition members : users := Users_SetPassword 1 (HashPassword (H := toy) a_password a_salt) some_users.
Abbreviation log_in i us t := (RunLogin (H := toy) toy_vault a_caller on_time a_salt (arrives i us t)).

(** The account behind a handle, as computed. *)
Definition account (us : users) (f : User -> bool) : bool :=
  match Users_ByHandle (H := toy) toy_vault (str "neo") us with Ok u => f u | Err _ => false end.
Definition granted (r : outcome * world) : bool := match r.1 with Granted _ => true | _ => false end.

Lemma account_ok us f : account us f = true -> exists u, Users_ByHandle (H := toy) toy_vault (str "neo") us = Ok u /\ f u = true.
Proof. unfold account. destruct (Users_ByHandle _ _ _) as [u|]; [by exists u|done]. Qed.

(** One wrong password, then the right one. *)
Lemma login_needs_secret_witness :
  exists pw u, typed (str "guess" ++ [13] ++ a_password ++ [13]) pw /\
  Users_ByHandle (H := toy) toy_vault (str "neo") members = Ok u /\
  VerifyPassword (H := toy) (PasswordHash u) pw = VOk true.
Proof.
  assert (G : granted (log_in (str "guess" ++ [13] ++ a_password ++ [13]) members empty_table) = true)
    by (vm_compute; reflexivity).
  assert (A : account members (λ u, negb (beq (PasswordHash u) [])) = true) by (vm_compute; reflexivity).
  unfold granted in G. destruct (RunLogin _ _ _ _ _) as [o w'] eqn:E. cbn [fst] in G. destruct o as [u| |]; [|discriminate G..].
  destruct (login_needs_secret (H := toy) toy_vault a_caller on_time a_salt _ w' u E)
    as (u0 & Hu & _ & _ & [(_ & _ & pw & Ht & Hv)|(Hnil & _)]).
  - exists pw, u0. exact (conj Ht (conj Hu Hv)).
  - apply account_ok in A as (u1 & Hu1 & Hne). cbn [w_users arrives a_caller cl_username] in Hu.
    rewrite Hu1 in Hu. injection Hu as ->. rewrite Hnil in Hne. discriminate Hne.
Defined.

Lemma three_tries_witness :
  exists w', log_in (typing [str "a"; str "b"; str "c"] ++ a_password ++ [13]) members empty_table = (Refused, w') /\
  s_in (w_session w') = a_password ++ [13].
Proof.
  assert (A : account members (λ u, beq (PasswordHash u) (HashPassword (H := toy) a_password a_salt) &&
    beq (Status u) StatusApproved) = true) by (vm_compute; reflexivity).
  apply account_ok in A as (u & Eu & [Eh%beq_true Es%beq_true]%andb_true_iff).
  destruct (three_tries (H := toy) toy_vault a_caller on_time a_salt
    (arrives (typing [str "a"; str "b"; str "c"] ++ a_password ++ [13]) members empty_table) u
    [str "a"; str "b"; str "c"] (a_password ++ [13])) as [w' P].
  - exact Eu.
  - exact Es.
  - rewrite Eh. discriminate.
  - reflexivity.
  - reflexivity.
  - by_decide.
  - rewrite Eh. by_decide.
  - exists w'. rewrite Eh in P.
    match type of P with if ?b then _ else _ => replace b with false in P by (vm_compute; reflexivity) end.
    destruct P as (P1 & _ & _ & _ & P2). split; [exact P1|exact P2].
Defined.

Lemma first_login_witness :
  exists w', log_in (typing [issued_plain; str "short"; str "short"]) some_users issued = (Refused, w') /\
  (Tokens_Redeem 1 issued_plain 9 (w_tokens w')).1 = Err ErrTokenInvalid.
Proof.
  assert (A : account some_users (λ u, (ID u =? 1) && beq (PasswordHash u) [] && beq (Status u) StatusApproved) = true)
    by (vm_compute; reflexivity).
  apply account_ok in A as (u & Eu & [[Ei%Z.eqb_eq Eh%beq_true]%andb_true_iff Es%beq_true]%andb_true_iff).
  destruct (first_login (H := toy) (H0 := toy_laws) toy_vault a_caller on_time a_salt
    (arrives (typing [issued_plain; str "short"; str "short"]) some_users issued) u some_users empty_table
    (Tokens_Redeem 1 issued_plain 0 issued).2 issued_plain (str "short") (str "short") [] (str "r4nd0m") issued_plain 0)
    as (o & w' & E & P).
  - exact Eu.
  - exact Es.
  - exact Eh.
  - by_decide.
  - intros i r Hi. exact (not_in_empty _ _ Hi).
  - rewrite Ei. vm_compute. reflexivity.
  - reflexivity.
  - by_decide.
  - vm_compute. reflexivity.
  - rewrite Ei. vm_compute. reflexivity.
  - change (chosen (str "short") (str "short")) with false in P. destruct P as (-> & _ & P).
    exists w'. split; [exact E|]. rewrite <-Ei. exact (P 9).
Defined.
