(* ===== verification/DoorStore.v ===== *)
(** * Doors and settings (src/store/doors.go, installed_doors.go, settings.go)

    The registered door games, the doors installed from a release and the
    SysOp's key/value settings. *)

From S2P Require Import Prelude GoStrings GoTime Vault Sql Users.

Definition KindSubprocess : bytes := str "subprocess".
Definition KindResident : bytes := str "resident".

Record doorRow := DoorRow {
  d_name : bytes; d_command : bytes; d_dropfile : bytes; d_min_level : Z; d_kind : bytes; d_net : bytes; d_address : bytes
}.

Record Door := MkDoor {
  DID : Z; DName : bytes; Command : bytes; DropfileFormat : bytes; DMin : Z; Kind : bytes; Network : bytes; Address : bytes
}.

Abbreviation doors := (table doorRow).

Definition Doors_scan (x : Z * doorRow) : Door :=
  MkDoor x.1 (d_name x.2) (d_command x.2) (d_dropfile x.2) (d_min_level x.2) (d_kind x.2) (d_net x.2) (d_address x.2).

(** The column [name] is UNIQUE. *)
Definition named (name : bytes) : Z -> doorRow -> bool := λ _ r, beq (d_name r) name.

Definition insert_door (r : doorRow) (t : doors) : result err Z * doors :=
  if 0 <? count (named (d_name r)) t then (Err ErrUnique, t)
  else match insert r t with Err e => (Err e, t) | Ok (id, t') => (Ok id, t') end.

(** The columns left out take the defaults of the schema. *)
Definition Doors_Create (name command dropfileFormat : bytes) (minLevel : Z) (t : doors) : result err Door * doors :=
  let df := if beq dropfileFormat [] then str "door32.sys" else dropfileFormat in
  let '(r, t') := insert_door (DoorRow name command df minLevel KindSubprocess (str "tcp") []) t in
  (match r with Err e => Err e | Ok id => Ok (MkDoor id name command df minLevel KindSubprocess [] []) end, t').

Definition Doors_CreateResident (name network address : bytes) (minLevel : Z) (t : doors) : result err Door * doors :=
  let '(r, t') := insert_door (DoorRow name [] (str "door32.sys") minLevel KindResident network address) t in
  (match r with Err e => Err e | Ok id => Ok (MkDoor id name [] [] minLevel KindResident network address) end, t').

Definition Doors_Count (t : doors) : Z := len (rows t).

Definition Doors_Visible (accessLevel : Z) (t : doors) : list Door :=
  Doors_scan <$> order_by (λ x y, text_leb (d_name x.2) (d_name y.2)) (select (λ _ r, d_min_level r <=? accessLevel) t).

Definition Doors_ByID (id accessLevel : Z) (t : doors) : result err Door :=
  match row id t with
  | None => Err ErrNotFound
  | Some r => if accessLevel <? d_min_level r then Err ErrNotFound else Ok (Doors_scan (id, r))
  end.

Definition set_resident (network address : bytes) (r : doorRow) : doorRow :=
  DoorRow (d_name r) [] (d_dropfile r) (d_min_level r) KindResident network address.

Definition EnsureResidentDoor (name network address : bytes) (minLevel : Z) (t : doors) : result err () * doors :=
  match head (select (named name) t) with
  | None =>
      let '(r, t') := Doors_CreateResident name network address minLevel t in
      (match r with Err e => Err e | Ok _ => Ok () end, t')
  | Some (id, _) => (Ok (), (update (by_id id) (set_resident network address) t).1)
  end.

Definition demo_door : bytes := str "doors/numguess.sh".

(** [present]: [os.Stat] finds the bundled script. *)
Definition EnsureSeedDoors (present : bool) (t : doors) : result err () * doors :=
  if 0 <? Doors_Count t then (Ok (), t)
  else if negb present then (Ok (), t)
  else let '(r, t') := Doors_Create (str "Number Guess") demo_door (str "door32.sys") 0 t in
       (match r with Err e => Err e | Ok _ => Ok () end, t').

(** ** Installed doors *)

Record installedRow := InstalledRow {
  i_name : bytes; i_url : bytes; i_version : bytes; i_bin : bytes; i_address : bytes; i_min_level : Z; i_at : bytes
}.

Record InstalledDoor := MkInstalled {
  IDoorID : Z; IName : bytes; SourceURL : bytes; Version : bytes; BinPath : bytes; IAddress : bytes; IMin : Z
}.

Abbreviation installed := (table installedRow).

Definition Installed_scan (x : Z * installedRow) : InstalledDoor :=
  MkInstalled x.1 (i_name x.2) (i_url x.2) (i_version x.2) (i_bin x.2) (i_address x.2) (i_min_level x.2).

Definition i_named (name : bytes) : Z -> installedRow -> bool := λ _ r, beq (i_name r) name.

Definition Installed_Upsert (d : InstalledDoor) (at_ : Z) (t : installed) : result err () * installed :=
  let r := InstalledRow (IName d) (SourceURL d) (Version d) (BinPath d) (IAddress d) (IMin d) (fmtTime at_) in
  if 0 <? count (i_named (IName d)) t then (Ok (), (update (i_named (IName d)) (λ _, r) t).1)
  else match insert r t with Err e => (Err e, t) | Ok (_, t') => (Ok (), t') end.

Definition Installed_List (t : installed) : list InstalledDoor :=
  Installed_scan <$> order_by (λ x y, text_leb (i_name x.2) (i_name y.2)) (rows t).

Definition Installed_ByName (name : bytes) (t : installed) : option InstalledDoor :=
  Installed_scan <$> head (select (i_named name) t).

Definition Installed_Remove (name : bytes) (t : installed) : installed := (delete (i_named name) t).1.

(** ** Settings *)

Abbreviation settings := (gmap bytes bytes).

Definition Settings_Get (key def : bytes) (m : settings) : bytes := default def (m !! key).
Definition Settings_Set (key value : bytes) (m : settings) : settings := <[key := value]> m.

Definition DefaultBBSName : bytes := str "AdmiralBBS".
Definition DefaultTagline : bytes := str "A clean-room '90s-era ANSI Bulletin Board System".

Definition BBSName : settings -> bytes := Settings_Get (str "bbs_name") DefaultBBSName.
Definition Tagline : settings -> bytes := Settings_Get (str "tagline") DefaultTagline.
Definition MOTD : settings -> bytes := Settings_Get (str "motd") [].

Definition getInt (key : bytes) (def : Z) (m : settings) : Z :=
  let v := Settings_Get key [] m in
  if beq v [] then def
  else match Atoi v with Some n => if 0 <? n then n else def | None => def end.

Definition IdleMinutes (def : Z) : settings -> Z := getInt (str "idle_minutes") def.
Definition DailyMinutes (def : Z) : settings -> Z := getInt (str "daily_minutes") def.

(** ** Lemmas *)

Definition names_unique (t : doors) : Prop :=
  forall i r j s, (i, r) ∈ rows t -> (j, s) ∈ rows t -> d_name r = d_name s -> i = j.

Lemma head_select {R} (p : Z -> R -> bool) (t : table R) :
  match head (select p t) with
  | Some (i, r) => (i, r) ∈ rows t /\ p i r = true
  | None => count p t = 0
  end.
Proof.
  unfold count. destruct (select p t) as [|[i r] l] eqn:E; [done|]. apply elem_of_select. rewrite E. left.
Qed.

Lemma insert_door_spec r t : wf t -> names_unique t ->
  wf (insert_door r t).2 /\ names_unique (insert_door r t).2.
Proof.
  intros Hw Hu. unfold insert_door. destruct (0 <? count (named (d_name r)) t) eqn:Ec; [done|].
  destruct (insert r t) as [[id t']|] eqn:Ei; [|done]. split; [by eapply wf_insert|].
  assert (Hz : count (named (d_name r)) t = 0) by (pose proof (len_nonneg (select (named (d_name r)) t)); bool_hyps; unfold count in *; lia).
  rewrite count_zero in Hz. intros i x j y. cbn [snd]. rewrite (insert_rows _ _ _ _ Ei), !elem_of_app, !list_elem_of_singleton.
  intros [Hx|[= -> ->]] [Hy|[= -> ->]] Hn; [by eapply Hu| | |done].
  - apply Hz in Hx. unfold named in Hx. by apply beq_false in Hx.
  - apply Hz in Hy. unfold named in Hy. by apply beq_false in Hy.
Qed.

Lemma update_door_spec p f t : (forall r, d_name (f r) = d_name r) -> wf t -> names_unique t ->
  wf (update p f t).1 /\ names_unique (update p f t).1.
Proof.
  intros Hf Hw Hu. split; [by apply wf_update|].
  intros i x j y (x0 & Hx & ->)%update_rows (y0 & Hy & ->)%update_rows Hn. eapply Hu; [exact Hx|exact Hy|].
  by destruct (p i x0), (p j y0); rewrite ?Hf in Hn.
Qed.
