(* ===== verification/Doors.v ===== *)
(** * Door games (src/doors: bridge.go, dropfile.go, launcher.go, install.go)

    The handshake of a resident door and what it lets through, the dropfile and
    the command of a sandboxed door, the choice of a release asset, and the
    supervisor of installed doors.  Dialling, downloading and running processes
    are the operating system's. *)

From S2P Require Import Prelude GoStrings.

(** ** bridge.go *)

Definition sentinelPrefix : bytes := [27] ++ str "]ABBS;".
Definition sentinelBEL : Z := 7.
Definition sentinelMax : Z := 256.

(** What a read of the door's connection returns: the bytes, and whether an
    error (a timeout, the end) came with them. *)
Abbreviation read := (bytes * bool)%type.

(** A dialled door: what it advertised, the bytes to replay, what is still to be read. *)
Record ResidentConn := Resident { Version : bytes; caps : gset bytes; pre : bytes; conn_reads : list read }.

Definition letter_digit (c : Z) : bool :=
  ((48 <=? c) && (c <=? 57)) || ((97 <=? c) && (c <=? 122)) || ((65 <=? c) && (c <=? 90)).
Definition handle_char (c : Z) : bool := (c =? 95) || (c =? 45) || (c =? 46) || letter_digit c.
Definition version_char (c : Z) : bool := (c =? 46) || (c =? 45) || (c =? 43) || letter_digit c.

Definition sanitizeHandle (s : bytes) : bytes := List.filter handle_char (take 24 s).
Definition sanitizeVersion (b : bytes) : bytes := List.filter version_char (take 32 b).

(** [strings.Cut(kv, "=")] *)
Definition Cut (s : bytes) (c : Z) : option (bytes * bytes) :=
  match IndexByte s c with Some i => Some (take i s, drop (S i) s) | None => None end.

(** One "key=value" of the payload, over what was found before. *)
Definition parse_field (found : bytes * gset bytes) (kv : bytes) : bytes * gset bytes :=
  match Cut kv 61 with
  | None => found
  | Some (k, v) =>
      if beq (TrimSpace k) (str "version") then (sanitizeVersion v, found.2)
      else if beq (TrimSpace k) (str "caps") then
        (found.1, foldl (λ s c, let c := TrimSpace c in if beq c [] then s else {[c]} ∪ s) found.2 (Split v 44))
      else found
  end.

Definition parsePayload (s : bytes) : bytes * gset bytes := foldl parse_field ([], ∅) (Split s 59).

(** No (complete) handshake: everything read is replayed. *)
Definition silent (buf : bytes) (rest : list read) : ResidentConn := Resident [] ∅ buf rest.

Fixpoint readHandshake (reads : list read) (buf : bytes) : ResidentConn :=
  if sentinelMax <=? len buf then silent buf reads
  else
    match reads with
    | [] => silent buf []
    | (p, e) :: reads' =>
        let buf' := buf ++ p in
        let continue := if e then silent buf' reads' else readHandshake reads' buf' in
        if beq p [] then continue
        else if HasPrefix buf' sentinelPrefix then
          match IndexByte buf' sentinelBEL with
          | Some i =>
              let '(ver, cs) := parsePayload (drop (length sentinelPrefix) (take i buf')) in
              Resident ver cs (drop (S i) buf') reads'
          | None => continue
          end
        else if HasPrefix sentinelPrefix buf' then continue
        else silent buf' reads'
    end.

(** [DialResident] on what the dial gave; [Err]: the connection failed. *)
Definition DialResident (dialled : result bytes (list read)) : result bytes ResidentConn :=
  match dialled with Err e => Err e | Ok reads => Ok (readHandshake reads []) end.

Definition stream (l : list read) : bytes := concat (l.*1).

(** The bytes [SendHandle] writes to the door. *)
Definition SendHandle (rc : ResidentConn) (handle : bytes) : bytes :=
  if bool_decide (str "handle" ∈ caps rc) then
    let h := sanitizeHandle handle in
    if beq h [] then [] else sentinelPrefix ++ str "handle=" ++ h ++ [sentinelBEL]
  else [].

(** What [Relay] can hand to the caller. *)
Definition relayed (rc : ResidentConn) : bytes := pre rc ++ stream (conn_reads rc).

(** ** dropfile.go *)

Record DropInfo := MkDrop {
  BBSName : bytes; DHandle : bytes; DRealName : bytes; DLevel : Z; MinutesLeft : Z; DNode : Z; DAnsi : bool
}.

Definition door32_lines (d : DropInfo) : list bytes :=
  let real := if beq (DRealName d) [] then DHandle d else DRealName d in
  [str "2"; str "0"; str "115200"; BBSName d; str "1"; real; DHandle d; Itoa (DLevel d); Itoa (MinutesLeft d);
   (if DAnsi d then str "1" else str "0"); Itoa (DNode d)].

(** The contents [WriteDoor32] writes. *)
Definition door32 (d : DropInfo) : bytes := Join (door32_lines d) [13; 10] ++ [13; 10].

(** ** launcher.go, isolate_linux.go *)

Definition minute : Z := 60 * 10 ^ 9.

Record Opts := MkOpts {
  Timeout : Z; CPULimit : Z; Term : bytes; WorkDir : bytes; ShareDir : bytes;
  RunAsUID : Z; RunAsGID : Z; Chroot : bytes; NoNetwork : bool; Isolate : bool
}.

(** [filepath.Join] below a directory whose path is already clean. *)
Definition below (dir elem : bytes) : bytes := dir ++ [47] ++ elem.

Definition scrubbedEnv (home term share : bytes) : list bytes :=
  [str "PATH=/usr/bin:/bin"; str "HOME=" ++ home; str "TERM=" ++ (if beq term [] then str "ansi" else term);
   str "DOORFILE=" ++ below home (str "door32.sys")] ++
  (if beq share [] then [] else [str "DOORSHARE=" ++ share]).

Definition CLONE_NEWNS : Z := 131072.
Definition CLONE_NEWUTS : Z := 67108864.
Definition CLONE_NEWIPC : Z := 134217728.
Definition CLONE_NEWPID : Z := 536870912.
Definition CLONE_NEWNET : Z := 1073741824.

(** The clone flags of [applyOSIsolation] on Linux. *)
Definition isolation_flags (o : Opts) : Z :=
  Z.lor (if Isolate o then Z.lor (Z.lor (Z.lor CLONE_NEWNS CLONE_NEWPID) CLONE_NEWIPC) CLONE_NEWUTS else 0)
        (if NoNetwork o then CLONE_NEWNET else 0).

(** What is asked of the operating system: the command and its surroundings. *)
Record process := Process {
  p_argv : list bytes; p_dir : bytes; p_env : list bytes; p_dropfile : bytes * bytes; p_timeout : Z;
  p_credential : option (Z * Z); p_chroot : bytes; p_flags : Z
}.

(** [Launch] up to the start of the process; [jail]: the temporary directory of a
    door without a working directory.  [None]: the command is empty. *)
Definition Launch (jail command : bytes) (args : list bytes) (drop : DropInfo) (o : Opts) : option process :=
  if beq command [] then None
  else
    let timeout := if Timeout o <=? 0 then 15 * minute else Timeout o in
    let cpu := if CPULimit o <=? 0 then 120 else CPULimit o in
    let workDir := if beq (WorkDir o) [] then jail else WorkDir o in
    let sh := str "ulimit -t " ++ Itoa cpu ++ str " 2>/dev/null; exec " ++ [34] ++ str "$@" ++ [34] in
    Some (Process ([str "/bin/sh"; str "-c"; sh; str "sh"; command] ++ args) workDir
            (scrubbedEnv workDir (Term o) (ShareDir o)) (below workDir (str "door32.sys"), door32 drop) timeout
            (if 0 <? RunAsUID o then Some (u32 (RunAsUID o), u32 (RunAsGID o)) else None) (Chroot o) (isolation_flags o)).

(** ** install.go: choosing an asset *)

Record ReleaseAsset := Asset { AName : bytes; URL : bytes }.
Record Release := MkRelease { TagName : bytes; Assets : list ReleaseAsset }.

(** The fragments for the host's [runtime.GOOS] and [runtime.GOARCH]. *)
Definition os_tokens (goos : bytes) : list bytes :=
  if beq goos (str "windows") then [str "windows"; str "win"]
  else if beq goos (str "darwin") then [str "darwin"; str "macos"; str "osx"]
  else [goos].
Definition arch_tokens (goarch : bytes) : list bytes :=
  if beq goarch (str "amd64") then [str "amd64"; str "x86_64"; str "x64"]
  else if beq goarch (str "arm64") then [str "arm64"; str "aarch64"]
  else if beq goarch (str "386") then [str "386"; str "i386"]
  else [goarch].

Definition containsAny (s : bytes) (subs : list bytes) : bool := existsb (Contains s) subs.

(** [lower]: [strings.ToLower]. *)
Definition PickAsset (lower : bytes -> bytes) (goos goarch : bytes) (r : Release) : option ReleaseAsset :=
  List.find (λ a, let n := lower (AName a) in containsAny n (os_tokens goos) && containsAny n (arch_tokens goarch))
    (Assets r).

(** ** install.go: the supervisor *)

(** A door under supervision: its binary, data directory and address. *)
Record superProc := SuperProc { sp_bin : bytes; sp_dir : bytes; sp_addr : bytes }.
Abbreviation supervisor := (gmap bytes superProc).

(** [Supervisor.Launch]; [mkdir]: whether the data directory can be made. *)
Definition Sup_Launch (mkdir : bool) (name binPath dataDir addr : bytes) (s : supervisor) : bool * supervisor :=
  match s !! name with
  | Some _ => (true, s)
  | None => if mkdir then (true, <[name := SuperProc binPath dataDir addr]> s) else (false, s)
  end.
Definition Sup_Running (name : bytes) (s : supervisor) : bool := negb (bool_decide (s !! name = None)).
Definition Sup_Stop (name : bytes) (s : supervisor) : supervisor := delete name s.
Definition Sup_StopAll (s : supervisor) : supervisor := ∅.

(** One exit of a supervised door that ran for [ran]: how long [supervise] sleeps
    and the next backoff. *)
Definition relaunch (ran backoff : Z) : Z * Z :=
  let backoff := if 30 * 10 ^ 9 <? ran then 10 ^ 9 else backoff in
  (backoff, if backoff <? 30 * 10 ^ 9 then 2 * backoff else backoff).

(** ** Properties *)

Lemma prefix_no_bel : sentinelBEL ∉ sentinelPrefix.
Proof. unfold sentinelBEL, sentinelPrefix. vm_compute. intros H. repeat (apply elem_of_cons in H as [H|H]; [done|]). by apply elem_of_nil in H. Qed.

(** A buffer that starts with the sentinel and holds a BEL. *)
Lemma sentinel_split buf i :
  HasPrefix buf sentinelPrefix = true -> IndexByte buf sentinelBEL = Some i ->
  exists payload, sentinelBEL ∉ payload /\ buf = sentinelPrefix ++ payload ++ sentinelBEL :: drop (S i) buf /\
                  drop (length sentinelPrefix) (take i buf) = payload.
Proof.
  intros Hp%HasPrefix_true Hi%IndexByte_Some. destruct Hp as [t ->]. destruct Hi as (E & Hn & Hl).
  exists (drop (length sentinelPrefix) (take i (sentinelPrefix ++ t))).
  assert (Hle : (length sentinelPrefix <= i)%nat).
  { destruct (le_lt_dec (length sentinelPrefix) i) as [|Hlt]; [done|]. exfalso. apply prefix_no_bel.
    assert (Hin : (sentinelPrefix ++ t) !! i = Some sentinelBEL).
    { rewrite E, lookup_app_r; rewrite length_take; [|lia]. by replace (i - _)%nat with 0%nat by lia. }
    rewrite lookup_app_l in Hin by done. by eapply list_elem_of_lookup_2. }
  split_and!; [|rewrite E at 1|done].
  - intros H. apply Hn. rewrite <-(take_drop (length sentinelPrefix) (take i _)). apply elem_of_app. by right.
  - rewrite <-(take_drop (length sentinelPrefix) (take i (sentinelPrefix ++ t))) at 1.
    rewrite take_take, Nat.min_l, take_app_length by lia. by rewrite <-app_assoc.
Qed.

Lemma index_bel buf payload t : sentinelBEL ∉ payload -> buf = sentinelPrefix ++ payload ++ sentinelBEL :: t ->
  IndexByte buf sentinelBEL = Some (length (sentinelPrefix ++ payload)).
Proof.
  intros Hn ->. rewrite app_assoc. apply IndexByte_app. rewrite elem_of_app. intros [H|H]; [by apply prefix_no_bel|done].
Qed.

(** The handshake a connection ends with: what it advertised and the bytes it cost. *)
Definition advertised (rc : ResidentConn) (sent : bytes) : Prop :=
  (sent = [] /\ Version rc = [] /\ caps rc = ∅) \/
  (exists payload, sentinelBEL ∉ payload /\ sent = sentinelPrefix ++ payload ++ [sentinelBEL] /\
     (Version rc, caps rc) = parsePayload payload).

Lemma handshake_splits reads buf : exists sent,
  buf ++ stream reads = sent ++ relayed (readHandshake reads buf) /\ advertised (readHandshake reads buf) sent.
Proof.
  revert buf. induction reads as [|[p e] reads IH]; intros buf; cbn [readHandshake].
  - exists []. destruct (sentinelMax <=? len buf); (split; [by unfold relayed|by left]).
  - destruct (sentinelMax <=? len buf); [exists []; by split; [|left]|].
    assert (Hs : buf ++ stream ((p, e) :: reads) = (buf ++ p) ++ stream reads) by (unfold stream; cbn; by rewrite app_assoc).
    rewrite Hs. set (buf' := buf ++ p).
    assert (Hc : exists sent, buf' ++ stream reads =
        sent ++ relayed (if e then silent buf' reads else readHandshake reads buf') /\
        advertised (if e then silent buf' reads else readHandshake reads buf') sent).
    { destruct e; [exists []; by split; [|left]|apply IH]. }
    destruct (beq p []); [done|].
    destruct (HasPrefix buf' sentinelPrefix) eqn:E1; [|destruct (HasPrefix sentinelPrefix buf'); [done|exists []; by split; [|left]]].
    destruct (IndexByte buf' sentinelBEL) as [i|] eqn:E2; [|done].
    destruct (sentinel_split _ _ E1 E2) as (payload & Hn & Hb & Hd). rewrite Hd.
    destruct (parsePayload payload) as [ver cs] eqn:E3. exists (sentinelPrefix ++ payload ++ [sentinelBEL]).
    split; [|right; by exists payload]. unfold relayed. cbn [pre conn_reads]. rewrite Hb at 1. by rewrite <-!app_assoc.
Qed.

Lemma parse_clean s found : Forall (λ c, version_char c = true) found.1 -> (length found.1 <= 32)%nat ->
  Forall (λ c, version_char c = true) (foldl parse_field found s).1 /\ (length (foldl parse_field found s).1 <= 32)%nat.
Proof.
  revert found. induction s as [|kv s IH]; intros found Hf Hl; [done|]. cbn [foldl].
  apply IH; unfold parse_field; destruct (Cut kv 61) as [[k x]|]; [|done| |done];
    (destruct (beq _ _); [|by destruct (beq _ _)]); cbn [fst]; unfold sanitizeVersion.
  - apply Forall_forall. intros c Hc%list_elem_of_In%filter_In. apply Hc.
  - etrans; [apply List.filter_length_le|]. rewrite length_take. lia.
Qed.

Lemma clean_filter (p : Z -> bool) s : Forall (λ c, p c = true) (List.filter p s).
Proof. apply Forall_forall. intros c Hc%list_elem_of_In%filter_In. apply Hc. Qed.

Lemma readHandshake_step p e reads buf (q := buf ++ p) : len buf < sentinelMax -> p <> [] ->
  (HasPrefix q sentinelPrefix = true /\ IndexByte q sentinelBEL = None) \/
  (HasPrefix q sentinelPrefix = false /\ HasPrefix sentinelPrefix q = true) ->
  readHandshake ((p, e) :: reads) buf = if e then silent q reads else readHandshake reads q.
Proof.
  intros Hl Hp Hq. cbn [readHandshake]. rewrite (proj2 (Z.leb_gt _ _)) by done.
  replace (beq p []) with false by (symmetry; by apply bool_decide_eq_false). fold q.
  by destruct Hq as [[-> ->]|[-> ->]].
Qed.

Lemma prefixes_agree (s p t k : bytes) : s ++ t = p ++ k ->
  HasPrefix s p = true \/ (HasPrefix s p = false /\ HasPrefix p s = true).
Proof.
  intros E. destruct (le_lt_dec (length p) (length s)) as [Hl|Hl].
  - left. apply HasPrefix_true. exists (drop (length p) s).
    rewrite <-(take_drop (length p) s) at 1. f_equal.
    rewrite <-(take_app_le s t (length p)) by done. by rewrite E, take_app_length.
  - right. split.
    + apply not_true_iff_false. intros [u ->]%HasPrefix_true. rewrite length_app in Hl. lia.
    + apply HasPrefix_true. exists (drop (length s) p). rewrite <-(take_drop (length s) p) at 1. f_equal.
      rewrite <-(take_app_le p k (length s)) by lia. by rewrite <-E, take_app_length.
Qed.

Lemma handshake_found reads : forall buf payload t,
  Forall (λ r, r.1 <> [] /\ r.2 = false) reads -> sentinelBEL ∉ payload ->
  len (sentinelPrefix ++ payload) < sentinelMax -> (length buf <= length (sentinelPrefix ++ payload))%nat ->
  buf ++ stream reads = sentinelPrefix ++ payload ++ sentinelBEL :: t ->
  (Version (readHandshake reads buf), caps (readHandshake reads buf)) = parsePayload payload /\
  relayed (readHandshake reads buf) = t.
Proof.
  induction reads as [|[p e] reads IH]; intros buf payload t Hr Hn Hm Hl E.
  { exfalso. apply (f_equal length) in E. unfold stream in E. rewrite !length_app, length_cons in *. cbn [concat fmap list_fmap length] in E. lia. }
  apply Forall_cons in Hr as [[Hp He] Hr]. cbn in Hp, He. subst e.
  assert (E' : (buf ++ p) ++ stream reads = (sentinelPrefix ++ payload ++ [sentinelBEL]) ++ t)
    by (rewrite <-!app_assoc; exact E).
  destruct (decide (IndexByte (buf ++ p) sentinelBEL = None)) as [Hi|Hi].
  - rewrite readHandshake_step.
    + apply (IH (buf ++ p) payload t); [done..| |by rewrite E', <-!app_assoc].
      apply app_eq_inv in E' as [(k & Hk & _)|(k & Hk & _)].
      { exfalso. by rewrite (index_bel _ payload k Hn) in Hi by (by rewrite Hk, <-!app_assoc). }
      apply (f_equal length) in Hk as Hk'. rewrite !length_app in Hk'. cbn [length] in Hk'. rewrite !length_app.
      destruct k as [|b k]; [|cbn [length] in Hk'; lia]. exfalso.
      rewrite app_nil_r in Hk. by rewrite (index_bel _ payload [] Hn) in Hi by (by rewrite <-Hk).
    + unfold len in *. lia.
    + done.
    + rewrite <-!app_assoc in E'. rewrite app_assoc in E'. destruct (prefixes_agree _ _ _ _ E') as [H|H]; [left; by split|by right].
  - assert (Hx : exists k, buf ++ p = sentinelPrefix ++ payload ++ sentinelBEL :: k /\ t = k ++ stream reads).
    { apply app_eq_inv in E' as [(k & Hk & Ht)|(k & Hk & Ht)].
      - exists k. by rewrite Hk, <-!app_assoc.
      - destruct k as [|b k _] using rev_ind; [exists []; rewrite app_nil_r in Hk; by rewrite <-Hk|].
        exfalso. apply Hi. apply IndexByte_None. rewrite !app_assoc in Hk. apply app_inj_tail in Hk as [Hk _].
        intros Hin. assert (Hx : sentinelBEL ∈ sentinelPrefix ++ payload) by (rewrite Hk; apply elem_of_app; by left).
        apply elem_of_app in Hx as [Hx|Hx]; [by apply prefix_no_bel|done]. }
    destruct Hx as (k & Hb & ->). cbn [readHandshake]. rewrite (proj2 (Z.leb_gt _ _)) by (unfold len in *; lia).
    replace (beq p []) with false by (symmetry; by apply bool_decide_eq_false).
    rewrite (index_bel _ payload k Hn Hb), (proj2 (HasPrefix_true _ _)) by (rewrite Hb; by eexists).
    rewrite Hb. rewrite (app_assoc sentinelPrefix), take_app_length, drop_app_length.
    rewrite (cons_middle sentinelBEL _ k), (app_assoc _ [sentinelBEL]).
    rewrite (drop_app_length' _ k) by (rewrite !length_app; cbn; lia).
    by destruct (parsePayload payload).
Qed.

(** The handshake is transparent: whatever a door sends in whatever pieces, the
    caller can be handed all of it but one complete handshake at its very
    beginning, and nothing is advertised without one. *)
Theorem handshake_transparent (reads : list read) :
  exists sent, stream reads = sent ++ relayed (readHandshake reads []) /\ advertised (readHandshake reads []) sent.
Proof. apply (handshake_splits reads []). Qed.

(** A handshake within the limit is recognised however the door's bytes are cut
    into reads, and the game's own bytes follow it unchanged. *)
Theorem handshake_recognised (reads : list read) (payload game : bytes)
    (Hr : Forall (λ r, r.1 <> [] /\ r.2 = false) reads)
    (Hp : sentinelBEL ∉ payload) (Hl : len (sentinelPrefix ++ payload) < sentinelMax)
    (Hs : stream reads = sentinelPrefix ++ payload ++ sentinelBEL :: game) :
  let rc := readHandshake reads [] in (Version rc, caps rc) = parsePayload payload /\ relayed rc = game.
Proof. apply handshake_found; try done. cbn. lia. Qed.

(** No control bytes cross the bridge in the handshake: the version shown on the
    launch line has at most 32 SemVer characters, and the door is sent nothing,
    or, having asked, one sentinel around at most 24 handle characters. *)
Theorem bridge_clean (reads : list read) (handle : bytes) :
  let rc := readHandshake reads [] in
  Forall (λ c, version_char c = true) (Version rc) /\ (length (Version rc) <= 32)%nat /\
  (SendHandle rc handle = [] \/
   exists h, str "handle" ∈ caps rc /\ SendHandle rc handle = sentinelPrefix ++ str "handle=" ++ h ++ [sentinelBEL] /\
     Forall (λ c, handle_char c = true) h /\ (length h <= 24)%nat).
Proof.
  cbv zeta. destruct (handshake_splits reads []) as (sent & _ & Ha).
  assert (Hv : Forall (λ c, version_char c = true) (Version (readHandshake reads [])) /\
               (length (Version (readHandshake reads [])) <= 32)%nat).
  { destruct Ha as [(_ & -> & _)|(payload & _ & _ & Hp)]; [split; [done|cbn; lia]|].
    change (Version (readHandshake reads [])) with (Version (readHandshake reads []), caps (readHandshake reads [])).1.
    rewrite Hp. apply parse_clean; cbn; [done|lia]. }
  destruct Hv as [Hv Hl]. split_and!; [done|done|]. unfold SendHandle. case_bool_decide as Hc; [|by left].
  destruct (beq (sanitizeHandle handle) []); [by left|]. right. exists (sanitizeHandle handle).
  split_and!; [done|done|apply clean_filter|]. unfold sanitizeHandle. etrans; [apply List.filter_length_le|]. rewrite length_take. lia.
Qed.

(** On a Windows host the alias "win" also matches "darwin": of a release that
    lists its macOS binary first, the installer picks that one. *)
Theorem PickAsset_windows_darwin (lower : bytes -> bytes) (a b : ReleaseAsset) (tag : bytes)
    (Ha : lower (AName a) = str "door-darwin-amd64") (Hb : lower (AName b) = str "door-windows-amd64.exe") :
  PickAsset lower (str "windows") (str "amd64") (MkRelease tag [a; b]) = Some a.
Proof. unfold PickAsset. cbn [List.find Assets]. by rewrite Ha. Qed.

(** The delay before a relaunch is never more than 32 seconds and never less than one. *)
Theorem relaunch_bounded (ran : list Z) :
  let b := foldl (λ b r, (relaunch r b).2) (10 ^ 9) ran in 10 ^ 9 <= b <= 32 * 10 ^ 9.
Proof.
  cbv zeta. assert (G : forall l b, (exists k, 0 <= k <= 5 /\ b = 2 ^ k * 10 ^ 9) ->
    exists k, 0 <= k <= 5 /\ foldl (λ b r, (relaunch r b).2) b l = 2 ^ k * 10 ^ 9).
  { induction l as [|r l IH]; intros b Hb; [done|]. cbn [foldl]. apply IH. destruct Hb as (k & Hk & ->). unfold relaunch.
    destruct (30 * 10 ^ 9 <? r); cbn [snd].
    - exists 1. split; [lia|done].
    - destruct (Z.ltb_spec (2 ^ k * 10 ^ 9) (30 * 10 ^ 9)) as [H|H]; [|by exists k].
      exists (k + 1). rewrite Z.pow_add_r by lia. split; [|lia].
      destruct (decide (k = 5)) as [->|]; [exfalso; revert H; vm_compute; done|lia]. }
  destruct (G ran (10 ^ 9)) as (k & Hk & ->); [by exists 0|].
  assert (2 ^ 0 <= 2 ^ k <= 2 ^ 5) by (split; apply Z.pow_le_mono_r; lia). lia.
Qed.

(** ** Witnesses *)

Definition a_payload : bytes := str "version=1.2.3;caps=handle,color".
Definition a_banner : bytes := str "Welcome!".

Lemma handshake_recognised_witness :
  (Version (readHandshake [(sentinelPrefix ++ str "version=1.2.3;ca", false); (str "ps=handle,color" ++ 7 :: a_banner, false)] []),
   caps (readHandshake [(sentinelPrefix ++ str "version=1.2.3;ca", false); (str "ps=handle,color" ++ 7 :: a_banner, false)] []))
  = parsePayload a_payload.
Proof.
  refine (proj1 (handshake_recognised _ a_payload a_banner _ _ _ _)).
  - repeat constructor; done.
  - apply (bool_decide_eq_true_1 (_ ∉ _)). vm_compute. reflexivity.
  - vm_compute. reflexivity.
  - vm_compute. reflexivity.
Defined.

Definition lowercase (s : bytes) : bytes := s.

Lemma PickAsset_windows_darwin_witness :
  PickAsset lowercase (str "windows") (str "amd64")
    (MkRelease (str "v1") [Asset (str "door-darwin-amd64") []; Asset (str "door-windows-amd64.exe") []])
  = Some (Asset (str "door-darwin-amd64") []).
Proof. apply PickAsset_windows_darwin; reflexivity. Defined.
