(* ===== verification/Releases.v ===== *)
(** * Fetching doors (FetchRelease and DownloadBinary of src/doors/install.go)

    What the installer makes of an HTTP answer: a release, or a binary in place of
    the old one.  Each file operation of the download may fail. *)

From S2P Require Import Prelude Doors.

(** An HTTP answer: its body up to the end or to the error that cuts it off. *)
Record response := Response { StatusCode : Z; Status : bytes; Body : bytes; broken : option bytes }.

(** [io.LimitReader]: at most [n] bytes, and the error only if it comes before. *)
Fixpoint limited (n : Z) (body : bytes) (e : option bytes) : bytes * option bytes :=
  if n <=? 0 then ([], None)
  else match body with
       | [] => ([], e)
       | b :: body => let '(l, e) := limited (n - 1) body e in (b :: l, e)
       end.

(** [decode]: encoding/json on the bytes and the error after them. *)
Definition FetchRelease (decode : bytes -> option bytes -> result bytes Release) (answer : result bytes response) :
    result bytes Release :=
  match answer with
  | Err e => Err e
  | Ok resp =>
      if negb (StatusCode resp =? 200) then Err (str "release endpoint returned " ++ Status resp)
      else let '(body, e) := limited (2 ^ 20) (Body resp) (broken resp) in
           match decode body e with
           | Err e => Err (str "parse release json: " ++ e)
           | Ok rel => if beq (TagName rel) [] then Err (str "response had no tag_name (is this a releases endpoint?)") else Ok rel
           end
  end.

(** The directory: files by their path. *)
Abbreviation disk := (gmap bytes bytes).

(** What the file operations answer; [f_write] is the error of a write and how
    many bytes were written by then, [f_remove] whether a removal works. *)
Record fs_answers := FsAnswers {
  f_mkdir : option bytes; f_open : option bytes; f_write : option (nat * bytes); f_close : option bytes;
  f_chmod : option bytes; f_remove : bool; f_rename : option bytes
}.
Definition fs_fine : fs_answers := FsAnswers None None None None None true None.

Definition maxDownload : Z := 512 * 2 ^ 20.
Definition tmp_name (dest : bytes) : bytes := dest ++ str ".tmp".

(** [DownloadBinary] once the server has answered: the error and the directory. *)
Definition DownloadBinary (answer : result bytes response) (dest : bytes) (fs : fs_answers) (d : disk) : option bytes * disk :=
  match answer with
  | Err e => (Some e, d)
  | Ok resp =>
      if negb (StatusCode resp =? 200) then (Some (str "download returned " ++ Status resp), d)
      else match f_mkdir fs, f_open fs with
           | Some e, _ => (Some e, d)
           | None, Some e => (Some e, d)
           | None, None =>
               let tmp := tmp_name dest in
               let '(body, e) := limited maxDownload (Body resp) (broken resp) in
               let '(written, e) := match f_write fs with Some (n, e') => (take n body, Some e') | None => (body, e) end in
               let d1 := <[tmp := written]> d in
               let failed (e : bytes) := (Some e, if f_remove fs then delete tmp d1 else d1) in
               match e with
               | Some e => failed e
               | None =>
                   match f_close fs with
                   | Some e => failed e
                   | None =>
                       match f_chmod fs with
                       | Some e => failed e
                       | None => match f_rename fs with
                                 | Some e => (Some e, d1)
                                 | None => (None, <[dest := written]> (delete tmp d1))
                                 end
                       end
                   end
               end
           end
  end.

(** ** Lemmas *)

Lemma limited_spec n body e : let '(l, e') := limited n body e in
  exists rest, body = l ++ rest /\ len l <= Z.max 0 n /\
    (len body < n -> rest = [] /\ e' = e) /\ (n <= len body -> len l = Z.max 0 n /\ e' = None).
Proof.
  revert n. induction body as [|b body IH]; intros n; cbn [limited].
  - destruct (Z.leb_spec n 0); exists []; unfold len; cbn; (split_and!; [done|lia|intros; done || lia|intros; split; done || lia]).
  - destruct (Z.leb_spec n 0) as [Hn|Hn].
    { exists (b :: body). unfold len. cbn. split_and!; [done|lia|lia|intros; split; done || lia]. }
    specialize (IH (n - 1)). destruct (limited (n - 1) body e) as [l e']. destruct IH as (rest & -> & Hl & H1 & H2).
    exists rest. unfold len in *. cbn [length] in *. split_and!; [done|lia|intros; apply H1; lia|].
    intros. destruct H2 as [H2 ?]; [lia|]. split; [lia|done].
Qed.

Lemma tmp_other dest : tmp_name dest <> dest.
Proof. unfold tmp_name. intros E. apply (f_equal length) in E. rewrite length_app in E. by vm_compute (length (str ".tmp")) in E; lia. Qed.

(** ** Properties *)

(** The download got as far as to open its temporary file. *)
Definition opened (answer : result bytes response) (fs : fs_answers) : bool :=
  match answer with Ok resp => (StatusCode resp =? 200) && bool_decide (f_mkdir fs = None) && bool_decide (f_open fs = None) | Err _ => false end.

