(* ===== verification/Relay.v ===== *)
(** * A caller in a resident door (Relay of src/doors/bridge.go, playDoor of src/menu/doors.go)

    Two goroutines copy between the caller and the game; [Relay] returns when the
    first of them ends, the connection is closed, and the screen that started the
    door reads on from the same session.  Each read and each write of a copy is a
    step; how many bytes a read gets is any positive number of those there.  A write
    to the caller can fail at any time, after any part of its bytes. *)

From S2P Require Import Prelude.

(** ** State *)

(** An [io.Copy]: not started, in Read, about to write what it read, ended. *)
Inductive copier := NotYet | Reading | Holding (buf : bytes) | Ended.

(** [Relay]: still replaying, waiting on [done], returned with the connection closed. *)
Inductive place := Replaying | Waiting | Returned.

Record relay := MkRelay {
  caller_in : bytes;     (** the caller's input from here on *)
  caller_out : bytes;    (** what was written to the caller *)
  door_in : bytes;       (** what the game was sent *)
  door_out : bytes;      (** the game's output from here on *)
  up : copier;           (** caller -> game *)
  down : copier;         (** game -> caller *)
  place_ : place;
  gone : bool;           (** the game has hung up *)
  lost : bytes;          (** input whose write to the game failed *)
  screen : bytes;        (** input read by the screen after [Relay] *)
  late : nat;            (** reads of the first copy after [Relay] returned *)
  cut : bool             (** a write to the caller has failed *)
}.

Definition start (input output : bytes) : relay :=
  MkRelay input [] [] output NotYet NotYet Replaying false [] [] 0 false.

Definition open_ (s : relay) : Prop := place_ s = Waiting.

(** ** Steps *)

Definition replay (pre : bytes) (s : relay) : relay :=
  MkRelay (caller_in s) (caller_out s ++ pre) (door_in s) (door_out s) Reading Reading Waiting (gone s) (lost s) (screen s) (late s) (cut s).
(** The caller took [k] of the bytes and the write failed: [Relay] returns at once. *)
Definition replay_fail (k : nat) (pre : bytes) (s : relay) : relay :=
  MkRelay (caller_in s) (caller_out s ++ take k pre) (door_in s) (door_out s) (up s) (down s) Returned (gone s) (lost s) (screen s)
    (late s) true.
Definition up_read (k : nat) (s : relay) : relay :=
  MkRelay (drop k (caller_in s)) (caller_out s) (door_in s) (door_out s) (Holding (take k (caller_in s))) (down s) (place_ s)
    (gone s) (lost s) (screen s) (match place_ s with Returned => S (late s) | _ => late s end) (cut s).
Definition up_write (b : bytes) (s : relay) : relay :=
  MkRelay (caller_in s) (caller_out s) (door_in s ++ b) (door_out s) Reading (down s) (place_ s) (gone s) (lost s) (screen s) (late s) (cut s).
Definition up_fail (b : bytes) (s : relay) : relay :=
  MkRelay (caller_in s) (caller_out s) (door_in s) (door_out s) Ended (down s) (place_ s) (gone s) (lost s ++ b) (screen s) (late s) (cut s).
Definition down_read (k : nat) (s : relay) : relay :=
  MkRelay (caller_in s) (caller_out s) (door_in s) (drop k (door_out s)) (up s) (Holding (take k (door_out s))) (place_ s)
    (gone s) (lost s) (screen s) (late s) (cut s).
Definition down_write (b : bytes) (s : relay) : relay :=
  MkRelay (caller_in s) (caller_out s ++ b) (door_in s) (door_out s) (up s) Reading (place_ s) (gone s) (lost s) (screen s) (late s) (cut s).
(** The same in the copy, which ends; what is left of its buffer is gone. *)
Definition down_fail (k : nat) (b : bytes) (s : relay) : relay :=
  MkRelay (caller_in s) (caller_out s ++ take k b) (door_in s) (door_out s) (up s) Ended (place_ s) (gone s) (lost s) (screen s) (late s)
    true.
Definition down_end (s : relay) : relay :=
  MkRelay (caller_in s) (caller_out s) (door_in s) (door_out s) (up s) Ended (place_ s) (gone s) (lost s) (screen s) (late s) (cut s).
Definition up_end (s : relay) : relay :=
  MkRelay (caller_in s) (caller_out s) (door_in s) (door_out s) Ended (down s) (place_ s) (gone s) (lost s) (screen s) (late s) (cut s).
(** The game hangs up, its output so far still on the way. *)
Definition hang_up (k : nat) (s : relay) : relay :=
  MkRelay (caller_in s) (caller_out s) (door_in s) (take k (door_out s)) (up s) (down s) (place_ s) true (lost s) (screen s) (late s) (cut s).
Definition return_ (s : relay) : relay :=
  MkRelay (caller_in s) (caller_out s) (door_in s) (door_out s) (up s) (down s) Returned (gone s) (lost s) (screen s) (late s) (cut s).
Definition key (b : Z) (l : bytes) (s : relay) : relay :=
  MkRelay l (caller_out s) (door_in s) (door_out s) (up s) (down s) (place_ s) (gone s) (lost s) (screen s ++ [b]) (late s) (cut s).

Inductive step (pre : bytes) : relay -> relay -> Prop :=
  | s_replay s : place_ s = Replaying -> step pre s (replay pre s)
  | s_replay_fail k s : place_ s = Replaying -> pre <> [] -> step pre s (replay_fail k pre s)
  | s_up_read k s : up s = Reading -> (0 < k <= length (caller_in s))%nat -> step pre s (up_read k s)
  | s_up_write b s : up s = Holding b -> open_ s -> step pre s (up_write b s)
  | s_up_fail b s : up s = Holding b -> gone s = true \/ place_ s = Returned -> step pre s (up_fail b s)
  | s_up_end s : up s = Reading -> caller_in s = [] -> step pre s (up_end s)
  | s_down_read k s : down s = Reading -> open_ s -> (0 < k <= length (door_out s))%nat -> step pre s (down_read k s)
  | s_down_write b s : down s = Holding b -> step pre s (down_write b s)
  | s_down_fail k b s : down s = Holding b -> step pre s (down_fail k b s)
  | s_down_end s : down s = Reading -> (gone s = true /\ door_out s = []) \/ place_ s = Returned -> step pre s (down_end s)
  | s_hang_up k s : step pre s (hang_up k s)
  | s_return s : open_ s -> up s = Ended \/ down s = Ended -> step pre s (return_ s)
  | s_key b l s : place_ s = Returned -> caller_in s = b :: l -> step pre s (key b l s).

Definition reachable (pre input output : bytes) (s : relay) : Prop := rtc (step pre) (start input output) s.

(** ** Lemmas *)

Definition held (c : copier) : bytes := match c with Holding b => b | _ => [] end.

Record inv (pre input output : bytes) (s : relay) : Prop := {
  v_out : place_ s <> Replaying -> cut s = false -> (caller_out s ++ held (down s) ++ door_out s) `prefix_of` (pre ++ output);
  v_cut : cut s = true -> caller_out s `prefix_of` (pre ++ output) /\ (down s = Ended \/ down s = NotYet /\ place_ s = Returned);
  v_idle : up s = NotYet -> door_in s = [] /\ lost s = [] /\ input = screen s ++ caller_in s;
  v_start : place_ s = Replaying -> cut s = false /\ caller_out s = [] /\ down s = NotYet /\ up s = NotYet /\ door_out s `prefix_of` output;
  v_in : place_ s <> Returned -> screen s = [] /\ late s = 0%nat /\ input = door_in s ++ lost s ++ held (up s) ++ caller_in s;
  v_lost : lost s <> [] -> up s = Ended /\ (gone s = true \/ place_ s = Returned);
  v_sent : door_in s `prefix_of` input;
  v_all : Permutation input (door_in s ++ lost s ++ held (up s) ++ screen s ++ caller_in s);
  v_late : (late s <= match up s with Reading | NotYet => 0 | _ => 1 end)%nat;
  v_eof : open_ s -> cut s = false -> down s = Ended -> gone s = true /\ door_out s = []
}.

Lemma relay_start_inv pre input output : inv pre input output (start input output).
Proof. split; cbn; try done. by exists input. Qed.

(** Nothing was lost while the first copy is still at work. *)
Lemma none_lost pre input output s : inv pre input output s -> up s <> Ended -> lost s = [].
Proof. intros V Hu. destruct (lost s) eqn:E; [done|]. destruct (v_lost _ _ _ _ V) as [? _]; [by rewrite E|done]. Qed.

(** A copy that has bytes or waits for them has met no failing write. *)
Lemma not_cut pre input output s : inv pre input output s -> down s <> Ended -> down s <> NotYet -> cut s = false.
Proof. intros V H1 H2. destruct (cut s) eqn:E; [|done]. by destruct (v_cut _ _ _ _ V E) as [_ [?|[? _]]]. Qed.

(** Writes to the caller: what is written next is a beginning of what is owed. *)
Lemma some_of (l b m all : bytes) k : (l ++ b ++ m) `prefix_of` all -> (l ++ take k b) `prefix_of` all.
Proof. intros Hp. etrans; [|done]. exists (drop k b ++ m). by rewrite <-app_assoc, (app_assoc (take k b)), take_drop. Qed.

Lemma relay_step_inv pre input output s s' : step pre s s' -> inv pre input output s -> inv pre input output s'.
Proof.
  intros St V. pose proof V as [V1 Vc Vi V2 V3 V4 V5 V6 V7 V8].
  pose proof (none_lost _ _ _ _ V) as Vl. pose proof (not_cut _ _ _ _ V) as Vn.
  destruct St as [s Hp|k s Hp Hpre|k s Hu Hk|b s Hu Ho|b s Hu Hg|s Hu Hi|k s Hd Ho Hk|b s Hd|k b s Hd|s Hd Hg|k s|s Ho He|b l s Hp Hi].
  - destruct (V2 Hp) as (Ec & E1 & E2 & E3 & Hpre). destruct V3 as (? & ? & E); [by rewrite Hp|].
    split; cbn; rewrite ?E3, ?Ec in *; try done; [|by rewrite Vl].
    intros _ _. rewrite E1. by apply prefix_app.
  - destruct (V2 Hp) as (Ec & E1 & E2 & E3 & Hout). split; cbn; try done.
    + intros _. rewrite E1. split; [by apply prefix_app_r, prefix_take|by right].
    + intros Hx. by rewrite Vl in Hx; rewrite ?E3.
  - rewrite Hu in *. split; cbn; try done.
    + intros Hp. by destruct (V2 Hp) as (_ & _ & _ & ? & _).
    + intros Hp. destruct (V3 Hp) as (? & ? & E). destruct (place_ s); try done; (split_and!; [done|done|by rewrite take_drop]).
    + intros Hx. by destruct (V4 Hx) as [? _].
    + rewrite V6. cbn. do 2 apply Permutation_app_head. rewrite <-(take_drop k (caller_in s)) at 1. apply Permutation_app_swap_app.
    + destruct (place_ s); lia.
  - unfold open_ in Ho. specialize (Vl ltac:(by rewrite Hu)). destruct V3 as (Hs & Hl & E); [by rewrite Ho|].
    rewrite Hu, Vl, Hs in *. cbn in *. split; cbn; rewrite ?Vl, ?Hs, ?Ho; try done.
    + intros _. apply V1. by rewrite Ho.
    + intros Hx. by destruct (Vc Hx) as [? [?|[_ ?]]]; [auto|congruence].
    + intros _. split_and!; [done|done|]. by rewrite E, <-app_assoc.
    + rewrite E, app_assoc. by apply prefix_app_r.
    + by rewrite E, <-app_assoc.
    + lia.
  - specialize (Vl ltac:(by rewrite Hu)). rewrite Hu, Vl in *. cbn in *. split; cbn; rewrite ?Vl; try done.
    intros Hp. by destruct (V2 Hp) as (_ & _ & _ & ? & _).
  - rewrite Hu in *. split; cbn; try done.
    + intros Hp. by destruct (V2 Hp) as (_ & _ & _ & ? & _).
    + intros Hx. by destruct (V4 Hx) as [? _].
    + lia.
  - unfold open_ in Ho. rewrite Hd, Ho in *. cbn in *. split; cbn; rewrite ?Ho; try done.
    + intros _ Ec. by rewrite take_drop, V1.
    + intros Hx. by rewrite Vn in Hx.
  - rewrite Hd in *. cbn in *. split; cbn; try done.
    + intros Hp Ec. rewrite <-app_assoc. by apply V1.
    + intros Hx. by rewrite Vn in Hx.
    + intros Hp. by destruct (V2 Hp) as (_ & _ & ? & _).
  - rewrite Hd in *. cbn in *. split; cbn; try done.
    + intros _. split; [|by left]. eapply some_of, V1; [|by apply Vn].
      intros Hp. by destruct (V2 Hp) as (_ & _ & ? & _).
    + intros Hp. by destruct (V2 Hp) as (_ & _ & ? & _).
  - rewrite Hd in *. split; cbn; try done.
    + intros Hx. by rewrite Vn in Hx.
    + intros Hp. by destruct (V2 Hp) as (_ & _ & ? & _).
    + intros Hp _ _. unfold open_ in Hp. cbn in Hp. destruct Hg as [?|Hg]; [done|congruence].
  - assert (take k (door_out s) `prefix_of` door_out s) as Hk by apply prefix_take. split; cbn; try done.
    + intros Hp Ec. etrans; [|by apply V1]. by do 2 apply prefix_app.
    + intros Hp. destruct (V2 Hp) as (? & ? & ? & ? & ?). split_and!; try done. by etrans.
    + intros Hx. destruct (V4 Hx) as [? _]. eauto.
    + intros Hp Ec He. destruct (V8 Hp Ec He) as [? ->]. by rewrite take_nil.
  - unfold open_ in Ho. split; cbn; try done.
    + intros _. apply V1. by rewrite Ho.
    + intros Hx. destruct (Vc Hx) as [? [?|[? _]]]; eauto.
    + intros Hx. destruct (V4 Hx) as [? _]. eauto.
  - rewrite Hi in *. split; cbn; try done; try (by rewrite ?Hp).
    + intros Hu. destruct (Vi Hu) as (? & ? & ->). split_and!; [done|done|]. by rewrite <-app_assoc.
    + rewrite V6. by rewrite <-!app_assoc.
Qed.

Lemma relay_inv pre input output s : reachable pre input output s -> inv pre input output s.
Proof.
  assert (forall s1 s2, rtc (step pre) s1 s2 -> inv pre input output s1 -> inv pre input output s2) as R.
  { induction 1; [done|]. intros. eauto using relay_step_inv. }
  intros Hr. apply (R _ _ Hr), relay_start_inv.
Qed.

(** ** Properties *)


(** ** Witnesses *)

(** A game that greets and hangs up before anything is typed. *)
Definition after_greeting : relay := return_ (down_end (down_write (str "bye") (down_read 3 (hang_up 3 (replay [] (start (str "qx") (str "bye"))))))).

Lemma after_greeting_reachable : reachable [] (str "qx") (str "bye") after_greeting.
Proof.
  unfold after_greeting, reachable.
  eapply rtc_l; [by apply s_replay|]. eapply rtc_l; [apply (s_hang_up [] 3)|].
  eapply rtc_l; [apply (s_down_read [] 3); [done|done|cbn; lia]|]. eapply rtc_l; [by apply s_down_write|].
  eapply rtc_l; [apply s_down_end; [done|by left]|]. apply rtc_once, s_return; [done|by right].
Defined.

(** The caller's line goes down after two bytes of the greeting. *)
Definition cut_short : relay := return_ (down_fail 2 (str "bye") (down_read 3 (replay [] (start (str "qx") (str "bye"))))).

Lemma cut_short_reachable : reachable [] (str "qx") (str "bye") cut_short.
Proof.
  unfold cut_short, reachable. eapply rtc_l; [by apply s_replay|].
  eapply rtc_l; [apply (s_down_read [] 3); [done|done|cbn; lia]|]. eapply rtc_l; [by apply s_down_fail|].
  apply rtc_once, s_return; [done|by right].
Defined.

