(* ===== verification/World.v ===== *)
(** * One caller's world, and programs over it

    What a screen of src/menu can touch: the caller's session, every table of
    the database, the record of the logged-in member the screens share by
    pointer, the audit trail and the clock.  A screen is a [flow]: a program that
    reads and changes the world and may stop early.  The end of the file is the
    logic its properties are proved in. *)

From S2P Require Import Prelude Doors Wire Xmodem GoStrings Base64 GoTime Vault Sql Users Credentials Boards Mail Files AuditLog.
From S2P Require Import SessionLog Bans DoorStore Input Screen Terminal Login.

(** ** State *)

(** The database and the library's blobs ([store.Store]). *)
Record bbs := Bbs {
  db_users : users;
  db_memberships : table membershipRow;
  db_keys : table keyRow;
  db_tokens : table tokenRow;
  db_anomalies : table anomalyRow;
  db_areas : areas;
  db_messages : messages;
  db_pointers : readPointers;
  db_mail : mailbox;
  db_blocks : blocks;
  db_reports : table reportRow;
  db_fareas : fareas;
  db_files : library;
  db_bans : bans;
  db_doors : doors;
  db_installed : installed;
  db_settings : settings;
  db_log : table logRow
}.

Definition put_users (x : users) (b : bbs) : bbs :=
  Bbs x (db_memberships b) (db_keys b) (db_tokens b) (db_anomalies b) (db_areas b) (db_messages b) (db_pointers b)
     (db_mail b) (db_blocks b) (db_reports b) (db_fareas b) (db_files b) (db_bans b) (db_doors b) (db_installed
     b) (db_settings b) (db_log b).
Definition put_memberships (x : table membershipRow) (b : bbs) : bbs :=
  Bbs (db_users b) x (db_keys b) (db_tokens b) (db_anomalies b) (db_areas b) (db_messages b) (db_pointers b)
     (db_mail b) (db_blocks b) (db_reports b) (db_fareas b) (db_files b) (db_bans b) (db_doors b) (db_installed
     b) (db_settings b) (db_log b).
Definition put_keys (x : table keyRow) (b : bbs) : bbs :=
  Bbs (db_users b) (db_memberships b) x (db_tokens b) (db_anomalies b) (db_areas b) (db_messages b) (db_pointers
     b) (db_mail b) (db_blocks b) (db_reports b) (db_fareas b) (db_files b) (db_bans b) (db_doors b)
     (db_installed b) (db_settings b) (db_log b).
Definition put_tokens (x : table tokenRow) (b : bbs) : bbs :=
  Bbs (db_users b) (db_memberships b) (db_keys b) x (db_anomalies b) (db_areas b) (db_messages b) (db_pointers b)
     (db_mail b) (db_blocks b) (db_reports b) (db_fareas b) (db_files b) (db_bans b) (db_doors b) (db_installed
     b) (db_settings b) (db_log b).
Definition put_anomalies (x : table anomalyRow) (b : bbs) : bbs :=
  Bbs (db_users b) (db_memberships b) (db_keys b) (db_tokens b) x (db_areas b) (db_messages b) (db_pointers b)
     (db_mail b) (db_blocks b) (db_reports b) (db_fareas b) (db_files b) (db_bans b) (db_doors b) (db_installed
     b) (db_settings b) (db_log b).
Definition put_areas (x : areas) (b : bbs) : bbs :=
  Bbs (db_users b) (db_memberships b) (db_keys b) (db_tokens b) (db_anomalies b) x (db_messages b) (db_pointers b)
     (db_mail b) (db_blocks b) (db_reports b) (db_fareas b) (db_files b) (db_bans b) (db_doors b) (db_installed
     b) (db_settings b) (db_log b).
Definition put_messages (x : messages) (b : bbs) : bbs :=
  Bbs (db_users b) (db_memberships b) (db_keys b) (db_tokens b) (db_anomalies b) (db_areas b) x (db_pointers b)
     (db_mail b) (db_blocks b) (db_reports b) (db_fareas b) (db_files b) (db_bans b) (db_doors b) (db_installed
     b) (db_settings b) (db_log b).
Definition put_pointers (x : readPointers) (b : bbs) : bbs :=
  Bbs (db_users b) (db_memberships b) (db_keys b) (db_tokens b) (db_anomalies b) (db_areas b) (db_messages b) x
     (db_mail b) (db_blocks b) (db_reports b) (db_fareas b) (db_files b) (db_bans b) (db_doors b) (db_installed
     b) (db_settings b) (db_log b).
Definition put_mail (x : mailbox) (b : bbs) : bbs :=
  Bbs (db_users b) (db_memberships b) (db_keys b) (db_tokens b) (db_anomalies b) (db_areas b) (db_messages b)
     (db_pointers b) x (db_blocks b) (db_reports b) (db_fareas b) (db_files b) (db_bans b) (db_doors b)
     (db_installed b) (db_settings b) (db_log b).
Definition put_blocks (x : blocks) (b : bbs) : bbs :=
  Bbs (db_users b) (db_memberships b) (db_keys b) (db_tokens b) (db_anomalies b) (db_areas b) (db_messages b)
     (db_pointers b) (db_mail b) x (db_reports b) (db_fareas b) (db_files b) (db_bans b) (db_doors b)
     (db_installed b) (db_settings b) (db_log b).
Definition put_reports (x : table reportRow) (b : bbs) : bbs :=
  Bbs (db_users b) (db_memberships b) (db_keys b) (db_tokens b) (db_anomalies b) (db_areas b) (db_messages b)
     (db_pointers b) (db_mail b) (db_blocks b) x (db_fareas b) (db_files b) (db_bans b) (db_doors b)
     (db_installed b) (db_settings b) (db_log b).
Definition put_fareas (x : fareas) (b : bbs) : bbs :=
  Bbs (db_users b) (db_memberships b) (db_keys b) (db_tokens b) (db_anomalies b) (db_areas b) (db_messages b)
     (db_pointers b) (db_mail b) (db_blocks b) (db_reports b) x (db_files b) (db_bans b) (db_doors b)
     (db_installed b) (db_settings b) (db_log b).
Definition put_files (x : library) (b : bbs) : bbs :=
  Bbs (db_users b) (db_memberships b) (db_keys b) (db_tokens b) (db_anomalies b) (db_areas b) (db_messages b)
     (db_pointers b) (db_mail b) (db_blocks b) (db_reports b) (db_fareas b) x (db_bans b) (db_doors b)
     (db_installed b) (db_settings b) (db_log b).
Definition put_bans (x : bans) (b : bbs) : bbs :=
  Bbs (db_users b) (db_memberships b) (db_keys b) (db_tokens b) (db_anomalies b) (db_areas b) (db_messages b)
     (db_pointers b) (db_mail b) (db_blocks b) (db_reports b) (db_fareas b) (db_files b) x (db_doors b)
     (db_installed b) (db_settings b) (db_log b).
Definition put_doors (x : doors) (b : bbs) : bbs :=
  Bbs (db_users b) (db_memberships b) (db_keys b) (db_tokens b) (db_anomalies b) (db_areas b) (db_messages b)
     (db_pointers b) (db_mail b) (db_blocks b) (db_reports b) (db_fareas b) (db_files b) (db_bans b) x
     (db_installed b) (db_settings b) (db_log b).
Definition put_installed (x : installed) (b : bbs) : bbs :=
  Bbs (db_users b) (db_memberships b) (db_keys b) (db_tokens b) (db_anomalies b) (db_areas b) (db_messages b)
     (db_pointers b) (db_mail b) (db_blocks b) (db_reports b) (db_fareas b) (db_files b) (db_bans b) (db_doors
     b) x (db_settings b) (db_log b).
Definition put_settings (x : settings) (b : bbs) : bbs :=
  Bbs (db_users b) (db_memberships b) (db_keys b) (db_tokens b) (db_anomalies b) (db_areas b) (db_messages b)
     (db_pointers b) (db_mail b) (db_blocks b) (db_reports b) (db_fareas b) (db_files b) (db_bans b) (db_doors
     b) (db_installed b) x (db_log b).
Definition put_log (x : table logRow) (b : bbs) : bbs :=
  Bbs (db_users b) (db_memberships b) (db_keys b) (db_tokens b) (db_anomalies b) (db_areas b) (db_messages b)
     (db_pointers b) (db_mail b) (db_blocks b) (db_reports b) (db_fareas b) (db_files b) (db_bans b) (db_doors
     b) (db_installed b) (db_settings b) x.

(** [me]: the [*store.User] the screens hold; [cb]: the session's colour-blind
    flag; [names]: the handle cache of the screen that runs; [sup]: the supervised
    doors, which all callers share. *)
Record state := State {
  io : session; db : bbs; me : User; cb : bool; names : gmap Z bytes; trail : list Event; ticks : nat; sup : supervisor
}.

Definition with_io (s : session) (w : state) : state := State s (db w) (me w) (cb w) (names w) (trail w) (ticks w) (sup w).
Definition with_db (b : bbs) (w : state) : state := State (io w) b (me w) (cb w) (names w) (trail w) (ticks w) (sup w).
Definition with_me (u : User) (w : state) : state := State (io w) (db w) u (cb w) (names w) (trail w) (ticks w) (sup w).
Definition with_cb (b : bool) (w : state) : state := State (io w) (db w) (me w) b (names w) (trail w) (ticks w) (sup w).
Definition with_trail (l : list Event) (w : state) : state := State (io w) (db w) (me w) (cb w) (names w) l (ticks w) (sup w).
Definition with_names (m : gmap Z bytes) (w : state) : state := State (io w) (db w) (me w) (cb w) m (trail w) (ticks w) (sup w).
Definition tick_on (w : state) : state := State (io w) (db w) (me w) (cb w) (names w) (trail w) (S (ticks w)) (sup w).
Definition with_sup (x : supervisor) (w : state) : state :=
  State (io w) (db w) (me w) (cb w) (names w) (trail w) (ticks w) x.

(** ** Programs *)

(** Why a screen stops early: the caller hung up, the store failed, a Go panic,
    or the fuel of a loop ran out (which never happens: see [tame]). *)
Inductive stop := Hangup | Failed (e : err) | Crash | OutOfFuel.

Definition flow (A : Type) : Type := state -> result stop A * state.

#[export] Instance flow_ret : MRet flow := λ A a w, (Ok a, w).
#[export] Instance flow_bind : MBind flow :=
  λ A B f m w, match m w with (Ok a, w') => f a w' | (Err e, w') => (Err e, w') end.

Definition halt {A} (e : stop) : flow A := λ w, (Err e, w).
Definition ask {A} (f : state -> A) : flow A := λ w, (Ok (f w), w).
Definition change (f : state -> state) : flow () := λ w, (Ok (), f w).

(** A query, and a query whose error is returned to the screen's caller. *)
Definition query {A} (f : bbs -> A) : flow A := ask (λ w, f (db w)).
Definition query_or_fail {A} (f : bbs -> result err A) : flow A :=
  λ w, match f (db w) with Ok a => (Ok a, w) | Err e => (Err (Failed e), w) end.

(** A statement: its result and the database afterwards. *)
Definition exec {A} (f : bbs -> A * bbs) : flow A := λ w, let '(a, b) := f (db w) in (Ok a, with_db b w).
Definition or_fail {A} (m : flow (result err A)) : flow A :=
  r ← m; match r with Ok a => mret a | Err e => halt (Failed e) end.

(** The readers of the session: an error ends the screen, or is dropped ([_]). *)
Definition reading {A} (f : session -> option A * session) : flow A :=
  λ w, let '(r, s) := f (io w) in (match r with Some a => Ok a | None => Err Hangup end, with_io s w).
Definition readLine : flow bytes := reading ReadLine.
Definition readPassword : flow bytes := reading ReadPassword.
Definition readKey : flow Z := reading ReadKey.
(** The readers whose error the screen itself handles. *)
Definition trying {A} (f : session -> option A * session) : flow (option A) :=
  λ w, let '(r, s) := f (io w) in (Ok r, with_io s w).
Definition try_readLine : flow (option bytes) := trying ReadLine.
Definition try_readPassword : flow (option bytes) := trying ReadPassword.
Definition readLine_ : flow bytes := λ w, let '(r, s) := ReadLine (io w) in (Ok (default [] r), with_io s w).
Definition readKey_ : flow Z := λ w, let '(r, s) := ReadKey (io w) in (Ok (default 0 r), with_io s w).
Definition anyKey_ : flow () := _ ← readKey_; mret ().

(** A Go [for] loop: the body goes on with a new state or returns. *)
Fixpoint iter {S A} (n : nat) (body : S -> flow (S + A)) (s : S) : flow A :=
  match n with
  | O => halt OutOfFuel
  | Datatypes.S n' => r ← body s; match r with inl s' => iter n' body s' | inr a => mret a end
  end.

(** Every round of a loop reads at least one byte, so the unread bytes bound it. *)
Definition forever {S A} (body : S -> flow (S + A)) (s : S) : flow A :=
  λ w, iter (Datatypes.S (length (s_in (io w)))) body s w.

(** The environment of the run: the vault, the connection, by ticks the clock, the
    random source and what becomes of the next write to the disk, the texts of
    errors, and [strings.ToLower], [strings.ToUpper] and [strconv.Quote], whose
    Unicode tables are not modelled. *)
Class Env := {
  vault : Vault;
  conn : caller;
  clock : nat -> Z;
  rnd : nat -> bytes;
  disk : nat -> saving;
  err_text : err -> bytes;
  xerr_text : xerr -> bytes;
  base64_text : bytes -> bytes;
  lower : bytes -> bytes;
  to_upper : bytes -> bytes;
  quote : bytes -> bytes
}.

Section Ops.
Context `{Env}.

Definition time_now : flow Z := λ w, (Ok (clock (ticks w)), tick_on w).
Definition random : flow bytes := λ w, (Ok (rnd (ticks w)), tick_on w).
Definition disk_write : flow saving := λ w, (Ok (disk (ticks w)), tick_on w).

(** A routine on the raw connection ([Session.Raw]): its bytes come from the
    session's reader, one reset of the idle watchdog each, and writes succeed. *)
Definition raw {A} (m : wireM xerr A) : flow (result xerr A) :=
  λ w, let '(r, x) := m (Wire (s_in (io w)) [] None) in
       (Ok r, with_io {| s_in := w_in x; s_out := s_out (io w) ++ w_out x;
                         s_resets := s_resets (io w) + (length (s_in (io w)) - length (w_in x)) |} w).

(** A [screen.Writer] on the session. *)
Definition draw (f : Writer -> Writer) : flow () :=
  change (λ w, with_io (emit (out (f (Screen.New (ANSI (cl_cap conn)) (Terminal.Cols (cl_cap conn)) (Some (cb w)))))
                             (io w)) w).

(** [Session.Activity]: the audit trail, and the session log that mirrors it. *)
Definition log_event `{Crypto} (e : Event) (nonce : bytes) (w : state) : state :=
  with_trail (trail w ++ [e]) (with_db (put_log (SessionLog_Emit vault nonce e (db_log (db w))) (db w)) w).

Definition activity `{Crypto} (action detail : bytes) : flow () :=
  t ← time_now; nonce ← random;
  change (log_event (MkEvent t TypeActivity (cl_id conn) (cl_ip conn) (cl_transport conn) (cl_username conn)
                       action detail 0) nonce).
End Ops.

(** ** Text *)

(** Two calls on the writer. *)
Notation "f >> g" := (λ s, g (f s)) (at level 61, left associativity) : go_scope.

(** [strings.EqualFold(in, c)] for a lower-case ASCII letter [c]: the letter in
    either case, and the two other runes that fold to ASCII letters. *)
Definition fold_is (c : Z) (s : bytes) : bool :=
  beq s [c] || beq s [c - 32] || ((c =? 115) && beq s [197; 191]) || ((c =? 107) && beq s [226; 132; 170]).

(** [toLower], [upper] and [trunc] of the menu package. *)
Definition toLower (b : Z) : Z := if (65 <=? b) && (b <=? 90) then b + 32 else b.
Definition upper (b : Z) : Z := if (97 <=? b) && (b <=? 122) then b - 32 else b.
Definition trunc (s : bytes) (n : nat) : bytes := if (n <? length s)%nat then take n s else s.

Definition firstLine (s : bytes) : bytes := match IndexByte s 10 with Some i => take i s | None => s end.

(** [time.Time.Format] of the layouts "2006-01-02" and "2006-01-02 15:04". *)
Definition fmt_date (t : Z) : bytes := date_text (civil_from_days (t / Day)).
Definition fmt_minute (t : Z) : bytes := fmt_date t ++ [32] ++ two (t / Hour mod 24) ++ [58] ++ two (t / Minute mod 60).

(** [%-*s] and [%-*d]: padded on the right, counting runes. *)
Definition rune_count (s : bytes) : nat := length (List.filter (λ b, negb ((128 <=? b) && (b <? 192))) s).
Definition pad_right (n : nat) (s : bytes) : bytes := s ++ replicate (n - rune_count s) 32.

(** ** pager.go *)

Definition pageSize : Z := 15.

Definition pageWindow (n page : Z) : Z * Z * Z :=
  let pages := Z.max 1 ((n + pageSize - 1) / pageSize) in
  let page := if page <? 0 then 0 else page in
  let page := if pages <=? page then pages - 1 else page in
  let lo := page * pageSize in
  (lo, Z.min n (lo + pageSize), pages).

Definition clampPage (page pages : Z) : Z := if page <? 0 then 0 else if pages <=? page then pages - 1 else page.

Definition pageFooter (page pages : Z) (s : Writer) : Writer :=
  if pages <=? 1 then s
  else Reset (Print (str "  -- page " ++ Itoa (page + 1) ++ str "/" ++ Itoa pages ++ str " --  [>] next  [<] prev" ++ CRLF)
               (Color Blue s)).

(** The rows of a page, numbered as listed. *)
Definition window {A} (lo hi : Z) (l : list A) : list (Z * A) :=
  imap (λ i a, (lo + Z.of_nat i, a)) (take (Z.to_nat (hi - lo)) (drop (Z.to_nat lo) l)).

(** Draw each element in turn. *)
Definition each {A} (f : A -> Writer -> Writer) (l : list A) (s : Writer) : Writer := foldl (λ s a, f a s) s l.

(** Pick an entry by its number: [n, perr := strconv.Atoi(in); perr == nil && n >= 1 && n <= len(l)]. *)
Definition pick {A} (s : bytes) (l : list A) : option A :=
  match Atoi s with
  | Some n => if (1 <=? n) && (n <=? len l) then l !! Z.to_nat (n - 1) else None
  | None => None
  end.

(** Leaving a list: a blank line, [q] or [x]. *)
Definition quits (s : bytes) : bool := beq s [] || fold_is 113 s || fold_is 120 s.

(** Do something for each element in turn. *)
Fixpoint for_each {A} (f : A -> flow ()) (l : list A) : flow () :=
  match l with [] => mret () | a :: l' => f a ;; for_each f l' end.

(** [prompt], and the lines up to a single dot. *)
Definition ask_line `{Env} (label : bytes) : flow bytes :=
  draw (Color Green >> Print (CRLF ++ label) >> Screen.Reset)%go ;;
  v ← readLine_; mret (TrimSpace v).

Definition readBody : flow (list bytes) :=
  forever (λ lines, line ← readLine;
    if beq line [46] then mret (inr lines) else mret (inl (lines ++ [line]))) [].

(** [newHandleCache], [handleCache.handle]. *)
Definition newHandleCache : flow () := change (with_names ∅).

Definition handle `{Crypto, Env} (id : Z) : flow bytes := λ w,
  match names w !! id with
  | Some h => (Ok h, w)
  | None =>
      let h := match Users_ByID vault id (db_users (db w)) with Ok u => Handle u | Err _ => str "unknown" end in
      (Ok h, with_names (<[id := h]> (names w)) w)
  end.

(** ** The logic *)

Lemma bind_run {A B} (m : flow A) (k : A -> flow B) w :
  (m ≫= k) w = match m w with (Ok a, w') => k a w' | (Err e, w') => (Err e, w') end.
Proof. done. Qed.

(** *** Invariants: [m] keeps [I], and its results satisfy [Q] *)

(** The same data but for the session log, and the same member. *)
Definition still (w w' : state) : Prop := db w' = put_log (db_log (db w')) (db w) /\ me w' = me w.

Lemma still_same w w' : db w' = db w -> me w' = me w -> still w w'.
Proof. intros Hd Hm. split; [|done]. rewrite Hd. by destruct (db w). Qed.

Lemma still_trans w1 w2 w3 : still w1 w2 -> still w2 w3 -> still w1 w3.
Proof. intros [H1 H2] [H3 H4]. split; [|congruence]. rewrite H3, H1. done. Qed.

Class Stable (I : state -> Prop) : Prop := stable w w' : still w w' -> I w -> I w'.

Definition keeps (I : state -> Prop) {A} (m : flow A) (Q : A -> Prop) : Prop :=
  forall w, I w -> I (m w).2 /\ forall a, (m w).1 = Ok a -> Q a.

Section Keeps.
Context (I : state -> Prop) `{!Stable I}.

Lemma keeps_ret {A} (a : A) (Q : A -> Prop) : Q a -> keeps I (mret a) Q.
Proof. intros Hq w Hw. split; [done|]. by intros b [= <-]. Qed.

Lemma keeps_bind {A B} (m : flow A) (k : A -> flow B) (P : A -> Prop) (Q : B -> Prop) :
  keeps I m P -> (forall a, P a -> keeps I (k a) Q) -> keeps I (m ≫= k) Q.
Proof.
  intros Hm Hk w Hw. rewrite bind_run. destruct (Hm w Hw) as [Hi Hp]. destruct (m w) as [[a|e] w1]; [|by split].
  by apply Hk; [apply Hp|].
Qed.

Lemma keeps_weaken {A} (m : flow A) (P Q : A -> Prop) : keeps I m P -> (forall a, P a -> Q a) -> keeps I m Q.
Proof. intros Hm Hq w Hw. destruct (Hm w Hw) as [Hi Hp]. split; [done|]. intros a Ha. by apply Hq, Hp. Qed.

Lemma keeps_halt {A} e (Q : A -> Prop) : keeps I (halt e) Q.
Proof. intros w Hw. by split. Qed.

Lemma keeps_ask {A} (f : state -> A) (Q : A -> Prop) : (forall w, I w -> Q (f w)) -> keeps I (ask f) Q.
Proof. intros Hq w Hw. split; [done|]. intros a [= <-]. by apply Hq. Qed.

Lemma keeps_query_or_fail {A} (f : bbs -> result err A) (Q : A -> Prop) :
  (forall w a, I w -> f (db w) = Ok a -> Q a) -> keeps I (query_or_fail f) Q.
Proof.
  intros Hq w Hw. unfold query_or_fail. destruct (f (db w)) as [a|e] eqn:E; (split; [done|]); [|done].
  intros b [= <-]. by eapply Hq.
Qed.

Lemma keeps_change f (Q : () -> Prop) : (forall w, I w -> I (f w)) -> Q () -> keeps I (change f) Q.
Proof. intros Hf Hq w Hw. split; [by apply Hf|]. by intros []. Qed.

Lemma keeps_exec {A} (f : bbs -> A * bbs) (Q : A -> Prop) :
  (forall w, I w -> I (with_db (f (db w)).2 w) /\ Q (f (db w)).1) -> keeps I (exec f) Q.
Proof.
  intros Hf w Hw. unfold exec. destruct (Hf w Hw) as [H1 H2]. destruct (f (db w)) as [a b]. split; [done|].
  by intros ? [= <-].
Qed.

Lemma keeps_or_fail {A} (m : flow (result err A)) (Q : A -> Prop) :
  keeps I m (λ r, match r with Ok a => Q a | Err _ => True end) -> keeps I (or_fail m) Q.
Proof.
  intros Hm. unfold or_fail. eapply keeps_bind; [done|]. intros [a|e] Hr; [by apply keeps_ret|apply keeps_halt].
Qed.

(** A program that touches neither the data nor the member's record. *)
Lemma keeps_io {A} (m : flow A) : (forall w, still w (m w).2) -> keeps I m (λ _, True).
Proof. intros Hm w Hw. split; [by eapply stable|done]. Qed.

Lemma keeps_iter {S A} (J : S -> Prop) (body : S -> flow (S + A)) (Q : A -> Prop) n s :
  (forall s, J s -> keeps I (body s) (λ r, match r with inl s' => J s' | inr a => Q a end)) -> J s ->
  keeps I (iter n body s) Q.
Proof.
  intros Hb. revert s. induction n as [|n IH]; intros s Hs; [apply keeps_halt|]. cbn [iter].
  eapply keeps_bind; [by apply Hb|]. intros [s'|a] Hr; [by apply IH|by apply keeps_ret].
Qed.

Lemma keeps_forever {S A} (J : S -> Prop) (body : S -> flow (S + A)) (Q : A -> Prop) s :
  (forall s, J s -> keeps I (body s) (λ r, match r with inl s' => J s' | inr a => Q a end)) -> J s ->
  keeps I (forever body s) Q.
Proof. intros Hb Hs w Hw. by apply (keeps_iter J body Q _ s Hb Hs). Qed.
End Keeps.

Lemma keeps_for_each (I : state -> Prop) `{!Stable I} {A} (f : A -> flow ()) l :
  (forall a, a ∈ l -> keeps I (f a) (λ _, True)) -> keeps I (for_each f l) (λ _, True).
Proof.
  induction l as [|a l IH]; intros Hf; [by apply keeps_ret|]. cbn [for_each].
  eapply (keeps_bind I); [apply Hf; left|]. intros _ _. apply IH. intros b Hb. apply Hf. by right.
Qed.

Lemma io_reading {A} (f : session -> option A * session) w : still w (reading f w).2.
Proof. unfold reading. destruct (f (io w)). by apply still_same. Qed.
Lemma io_trying {A} (f : session -> option A * session) w : still w (trying f w).2.
Proof. unfold trying. destruct (f (io w)). by apply still_same. Qed.
Lemma io_readLine_ w : still w (readLine_ w).2.
Proof. unfold readLine_. destruct (ReadLine (io w)). by apply still_same. Qed.
Lemma io_readKey_ w : still w (readKey_ w).2.
Proof. unfold readKey_. destruct (ReadKey (io w)). by apply still_same. Qed.
Lemma io_draw `{Env} f w : still w (draw f w).2.
Proof. by apply still_same. Qed.
Lemma io_time `{Env} w : still w (time_now w).2.
Proof. by apply still_same. Qed.
Lemma io_random `{Env} w : still w (random w).2.
Proof. by apply still_same. Qed.
Lemma io_disk `{Env} w : still w (disk_write w).2.
Proof. by apply still_same. Qed.
Lemma io_raw `{Env} {A} (m : wireM xerr A) w : still w (raw m w).2.
Proof. unfold raw. destruct (m _). by apply still_same. Qed.
Lemma io_same {A} (f : state -> A) w : still w (ask f w).2.
Proof. by apply still_same. Qed.
Lemma io_newHandleCache w : still w (newHandleCache w).2.
Proof. by apply still_same. Qed.
Lemma io_handle `{Crypto, Env} id w : still w (handle id w).2.
Proof. unfold handle. destruct (names w !! id); by apply still_same. Qed.

(** Programs that only read the caller and draw, by their parts. *)
Lemma io_ret {A} (a : A) w : still w ((mret a : flow A) w).2.
Proof. by apply still_same. Qed.

Lemma io_bind {A B} (m : flow A) (k : A -> flow B) :
  (forall w, still w (m w).2) -> (forall a w, still w (k a w).2) -> forall w, still w ((m ≫= k) w).2.
Proof.
  intros Hm Hk w. rewrite bind_run. specialize (Hm w). destruct (m w) as [[a|e] w1]; [|done].
  by eapply still_trans; [|apply Hk].
Qed.

Lemma io_iter {S A} (body : S -> flow (S + A)) :
  (forall s w, still w (body s w).2) -> forall n s w, still w (iter n body s w).2.
Proof.
  intros Hb n. induction n as [|n IH]; intros s; [intros w; by apply still_same|]. cbn [iter].
  apply io_bind; [apply Hb|]. intros [s'|a]; [apply IH|apply io_ret].
Qed.

Lemma io_forever {S A} (body : S -> flow (S + A)) s :
  (forall s w, still w (body s w).2) -> forall w, still w (forever body s w).2.
Proof. intros Hb w. by apply io_iter. Qed.

Lemma io_for_each {A} (f : A -> flow ()) l : (forall a w, still w (f a w).2) -> forall w, still w (for_each f l w).2.
Proof. intros Hf. induction l as [|a l IH]; [apply io_ret|]. cbn [for_each]. by apply io_bind. Qed.

Lemma io_query_or_fail {A} (f : bbs -> result err A) w : still w (query_or_fail f w).2.
Proof. unfold query_or_fail. destruct (f (db w)); by apply still_same. Qed.

Lemma io_halt {A} e w : still w (@halt A e w).2.
Proof. by apply still_same. Qed.

Lemma io_activity `{Crypto, Env} a d w : still w (activity a d w).2.
Proof.
  unfold activity. apply io_bind; [apply io_time|]. intros t. apply io_bind; [apply io_random|]. intros n w1. done.
Qed.
Lemma io_anyKey_ w : still w (anyKey_ w).2.
Proof. unfold anyKey_. apply io_bind; [apply io_readKey_|]. intros k. apply io_ret. Qed.

Create HintDb io discriminated.
#[export] Hint Resolve io_ret io_same io_query_or_fail io_halt io_newHandleCache io_handle io_reading io_trying io_readLine_ io_readKey_ io_anyKey_
  io_draw io_activity io_time io_random io_disk io_raw : io.

Lemma io_readLine w : still w (readLine w).2.
Proof. apply io_reading. Qed.
Lemma io_readPassword w : still w (readPassword w).2.
Proof. apply io_reading. Qed.
Lemma io_readKey w : still w (readKey w).2.
Proof. apply io_reading. Qed.
Lemma io_try_readLine w : still w (try_readLine w).2.
Proof. apply io_trying. Qed.
Lemma io_try_readPassword w : still w (try_readPassword w).2.
Proof. apply io_trying. Qed.
Lemma io_query {A} (f : bbs -> A) w : still w (query f w).2.
Proof. apply io_same. Qed.
#[export] Hint Resolve io_readLine io_readPassword io_readKey io_try_readLine io_try_readPassword io_query : io.

(** Walk through a program that only reads and draws. *)
Ltac still :=
  intros; cbv zeta;
  lazymatch goal with
  | |- forall w, _ => intros ?; still
  | |- still _ ((_ ≫= _) _).2 => apply io_bind; [intros ?; still | intros ? ?; still]
  | |- still _ (forever _ _ _).2 => apply io_forever; intros ? ?; still
  | |- still _ (for_each _ _ _).2 => apply io_for_each; intros ? ?; still
  | |- still _ ((match ?x with _ => _ end) _).2 => destruct x; still
  | |- _ => solve [auto with io nocore]
  end.

Lemma io_ask_line `{Env} label w : still w (ask_line label w).2.
Proof. unfold ask_line. still. Qed.
Lemma io_readBody w : still w (readBody w).2.
Proof. unfold readBody. still. Qed.
#[export] Hint Resolve io_ask_line io_readBody : io.

(** Walk through a program that keeps an invariant whatever its results: what only
    reads and draws goes by [still], a statement by [stmt], the rest by its parts
    and the hints in [keep]. *)
Create HintDb keep discriminated.

Ltac keep_by stmt :=
  intros; cbv zeta;
  lazymatch goal with
  | |- keeps _ (_ ≫= _) _ => eapply keeps_bind; [keep_step stmt | cbv beta; keep_by stmt]
  | |- keeps _ (mret _) _ => apply keeps_ret; first [exact I | idtac]
  | |- keeps _ (halt _) _ => apply keeps_halt
  | |- keeps _ (exec _) _ => stmt
  | |- keeps _ (match ?x with _ => _ end) _ => destruct x eqn:?; keep_by stmt
  | |- keeps ?J (forever _ _) _ => apply (keeps_forever J (λ _, True)); [|exact I]; intros ? _; apply (keeps_weaken J _ (λ _, True)); [keep_by stmt | intros []; done]
  | |- keeps _ (for_each _ _) _ => apply keeps_for_each; [exact _|]; intros ? _; keep_by stmt
  | |- keeps ?J _ _ => first [solve [eauto with keep nocore] | solve [apply (keeps_io J); still] | idtac]
  end
with keep_step stmt :=
  first [solve [eauto with keep nocore]
        | lazymatch goal with |- keeps ?J _ _ => solve [apply (keeps_io J); still] end
        | lazymatch goal with |- keeps ?J ?m _ => refine (_ : keeps J m (λ _, True)); keep_by stmt end].

(** *** Termination: [m] never reads backwards and never runs out of fuel *)

Definition unread (w : state) : nat := length (s_in (io w)).

Definition tame {A} (m : flow A) : Prop :=
  forall w, (unread (m w).2 <= unread w)%nat /\ (m w).1 <> Err OutOfFuel.

(** A tame program that, if it goes through, has read at least one byte. *)
Definition eats {A} (m : flow A) : Prop :=
  tame m /\ forall w a, (m w).1 = Ok a -> (unread (m w).2 < unread w)%nat.

Lemma tame_same {A} (m : flow A) :
  (forall w, io (m w).2 = io w /\ (m w).1 <> Err OutOfFuel) -> tame m.
Proof. intros Hm w. destruct (Hm w) as [Hi He]. unfold unread. by rewrite Hi. Qed.

Lemma tame_ret {A} (a : A) : tame (mret a).
Proof. by apply tame_same. Qed.
Lemma tame_ask {A} (f : state -> A) : tame (ask f).
Proof. by apply tame_same. Qed.
Lemma tame_query_or_fail {A} (f : bbs -> result err A) : tame (query_or_fail f).
Proof. apply tame_same. intros w. unfold query_or_fail. by destruct (f (db w)). Qed.
Lemma tame_exec {A} (f : bbs -> A * bbs) : tame (exec f).
Proof. apply tame_same. intros w. unfold exec. by destruct (f (db w)). Qed.
Lemma tame_change f : (forall w, s_in (io (f w)) = s_in (io w)) -> tame (change f).
Proof. intros Hf w. unfold unread. cbn. by rewrite Hf. Qed.
Lemma tame_halt {A} e : e <> OutOfFuel -> tame (@halt A e).
Proof. intros He. apply tame_same. intros w. split; [done|]. cbn. congruence. Qed.
Lemma tame_time `{Env} : tame time_now.
Proof. by apply tame_same. Qed.
Lemma tame_random `{Env} : tame random.
Proof. by apply tame_same. Qed.

Lemma tame_disk `{Env} : tame disk_write.
Proof. by apply tame_same. Qed.

Lemma tame_bind {A B} (m : flow A) (k : A -> flow B) : tame m -> (forall a, tame (k a)) -> tame (m ≫= k).
Proof.
  intros Hm Hk w. rewrite bind_run. destruct (Hm w) as [Hl Hf]. destruct (m w) as [[a|e] w1].
  - destruct (Hk a w1). cbn in *. split; [lia|done].
  - split; [done|]. cbn in *. intros [= ->]. by apply Hf.
Qed.

Lemma tame_draw `{Env} f : tame (draw f).
Proof. by apply tame_change. Qed.
Lemma tame_activity `{Crypto, Env} a d : tame (activity a d).
Proof.
  apply tame_bind; [apply tame_time|]. intros t. apply tame_bind; [apply tame_random|]. intros n. by apply tame_change.
Qed.
Lemma tame_or_fail {A} (m : flow (result err A)) : tame m -> tame (or_fail m).
Proof. intros Hm. apply tame_bind; [done|]. intros [a|e]; [apply tame_ret|]. by apply (tame_halt (Failed e)). Qed.

Lemma eats_bind {A B} (m : flow A) (k : A -> flow B) : eats m -> (forall a, tame (k a)) -> eats (m ≫= k).
Proof.
  intros [Hm Hs] Hk. split; [by apply tame_bind|]. intros w b. rewrite bind_run. specialize (Hs w).
  destruct (m w) as [[a|e] w1]; [|done]. intros E. destruct (Hk a w1). specialize (Hs a eq_refl). cbn in *. lia.
Qed.

Lemma eats_after {A B} (m : flow A) (k : A -> flow B) : tame m -> (forall a, eats (k a)) -> eats (m ≫= k).
Proof.
  intros Hm Hk. split; [apply tame_bind; [done|apply Hk]|]. intros w b. rewrite bind_run. destruct (Hm w) as [Hl _].
  destruct (m w) as [[a|e] w1]; [|done]. intros E. destruct (Hk a) as [_ Hs]. specialize (Hs w1 b E). cbn in *. lia.
Qed.

(** The same, knowing what the first part returns. *)
Lemma eats_after_gives {A B} (m : flow A) (k : A -> flow B) (P : A -> Prop) :
  tame m -> (forall w a, (m w).1 = Ok a -> P a) -> (forall a, P a -> eats (k a)) -> eats (m ≫= k).
Proof.
  intros Hm Hp Hk. split.
  - intros w. rewrite bind_run. destruct (Hm w) as [Hl Hf]. specialize (Hp w). destruct (m w) as [[a|e] w1].
    + destruct (Hk a (Hp a eq_refl)) as [Ht _]. destruct (Ht w1). cbn in *. split; [lia|done].
    + split; [done|]. cbn in *. intros [= ->]. by apply Hf.
  - intros w b. rewrite bind_run. destruct (Hm w) as [Hl _]. specialize (Hp w).
    destruct (m w) as [[a|e] w1]; [|done]. intros E. destruct (Hk a (Hp a eq_refl)) as [_ Hs]. specialize (Hs w1 b E).
    cbn in *. lia.
Qed.

Lemma eats_tame {A} (m : flow A) : eats m -> tame m.
Proof. by intros []. Qed.

Lemma nextByte_eats s b s' : nextByte s = (Some b, s') -> (length (s_in s') < length (s_in s))%nat.
Proof. intros E. pose proof (nextByte_spec s) as Hn. rewrite E in Hn. apply Hn. Qed.

Lemma nextByte_le s : (length (s_in (nextByte s).2) <= length (s_in s))%nat.
Proof. unfold nextByte. by apply suffix_length, nextByte_loop_suffix. Qed.

Lemma line_loop_eats f echo buf s r s' :
  line_loop f echo buf s = (Some r, s') -> (length (s_in s') < length (s_in s))%nat.
Proof.
  revert buf s. induction f as [|f IH]; intros buf s; [done|]. cbn [line_loop].
  destruct (nextByte s) as [[b|] s1] eqn:E; [|done]. apply nextByte_eats in E.
  repeat go_case; intros Hl; try (apply IH in Hl; cbn in Hl; lia). by injection Hl as <- <-.
Qed.

Lemma ReadKey_loop_le f s : (length (s_in (ReadKey_loop f s).2) <= length (s_in s))%nat /\
  forall k, (ReadKey_loop f s).1 = Some k -> (length (s_in (ReadKey_loop f s).2) < length (s_in s))%nat.
Proof.
  revert s. induction f as [|f IH]; intros s; [done|]. cbn [ReadKey_loop]. pose proof (nextByte_le s) as Hl.
  destruct (nextByte s) as [[b|] s1] eqn:E; [|done]. apply nextByte_eats in E. cbn in Hl.
  repeat go_case; cbn; try (split; [lia|intros; lia]). destruct (IH s1) as [H1 H2].
  split; [lia|]. intros k Hk. specialize (H2 k Hk). lia.
Qed.

Lemma eats_reading {A} (f : session -> option A * session) :
  (forall s, (length (s_in (f s).2) <= length (s_in s))%nat /\
             forall a, (f s).1 = Some a -> (length (s_in (f s).2) < length (s_in s))%nat) -> eats (reading f).
Proof.
  intros Hf. unfold reading, eats, tame, unread. split.
  - intros w. destruct (Hf (io w)) as [Hl _]. destruct (f (io w)) as [[a|] s]; by split.
  - intros w a. destruct (Hf (io w)) as [_ Hs]. destruct (f (io w)) as [[b|] s]; [|done]. intros _. by apply (Hs b).
Qed.

Lemma line_shrinks echo s : let r := line_loop (Datatypes.S (length (s_in s))) echo [] s in
  (length (s_in r.2) <= length (s_in s))%nat /\ forall a, r.1 = Some a -> (length (s_in r.2) < length (s_in s))%nat.
Proof.
  cbv zeta. split; [apply suffix_length, line_loop_suffix|]. intros a.
  destruct (line_loop _ echo [] s) as [[r|] s'] eqn:E; [|done]. intros _. by eapply line_loop_eats.
Qed.

Lemma eats_readLine : eats readLine.
Proof. apply eats_reading. intros s. apply line_shrinks. Qed.
Lemma eats_readPassword : eats readPassword.
Proof. apply eats_reading. intros s. apply line_shrinks. Qed.
Lemma eats_readKey : eats readKey.
Proof. apply eats_reading. intros s. apply ReadKey_loop_le. Qed.
Lemma tame_trying {A} (f : session -> option A * session) :
  (forall s, (length (s_in (f s).2) <= length (s_in s))%nat) -> tame (trying f).
Proof. intros Hf w. unfold trying, unread. specialize (Hf (io w)). by destruct (f (io w)). Qed.
Lemma tame_try_readLine : tame try_readLine.
Proof. apply tame_trying. intros s. apply (line_shrinks true s). Qed.
Lemma tame_try_readPassword : tame try_readPassword.
Proof. apply tame_trying. intros s. apply (line_shrinks false s). Qed.
Lemma tame_readLine_ : tame readLine_.
Proof.
  intros w. unfold readLine_, unread. destruct (line_shrinks true (io w)) as [Hl _]. unfold ReadLine.
  by destruct (line_loop _ _ _ _).
Qed.
Lemma tame_readKey_ : tame readKey_.
Proof.
  intros w. unfold readKey_, unread, ReadKey. destruct (ReadKey_loop_le (Datatypes.S (length (s_in (io w)))) (io w)) as [Hl _].
  by destruct (ReadKey_loop _ _).
Qed.
Lemma tame_anyKey_ : tame anyKey_.
Proof. apply tame_bind; [apply tame_readKey_|]. intros k. apply tame_ret. Qed.

(** A loop each of whose rounds reads never runs out. *)
Lemma tame_forever {S A} (body : S -> flow (S + A)) s : (forall s, eats (body s)) -> tame (forever body s).
Proof.
  intros Hb. assert (G : forall n s w, (unread w < n)%nat ->
    (unread (iter n body s w).2 <= unread w)%nat /\ (iter n body s w).1 <> Err OutOfFuel).
  { clear s. induction n as [|n IH]; intros s w Hn; [lia|]. cbn [iter]. rewrite bind_run.
    destruct (Hb s) as [Ht Hs]. destruct (Ht w) as [Hl Hf]. specialize (Hs w).
    destruct (body s w) as [[[s'|a]|e] w1]; [|done|by split; [|intros [= ->]; apply Hf]].
    specialize (Hs _ eq_refl). cbn in *. destruct (IH s' w1) as [H1 H2]; [lia|]. split; [lia|done]. }
  intros w. apply G. unfold unread. lia.
Qed.

Lemma tame_for_each {A} (f : A -> flow ()) l : (forall a, tame (f a)) -> tame (for_each f l).
Proof.
  intros Hf. induction l as [|a l IH]; [apply tame_ret|]. cbn [for_each]. by apply tame_bind.
Qed.

Lemma eats_ret_after {A B} (m : flow A) (b : A -> B) : eats m -> eats (a ← m; mret (b a)).
Proof. intros Hm. apply eats_bind; [done|]. intros a. apply tame_ret. Qed.

Lemma tame_readBody : tame readBody.
Proof.
  apply tame_forever. intros ls. apply eats_bind; [apply eats_readLine|]. intros line. destruct (beq line [46]); apply tame_ret.
Qed.

Lemma tame_ask_line `{Env} label : tame (ask_line label).
Proof. apply tame_bind; [apply tame_draw|]. intros _. apply tame_bind; [apply tame_readLine_|]. intros v. apply tame_ret. Qed.

Lemma tame_newHandleCache : tame newHandleCache.
Proof. by apply tame_change. Qed.

Lemma tame_handle `{Crypto, Env} id : tame (handle id).
Proof. apply tame_same. intros w. unfold handle. by destruct (names w !! id). Qed.

Create HintDb tame discriminated.
#[export] Hint Resolve tame_ret tame_ask tame_query_or_fail tame_exec tame_time tame_random tame_disk tame_draw tame_activity
  tame_try_readLine tame_try_readPassword tame_readLine_ tame_readKey_ tame_anyKey_ tame_readBody tame_ask_line tame_newHandleCache tame_handle eats_tame eats_readLine eats_readPassword eats_readKey : tame.

(** Walk through a screen. *)
Ltac tame :=
  intros; cbv zeta;
  lazymatch goal with
  | |- tame (_ ≫= _) => apply tame_bind; [tame | tame]
  | |- tame (or_fail _) => apply tame_or_fail; tame
  | |- tame (halt _) => by apply tame_halt
  | |- tame (change _) => by apply tame_change
  | |- tame (query _) => apply tame_ask
  | |- tame (forever _ _) => apply tame_forever; eat
  | |- tame (for_each _ _) => apply tame_for_each; tame
  | |- tame (match ?x with _ => _ end) => destruct x; tame
  | |- _ => solve [auto with tame nocore]
  end
with eat :=
  intros; cbv zeta;
  lazymatch goal with
  | |- eats (match ?x with _ => _ end) => destruct x; eat
  | |- eats (?m ≫= _) =>
      first [apply eats_bind; [solve [auto with tame nocore] | tame] | apply eats_after; [tame | eat]]
  | |- _ => solve [auto with tame nocore]
  end.
