(* ===== verification/Widgets.v ===== *)
(** * Shared pieces of the screens (src/menu/sysop.go, src/menu/boards.go)

    What several screens draw and ask alike: titles, prompts, numbered rows, the
    SysOp step-up password, the minimum-level question. *)

From S2P Require Import Prelude GoStrings Vault Input Screen Credentials Login World.

Section Widgets.
Context `{Crypto, Env}.
#[local] Open Scope go_scope.

(** A title and its rule. *)
Definition heading (color : Z) (title rule : bytes) (s : Writer) : Writer :=
  ColorLine color rule (ColorLine color title s).

(** A green prompt. *)
Definition ask_green (text : bytes) (s : Writer) : Writer := Login.prompt text s.

(** The number of a row, as in "  3) ". *)
Definition number (i : Z) (s : Writer) : Writer := Print (str "  " ++ Itoa (i + 1) ++ str ") ") (Color Yellow s).

(** [fmt] verbs: [%-*s] of a text, [%d] padded on the right. *)
Definition field (n : nat) (s : bytes) : bytes := pad_right n s.

Definition CoSysOpLevel : Z := SysOpLevel.

(** [subtle.ConstantTimeCompare(a, b) == 1] *)
Definition sysopPassOK (provided configured : bytes) : bool := beq provided configured.

(** The step-up check that opens [newBoard] and [newFileArea]: nothing to ask
    when no secret is configured. *)
Definition step_up (sysopPass denied : bytes) : flow bool :=
  if beq sysopPass [] then mret true
  else
    draw (ask_green (CRLF ++ str "SysOp password: ")) ;;
    entered ← readPassword;
    if sysopPassOK entered sysopPass then mret true
    else
      activity denied (str "bad sysop password") ;;
      draw (ColorLine Red (str "Denied.")) ;; anyKey_ ;; mret false.

(** [Min access level \[0\]]: blank, unreadable or negative means 0. *)
Definition ask_level : flow Z :=
  v ← ask_line (str "Min access level [0]: ");
  mret (match Atoi v with Some n => if 0 <=? n then n else 0 | None => 0 end).

(** [Press any key...], whose error ends the screen. *)
Definition press_any_key : flow () := draw (Print (CRLF ++ str "Press any key...")) ;; _ ← readKey; mret ().

Lemma tame_step_up p d : tame (step_up p d).
Proof. unfold step_up. tame. Qed.
Lemma tame_ask_level : tame ask_level.
Proof. unfold ask_level. tame. Qed.
Lemma tame_press : tame press_any_key.
Proof. unfold press_any_key. tame. Qed.

Lemma io_ask_level w : still w (ask_level w).2.
Proof. unfold ask_level. still. Qed.
Lemma io_step_up p d w : still w (step_up p d w).2.
Proof. unfold step_up. still. Qed.
End Widgets.

#[export] Hint Resolve io_ask_level io_step_up : io.
#[export] Hint Resolve tame_step_up tame_ask_level tame_press : tame.
