(* ===== verification/MailScreens.v ===== *)
(** * The private-mail screens (src/menu/mail.go)

    Inbox, reading, composing with CC and the member directory; and
    [reportUser], which the boards use too. *)

From S2P Require Import Prelude GoStrings GoTime Vault Sql Users Credentials Mail Input Screen Login World Widgets.

Section MailScreens.
Context `{Crypto, Env}.
#[local] Open Scope go_scope.

Definition reportUser (targetID : Z) (context : bytes) : flow () :=
  h ← handle targetID;
  draw (ask_green (CRLF ++ str "Report " ++ h ++ str " to the SysOp. Describe the problem: ")) ;;
  l ← try_readLine;
  match l with
  | None => mret ()
  | Some note =>
      u ← ask me; t ← time_now;
      r ← exec (λ b, let '(r, x) := Reports_File (db_users b) (ID u) targetID context note t (db_reports b) in
                     (r, put_reports x b));
      match r with
      | Err _ => draw (ColorLine Red (str "could not file report"))
      | Ok _ =>
          h ← handle targetID; activity (str "report-user") h ;;
          draw (ColorLine Cyan (str "Report filed. A SysOp will review it.")) ;; anyKey_
      end
  end.

(** One letter to every recipient. *)
Fixpoint deliver (toIDs : list Z) (subject body : bytes) (sent : Z) : flow Z :=
  match toIDs with
  | [] => mret sent
  | toID :: rest =>
      u ← ask me; t ← time_now; n1 ← random; n2 ← random;
      r ← exec (λ b, let '(r, x) := Mail_Send vault (db_users b) (ID u) toID subject body t n1 n2 (db_mail b) in
                     (r, put_mail x b));
      match r with
      | Err e => draw (ColorLine Red (str "could not send to one recipient: " ++ err_text e)) ;; deliver rest subject body sent
      | Ok _ => deliver rest subject body (sent + 1)
      end
  end.

Definition sendToMany (toIDs : list Z) (presetSubject : bytes) : flow () :=
  match toIDs with
  | [] => mret ()
  | _ =>
      subject ← (if beq presetSubject [] then draw (ask_green (str "Subject: ")) ;; readLine else mret presetSubject);
      if beq (TrimSpace subject) [] then mret ()
      else
        draw (Line (str "Enter your message. End with a single '.' on its own line.")) ;;
        lines ← readBody;
        sent ← deliver toIDs subject (Join lines [10]) 0;
        activity (str "send-mail") [] ;;
        draw (if 1 <? sent then ColorLine Cyan (str "Mail sent to " ++ Itoa sent ++ str " recipients.")
              else ColorLine Cyan (str "Mail sent."))
  end.

Definition sendMail (toID : Z) (presetSubject : bytes) : flow () := sendToMany [toID] presetSubject.

Definition directory_row (x : Z * User) : flow () :=
  draw (number x.1 >> Color White >> SafePrint (Handle x.2) >> Reset >> Print CRLF).

Definition lookupUser (filter : bytes) : flow (option User) :=
  all ← query_or_fail (λ b, Users_ListByStatus vault StatusApproved (db_users b));
  u ← ask me;
  let filter := lower (TrimSpace filter) in
  let dir := List.filter (λ m, negb (ID m =? ID u) && (beq filter [] || Contains (lower (Handle m)) filter)) all in
  match dir with
  | [] =>
      draw (ColorLine Red (if beq filter [] then str "no other members to message yet"
                           else str "no members match " ++ [34] ++ filter ++ [34])) ;;
      anyKey_ ;; mret None
  | _ =>
      forever (λ page,
        let '(lo, hi, pages) := pageWindow (len dir) page in
        let page := clampPage page pages in
        draw (Clear >> heading Cyan (str "Member Directory") (str "----------------")) ;;
        for_each directory_row (window lo hi dir) ;;
        draw (pageFooter page pages >> ask_green (CRLF ++ str "[#] pick  [>]/[<] page  [Q] cancel: ")) ;;
        in_ ← readLine;
        let in_ := TrimSpace in_ in
        if quits in_ then mret (inr None)
        else if beq in_ [62] then mret (inl (page + 1))
        else if beq in_ [60] then mret (inl (page - 1))
        else match pick in_ dir with Some m => mret (inr (Some m)) | None => mret (inl page) end) 0
  end.

(** [strings.ReplaceAll(entry, "*", "")] *)
Definition drop_stars (s : bytes) : bytes := List.filter (λ b, negb (b =? 42)) s.

Definition resolveRecipient (entry : bytes) : flow (option User) :=
  let entry := TrimSpace entry in
  if beq entry [] then mret None
  else if beq entry [63] then lookupUser []
  else if Contains entry [42] then lookupUser (drop_stars entry)
  else
    r ← query (λ b, Users_ByHandle vault entry (db_users b));
    match r with
    | Err _ => draw (ColorLine Red (str "no such user — type ? to browse or use * to search")) ;; mret None
    | Ok m => mret (Some m)
    end.

Definition pickRecipient : flow (option User) :=
  draw (Print CRLF >> ask_green (str "To (handle, ? to browse, * to search): ")) ;;
  to ← readLine; resolveRecipient to.

Definition pickCC (toID : Z) : flow (list Z) :=
  u ← ask me;
  forever (λ st, let '(seen, out_) := st : gset Z * list Z in
    draw (ask_green (str "CC (handle, ? to browse, * to search, blank to finish): ")) ;;
    entry ← readLine;
    if beq (TrimSpace entry) [] then mret (inr out_)
    else
      r ← resolveRecipient entry;
      match r with
      | None => mret (inl (seen, out_))
      | Some m =>
          if bool_decide (ID m ∈ seen) then mret (inl (seen, out_))
          else draw (ColorLine Cyan (str "CC: " ++ Handle m ++ str " added.")) ;;
               mret (inl ({[ID m]} ∪ seen, out_ ++ [ID m]))
      end) ({[ID u]} ∪ {[toID]} : gset Z, []).

Definition composeMail : flow () :=
  r ← pickRecipient;
  match r with
  | None => mret ()
  | Some m => cc ← pickCC (ID m); sendToMany (ID m :: cc) []
  end.

Definition block_author (target : Z) (done_text : bytes) : flow () :=
  u ← ask me; t ← time_now;
  r ← exec (λ b, let '(r, x) := Blocks_Block (db_users b) (ID u) target t (db_blocks b) in (r, put_blocks x b));
  match r with
  | Err _ => draw (ColorLine Red (str "could not block"))
  | Ok _ => h ← handle target; activity (str "block-user") h ;; draw (ColorLine Cyan done_text) ;; anyKey_
  end.

Definition readMail (id : Z) : flow () :=
  u ← ask me; t ← time_now;
  r ← exec (λ b, let '(r, x) := Mail_Get vault id (ID u) t (db_mail b) in (r, put_mail x b));
  match r with
  | Err _ => mret ()
  | Ok m =>
      h ← handle (FromID m);
      draw (Clear >> Color Cyan >> Print (str "Subject: ") >> SafePrint (MailSubject m) >> Print CRLF >> Reset >>
            Print (str "From: " ++ h ++ str "   " ++ fmt_minute (SentAt m) ++ CRLF ++ CRLF) >> SafePrint (MailBody m) >>
            Print CRLF >> ask_green (CRLF ++ str "[R]eply  [D]elete  [B]lock sender  re[P]ort  [Q]uit: ")) ;;
      key ← readKey;
      let k := toLower key in
      if k =? 114 then sendMail (FromID m) (str "re: " ++ MailSubject m)
      else if k =? 100 then
        r ← exec (λ b, let '(r, x) := Mail_Delete (PID m) (ID u) (db_mail b) in (r, put_mail x b));
        match r with
        | Err _ => draw (ColorLine Red (str "could not delete"))
        | Ok _ => activity (str "delete-mail") [] ;; draw (ColorLine Cyan (CRLF ++ str "Deleted.")) ;; anyKey_
        end
      else if k =? 98 then block_author (FromID m) (CRLF ++ str "Blocked. You won't see their mail or posts.")
      else if k =? 112 then reportUser (FromID m) (str "mail #" ++ Itoa (PID m))
      else mret ()
  end.

Definition inbox_row (x : Z * PrivateMessage) : flow () :=
  let m := x.2 in
  let new := is_null (ReadAt m) in
  draw (number x.1 >> Color (if new then Magenta else White) >>
        Print (str "[" ++ (if new then str "NEW" else str "   ") ++ str "] ") >> SafePrint (firstLine (MailSubject m)) >> Reset) ;;
  h ← handle (FromID m);
  draw (Print (str "  — from " ++ h ++ str ", " ++ fmt_date (SentAt m) ++ CRLF)).

Definition RunMail : flow () :=
  newHandleCache ;;
  forever (λ page,
    draw (Clear >> heading Cyan (str "Private Mail") (str "------------")) ;;
    u ← ask me;
    all ← query_or_fail (λ b, Mail_Inbox vault (ID u) (db_mail b));
    blocked ← query (λ b, Blocks_BlockedSet (ID u) (db_blocks b));
    let inbox := List.filter (λ m, negb (bool_decide (FromID m ∈ blocked))) all in
    let '(lo, hi, pages) := pageWindow (len inbox) page in
    let page := clampPage page pages in
    draw (match inbox with [] => Line (str "  (your inbox is empty)") | _ => id end) ;;
    for_each inbox_row (window lo hi inbox) ;;
    draw (pageFooter page pages >> ask_green (CRLF ++ str "[#] read  [C]ompose  [Q]uit: ")) ;;
    in_ ← readLine;
    let in_ := TrimSpace in_ in
    if quits in_ then mret (inr ())
    else if beq in_ [62] then mret (inl (page + 1))
    else if beq in_ [60] then mret (inl (page - 1))
    else if fold_is 99 in_ then composeMail ;; mret (inl page)
    else match pick in_ inbox with
         | Some m => readMail (PID m) ;; mret (inl page)
         | None => mret (inl page)
         end) 0.

(** ** Termination *)

Lemma tame_reportUser id c : tame (reportUser id c).
Proof. unfold reportUser. tame. Qed.

Lemma tame_deliver l s b n : tame (deliver l s b n).
Proof. revert n. induction l as [|x l IH]; intros n; cbn [deliver]; [tame|]. tame; apply IH. Qed.

Lemma tame_sendToMany l s : tame (sendToMany l s).
Proof. unfold sendToMany. pose proof tame_deliver. tame. Qed.

Lemma tame_lookupUser f : tame (lookupUser f).
Proof. unfold lookupUser, directory_row. tame. Qed.

Lemma tame_resolveRecipient e : tame (resolveRecipient e).
Proof. unfold resolveRecipient. pose proof tame_lookupUser. tame. Qed.

Lemma tame_composeMail : tame composeMail.
Proof.
  unfold composeMail, pickRecipient, pickCC. pose proof tame_resolveRecipient. pose proof tame_sendToMany. tame.
Qed.

Lemma tame_block_author t d : tame (block_author t d).
Proof. unfold block_author. tame. Qed.

Lemma tame_readMail id : tame (readMail id).
Proof.
  unfold readMail, sendMail. pose proof tame_sendToMany. pose proof tame_block_author. pose proof tame_reportUser. tame.
Qed.

Lemma tame_RunMail : tame RunMail.
Proof. unfold RunMail, inbox_row. pose proof tame_composeMail. pose proof tame_readMail. tame. Qed.
End MailScreens.

#[export] Hint Resolve tame_reportUser tame_block_author tame_RunMail : tame.
