(* ===== verification/BoardScreens.v ===== *)
(** * The message-board screens (src/menu/boards.go)

    Areas, threads, search and filter results, posting, replying, editing and
    deleting.  A search result is one Go slice that every redraw filters in
    place; [hideBlocked] returns what the slice holds afterwards. *)

From S2P Require Import Prelude GoStrings GoTime Vault Sql Users Credentials Boards Mail Input Screen Login World.
From S2P Require Import Widgets MailScreens.

Section BoardScreens.
Context `{Crypto, Env}.
Variable sysopPass : bytes.
#[local] Open Scope go_scope.

Definition newBoard : flow () :=
  u ← ask me;
  if AccessLevel u <? CoSysOpLevel then mret ()
  else
    ok ← step_up sysopPass (str "board-create-denied");
    if negb ok then mret ()
    else
      name ← ask_line (str "New board name (blank to cancel): ");
      if beq name [] then mret ()
      else
        desc ← ask_line (str "Description: ");
        minLevel ← ask_level;
        r ← exec (λ b, let '(r, x) := Areas_Create name desc minLevel (db_areas b) in (r, put_areas x b));
        match r with
        | Err e => draw (ColorLine Red (str "could not create board: " ++ err_text e)) ;; anyKey_
        | Ok _ => activity (str "board-create") name ;; draw (ColorLine Cyan (str "Board created.")) ;; anyKey_
        end.

(** The posts a viewer sees, and the backing array of [msgs] after the call. *)
Definition hideBlocked (blocked : gset Z) (msgs : list Message) : list Message * list Message :=
  let kept := List.filter (λ m, negb (bool_decide (AuthorID m ∈ blocked))) msgs in
  (kept, kept ++ drop (length kept) msgs).

Definition editMessage (m : Message) : flow () :=
  draw (ask_green (CRLF ++ str "New subject (blank = keep): ")) ;;
  subj ← readLine;
  let subj := if beq (TrimSpace subj) [] then Subject m else subj in
  draw (Line (str "New body. End with a single '.' on its own line (blank body = keep):")) ;;
  lines ← readBody;
  let body := match lines with [] => Body m | _ => Join lines [10] end in
  u ← ask me; n1 ← random; n2 ← random;
  r ← exec (λ b, let '(r, x) := Messages_Edit vault (MsgID m) (ID u) subj body n1 n2 (db_messages b) in
                 (r, put_messages x b));
  match r with
  | Err _ => draw (ColorLine Red (str "could not edit"))
  | Ok _ => activity (str "edit-message") (firstLine subj) ;; draw (ColorLine Cyan (str "Updated.")) ;; anyKey_
  end.

Definition compose (areaID : Z) (parentID : option Z) : flow () :=
  draw (Print CRLF >> ask_green (str "Subject: ")) ;;
  subject ← readLine;
  if beq (TrimSpace subject) [] then mret ()
  else
    draw (Line (str "Enter your message. End with a single '.' on its own line.")) ;;
    lines ← readBody;
    u ← ask me; t ← time_now; n1 ← random; n2 ← random;
    r ← exec (λ b, let '(r, x) := Messages_Post vault (db_users b) (db_areas b) areaID (ID u) parentID subject
                                    (Join lines [10]) t n1 n2 (db_messages b) in (r, put_messages x b));
    match r with
    | Err e => draw (ColorLine Red (str "could not post: " ++ err_text e))
    | Ok _ => activity (str "post-message") [] ;; draw (ColorLine Cyan (str "Posted."))
    end.

(** [strings.ReplaceAll(s, "\n", "\n  ")] *)
Definition indent (s : bytes) : bytes := s ≫= λ b, if b =? 10 then [10; 32; 32] else [b].

Definition reply_row (rep : Message) : flow () :=
  h ← handle (AuthorID rep);
  draw (Color Blue >> Print (CRLF ++ str "  ┌ reply from " ++ h ++ str ", " ++ fmt_date (PostedAt rep) ++ CRLF) >> Reset >>
        Print (str "  ") >> SafePrint (indent (Body rep)) >> Print CRLF).

Definition delete_post (m : Message) : flow () :=
  r ← exec (λ b, let '(r, x) := Messages_Delete (MsgID m) (db_messages b) in (r, put_messages x b));
  match r with
  | Err _ => draw (ColorLine Red (str "could not delete"))
  | Ok _ => activity (str "delete-message") (firstLine (Subject m)) ;;
            draw (ColorLine Cyan (CRLF ++ str "Deleted.")) ;; anyKey_
  end.

Definition readMessage (m : Message) : flow () :=
  h ← handle (AuthorID m);
  draw (Clear >> Color Cyan >> Print (str "Subject: ") >> SafePrint (Subject m) >> Print CRLF >> Reset >>
        Print (str "From: " ++ h ++ str "   " ++ fmt_minute (PostedAt m) ++ CRLF ++ CRLF) >> SafePrint (Body m) >>
        Print CRLF) ;;
  replies ← query_or_fail (λ b, Messages_Replies vault (MsgID m) (db_messages b));
  u ← ask me;
  blocked ← query (λ b, Blocks_BlockedSet (ID u) (db_blocks b));
  for_each reply_row (hideBlocked blocked replies).1 ;;
  let own := AuthorID m =? ID u in
  let sysop := CoSysOpLevel <=? AccessLevel u in
  draw (ask_green (CRLF ++ (if own then str "[R]eply  [E]dit  [D]elete  re[P]ort  [Q]uit: "
                            else if sysop then str "[R]eply  [D]elete  [B]lock author  re[P]ort  [Q]uit: "
                            else str "[R]eply  [B]lock author  re[P]ort  [Q]uit: "))) ;;
  key ← readKey;
  let k := toLower key in
  if k =? 114 then compose (AreaID m) (Some (MsgID m))
  else if k =? 101 then (if own then editMessage m else mret ())
  else if k =? 100 then (if own || sysop then delete_post m else mret ())
  else if k =? 98 then
    (if own then mret () else block_author (AuthorID m) (CRLF ++ str "Blocked. Their posts are now hidden from you."))
  else if k =? 112 then reportUser (AuthorID m) (str "board post #" ++ Itoa (MsgID m))
  else mret ().

(** [markRead]: the read pointer goes to the area's newest post. *)
Definition markRead (areaID : Z) : flow () :=
  u ← ask me; t ← time_now;
  _ ← exec (λ b, let '(r, x) := Mark (db_users b) (db_areas b) (ID u) areaID (MaxMessageID areaID (db_messages b)) t
                                  (db_pointers b) in (r, put_pointers x b));
  mret ().

Definition post_row (entrySeen : Z) (x : Z * Message) : flow () :=
  let m := x.2 in
  draw (number x.1 >> (if entrySeen <? MsgID m then Color Magenta >> Print (str "* ") else Color White >> Print (str "  ")) >>
        SafePrint (firstLine (Subject m)) >> Reset) ;;
  h ← handle (AuthorID m);
  draw (Print (str "  — " ++ h ++ str ", " ++ fmt_date (PostedAt m) ++ CRLF)).

(** What [browseArea] carries from one redraw to the next.  [listed] is the array
    behind the search result; Go's nil slice, which a search without hits also
    gives, is the empty list. *)
Record browsing := Browsing { newestFirst : bool; page : Z; listed : list Message; listedHeader : bytes }.

Definition fresh (newest : bool) : browsing := Browsing newest 0 [] [].

Definition browseArea (area : MessageArea) : flow () :=
  u ← ask me;
  entrySeen ← query (λ b, LastSeen (ID u) (AreaId area) (db_pointers b));
  forever (λ st,
    msgs ← (match listed st with
            | [] => query_or_fail (λ b, Messages_ThreadSorted vault (AreaId area) (newestFirst st) (db_messages b))
            | l => mret l
            end);
    blocked ← query (λ b, Blocks_BlockedSet (ID u) (db_blocks b));
    let '(msgs, array) := hideBlocked blocked msgs in
    let listed := match listed st with [] => [] | _ => array end in
    let '(lo, hi, pages) := pageWindow (len msgs) (page st) in
    let page := clampPage (page st) pages in
    let stay := Browsing (newestFirst st) page listed (listedHeader st) in
    draw (Clear >> Color Cyan >> Print (str "Board: ") >> SafePrint (AreaName area) >>
          Print (str "   (" ++ (if newestFirst st then str "newest first" else str "oldest first") ++ str ")" ++ CRLF) >>
          Reset >> (if beq (listedHeader st) [] then id else ColorLine Blue (listedHeader st)) >>
          (match msgs with [] => Line (str "  (no messages)") | _ => id end)) ;;
    for_each (post_row entrySeen) (window lo hi msgs) ;;
    draw (pageFooter page pages >>
          ask_green (CRLF ++ str "[#] read  [P]ost  [S]earch  [U] by user  [D] sort  [C]lear  [Q]uit: ")) ;;
    in_ ← readLine;
    let in_ := TrimSpace in_ in
    if quits in_ then markRead (AreaId area) ;; mret (inr ())
    else if beq in_ [62] then mret (inl (Browsing (newestFirst st) (page + 1) listed (listedHeader st)))
    else if beq in_ [60] then mret (inl (Browsing (newestFirst st) (page - 1) listed (listedHeader st)))
    else if fold_is 112 in_ then compose (AreaId area) None ;; mret (inl (fresh (newestFirst st)))
    else if fold_is 100 in_ then mret (inl (fresh (negb (newestFirst st))))
    else if fold_is 99 in_ then mret (inl (fresh (newestFirst st)))
    else if fold_is 115 in_ then
      draw (ask_green (CRLF ++ str "Search text: ")) ;;
      q ← readLine_;
      let q := TrimSpace q in
      if beq q [] then mret (inl stay)
      else
        res ← query_or_fail (λ b, Messages_Search vault lower (AreaId area) q (db_messages b));
        mret (inl (Browsing (newestFirst st) 0 res (str "search " ++ quote q ++ str " — " ++ Itoa (len res) ++ str " hit(s)")))
    else if fold_is 117 in_ then
      draw (ask_green (CRLF ++ str "Filter by handle: ")) ;;
      h ← readLine_;
      r ← query (λ b, Users_ByHandle vault (TrimSpace h) (db_users b));
      match r with
      | Err _ => draw (ColorLine Red (str "no such user")) ;; mret (inl stay)
      | Ok target =>
          res ← query_or_fail (λ b, Messages_ByAuthor vault (AreaId area) (ID target) (db_messages b));
          mret (inl (Browsing (newestFirst st) 0 res (str "by " ++ Handle target ++ str " — " ++ Itoa (len res) ++ str " message(s)")))
      end
    else match pick in_ msgs with
         | Some m => readMessage m ;; mret (inl stay)
         | None => mret (inl stay)
         end) (fresh false).

Definition area_row (x : Z * MessageArea) : flow () :=
  let a := x.2 in
  draw (number x.1 >> Color White >> SafePrint (AreaName a) >> Reset >> Print (str " — ") >> SafePrint (AreaDescription a)) ;;
  u ← ask me;
  n ← query (λ b, NewCount (ID u) (AreaId a) (db_pointers b) (db_messages b));
  draw ((if 0 <? n then Color Magenta >> Print (str "  (" ++ Itoa n ++ str " new)") >> Reset else id) >> Print CRLF).

Definition RunBoards : flow () :=
  newHandleCache ;;
  u ← ask me;
  let isSysOp := CoSysOpLevel <=? AccessLevel u in
  forever (λ _ : (),
    draw (Clear >> heading Cyan (str "Message Boards") (str "--------------")) ;;
    u ← ask me;
    areas ← query (λ b, Areas_Visible (AccessLevel u) (db_areas b));
    for_each area_row (imap (λ i a, (Z.of_nat i, a)) areas) ;;
    draw (ask_green (CRLF ++ (if isSysOp then str "Area # ([N]ew board, [Q]uit): " else str "Area # (or [Q]uit): "))) ;;
    in_ ← readLine;
    let in_ := TrimSpace in_ in
    if quits in_ then mret (inr ())
    else if isSysOp && fold_is 110 in_ then newBoard ;; mret (inl ())
    else match pick in_ areas with
         | Some a => browseArea a ;; mret (inl ())
         | None => mret (inl ())
         end) ().

(** ** Termination *)

Lemma tame_compose a p : tame (compose a p).
Proof. unfold compose. tame. Qed.

Lemma tame_readMessage m : tame (readMessage m).
Proof. unfold readMessage, reply_row, delete_post, editMessage. pose proof tame_compose. tame. Qed.

Lemma tame_browseArea a : tame (browseArea a).
Proof. unfold browseArea, post_row, markRead. pose proof tame_compose. pose proof tame_readMessage. tame. Qed.

Lemma tame_RunBoards : tame RunBoards.
Proof. unfold RunBoards, area_row, newBoard. pose proof tame_browseArea. tame. Qed.
End BoardScreens.

#[export] Hint Resolve tame_RunBoards : tame.
