(* ===== verification/FileScreens.v ===== *)
(** * The file-library screens (src/menu/files.go)

    Areas, listings, search, deletion; downloads inline or by XMODEM and uploads
    by XMODEM, base64 or pasted text. *)

From S2P Require Import Prelude Wire Xmodem GoStrings Base64 GoTime Vault Sql Users Credentials Boards Files.
From S2P Require Import Input Screen Login World Widgets.

Section FileScreens.
Context `{Crypto, Env}.
Variable sysopPass : bytes.
#[local] Open Scope go_scope.

Definition newFileArea : flow () :=
  u ← ask me;
  if AccessLevel u <? CoSysOpLevel then mret ()
  else
    ok ← step_up sysopPass (str "filearea-create-denied");
    if negb ok then mret ()
    else
      name ← ask_line (str "New file area name (blank to cancel): ");
      if beq name [] then mret ()
      else
        minLevel ← ask_level;
        r ← exec (λ b, let '(r, x) := FileAreas_Create name minLevel (db_fareas b) in (r, put_fareas x b));
        match r with
        | Err e => draw (ColorLine Red (str "could not create area: " ++ err_text e)) ;; anyKey_
        | Ok _ => activity (str "filearea-create") name ;; draw (ColorLine Cyan (str "File area created.")) ;; anyKey_
        end.

Definition nextFileSort (cur : bytes) : bytes :=
  if beq cur (str "newest") then str "oldest"
  else if beq cur (str "oldest") then str "name"
  else if beq cur (str "name") then str "size"
  else if beq cur (str "size") then str "downloads"
  else str "newest".

(** [%.1f] of [b / d]: the exact quotient to one digit, halves to even. *)
Definition tenths (b d : Z) : Z :=
  let q := 10 * b / d in
  let r := 2 * (10 * b mod d) in
  if (d <? r) || ((r =? d) && Z.odd q) then q + 1 else q.
Definition one_digit (t : Z) : bytes := Itoa (t / 10) ++ [46] ++ Itoa (t mod 10).

Definition humanSize (b : Z) : bytes :=
  if 2 ^ 20 <=? b then one_digit (tenths b (2 ^ 20)) ++ str "MB"
  else if 2 ^ 10 <=? b then one_digit (tenths b (2 ^ 10)) ++ str "KB"
  else Itoa b ++ str "B".

Definition downloadFile (f : FileEntry) : flow () :=
  r ← exec (λ b, let '(r, x) := Files_Content vault (FID f) (db_files b) in (r, put_files x b));
  match r with
  | Err _ => mret ()
  | Ok content =>
      draw (Clear >> ask_green (str "[X]MODEM transfer or [V]iew inline? ")) ;;
      mode ← readKey;
      activity (str "download-file") (Filename f) ;;
      (if toLower mode =? 120 then
         draw (Line (CRLF ++ str "Start your XMODEM receive now...")) ;;
         x ← raw (Xmodem.Send content);
         match x with
         | Err e => draw (ColorLine Red (CRLF ++ str "transfer failed: " ++ xerr_text e))
         | Ok _ => draw (ColorLine Cyan (CRLF ++ str "transfer complete."))
         end
       else
         draw (ColorLine Cyan (str "----- BEGIN " ++ Filename f ++ str " -----") >> Print content >> Print CRLF >>
               ColorLine Cyan (str "----- END " ++ Filename f ++ str " -----"))) ;;
      draw (ask_green (CRLF ++ str "Press any key to continue...")) ;;
      _ ← readKey; mret ()
  end.

(** The pasted base64, its lines trimmed and joined. *)
Definition readBase64 : flow bytes :=
  forever (λ acc, line ← readLine;
    if beq line [46] then mret (inr acc) else mret (inl (acc ++ TrimSpace line))) [].

(** The content of an upload; [None]: the screen ends with a message. *)
Definition readUpload (mode : Z) : flow (option bytes) :=
  if toLower mode =? 120 then
    draw (Line (CRLF ++ str "Start your XMODEM send now...")) ;;
    x ← raw (Xmodem.Receive MaxFileBytes);
    match x with
    | Err e => draw (ColorLine Red (CRLF ++ str "upload failed: " ++ xerr_text e)) ;; mret None
    | Ok data => mret (Some data)
    end
  else if toLower mode =? 98 then
    draw (Line (CRLF ++ str "Paste the file's base64 (e.g. `base64 file`). End with a single '.' on its own line.")) ;;
    text ← readBase64;
    match StdDecode text with
    | None => draw (ColorLine Red (str "that isn't valid base64 — try again: " ++ base64_text text)) ;; mret None
    | Some data => mret (Some data)
    end
  else
    draw (Line (CRLF ++ str "Paste the file contents (text/ANSI). End with a single '.' on its own line.")) ;;
    lines ← readBody; mret (Some (Join lines [10])).

Definition upload_refusal (e : err) : bytes :=
  match e with
  | ErrTooLarge => str "too large — limit is 10 MiB"
  | ErrQuotaExceeded => str "over your storage quota (100 MiB) — delete some files first"
  | ErrDuplicateName => str "a file with that name already exists here — delete it first to replace"
  | _ => str "upload failed: " ++ err_text e
  end.

Definition uploadFile (areaID : Z) : flow () :=
  draw (Print CRLF >> ask_green (str "Filename: ")) ;;
  filename ← readLine;
  if beq (TrimSpace filename) [] then mret ()
  else
    draw (ask_green (str "Description: ")) ;;
    desc ← readLine;
    draw (ask_green (str "[B]ase64 (binary paste), [P]aste text, or [X]MODEM? ")) ;;
    mode ← readKey;
    c ← readUpload mode;
    match c with
    | None => mret ()
    | Some content =>
        u ← ask me; t ← time_now; nonce ← random; wr ← disk_write;
        r ← exec (λ b, let '(r, x) := Files_Add vault (db_users b) (db_fareas b) areaID (ID u) (TrimSpace filename) desc
                                        content t nonce wr (db_files b) in (r, put_files x b));
        match r with
        | Err e => draw (ColorLine Red (upload_refusal e))
        | Ok _ => activity (str "upload-file") (TrimSpace filename) ;; draw (ColorLine Cyan (str "Uploaded."))
        end
    end.

Record filing := Filing { sortBy : bytes; fpage : Z; flisted : list FileEntry; header : bytes }.

Definition unfiltered (sort : bytes) : filing := Filing sort 0 [] [].

Definition deleteFile (st : filing) (files : list FileEntry) : flow filing :=
  draw (ask_green (CRLF ++ str "Delete file # (blank to cancel): ")) ;;
  ks ← readLine_;
  match pick (TrimSpace ks) files with
  | None => mret st
  | Some f =>
      u ← ask me;
      if (UploaderID f =? ID u) || (CoSysOpLevel <=? AccessLevel u) then
        r ← exec (λ b, let '(r, x) := Files_Delete (FID f) (db_files b) in (r, put_files x b));
        match r with
        | Err _ => draw (ColorLine Red (str "delete failed")) ;; mret st
        | Ok _ => activity (str "delete-file") (Filename f) ;; mret (unfiltered (sortBy st))
        end
      else draw (ColorLine Red (str "you can only delete your own files")) ;; anyKey_ ;; mret st
  end.

Definition file_row (x : Z * FileEntry) : flow () :=
  let f := x.2 in
  draw (number x.1 >> Color White >> SafePrint (Filename f) >> Reset) ;;
  h ← handle (UploaderID f);
  draw (Print (str "  " ++ humanSize (SizeBytes f) ++ str " (" ++ Itoa (DownloadCount f) ++ str "x) by " ++ h ++ str "  ") >>
        SafePrint (firstLine (FDescription f)) >> Print CRLF).

Definition browseFileArea (area : FileArea) : flow () :=
  forever (λ st,
    files ← (match flisted st with
             | [] => query (λ b, Files_ListSorted (FAID area) (sortBy st) (entries (db_files b)))
             | l => mret l
             end);
    let '(lo, hi, pages) := pageWindow (len files) (fpage st) in
    let page := clampPage (fpage st) pages in
    let turn p := Filing (sortBy st) p (flisted st) (header st) in
    draw (Clear >> Color Cyan >> Print (str "Files: ") >> SafePrint (FAName area) >>
          Print (str "   (" ++ sortBy st ++ str ")" ++ CRLF) >> Reset >>
          (if beq (header st) [] then id else ColorLine Blue (header st)) >>
          (match files with [] => Line (str "  (no files)") | _ => id end)) ;;
    for_each file_row (window lo hi files) ;;
    draw (pageFooter page pages >>
          ask_green (CRLF ++ str "[#] download  [U]pload  [S]earch  [B] by user  [R] sort  [K] delete  [C]lear  [Q]uit: ")) ;;
    in_ ← readLine;
    let in_ := TrimSpace in_ in
    if quits in_ then mret (inr ())
    else if beq in_ [62] then mret (inl (turn (page + 1)))
    else if beq in_ [60] then mret (inl (turn (page - 1)))
    else if fold_is 117 in_ then uploadFile (FAID area) ;; mret (inl (unfiltered (sortBy st)))
    else if fold_is 99 in_ then mret (inl (unfiltered (sortBy st)))
    else if fold_is 114 in_ then mret (inl (unfiltered (nextFileSort (sortBy st))))
    else if fold_is 115 in_ then
      draw (ask_green (CRLF ++ str "Search text: ")) ;;
      q ← readLine_;
      let q := TrimSpace q in
      if beq q [] then mret (inl (turn page))
      else
        res ← query (λ b, Files_Search (FAID area) q (entries (db_files b)));
        mret (inl (Filing (sortBy st) 0 res (str "search " ++ quote q ++ str " — " ++ Itoa (len res) ++ str " hit(s)")))
    else if fold_is 98 in_ then
      draw (ask_green (CRLF ++ str "Filter by uploader handle: ")) ;;
      h ← readLine_;
      r ← query (λ b, Users_ByHandle vault (TrimSpace h) (db_users b));
      match r with
      | Err _ => draw (ColorLine Red (str "no such user")) ;; mret (inl (turn page))
      | Ok target =>
          res ← query (λ b, Files_ByUploader (FAID area) (ID target) (entries (db_files b)));
          mret (inl (Filing (sortBy st) 0 res (str "by " ++ Handle target ++ str " — " ++ Itoa (len res) ++ str " file(s)")))
      end
    else if fold_is 107 in_ then st' ← deleteFile (turn page) files; mret (inl st')
    else match pick in_ files with
         | Some f => downloadFile f ;; mret (inl (turn page))
         | None => mret (inl (turn page))
         end) (unfiltered (str "newest")).

Definition farea_row (x : Z * FileArea) : flow () :=
  draw (number x.1 >> Color White >> SafePrint (FAName x.2) >> Reset >> Print CRLF).

Definition RunFiles : flow () :=
  newHandleCache ;;
  u ← ask me;
  let isSysOp := CoSysOpLevel <=? AccessLevel u in
  forever (λ _ : (),
    draw (Clear >> heading Cyan (str "File Library") (str "------------")) ;;
    u ← ask me;
    areas ← query (λ b, FileAreas_Visible (AccessLevel u) (db_fareas b));
    for_each farea_row (imap (λ i a, (Z.of_nat i, a)) areas) ;;
    draw (ask_green (CRLF ++ (if isSysOp then str "Area # ([N]ew area, [Q]uit): " else str "Area # (or [Q]uit): "))) ;;
    in_ ← readLine;
    let in_ := TrimSpace in_ in
    if quits in_ then mret (inr ())
    else if isSysOp && fold_is 110 in_ then newFileArea ;; mret (inl ())
    else match pick in_ areas with
         | Some a => browseFileArea a ;; mret (inl ())
         | None => mret (inl ())
         end) ().

(** ** Termination *)

(** A transfer never reads backwards. *)
Definition forward {A} (m : xm A) : Prop := forall w, (length (w_in (m w).2) <= length (w_in w))%nat.

Lemma forward_ret {A} (a : A) : forward (mret a).
Proof. intros w. done. Qed.
Lemma forward_fail {A} e : forward (@wfail xerr A e).
Proof. intros w. done. Qed.
Lemma forward_bind {A B} (m : xm A) (f : A -> xm B) : forward m -> (forall a, forward (f a)) -> forward (m ≫= f).
Proof.
  intros Hm Hf w. rewrite wbind_eq. specialize (Hm w). destruct (m w) as [[a|e] w1]; [|done].
  specialize (Hf a w1). cbn in *. lia.
Qed.
Lemma forward_read : forward readByte.
Proof. intros w. unfold readByte, wread. destruct (w_in w) eqn:E; cbn; rewrite ?E; cbn; lia. Qed.
Lemma forward_readFull n : forward (readFull n).
Proof. intros w. destruct (readFull n w) as [r w'] eqn:E. by eapply wreadFull_in. Qed.
Lemma forward_write p : forward (write p).
Proof. intros w. destruct (write p w) as [r w'] eqn:E. cbn. by rewrite (wwrite_in _ _ _ _ _ E). Qed.
Lemma forward_ignore {A} (m : xm A) : forward m -> forward (wignore m).
Proof. intros Hm w. apply Hm. Qed.

Ltac forward :=
  intros;
  lazymatch goal with
  | |- forward (_ ≫= _) => apply forward_bind; [forward | forward]
  | |- forward (match ?x with _ => _ end) => destruct x; forward
  | |- forward (wignore _) => apply forward_ignore; forward
  | |- _ => first [apply forward_ret | apply forward_fail | apply forward_read | apply forward_readFull
                  | apply forward_write | solve [auto] | idtac]
  end.

Lemma forward_Send data : forward (Xmodem.Send data).
Proof.
  assert (H1 : forall n, forward (waitStart n)) by (induction n; cbn [waitStart]; forward).
  assert (H2 : forall n f, forward (sendTries n f)) by (induction n; cbn [sendTries]; forward).
  assert (H3 : forall n b o u, forward (sendBlocks n b o data u)) by (induction n; cbn [sendBlocks]; unfold sendBlock; forward).
  assert (H4 : forall n, forward (sendEot n)) by (induction n; cbn [sendEot]; forward).
  unfold Send. forward.
Qed.

Lemma forward_Receive n : forward (Xmodem.Receive n).
Proof.
  unfold Receive, recvAll. apply forward_bind; [forward|]. intros _ w. generalize (S (length (w_in w))) as f. intros f. revert w.
  change (forward (recvLoop f n 1 [])). generalize 1 as e. generalize ([] : bytes) as o. induction f as [|f IH]; intros o e; cbn [recvLoop]; forward.
Qed.

Lemma tame_raw {A} (m : xm A) : forward m -> tame (raw m).
Proof.
  intros Hm w. specialize (Hm (Wire (s_in (io w)) [] None)). unfold raw, World.unread.
  by destruct (m _) as [r x].
Qed.

Lemma tame_downloadFile f : tame (downloadFile f).
Proof. unfold downloadFile. pose proof (λ c, tame_raw _ (forward_Send c)). tame. Qed.

Lemma tame_uploadFile a : tame (uploadFile a).
Proof. unfold uploadFile, readUpload, readBase64. pose proof (tame_raw _ (forward_Receive MaxFileBytes)). tame. Qed.

Lemma tame_browseFileArea a : tame (browseFileArea a).
Proof.
  unfold browseFileArea, file_row, deleteFile. pose proof tame_downloadFile. pose proof tame_uploadFile. tame.
Qed.

Lemma tame_RunFiles : tame RunFiles.
Proof. unfold RunFiles, farea_row, newFileArea. pose proof tame_browseFileArea. tame. Qed.
End FileScreens.

#[export] Hint Resolve tame_RunFiles : tame.
