(* ===== verification/ProfileScreens.v ===== *)
(** * The profile screens (src/menu/profile.go)

    A member's statistics, SSH keys, block list, colours and password. *)

From S2P Require Import Prelude GoStrings GoTime Vault Sql Users Credentials Mail Input Screen Login World Widgets.

Section ProfileScreens.
Context `{Crypto, SshKeys, Env}.
#[local] Open Scope go_scope.

Definition colorblind_to (on : bool) (u : User) : User :=
  MkUser (ID u) (Handle u) (PasswordHash u) (RealName u) (Email u) (AccessLevel u) (Status u) (DailyMinutes u) (Points u)
    on (CreatedAt u) (LastLoginAt u).

Definition changePassword : flow () :=
  draw (ask_green (CRLF ++ str "Current password: ")) ;;
  cur ← readPassword;
  u ← ask me;
  match VerifyPassword (PasswordHash u) cur with
  | VPanic => halt Crash
  | VOk true =>
      draw (ask_green (str "New password (min 8): ")) ;;
      p1 ← readPassword;
      draw (ask_green (str "Confirm: ")) ;;
      p2 ← readPassword;
      if negb (beq p1 p2) || (len p1 <? minPasswordLen)
      then draw (ColorLine Red (str "passwords didn't match or were too short")) ;; anyKey_
      else
        salt ← random;
        let hash := HashPassword p1 salt in
        _ ← exec (λ b, ((), put_users (Users_SetPassword (ID u) hash (db_users b)) b));
        change (λ w, with_me (with_hash hash (me w)) w) ;;
        activity (str "password-change") [] ;;
        draw (ColorLine Cyan (str "Password changed.")) ;; anyKey_
  | VOk false | VBadHash => draw (ColorLine Red (str "wrong password")) ;; anyKey_
  end.

Definition block_row (x : Z * bytes) : flow () :=
  draw (Print (str "  " ++ Itoa (x.1 + 1) ++ str ") " ++ x.2 ++ CRLF)).

(** The handle of a blocked user, looked up afresh on every redraw. *)
Definition blocked_handle (b : bbs) (id : Z) : bytes :=
  match Users_ByID vault id (db_users b) with Ok u => Handle u | Err _ => str "unknown" end.

Definition manageBlocks : flow () :=
  u ← ask me;
  forever (λ _ : (),
    draw (Clear >> heading Cyan (str "Blocked Users") (str "-------------")) ;;
    ids ← query (λ b, Blocks_List (ID u) (db_blocks b));
    draw (match ids with [] => Line (str "  (you haven't blocked anyone)") | _ => id end) ;;
    handles ← query (λ b, blocked_handle b <$> ids);
    for_each block_row (imap (λ i h, (Z.of_nat i, h)) handles) ;;
    draw (ask_green (CRLF ++ str "[A]dd by handle  [U]nblock #  [Q]uit: ")) ;;
    key ← readKey;
    let k := toLower key in
    if k =? 97 then
      draw (Print (CRLF ++ str "Handle to block: ")) ;;
      in_ ← readLine;
      r ← query (λ b, Users_ByHandle vault (TrimSpace in_) (db_users b));
      match r with
      | Err _ => draw (ColorLine Red (str "  [x] no such user")) ;; mret (inl ())
      | Ok target =>
          if ID target =? ID u then draw (ColorLine Red (str "  [x] you can't block yourself")) ;; mret (inl ())
          else
            t ← time_now;
            r ← exec (λ b, let '(r, x) := Blocks_Block (db_users b) (ID u) (ID target) t (db_blocks b) in (r, put_blocks x b));
            match r with
            | Err _ => draw (ColorLine Red (str "  [x] could not block")) ;; mret (inl ())
            | Ok _ => activity (str "block-user") (Handle target) ;; draw (ColorLine Cyan (str "  [ok] blocked")) ;; mret (inl ())
            end
      end
    else if k =? 117 then
      match ids with
      | [] => mret (inl ())
      | _ =>
          draw (Print (CRLF ++ str "Number to unblock (or blank to cancel): ")) ;;
          in_ ← readLine;
          match pick (TrimSpace in_) (zip ids handles) with
          | None => mret (inl ())
          | Some (target, h) =>
              _ ← exec (λ b, ((), put_blocks (Blocks_Unblock (ID u) target (db_blocks b)) b));
              activity (str "unblock-user") h ;; draw (ColorLine Cyan (str "  [ok] unblocked")) ;; mret (inl ())
          end
      end
    else if (k =? 113) || (k =? 120) then mret (inr ())
    else mret (inl ())) ().

Definition key_row (x : Z * Key) : flow () :=
  draw (Print (str "  " ++ Itoa (x.1 + 1) ++ str ") " ++ Fingerprint x.2 ++ str "  " ++ Comment x.2 ++ CRLF)).

Definition add_key : flow () :=
  draw (Print (CRLF ++ str "Paste public key: ")) ;;
  line ← readLine;
  u ← ask me; t ← time_now;
  r ← exec (λ b, let '(r, x) := Keys_Add (db_users b) (ID u) (TrimSpace line) t (db_keys b) in (r, put_keys x b));
  match r with
  | Err ErrKeyTaken => draw (ColorLine Red (str "  [x] that key is already registered to an account"))
  | Err _ => draw (ColorLine Red (str "  [x] invalid SSH public key"))
  | Ok _ => draw (ColorLine Cyan (str "  [ok] key added")) ;; activity (str "key-add") []
  end.

Definition revoke_key (active : list Key) : flow () :=
  draw (Print (CRLF ++ str "Number to revoke (or blank to cancel): ")) ;;
  in_ ← readLine;
  match pick (TrimSpace in_) active with
  | None => draw (ColorLine Red (str "  [x] no such key"))
  | Some k =>
      t ← time_now;
      _ ← exec (λ b, ((), put_keys (Keys_Revoke (KID k) t (db_keys b)) b));
      draw (ColorLine Cyan (str "  [ok] key revoked")) ;; activity (str "key-revoke") (Fingerprint k)
  end.

Definition toggle_colorblind (on : bool) : flow () :=
  u ← ask me;
  _ ← exec (λ b, ((), put_users (Users_SetColorblind (ID u) on (db_users b)) b));
  change (λ w, with_cb on (with_me (colorblind_to on (me w)) w)) ;;
  activity (str "colorblind-toggle") (if on then str "off" else str "on").

Definition RunProfile : flow () :=
  forever (λ _ : (),
    draw Clear ;;
    u ← ask me;
    fresh ← query (λ b, Users_ByID vault (ID u) (db_users b));
    let stats := match fresh with Ok f => f | Err _ => u end in
    draw (heading Cyan (str "Your Stats") (str "----------") >>
          Print (str "  Handle: " ++ Handle stats ++ str "   Access level: " ++ Itoa (AccessLevel stats) ++ CRLF) >>
          Print (str "  Points: " ++ Itoa (Points stats) ++ str "   Member since: " ++ fmt_date (CreatedAt stats) ++ CRLF ++ CRLF) >>
          heading Cyan (str "Your SSH Keys") (str "-------------")) ;;
    active ← query (λ b, Keys_Active (ID u) (db_keys b));
    draw (match active with [] => Line (str "  (none — add one before you lose access!)") | _ => id end) ;;
    for_each key_row (imap (λ i k, (Z.of_nat i, k)) active) ;;
    draw (Print (str "  Colorblind-friendly colors: " ++ (if Colorblind stats then str "on" else str "off") ++ CRLF) >>
          ask_green (CRLF ++ str "[A]dd key  [R]evoke key  [P]assword  [C]olorblind  [B]locked users  [Q]uit: ")) ;;
    key ← readKey;
    let k := toLower key in
    if k =? 99 then toggle_colorblind (negb (Colorblind stats)) ;; mret (inl ())
    else if k =? 112 then changePassword ;; mret (inl ())
    else if k =? 98 then manageBlocks ;; mret (inl ())
    else if k =? 97 then add_key ;; mret (inl ())
    else if k =? 114 then
      (match active with [] => mret () | _ => revoke_key active end) ;; mret (inl ())
    else if (k =? 113) || (k =? 120) then mret (inr ())
    else mret (inl ())) ().

(** ** Termination *)

Lemma tame_changePassword : tame changePassword.
Proof. unfold changePassword. tame. Qed.

Lemma tame_manageBlocks : tame manageBlocks.
Proof. unfold manageBlocks, block_row. tame. Qed.

Lemma tame_RunProfile : tame RunProfile.
Proof.
  unfold RunProfile, key_row, add_key, revoke_key, toggle_colorblind.
  pose proof tame_changePassword. pose proof tame_manageBlocks. tame.
Qed.
End ProfileScreens.

#[export] Hint Resolve tame_RunProfile : tame.
