(* ===== verification/Apply.v ===== *)
(** * The membership application (src/menu/apply.go)

    What a Telnet caller can do: give a handle, public keys, a contact and a
    note.  Nothing is stored before the last answer. *)

From S2P Require Import Prelude GoStrings GoTime Vault Sql Users Credentials DoorStore Input Screen Login World Widgets.

Section Apply.
Context `{Crypto, SshKeys, Env}.
#[local] Open Scope go_scope.

(** The keys, one a line, the invalid ones skipped. *)
Definition readKeys : flow (list bytes) :=
  forever (λ keyLines,
    draw (ask_green (str "key> ")) ;;
    line ← readLine;
    let line := TrimSpace line in
    if beq line [] then mret (inr keyLines)
    else if negb (ValidatePublicKey line) then
      draw (ColorLine Red (str "  [x] not a valid SSH public key - skipped")) ;; mret (inl keyLines)
    else draw (ColorLine Cyan (str "  [ok] key accepted")) ;; mret (inl (keyLines ++ [line]))) [].

Definition save_key (userID : Z) (k : bytes) : flow () :=
  t ← time_now;
  r ← exec (λ b, let '(r, x) := Keys_Add (db_users b) userID k t (db_keys b) in (r, put_keys x b));
  match r with
  | Err e => draw (ColorLine Red (str "  [x] a key failed to save: " ++ err_text e))
  | Ok _ => mret ()
  end.

Definition application_note (contact note : bytes) : bytes :=
  let c := TrimSpace contact in
  if beq c [] then TrimSpace note else str "contact: " ++ c ++ [10] ++ TrimSpace note.

(** Persist: the pending user, the keys, the application. *)
Definition submit (h : bytes) (keyLines : list bytes) (fullNote : bytes) : flow () :=
  t ← time_now; n1 ← random; n2 ← random;
  r ← exec (λ b, let '(r, x) := Users_Create vault h [] [] [] t n1 n2 (db_users b) in (r, put_users x b));
  match r with
  | Err e => draw (ColorLine Red (str "Could not submit application: " ++ err_text e))
  | Ok u =>
      for_each (save_key (ID u)) keyLines ;;
      t ← time_now; n ← random;
      r ← exec (λ b, let '(r, x) := Memberships_Apply vault (db_users b) (ID u) fullNote t n (db_memberships b) in
                     (r, put_memberships x b));
      match r with
      | Err e => draw (ColorLine Red (str "Could not record application: " ++ err_text e))
      | Ok _ =>
          activity (str "membership-application") (str "handle=" ++ h) ;;
          draw (Print CRLF >> ColorLine Cyan (str "Application submitted! The SysOp will review it.") >>
                Line (str "Once approved you'll receive a one-time token out-of-band, then") >>
                Line (str "connect via SSH to set your password and log in. 73!"))
      end
  end.

Definition RunApply : flow () :=
  name ← query (λ b, BBSName (db_settings b));
  let title := name ++ str " :: Membership Application" in
  draw (Clear >> heading Cyan title (replicate (length title) 45) >>
        Line (str "Telnet is for applying only. Approved members connect over SSH.") >> Print CRLF >>
        ask_green (str "Desired handle: ")) ;;
  h ← readLine;
  let h := TrimSpace h in
  if beq h [] then draw (Line (str "No handle entered. Goodbye."))
  else
    taken ← query (λ b, Users_ByHandle vault h (db_users b));
    match taken with
    | Ok _ => draw (ColorLine Red (str "That handle is already taken. Goodbye."))
    | Err _ =>
        draw (Print CRLF >> Line (str "Paste your SSH PUBLIC key(s), one per line. Blank line when done.") >>
              Line (str "(Public keys are safe to send in the clear; your password is set later over SSH.)")) ;;
        keyLines ← readKeys;
        match keyLines with
        | [] => draw (ColorLine Red (str "At least one SSH public key is required to join. Goodbye."))
        | _ =>
            draw (Print CRLF >> Line (str "How can the SysOp reach you out-of-band to deliver your approval") >>
                  ask_green (str "token? (optional, e.g. PGP-encrypted email): ")) ;;
            contact ← readLine;
            draw (ask_green (str "Why do you want to join? ")) ;;
            note ← readLine;
            submit h keyLines (application_note contact note)
        end
    end.

Lemma tame_RunApply : tame RunApply.
Proof. unfold RunApply, readKeys, submit, save_key. tame. Qed.
End Apply.

#[export] Hint Resolve tame_RunApply : tame.
