(* ===== verification/DoorScreens.v ===== *)
(** * The door screens and the door installer (src/menu/doors.go, doorinstall.go)

    Listing and playing doors, resident or as a subprocess, and installing
    resident doors from a release.  What the network and the operating system
    answer is the class [DoorHost]. *)

From S2P Require Import Prelude Doors Releases GoStrings Wire Xmodem Vault Sql Users DoorStore Input Screen Terminal Login World Widgets.

(** Answers by ticks: dialling a door; how many of the caller's bytes a resident
    game takes and how many of its own it delivers before one side hangs up; the
    run of a process on the caller's input (bytes taken, output, error text); the
    release and download endpoints, a free port, the file system. *)
Class DoorHost := {
  goos : bytes;
  goarch : bytes;
  dial : bytes -> bytes -> nat -> result bytes (list read);
  converse : nat -> bytes -> bytes -> nat * nat;
  run_process : nat -> process -> bytes -> nat * bytes * option bytes;
  http_get : nat -> bytes -> result bytes response;
  decode_release : bytes -> option bytes -> result bytes Release;
  fs_does : nat -> fs_answers;
  free_port : nat -> result bytes Z;
  mkdir : nat -> bytes -> bool;
  file_exists : nat -> bytes -> bool
}.

Section DoorScreens.
Context `{Crypto, Env, DoorHost}.
#[local] Open Scope go_scope.

(** An answer of the host. *)
Definition host {A} (f : nat -> A) : flow A := λ w, (Ok (f (ticks w)), tick_on w).

Definition fetch (n : nat) (url : bytes) : result bytes Release := FetchRelease decode_release (http_get n url).
(** The directory is the operating system's; only the error matters here. *)
Definition download (n : nat) (url dest : bytes) : option bytes := (DownloadBinary (http_get n url) dest (fs_does n) ∅).1.

(** ** doors.go *)

(** One rune of [slugify]; UTF-8 continuation bytes belong to the rune before. *)
Definition slug_rune (b : bytes) (c : Z) : bytes :=
  if (128 <=? c) && (c <? 192) then b
  else if ((97 <=? c) && (c <=? 122)) || ((48 <=? c) && (c <=? 57)) then b ++ [c]
  else if beq b [] then b
  else b ++ [45].

Fixpoint drop_dashes (s : bytes) : bytes :=
  match s with b :: s' => if b =? 45 then drop_dashes s' else s | [] => [] end.

Definition slugify (s : bytes) : bytes :=
  let out := reverse (drop_dashes (reverse (drop_dashes (foldl slug_rune [] (lower s))))) in
  if beq out [] then str "door" else out.

Definition termOf (ansi : bool) : bytes := if ansi then str "ansi" else str "dumb".

(** The caller's first [n] bytes go to the door, its output to the caller. *)
Definition piped (n : nat) (output : bytes) : flow () :=
  change (λ w, with_io {| s_in := drop n (s_in (io w)); s_out := s_out (io w) ++ output;
                          s_resets := s_resets (io w) + Nat.min n (length (s_in (io w))) |} w).

Variable base : Opts.
Variable node : Z.
Variable doorsData : bytes.

Definition printLaunch (d : Door) (ver : bytes) : flow () :=
  draw (Color Magenta >> Print (str "Launching ") >> SafePrint (DName d) >>
        (if beq ver [] then id else Print (str " v" ++ ver)) >>
        Print (str " (node " ++ Itoa node ++ str ")..." ++ CRLF ++ CRLF) >> Reset) ;;
  activity (str "door-launch") (DName d).

(** A resident door: the error of the dial, if any. *)
Definition play_resident (d : Door) : flow (option bytes) :=
  let net := if beq (Network d) [] then str "tcp" else Network d in
  dialled ← host (dial net (Address d));
  match DialResident dialled with
  | Err e => printLaunch d [] ;; mret (Some e)
  | Ok rc =>
      printLaunch d (Doors.Version rc) ;;
      u ← ask me;
      let sent := SendHandle rc (Handle u) in
      input ← ask (λ w, s_in (io w));
      k ← host (λ n, converse n sent input);
      piped k.1 (pre rc ++ take k.2 (stream (conn_reads rc))) ;;
      mret None
  end.

Definition door_opts (d : Door) : Opts :=
  let home := below doorsData (slugify (DName d)) in
  MkOpts (15 * minute) (CPULimit base) (termOf (ANSI (cl_cap conn))) (below home (str "node" ++ Itoa node))
    (below home (str "shared")) (RunAsUID base) (RunAsGID base) (Chroot base) (NoNetwork base) (Isolate base).

Definition drop_info (u : User) : DropInfo :=
  MkDrop (str "AdmiralBBS") (Handle u) [] (AccessLevel u) 30 node (ANSI (cl_cap conn)).

Definition play_subprocess (d : Door) : flow (option bytes) :=
  printLaunch d [] ;;
  u ← ask me;
  match Launch [] (Command d) [] (drop_info u) (door_opts d) with
  | None => mret (Some (str "doors: empty command"))
  | Some p =>
      input ← ask (λ w, s_in (io w));
      r ← host (λ n, run_process n p input);
      piped r.1.1 r.1.2 ;; mret r.2
  end.

Definition playDoor (d : Door) : flow () :=
  draw Clear ;;
  e ← (if beq (Kind d) KindResident then play_resident d else play_subprocess d);
  draw (Color Cyan >> Print (CRLF ++ CRLF) >> SafePrint (DName d) >> Print (str " exited. Press any key...") >> Reset) ;;
  (match e with Some text => activity (str "door-exit") (DName d ++ str ": " ++ text) | None => mret () end) ;;
  _ ← readKey; mret ().

Definition door_row (x : Z * Door) : flow () :=
  draw (number x.1 >> Color White >> SafePrint (DName x.2) >> Reset >> Print CRLF).

Definition RunDoors : flow () :=
  forever (λ _ : (),
    draw (Clear >> heading Cyan (str "Door Games") (str "----------")) ;;
    u ← ask me;
    list ← query (λ b, Doors_Visible (AccessLevel u) (db_doors b));
    draw (match list with [] => Line (str "  (no door games installed yet)") | _ => id end) ;;
    for_each door_row (imap (λ i d, (Z.of_nat i, d)) list) ;;
    draw (ask_green (CRLF ++ str "Play # (or [Q]uit): ")) ;;
    in_ ← readLine;
    let in_ := TrimSpace in_ in
    if quits in_ then mret (inr ())
    else match pick in_ list with
         | Some d => playDoor d ;; mret (inl ())
         | None => mret (inl ())
         end) ().

(** ** doorinstall.go *)

(** [filepath.Join(binBase, "installed-bin")] and ["installed-data"]; [binBase] is [doorsData]. *)
Definition binDir : bytes := below doorsData (str "installed-bin").
Definition dataDir : bytes := below doorsData (str "installed-data").
Definition binExt : bytes := if beq goos (str "windows") then str ".exe" else [].
Definition binPath (name : bytes) : bytes := below binDir (slugify name ++ binExt).

Definition assetNames (r : Release) : bytes := Join (AName <$> Assets r) (str ", ").

Definition no_asset (r : Release) : bytes :=
  str "no " ++ goos ++ str "/" ++ goarch ++ str " binary in release " ++ TagName r ++ str " — assets: [" ++ assetNames r ++ str "]".

(** The supervisor's [Launch] and the registration of the bridge; the error text. *)
Definition launch_and_register (name bin addr : bytes) (minLevel : Z) : flow (option bytes) :=
  let dir := below dataDir (slugify name) in
  ok ← host (λ n, mkdir n dir);
  s ← ask sup;
  let '(up, s') := Sup_Launch ok name bin dir addr s in
  change (with_sup s') ;;
  if negb up then mret (Some (str "launch: mkdir " ++ dir))
  else
    r ← exec (λ b, let '(r, x) := EnsureResidentDoor name (str "tcp") addr minLevel (db_doors b) in (r, put_doors x b));
    mret (match r with Ok _ => None | Err e => Some (str "register: " ++ err_text e) end).

Definition Install (name sourceURL : bytes) (minLevel : Z) : flow (result bytes bytes) :=
  fetched ← host (λ n, fetch n sourceURL);
  match fetched with
  | Err e => mret (Err (str "fetch release: " ++ e))
  | Ok rel =>
      match PickAsset lower goos goarch rel with
      | None => mret (Err (no_asset rel))
      | Some asset =>
          port ← host free_port;
          match port with
          | Err e => mret (Err e)
          | Ok port =>
              let addr := str "127.0.0.1:" ++ Itoa port in
              got ← host (λ n, download n (URL asset) (binPath name));
              match got with
              | Some e => mret (Err (str "download " ++ AName asset ++ str ": " ++ e))
              | None =>
                  t ← time_now;
                  r ← exec (λ b, let '(r, x) := Installed_Upsert (MkInstalled 0 name sourceURL (TagName rel) (binPath name)
                                                                    addr minLevel) t (db_installed b) in (r, put_installed x b));
                  match r with
                  | Err e => mret (Err (str "persist: " ++ err_text e))
                  | Ok _ =>
                      failed ← launch_and_register name (binPath name) addr minLevel;
                      mret (match failed with Some e => Err e | None => Ok (TagName rel) end)
                  end
              end
          end
      end
  end.

(** The missing binary of a persisted door: whether to go on with it. *)
Definition restore_binary (d : InstalledDoor) : flow bool :=
  there ← host (λ n, file_exists n (BinPath d));
  if (there : bool) then mret true
  else
    fetched ← host (λ n, fetch n (SourceURL d));
    match fetched with
    | Err _ => mret true
    | Ok rel =>
        match PickAsset lower goos goarch rel with
        | None => mret true
        | Some a => got ← host (λ n, download n (URL a) (BinPath d)); mret (is_null got)
        end
    end.

Definition relaunch_door (d : InstalledDoor) : flow () :=
  go ← restore_binary d;
  if (go : bool) then (_ ← launch_and_register (IName d) (BinPath d) (IAddress d) (IMin d); mret ()) else mret ().

Definition RelaunchAll : flow () :=
  list ← query (λ b, Installed_List (db_installed b));
  for_each relaunch_door list.

(** ** Termination *)

Lemma tame_host {A} (f : nat -> A) : tame (host f).
Proof. by apply tame_same. Qed.

Lemma tame_piped n o : tame (piped n o).
Proof. intros w. unfold piped, change, World.unread. cbn. rewrite length_drop. split; [lia|done]. Qed.

#[local] Hint Resolve tame_host tame_piped : tame.

Lemma tame_playDoor d : tame (playDoor d).
Proof. unfold playDoor, play_resident, play_subprocess, printLaunch. tame. Qed.

Lemma tame_RunDoors : tame RunDoors.
Proof. unfold RunDoors, door_row. pose proof tame_playDoor. tame. Qed.

Lemma tame_launch_and_register n b a m : tame (launch_and_register n b a m).
Proof. unfold launch_and_register. tame. Qed.

Lemma tame_Install n u m : tame (Install n u m).
Proof. unfold Install. pose proof tame_launch_and_register. tame. Qed.
End DoorScreens.

#[export] Hint Resolve tame_host tame_piped tame_RunDoors tame_Install : tame.
