(* ===== verification/SysOpScreens.v ===== *)
(** * The SysOp control panel (src/menu/sysop.go)

    Applications, accounts, content, door installation, the audit viewer, bans,
    abuse reports, branding and timeouts. *)

From S2P Require Import Prelude Doors GoStrings GoTime Vault Sql Users Credentials Boards Mail Files AuditLog SessionLog.
From S2P Require Import Bans DoorStore Input Screen Login World Widgets DoorScreens.

Section SysOpScreens.
Context `{Crypto, Env, DoorHost, EventJson}.
Variable sysopPass : bytes.
(** Whether there is an installer, and its base directory. *)
Variable installer : bool.
Variable binBase : bytes.
(** Whether an audit path is configured, its file by ticks, and the texts of audit errors. *)
Variable audited : bool.
Variable audit_file : nat -> option bytes.
Variable audit_text : auditErr -> bytes.
#[local] Open Scope go_scope.

(** A statement whose error the screen ignores. *)
Definition run (f : bbs -> bbs) : flow () := _ ← exec (λ b, ((), f b)); mret ().

(** ** Door installation *)

Definition installed_row (d : InstalledDoor) : flow () :=
  draw (Print (str "  " ++ IName d ++ str " (" ++ DoorStore.Version d ++ str ") @ " ++ IAddress d ++ CRLF)).

Definition installDoorScreen : flow () :=
  draw (Clear >> heading Magenta (str "Install door from release URL") (str "-----------------------------") >>
        Line (str "The BBS downloads the binary built for THIS server's OS/arch, runs it") >>
        Line (str "supervised, and registers it. Only install doors you trust.") >> Print CRLF) ;;
  list ← query (λ b, Installed_List (db_installed b));
  (match list with
   | [] => mret ()
   | _ => draw (ColorLine Cyan (str "Already installed:")) ;; for_each installed_row list ;; draw (Print CRLF)
   end) ;;
  draw (ask_green (str "Door name (blank to cancel): ")) ;;
  name ← readLine;
  let name := TrimSpace name in
  if beq name [] then mret ()
  else
    draw (ask_green (str "Release URL (forge releases JSON, e.g. .../releases/latest): ")) ;;
    url ← readLine;
    let url := TrimSpace url in
    if beq url [] then draw (ColorLine Red (str "No URL — cancelled.")) ;; anyKey_
    else
      draw (ask_green (str "Min access level [0]: ")) ;;
      lvl ← readLine;
      let minLevel := default 0 (Atoi (TrimSpace lvl)) in
      draw (ColorLine Cyan (str "Fetching + downloading — this can take a moment...")) ;;
      activity (str "door-install") (name ++ str " <- " ++ url) ;;
      r ← Install binBase name url minLevel;
      match r with
      | Err e => draw (ColorLine Red (str "Install failed: " ++ e)) ;; anyKey_
      | Ok ver =>
          draw (ColorLine Green (str "Installed + launched: " ++ name ++ str " " ++ ver ++ str " — callers can play it now.")) ;;
          anyKey_
      end.

(** ** Applications *)

Definition pending_row (x : Z * Membership) : flow () :=
  h ← handle (MUserID x.2);
  draw (number x.1 >> Color White >> SafePrint h >> Reset >> Print (str "  — ") >> SafePrint (firstLine (Note x.2)) >> Print CRLF).

Definition approve_member (m : Membership) : flow () :=
  draw (ask_green (CRLF ++ str "Access level [50]: ")) ;;
  lvlIn ← readLine_;
  let level := match Atoi (TrimSpace lvlIn) with Some v => if 0 <? v then v else 50 | None => 50 end in
  run (λ b, put_users (Users_Approve (MUserID m) level (db_users b)) b) ;;
  u ← ask me; t ← time_now; n ← random;
  _ ← or_fail (exec (λ b, let '(r, x) := Memberships_Review vault (db_users b) (MID m) (ID u) DecisionApproved
                                           (str "approved via control panel") t n (db_memberships b) in (r, put_memberships x b)));
  raw ← random; t ← time_now;
  tok ← or_fail (exec (λ b, let '(r, x) := Tokens_Issue (db_users b) (MUserID m) raw t (db_tokens b) in (r, put_tokens x b)));
  h ← handle (MUserID m);
  activity (str "member-approve") h ;;
  draw (Print CRLF >> ColorLine Cyan (str "Approved. ONE-TIME TOKEN (relay out-of-band, e.g. PGP email):") >>
        Color Yellow >> Print (str "    " ++ tok ++ CRLF) >> Reset >>
        Line (str "They set their password with this on first SSH login. It is shown once.")).

Definition deny_member (m : Membership) : flow () :=
  run (λ b, put_users (Users_SetStatus (MUserID m) StatusDenied 0 (db_users b)) b) ;;
  u ← ask me; t ← time_now; n ← random;
  run (λ b, put_memberships (Memberships_Review vault (db_users b) (MID m) (ID u) DecisionDenied
                               (str "denied via control panel") t n (db_memberships b)).2 b) ;;
  h ← handle (MUserID m);
  activity (str "member-deny") h ;;
  draw (ColorLine Red (CRLF ++ str "Denied.")).

Definition membershipQueue : flow () :=
  newHandleCache ;;
  draw (Clear >> ColorLine Cyan (str "Pending Membership Applications")) ;;
  pending ← query_or_fail (λ b, Memberships_Pending vault (db_memberships b));
  match pending with
  | [] => draw (Line (str "  (none)")) ;; press_any_key
  | _ =>
      for_each pending_row (imap (λ i m, (Z.of_nat i, m)) pending) ;;
      draw (ask_green (CRLF ++ str "Approve/deny # (or [Q]): ")) ;;
      in_ ← readLine;
      match pick (TrimSpace in_) pending with
      | None => mret ()
      | Some m =>
          draw (Print (str "[A]pprove or [D]eny? ")) ;;
          dec ← readKey;
          if toLower dec =? 97 then approve_member m ;; press_any_key
          else if toLower dec =? 100 then deny_member m ;; press_any_key
          else mret ()
      end
  end.

(** ** Accounts *)

(** [%+d] *)
Definition signed (n : Z) : bytes := if n <? 0 then Itoa n else [43] ++ Itoa n.

Definition user_row (x : Z * User) : flow () :=
  let u := x.2 in
  draw (Print (str "  " ++ Itoa (x.1 + 1) ++ str ") " ++ field 16 (trunc (Handle u) 16) ++ str " " ++ field 9 (Status u) ++
               str " lvl:" ++ field 3 (Itoa (AccessLevel u)) ++ str " " ++ Itoa (Users.DailyMinutes u) ++ str "min/day  " ++
               Itoa (Points u) ++ str "pts" ++ CRLF)).

Definition award_points (target : User) : flow () :=
  draw (Print (CRLF ++ str "Points to award " ++ Handle target ++ str " (negative to dock): ")) ;;
  v ← readLine_;
  match Atoi (TrimSpace v) with
  | Some delta =>
      if delta =? 0 then mret ()
      else
        r ← exec (λ b, let '(r, x) := Users_AddPoints (ID target) delta (db_users b) in (r, put_users x b));
        match r with
        | Ok total =>
            activity (str "award-points") (signed delta ++ str " -> " ++ Itoa total ++ str " for " ++ Handle target) ;;
            draw (ColorLine Cyan (str "Awarded " ++ signed delta ++ str ". New total: " ++ Itoa total ++ str "."))
        | Err _ => draw (ColorLine Red (str "could not update points"))
        end
  | None => mret ()
  end.

(** A number asked for, and what an account does with it. *)
Definition set_number (question : bytes) (f : Z -> bbs -> bbs) : flow () :=
  draw (Print (CRLF ++ question)) ;;
  v ← readLine_;
  match Atoi (TrimSpace v) with
  | Some n => run (f n) ;; draw (ColorLine Cyan (str "Updated."))
  | None => mret ()
  end.

Definition manage_user (target : User) (act : Z) : flow () :=
  let k := toLower act in
  if k =? 97 then award_points target
  else if k =? 108 then
    set_number (str "New access level: ") (λ lvl b, put_users (Users_SetStatus (ID target) (Status target) lvl (db_users b)) b)
  else if k =? 115 then
    run (λ b, put_users (Users_SetStatus (ID target) StatusSuspended (AccessLevel target) (db_users b)) b) ;;
    draw (ColorLine Red (CRLF ++ str "Suspended."))
  else if k =? 114 then
    run (λ b, put_users (Users_SetStatus (ID target) StatusApproved (AccessLevel target) (db_users b)) b) ;;
    draw (ColorLine Cyan (CRLF ++ str "Reinstated."))
  else if k =? 116 then
    set_number (str "Daily minutes: ") (λ m b, put_users (Users_SetDailyMinutes (ID target) m (db_users b)) b)
  else if k =? 112 then
    run (λ b, put_users (Users_SetPassword (ID target) [] (db_users b)) b) ;;
    draw (ColorLine Cyan (CRLF ++ str "Password cleared — they re-onboard on next login."))
  else mret ().

Definition userManagement : flow () :=
  draw (Clear >> ColorLine Cyan (str "Users")) ;;
  users ← query_or_fail (λ b, Users_All vault (db_users b));
  for_each user_row (imap (λ i u, (Z.of_nat i, u)) users) ;;
  draw (ask_green (CRLF ++ str "User # to manage (or [Q]): ")) ;;
  in_ ← readLine;
  match pick (TrimSpace in_) users with
  | None => mret ()
  | Some target =>
      draw (Print (CRLF ++ str "[L]evel  [S]uspend  [R]einstate  [T]ime budget  [A]ward points  [P] clear password  [Q]: ")) ;;
      act ← readKey;
      manage_user target act ;; press_any_key
  end.

(** ** Content *)

Definition registerDoor : flow () :=
  name ← ask_line (str "Door name: ");
  if beq name [] then mret ()
  else
    draw (ask_green (CRLF ++ str "[s]ubprocess door or [r]esident multiplayer server? ")) ;;
    k ← readKey_;
    if toLower k =? 114 then
      addr ← ask_line (str "Game address (host:port): ");
      if beq addr [] then mret ()
      else run (λ b, put_doors (Doors_CreateResident name (str "tcp") addr 0 (db_doors b)).2 b) ;;
           draw (ColorLine Cyan (str "Registered resident (multiplayer) door."))
    else
      cmd ← ask_line (str "Command (path): ");
      if beq cmd [] then mret ()
      else run (λ b, put_doors (Doors_Create name cmd (str "door32.sys") 0 (db_doors b)).2 b) ;;
           draw (ColorLine Cyan (str "Registered.")).

Definition contentManagement : flow () :=
  draw (Clear >> Print (str "[1] message area  [2] file area  [3] register door  [Q]: ")) ;;
  k ← readKey;
  if k =? 49 then
    name ← ask_line (str "Area name: ");
    desc ← ask_line (str "Description: ");
    (if beq name [] then mret ()
     else run (λ b, put_areas (Areas_Create name desc 0 (db_areas b)).2 b) ;; draw (ColorLine Cyan (str "Created."))) ;;
    press_any_key
  else if k =? 50 then
    name ← ask_line (str "File area name: ");
    (if beq name [] then mret ()
     else run (λ b, put_fareas (FileAreas_Create name 0 (db_fareas b)).2 b) ;; draw (ColorLine Cyan (str "Created."))) ;;
    press_any_key
  else if k =? 51 then registerDoor ;; press_any_key
  else mret ().

(** ** The audit viewer *)

Definition auditPageSize : Z := 15.

(** [time.Time.Format("01-02 15:04")] *)
Definition fmt_short (t : Z) : bytes := drop 5 (fmt_minute t).

Definition event_row (e : Event) : flow () :=
  draw (Print (str "  " ++ fmt_short (Time e) ++ str " " ++ field 10 (trunc (Username e) 10) ++ str " " ++
               field 12 (trunc (SessionID e) 12) ++ str " " ++ field 9 (Type_ e) ++ str " ") >>
        SafePrint (Action e) >> Print CRLF).

Definition anomaly_row (a : LoginAnomaly) : flow () :=
  h ← handle (AUserID a);
  draw (Print (str "  " ++ fmt_short (At a) ++ str " " ++ field 10 (trunc h 10) ++ str " " ++ PrevIP a ++ str " -> " ++
               NewIP a ++ str " after " ++ Itoa (GapSeconds a) ++ str "s" ++ CRLF)).

(** The verdict on the authoritative trail: its colour and text. *)
Definition chain_message (f : option bytes) : Z * bytes :=
  match VerifyAuditChain vault f with
  | (_, Some e) => (Red, str "CHAIN VERIFY FAILED — possible tampering: " ++ audit_text e)
  | (n, None) => (Green, str "Authoritative JSONL chain verified intact: " ++ Itoa n ++ str " events.")
  end.

(** The page a key asks for, before it is clamped; [None] leaves. *)
Definition turn_page (k page : Z) : option Z :=
  let among l := existsb (Z.eqb k) l in
  if among [110; 78; 13; 10; 32] then Some (page + 1)
  else if among [112; 80] then Some (page - 1)
  else if among [102; 70; 62; 43] then Some (page + 10)
  else if among [114; 82; 60; 45] then Some (page - 10)
  else if among [113; 81; 120; 88] then None
  else Some page.

Definition pages_of (total : Z) : Z := Z.max 1 ((total + auditPageSize - 1) / auditPageSize).
Definition clamp_turn (page totalPages : Z) : Z :=
  let page := if totalPages - 1 <? page then totalPages - 1 else page in if page <? 0 then 0 else page.

Definition audit_page (total totalPages page : Z) (anomalies : list LoginAnomaly) (chain : Z * bytes) : flow () :=
  events ← query_or_fail (λ b, SessionLog_Page vault auditPageSize (page * auditPageSize) (db_log b));
  draw (Clear >> ColorLine Cyan (str "Audit Log — page " ++ Itoa (page + 1) ++ str "/" ++ Itoa totalPages ++ str "  (events " ++
                                 Itoa (page * auditPageSize + 1) ++ str "-" ++ Itoa (page * auditPageSize + len events) ++
                                 str " of " ++ Itoa total ++ str ", newest first)")) ;;
  for_each event_row events ;;
  draw (match events with [] => Line (str "  (no events on this page)") | _ => id end) ;;
  (match anomalies with
   | [] => mret ()
   | _ => draw (Print CRLF >> ColorLine Yellow (str "Rapid IP changes (review — not auto-blocked):")) ;;
          for_each anomaly_row anomalies
   end) ;;
  draw (Print CRLF >> (if beq chain.2 [] then id else ColorLine chain.1 chain.2) >> Print CRLF >>
        ColorLine White (str "[N]ext page  [P]rev  [F] +10 pages  [R] -10 pages  [Q] exit") >> ask_green (str "Choice: ")).

Definition auditViewer : flow () :=
  total ← query (λ b, SessionLog_Count (db_log b));
  let totalPages := pages_of total in
  chain ← (if audited then f ← host audit_file; mret (chain_message f) else mret (Green, []));
  anomalies ← query (λ b, Anomalies_Recent 5 (db_anomalies b));
  newHandleCache ;;
  forever (λ page,
    audit_page total totalPages page anomalies chain ;;
    k ← readKey;
    match turn_page k page with
    | None => mret (inr ())
    | Some p => mret (inl (clamp_turn p totalPages))
    end) 0.

(** ** Abuse reports *)

Definition report_row (x : Z * Report) : flow () :=
  a ← handle (ReporterID x.2); b ← handle (TargetID x.2);
  draw (number x.1 >> Color White >> Print (a ++ str " reported ") >> SafePrint b >> Reset >>
        Print (str "  [" ++ RepContext x.2 ++ str "] ") >> SafePrint (firstLine (RepNote x.2)) >> Print CRLF).

Definition resolve (r : Report) (how : bytes) (text : Writer -> Writer) : flow () :=
  u ← ask me; t ← time_now;
  run (λ b, put_reports (Reports_Resolve (db_users b) (RepID r) (ID u) t (db_reports b)).2 b) ;;
  draw text ;;
  h ← handle (TargetID r);
  activity (str "report-resolve") (how ++ h).

Definition suspend_reported (r : Report) : flow () :=
  t ← query (λ b, Users_ByID vault (TargetID r) (db_users b));
  match t with
  | Ok target =>
      run (λ b, put_users (Users_SetStatus (ID target) StatusSuspended (AccessLevel target) (db_users b)) b) ;;
      draw (ColorLine Red (CRLF ++ str "User suspended."))
  | Err _ => mret ()
  end ;;
  resolve r (str "suspend ") id.

Definition reportsQueue : flow () :=
  newHandleCache ;;
  draw (Clear >> heading Magenta (str "Abuse Reports — open") (str "--------------------")) ;;
  open ← query (λ b, Reports_Open (db_reports b));
  match open with
  | [] => draw (Line (str "  (no open reports)")) ;; press_any_key
  | _ =>
      for_each report_row (imap (λ i r, (Z.of_nat i, r)) open) ;;
      draw (ask_green (CRLF ++ str "Report # to act on (or [Q]): ")) ;;
      in_ ← readLine;
      match pick (TrimSpace in_) open with
      | None => mret ()
      | Some r =>
          h ← handle (TargetID r);
          draw (Print (CRLF ++ str "[S]uspend " ++ h ++ str "  [R]esolve (no action)  [Q]: ")) ;;
          act ← readKey;
          if toLower act =? 115 then suspend_reported r ;; press_any_key
          else if toLower act =? 114 then
            resolve r (str "noaction ") (ColorLine Cyan (CRLF ++ str "Resolved.")) ;; press_any_key
          else mret ()
      end
  end.

(** ** Bans *)

Definition ban_row (x : Z * Ban) : flow () :=
  draw (Print (str "  " ++ Itoa (x.1 + 1) ++ str ") " ++ field 20 (Pattern x.2) ++ str " ") >>
        SafePrint (firstLine (Reason x.2)) >> Print CRLF).

Definition add_ban : flow () :=
  pattern ← ask_line (str "IP or CIDR (e.g. 203.0.113.7 or 203.0.113.0/24): ");
  if beq pattern [] then mret ()
  else
    reason ← ask_line (str "Reason: ");
    u ← ask me; t ← time_now;
    r ← exec (λ b, let '(r, x) := Bans_Add (db_users b) pattern reason (ID u) t (db_bans b) in (r, put_bans x b));
    match r with
    | Err e => draw (ColorLine Red (str "  [x] " ++ err_text e))
    | Ok _ => draw (ColorLine Cyan (str "  [ok] banned — new connections from there are dropped at accept")) ;;
              activity (str "ip-ban") pattern
    end.

Definition lift_ban (active : list Ban) : flow () :=
  match active with
  | [] => mret ()
  | _ =>
      in_ ← ask_line (str "Number to lift (or blank to cancel): ");
      match pick (TrimSpace in_) active with
      | None => mret ()
      | Some b =>
          t ← time_now;
          run (λ x, put_bans (Bans_Lift (BanID b) t (db_bans x)) x) ;;
          draw (ColorLine Cyan (str "  [ok] ban lifted")) ;; activity (str "ip-unban") (Pattern b)
      end
  end.

Definition banManagement : flow () :=
  draw (Clear >> heading Magenta (str "IP Banlist") (str "----------")) ;;
  active ← query (λ b, Bans_Active (db_bans b));
  draw (match active with [] => Line (str "  (no active bans)") | _ => id end) ;;
  for_each ban_row (imap (λ i b, (Z.of_nat i, b)) active) ;;
  draw (ask_green (CRLF ++ str "[A]dd ban  [L]ift ban  [Q]uit: ")) ;;
  k ← readKey;
  if toLower k =? 97 then add_ban ;; press_any_key
  else if toLower k =? 108 then lift_ban active ;; press_any_key
  else mret ().

(** ** Settings *)

Definition save_setting (key value : bytes) : flow () := run (λ b, put_settings (Settings_Set key value (db_settings b)) b).

Definition promptMinutes (label : bytes) : flow (option Z) :=
  v ← ask_line label;
  if beq (TrimSpace v) [] then mret None
  else match Atoi (TrimSpace v) with
       | Some n => if 0 <? n then mret (Some n)
                   else draw (ColorLine Red (str "Enter a positive number of minutes.")) ;; anyKey_ ;; mret None
       | None => draw (ColorLine Red (str "Enter a positive number of minutes.")) ;; anyKey_ ;; mret None
       end.

Definition set_minutes (label key : bytes) : flow () :=
  n ← promptMinutes label;
  match n with
  | Some n => save_setting key (Itoa n) ;; draw (ColorLine Cyan (str "Updated — applies to new sessions.")) ;; anyKey_
  | None => mret ()
  end.

Definition editTimeouts : flow () :=
  set ← query db_settings;
  draw (Clear >> heading Magenta (str "Session Timeouts") (str "----------------") >>
        Print (str "  Idle disconnect: " ++ Itoa (IdleMinutes 10 set) ++ str " min" ++ CRLF) >>
        Print (str "  Daily budget:    " ++ Itoa (DoorStore.DailyMinutes 60 set) ++ str " min  (members without a per-user override)" ++ CRLF) >>
        ask_green (CRLF ++ str "Edit [I]dle  [D]aily  [Q]uit: ")) ;;
  k ← readKey;
  if toLower k =? 105 then set_minutes (str "New idle timeout in minutes (blank to cancel): ") (str "idle_minutes")
  else if toLower k =? 100 then set_minutes (str "New daily budget in minutes (blank to cancel): ") (str "daily_minutes")
  else mret ().

Definition set_text (label key : bytes) : flow () :=
  v ← ask_line label;
  if beq v [] then mret () else save_setting key v ;; draw (ColorLine Cyan (str "Updated.")).

Definition editSettings : flow () :=
  set ← query db_settings;
  let motd := if beq (MOTD set) [] then str "(none)" else MOTD set in
  draw (Clear >> heading Magenta (str "Branding & MOTD") (str "---------------") >>
        Print (str "  Name:    " ++ DoorStore.BBSName set ++ CRLF) >> Print (str "  Tagline: " ++ Tagline set ++ CRLF) >>
        Print (str "  MOTD:    ") >> SafePrint (firstLine motd) >> Print CRLF >>
        ask_green (CRLF ++ str "Edit [N]ame  [T]agline  [M]OTD  [Q]uit: ")) ;;
  k ← readKey;
  if toLower k =? 110 then set_text (str "New BBS name (blank to cancel): ") (str "bbs_name") ;; press_any_key
  else if toLower k =? 116 then set_text (str "New tagline (blank to cancel): ") (str "tagline") ;; press_any_key
  else if toLower k =? 109 then
    draw (ask_green (CRLF ++ str "Enter the MOTD. End with a single '.' on its own line; a lone '.' clears it." ++ CRLF)) ;;
    lines ← readBody;
    save_setting (str "motd") (Join lines [10]) ;; draw (ColorLine Cyan (str "MOTD updated.")) ;; press_any_key
  else mret ().

(** ** The panel *)

(** The shared secret that opens the panel. *)
Definition panel_gate : flow bool :=
  if beq sysopPass [] then mret true
  else
    draw (ask_green (CRLF ++ str "SysOp panel password: ")) ;;
    entered ← readPassword;
    if sysopPassOK entered sysopPass then activity (str "sysop-gate-ok") [] ;; mret true
    else activity (str "sysop-gate-failed") [] ;; draw (ColorLine Red (str "Denied.")) ;; anyKey_ ;; mret false.

(** One choice of the panel; [true]: back to the main menu. *)
Definition panel_choice (key : Z) : flow bool :=
  let k := toLower key in
  if k =? 109 then membershipQueue ;; mret false
  else if k =? 117 then userManagement ;; mret false
  else if k =? 99 then contentManagement ;; mret false
  else if k =? 105 then (if installer then installDoorScreen else mret ()) ;; mret false
  else if k =? 97 then auditViewer ;; mret false
  else if k =? 98 then banManagement ;; mret false
  else if k =? 114 then reportsQueue ;; mret false
  else if k =? 115 then editSettings ;; mret false
  else if k =? 116 then editTimeouts ;; mret false
  else mret ((k =? 113) || (k =? 120)).

Definition panel_screen : flow () :=
  draw (Clear >> heading Magenta (str "SysOp Control Panel") (str "-------------------")) ;;
  pending ← query (λ b, Memberships_Pending vault (db_memberships b));
  openReports ← query (λ b, Reports_OpenCount (db_reports b));
  let n := match pending with Ok l => len l | Err _ => 0 end in
  draw (Print (str "  [M] Membership queue (" ++ Itoa n ++ str " pending)" ++ CRLF) >> Line (str "  [U] User management") >>
        Line (str "  [C] Create area / register door") >>
        (if installer then Line (str "  [I] Install door from release URL") else id) >>
        Line (str "  [A] Audit log viewer") >> Line (str "  [B] IP banlist") >>
        Print (str "  [R] Abuse reports (" ++ Itoa openReports ++ str " open)" ++ CRLF) >> Line (str "  [S] Branding & MOTD") >>
        Line (str "  [T] Session timeouts") >> Line (str "  [Q] Back to main menu") >> ask_green (CRLF ++ str "Choice: ")).

Definition RunSysOp : flow () :=
  u ← ask me;
  if AccessLevel u <? CoSysOpLevel then mret ()
  else
    ok ← panel_gate;
    if negb ok then mret ()
    else
      forever (λ _ : (),
        panel_screen ;;
        key ← readKey;
        back ← panel_choice key;
        if back : bool then mret (inr ()) else mret (inl ())) ().

(** ** Termination *)

Lemma tame_run f : tame (run f).
Proof. unfold run. tame. Qed.
#[local] Hint Resolve tame_run : tame.

Lemma tame_installDoorScreen : tame installDoorScreen.
Proof. unfold installDoorScreen, installed_row. tame. Qed.
Lemma tame_membershipQueue : tame membershipQueue.
Proof. unfold membershipQueue, pending_row, approve_member, deny_member. tame. Qed.
Lemma tame_userManagement : tame userManagement.
Proof. unfold userManagement, user_row, manage_user, award_points, set_number. tame. Qed.
Lemma tame_contentManagement : tame contentManagement.
Proof. unfold contentManagement, registerDoor. tame. Qed.
Lemma tame_auditViewer : tame auditViewer.
Proof. unfold auditViewer, audit_page, event_row, anomaly_row. tame. Qed.
Lemma tame_reportsQueue : tame reportsQueue.
Proof. unfold reportsQueue, report_row, suspend_reported, resolve. tame. Qed.
Lemma tame_banManagement : tame banManagement.
Proof. unfold banManagement, ban_row, add_ban, lift_ban. tame. Qed.
Lemma tame_editSettings : tame editSettings.
Proof. unfold editSettings, set_text, save_setting. tame. Qed.
Lemma tame_editTimeouts : tame editTimeouts.
Proof. unfold editTimeouts, set_minutes, promptMinutes, save_setting. tame. Qed.
#[local] Hint Resolve tame_installDoorScreen tame_membershipQueue tame_userManagement tame_contentManagement
  tame_auditViewer tame_reportsQueue tame_banManagement tame_editSettings tame_editTimeouts : tame.

Lemma tame_RunSysOp : tame RunSysOp.
Proof. unfold RunSysOp, panel_gate, panel_choice, panel_screen. tame. Qed.
End SysOpScreens.

#[export] Hint Resolve tame_RunSysOp : tame.
