(* ===== verification/Menu.v ===== *)
(** * The menu engine and the member's menu (src/menu/menu.go, member.go, whosonline.go, demo.go)

    A menu is a list of items; a line is dispatched to the item of its first
    byte.  The member's menu is rebuilt from the settings before every redraw. *)

From S2P Require Import Prelude Doors GoStrings GoTime Vault Sql Users Credentials AuditLog Registry DoorStore Input Screen Terminal.
From S2P Require Import Login World Widgets MailScreens BoardScreens FileScreens ProfileScreens DoorScreens SysOpScreens.

(** ** menu.go *)

Inductive Outcome := Continue | Logoff.

Record Item := MkItem { ItemKey : Z; Label : bytes; ItemAction : flow Outcome }.

(** A menu after [Refresh]; [Art]: the contents of the art file, if there is one. *)
Record Menu := MkMenu {
  Title : bytes; Subtitle : bytes; Banner : list bytes; Art : option bytes; Items : list Item; OnQuit : option (flow Outcome)
}.

Definition find_item (key : Z) (items : list Item) : option Item :=
  List.find (λ it, toLower (ItemKey it) =? toLower key) items.

Section Menu.
Context `{Crypto, SshKeys, Env, DoorHost, EventJson}.
#[local] Open Scope go_scope.

Definition item_row (it : Item) (s : Writer) : Writer :=
  Print CRLF (Screen.Reset (Print (Label it) (Color White
    (Print (str "  [" ++ [upper (ItemKey it)] ++ str "] ") (Color Yellow s))))).

Definition render (m : Menu) (s : Writer) : Writer :=
  let s := Clear s in
  let s := match Art m with
           | Some (b :: art) => Print CRLF (RenderArt (b :: art) s)
           | _ => match Banner m with
                  | [] => s
                  | _ => Print CRLF (each (ColorLine Cyan) (Banner m) s)
                  end
           end in
  let s := heading Cyan (Title m) (replicate (length (Title m)) 45) s in
  let s := if beq (Subtitle m) [] then s else Print CRLF (ColorLine Blue (Subtitle m) s) in
  ask_green (CRLF ++ str "Command: ") (each item_row (Items m) s).

(** One command; [true]: the caller logs off. *)
Definition dispatch (m : Menu) (line : bytes) : flow bool :=
  match TrimSpace line with
  | [] => mret false
  | key :: _ =>
      match find_item key (Items m) with
      | Some it => o ← ItemAction it; mret (match o with Logoff => true | Continue => false end)
      | None =>
          match OnQuit m with
          | Some quit =>
              if (toLower key =? 113) || (toLower key =? 120)
              then o ← quit; mret (match o with Logoff => true | Continue => false end)
              else mret false
          | None => mret false
          end
      end
  end.

Definition Run (refresh : flow Menu) : flow () :=
  forever (λ _ : (),
    m ← refresh;
    draw (render m) ;;
    line ← readLine;
    out ← dispatch m line;
    if out : bool then mret (inr ()) else mret (inl ())) ().

Definition center (s : bytes) (width : nat) : bytes :=
  if (width <=? length s)%nat then s else replicate ((width - length s) / 2) 32 ++ s.

(** A space before every rune but the first. *)
Definition spaceOut (s : bytes) : bytes :=
  if (70 <? length s * 2)%nat then s
  else match s with
       | [] => []
       | b :: s' => b :: (s' ≫= λ c, if (128 <=? c) && (c <? 192) then [c] else [32; c])
       end.

Definition BBSBanner (name tagline : bytes) : list bytes :=
  let title := spaceOut (to_upper (TrimSpace name)) in
  let title := if beq title [] then str "B B S" else title in
  let width := (Nat.max (length title) (length tagline) + 6)%nat in
  let bar := replicate width 61 in
  let t := TrimSpace tagline in
  [bar; center title width] ++ (if beq t [] then [] else [center t width]) ++ [bar].

(** [strings.TrimRight(line, "\r")] *)
Fixpoint drop_cr (r : bytes) : bytes := match r with b :: r' => if b =? 13 then drop_cr r' else r | [] => [] end.

Definition motd_line (line : bytes) (s : Writer) : Writer := Print CRLF (SafePrint (reverse (drop_cr (reverse line))) s).

Definition ShowMOTD (motd : bytes) : flow () :=
  draw (Clear >> heading Cyan (str "* Message of the Day *") (str "----------------------") >>
        each motd_line (Split motd 10) >> ask_green (CRLF ++ str "Press any key to continue...")) ;;
  _ ← readKey; mret ().

(** ** whosonline.go *)

Definition since (t now : Z) : bytes :=
  let d := now - t in
  if d <? Minute then str "just now"
  else if 0 <? d / Hour then Itoa (d / Hour) ++ str "h " ++ Itoa (d / Minute mod 60) ++ str "m"
  else Itoa (d / Minute) ++ str "m".

Definition online_row (o : Roster.Online) : flow () :=
  t ← time_now;
  draw (Color Yellow >> Print (str "  Node " ++ field 3 (Itoa (Roster.Node o)) ++ str " ") >> Color White >>
        SafePrint (field 16 (Roster.Handle o)) >> Screen.Reset >>
        Print (str "  " ++ field 6 (Roster.Transport o) ++ str "  on " ++ since (Roster.Since o) t ++ CRLF)).

(** [roster]: the callers online when the screen asks, by ticks. *)
Definition RunWhosOnline (roster : nat -> option Roster.t) : flow () :=
  draw (Clear >> heading Cyan (str "Who's Online") (str "------------")) ;;
  r ← host roster;
  let list := match r with Some r => Roster.List r | None => [] end in
  draw (match list with [] => Line (str "  (nobody — you must be a ghost)") | _ => id end) ;;
  for_each online_row list ;;
  draw (ask_green (CRLF ++ str "Press any key...")) ;;
  _ ← readKey; mret ().

(** ** member.go *)

(** What [Member] is given besides the store and the user. *)
Record config := Config {
  cf_sysopPass : bytes; cf_installer : bool; cf_audited : bool; cf_auditFile : nat -> option bytes;
  cf_auditText : auditErr -> bytes; cf_doorOpts : Opts; cf_node : Z; cf_doorsData : bytes;
  cf_roster : nat -> option Roster.t; cf_art : option bytes
}.

Definition logoffAction : flow Outcome :=
  activity (str "logoff") (str "chose Goodbye") ;;
  name ← query (λ b, DoorStore.BBSName (db_settings b));
  draw (ColorLine Cyan (str "Thanks for calling " ++ name ++ str ". NO CARRIER")) ;; mret Logoff.

(** An item that runs a screen and stays in the menu; the screen's error ends the menu. *)
Definition opens (m : flow ()) : flow Outcome := m ;; mret Continue.

Definition motdAction : flow Outcome := motd ← query (λ b, MOTD (db_settings b)); opens (ShowMOTD motd).

Definition sysopAction (c : config) : flow Outcome :=
  opens (RunSysOp (cf_sysopPass c) (cf_installer c) (cf_doorsData c) (cf_audited c) (cf_auditFile c) (cf_auditText c)).

Definition boardsAction (c : config) : flow Outcome := opens (RunBoards (cf_sysopPass c)).
Definition mailAction : flow Outcome := opens RunMail.
Definition filesAction (c : config) : flow Outcome := opens (RunFiles (cf_sysopPass c)).
Definition doorsAction (c : config) : flow Outcome := opens (RunDoors (cf_doorOpts c) (cf_node c) (cf_doorsData c)).
Definition whosOnlineAction (c : config) : flow Outcome := opens (RunWhosOnline (cf_roster c)).
Definition profileAction : flow Outcome := opens RunProfile.

Definition member_items (c : config) (level : Z) (motd : bytes) : list Item :=
  [MkItem 77 (str "Message Boards") (boardsAction c);
   MkItem 69 (str "Private Mail") mailAction;
   MkItem 70 (str "File Library") (filesAction c);
   MkItem 68 (str "Door Games") (doorsAction c);
   MkItem 87 (str "Who's Online") (whosOnlineAction c);
   MkItem 75 (str "My SSH Keys / Profile") profileAction] ++
  (if beq motd [] then [] else [MkItem 79 (str "Message of the Day (re-read)") motdAction]) ++
  (if CoSysOpLevel <=? level then [MkItem 83 (str "SysOp Control Panel") (sysopAction c)] else []) ++
  [MkItem 71 (str "Goodbye / Logoff") logoffAction].

(** [m.Refresh] *)
Definition refresh_member (c : config) : flow Menu :=
  u ← ask me;
  set ← query db_settings;
  mret (MkMenu (DoorStore.BBSName set ++ str " :: Main Menu") [] (BBSBanner (DoorStore.BBSName set) (Tagline set)) (cf_art c)
          (member_items c (AccessLevel u) (MOTD set)) (Some logoffAction)).

Definition RunMember (c : config) : flow () := Run (refresh_member c).

(** ** demo.go *)

Definition placeholder (action title : bytes) : flow Outcome :=
  activity action (str "selected from main menu") ;;
  draw (Clear >> ColorLine Magenta title >> Print CRLF >>
        Line (str "This subsystem is not built yet. The spine works, though —") >>
        Line (str "you connected, your terminal was detected, this menu routed") >>
        Line (str "your keypress, and this visit was written to the audit log.") >>
        Print (CRLF ++ str "Press any key to return to the menu...")) ;;
  _ ← readKey; mret Continue.

Definition logoff : flow Outcome :=
  activity (str "logoff") (str "chose Goodbye") ;;
  draw (Clear >> ColorLine Cyan (str "Thanks for calling AdmiralBBS. NO CARRIER")) ;; mret Logoff.

Definition Demo (art : option bytes) : Menu :=
  MkMenu (str "AdmiralBBS :: Main Menu") [] [] art
    [MkItem 77 (str "Message Boards   (coming in Sprint 004)") (placeholder (str "message-boards") (str "Message Boards"));
     MkItem 69 (str "Private Mail     (coming in Sprint 005)") (placeholder (str "private-mail") (str "Private Mail"));
     MkItem 70 (str "File Library     (coming in Sprint 006)") (placeholder (str "file-library") (str "File Library"));
     MkItem 68 (str "Door Games       (coming in Sprint 007)") (placeholder (str "door-games") (str "Door Games"));
     MkItem 71 (str "Goodbye / Logoff") logoff] None.

(** ** Termination *)

Lemma tame_ShowMOTD m : tame (ShowMOTD m).
Proof. unfold ShowMOTD. tame. Qed.
#[local] Hint Resolve tame_ShowMOTD : tame.

Lemma tame_RunWhosOnline r : tame (RunWhosOnline r).
Proof. unfold RunWhosOnline, online_row. tame. Qed.
#[local] Hint Resolve tame_RunWhosOnline : tame.

(** A menu all of whose actions are tame. *)
Definition tame_menu (m : Menu) : Prop :=
  Forall (λ it, tame (ItemAction it)) (Items m) /\ forall q, OnQuit m = Some q -> tame q.

Lemma tame_dispatch m line : tame_menu m -> tame (dispatch m line).
Proof.
  intros [Hi Hq]. unfold dispatch. destruct (TrimSpace line) as [|key l]; [tame|].
  destruct (find_item key (Items m)) as [it|] eqn:E.
  - apply List.find_some in E as [Hin _]. apply list_elem_of_In in Hin. rewrite Forall_forall in Hi.
    specialize (Hi it Hin). apply tame_bind; [exact Hi|]. intros o. apply tame_ret.
  - destruct (OnQuit m) as [q|] eqn:Eq; [|tame]. specialize (Hq q eq_refl). tame.
Qed.

(** What holds of every screen holds of every item the main menu can show. *)
Lemma Forall_member_items (P : flow Outcome -> Prop) c level motd :
  Forall P [boardsAction c; mailAction; filesAction c; doorsAction c; whosOnlineAction c; profileAction; motdAction; sysopAction c; logoffAction] ->
  Forall (λ it, P (ItemAction it)) (member_items c level motd).
Proof.
  rewrite !Forall_cons. intros (P1 & P2 & P3 & P4 & P5 & P6 & P7 & P8 & P9 & _). unfold member_items. rewrite !Forall_app. split_and!.
  - by repeat constructor.
  - destruct (beq motd []); by repeat constructor.
  - destruct (CoSysOpLevel <=? level); by repeat constructor.
  - by repeat constructor.
Qed.

Lemma opens_tame m : tame m -> tame (opens m).
Proof. intros Hm. unfold opens. tame. Qed.

Lemma tame_logoffAction : tame logoffAction.
Proof. unfold logoffAction. tame. Qed.

Lemma tame_member_items c level motd : Forall (λ it, tame (ItemAction it)) (member_items c level motd).
Proof.
  pose proof tame_logoffAction. pose proof opens_tame. apply Forall_member_items.
  unfold boardsAction, mailAction, filesAction, doorsAction, whosOnlineAction, profileAction, motdAction, sysopAction.
  repeat (apply Forall_cons_2 || apply Forall_nil_2); first [solve [auto with tame]|tame].
Qed.

(** A loop whose menu is tame whenever it is refreshed. *)
Lemma tame_Run refresh : tame refresh -> (forall w m, (refresh w).1 = Ok m -> tame_menu m) -> tame (Run refresh).
Proof.
  intros Hr Hm. unfold Run. apply tame_forever. intros _. eapply eats_after_gives; [done|exact Hm|].
  intros m Ht. pose proof (λ l, tame_dispatch m l Ht). eat.
Qed.

Lemma tame_RunMember c : tame (RunMember c).
Proof.
  apply tame_Run; [unfold refresh_member; tame|]. intros w m. unfold refresh_member. rewrite !bind_run. cbn.
  intros [= <-]. split; [apply tame_member_items|]. intros q [= <-]. apply tame_logoffAction.
Qed.

(** ** Invariants *)

Section Keeps.
Context (I : state -> Prop) `{!Stable I}.

(** A menu all of whose actions keep an invariant. *)
Definition keeping_menu (m : Menu) : Prop :=
  Forall (λ it, keeps I (ItemAction it) (λ _, True)) (Items m) /\ forall q, OnQuit m = Some q -> keeps I q (λ _, True).

Lemma keeps_dispatch m line : keeping_menu m -> keeps I (dispatch m line) (λ _, True).
Proof.
  intros [Hi Hq]. unfold dispatch. destruct (TrimSpace line) as [|key l]; [by apply keeps_ret|].
  destruct (find_item key (Items m)) as [it|] eqn:E.
  - apply List.find_some in E as [Hin%list_elem_of_In _]. rewrite Forall_forall in Hi. specialize (Hi it Hin).
    eapply keeps_bind; [exact Hi|]. intros o _. by apply keeps_ret.
  - destruct (OnQuit m) as [q|] eqn:Eq; [|by apply keeps_ret]. specialize (Hq q eq_refl).
    destruct (_ || _); [|by apply keeps_ret]. eapply keeps_bind; [exact Hq|]. intros o _. by apply keeps_ret.
Qed.

Lemma keeps_Run refresh : keeps I refresh keeping_menu -> keeps I (Run refresh) (λ _, True).
Proof.
  intros Hr. unfold Run. apply (keeps_forever I (λ _, True)); [|done]. intros _ _.
  apply (keeps_weaken I _ (λ _, True)); [|by intros []]. eapply keeps_bind; [exact Hr|]. intros m Hm.
  pose proof (λ l, keeps_dispatch m l Hm). keep_by idtac.
Qed.
End Keeps.
End Menu.
