(* ===== verification/Confine.v ===== *)
(** * What one member can change

    The relation between the database a member finds and the database any number
    of the member's operations leave: a table is [confined] to its owner's rows,
    and [allowed] collects what that means for every table.  Each operation of
    the store that a member's screens use preserves it. *)

From S2P Require Import Prelude Doors Wire Xmodem GoStrings Base64 GoTime Vault Sql Users Credentials Boards Mail Files AuditLog.
From S2P Require Import SessionLog Bans DoorStore Input Screen Login World.

(** ** Tables *)

(** [t] is [t0] after operations that add rows of the kind [fresh], and change or
    delete only rows that are [mine]; of the other rows they change no more than
    [shape] hides, and remove none but those that may be [gone]. *)
Record confined {R} (mine fresh : Z -> R -> bool) (shape : R -> R) (gone : Z -> R -> Prop) (t0 t : table R) : Prop := {
  c_wf : wf t;
  c_seq : seq t0 <= seq t;
  c_new : forall i r, (i, r) ∈ rows t -> seq t0 < i -> fresh i r = true;
  c_old : forall i r, (i, r) ∈ rows t -> i <= seq t0 ->
    exists r0, (i, r0) ∈ rows t0 /\ mine i r0 = mine i r /\ (mine i r0 = false -> shape r = shape r0);
  c_stay : forall i r, (i, r) ∈ rows t0 -> mine i r = false ->
    gone i r \/ exists r', (i, r') ∈ rows t /\ mine i r' = false /\ shape r' = shape r
}.

Definition never {R} : Z -> R -> Prop := λ _ _, False.

Section Table.
Context {R : Type} (mine fresh : Z -> R -> bool) (shape : R -> R) (gone : Z -> R -> Prop).

Lemma wf_le (t : table R) i r : wf t -> (i, r) ∈ rows t -> i <= seq t.
Proof.
  intros [_ Hr _] Hi. rewrite Forall_forall in Hr. specialize (Hr i). destruct Hr; [|lia].
  apply list_elem_of_fmap. by exists (i, r).
Qed.

Lemma confined_refl (t0 : table R) : wf t0 -> confined mine fresh shape gone t0 t0.
Proof.
  intros Hw. split; [done|lia|..].
  - intros i r Hi Hl. pose proof (wf_le _ _ _ Hw Hi). lia.
  - intros i r Hi _. by exists r.
  - intros i r Hi Hm. right. exists r. by split_and!.
Qed.

Lemma confined_insert t0 t r id t' :
  confined mine fresh shape gone t0 t -> insert r t = Ok (id, t') -> fresh id r = true -> confined mine fresh shape gone t0 t'.
Proof.
  intros [Hw Hs Hn Ho Hst] Hi Hf. assert (Hid : id = seq t + 1 /\ seq t' = id).
  { unfold insert in Hi. destruct (seq t <? maxRowid); [|done]. by injection Hi as <- <-. }
  assert (Hr := insert_rows _ _ _ _ Hi). split; [by eapply wf_insert|lia|..].
  - intros i x. rewrite Hr, elem_of_app, list_elem_of_singleton. intros [Hx|[= -> ->]] Hl; [by apply Hn|done].
  - intros i x. rewrite Hr, elem_of_app, list_elem_of_singleton. intros [Hx|[= -> ->]] Hl; [by apply Ho|lia].
  - intros i x Hx Hm. destruct (Hst i x Hx Hm) as [?|(x' & Hx' & Hm' & E)]; [by left|right].
    exists x'. rewrite Hr, elem_of_app. split_and!; [by left|done..].
Qed.

Lemma confined_update t0 t p f :
  confined mine fresh shape gone t0 t ->
  (forall i r, (i, r) ∈ rows t -> p i r = true ->
     mine i (f r) = mine i r /\ (fresh i r = true -> fresh i (f r) = true) /\ (mine i r = false -> shape (f r) = shape r)) ->
  confined mine fresh shape gone t0 (update p f t).1.
Proof.
  intros [Hw Hs Hn Ho Hst] Hp. split; [by apply wf_update|done|..].
  - intros i x (r & Hr & ->)%update_rows Hl. destruct (p i r) eqn:E; [|by apply Hn]. apply (Hp i r Hr E). by apply Hn.
  - intros i x (r & Hr & ->)%update_rows Hl. destruct (Ho i r Hr Hl) as (r0 & H0 & Hm & Hsh). exists r0.
    split; [done|]. destruct (p i r) eqn:E; [|done]. destruct (Hp i r Hr E) as (Hm' & _ & Hsh').
    split; [congruence|]. intros Hf. rewrite Hsh' by congruence. by apply Hsh.
  - intros i x Hx Hm. destruct (Hst i x Hx Hm) as [?|(r & Hr & Hmr & E)]; [by left|right].
    exists (if p i r then f r else r). split; [apply update_rows; by exists r|]. destruct (p i r) eqn:Ep; [|done].
    destruct (Hp i r Hr Ep) as (Hm' & _ & Hsh). split; [congruence|]. by rewrite Hsh.
Qed.

Lemma confined_delete t0 t p :
  confined mine fresh shape gone t0 t ->
  (forall i r r', (i, r) ∈ rows t0 -> (i, r') ∈ rows t -> mine i r = false -> mine i r' = false -> shape r' = shape r ->
     p i r' = true -> gone i r) ->
  confined mine fresh shape gone t0 (delete p t).1.
Proof.
  intros [Hw Hs Hn Ho Hst] Hp. split; [by apply wf_delete|done|..].
  - intros i r [Hr _]%delete_rows. by apply Hn.
  - intros i r [Hr _]%delete_rows. by apply Ho.
  - intros i r Hr Hm. destruct (Hst i r Hr Hm) as [?|(r' & Hr' & Hm' & E)]; [by left|].
    destruct (p i r') eqn:Ep; [left; by eapply Hp|right]. exists r'. split; [by apply delete_rows|done].
Qed.

(** The rows with an id that belonged to the member, when it belonged to anyone. *)
Definition owned_in (t0 : table R) (i : Z) : Prop := forall r, (i, r) ∈ rows t0 -> mine i r = true.

Lemma confined_owns t0 t i r : wf t0 -> confined mine fresh shape gone t0 t -> (i, r) ∈ rows t -> mine i r = true -> owned_in t0 i.
Proof.
  intros Hw0 [Hw Hs Hn Ho Hst] Hr Hm r1 H1. destruct (Ho i r Hr) as (r0 & H0 & E & _).
  { by eapply wf_le. }
  rewrite (wf_id_inj t0 i r1 r0 Hw0 H1 H0). congruence.
Qed.

Lemma owned_row t0 t i r : confined mine fresh shape gone t0 t -> (forall j x, fresh j x = true -> mine j x = true) ->
  owned_in t0 i -> (i, r) ∈ rows t -> mine i r = true.
Proof.
  intros [Hw Hs Hn Ho Hst] Hf Hown Hr. destruct (decide (i <= seq t0)) as [Hl|Hl]; [|apply Hf, Hn; [done|lia]].
  destruct (Ho i r Hr Hl) as (r0 & H0 & E & _). rewrite <-E. by apply Hown.
Qed.
End Table.

(** A row the statement may change is the member's. *)
Ltac own_row := repeat match goal with H : _ && _ = true |- _ => apply andb_true_iff in H as [? ?] end.

(** ** The database *)

Section Allowed.
Context `{Crypto, SshKeys}.
Variable v : Vault.
Variable uid : Z.
Variable b0 : bbs.

Definition my_user : Z -> userRow -> bool := λ i _, i =? uid.
Definition my_key : Z -> keyRow -> bool := λ _ r, k_user_id r =? uid.
Definition my_post : Z -> messageRow -> bool := λ _ r, ms_author_id r =? uid.
Definition to_me : Z -> mailRow -> bool := λ _ r, p_to_id r =? uid.
Definition from_me : Z -> mailRow -> bool := λ _ r, p_from_id r =? uid.
Definition my_block : Z -> blockRow -> bool := λ _ r, b_blocker r =? uid.
Definition my_report : Z -> reportRow -> bool := λ _ r, r_reporter r =? uid.
Definition my_file : Z -> fileRow -> bool := λ _ r, f_uploader_id r =? uid.
Definition nobody {R} : Z -> R -> bool := λ _ _, false.

(** A reply to a post that is the member's own. *)
Definition reply_to_mine (_ : Z) (r : messageRow) : Prop :=
  exists p, ms_parent_id r = Some p /\ owned_in my_post (db_messages b0) p.

(** A file but for its download counter. *)
Definition uncounted (r : fileRow) : fileRow :=
  FileRow (f_area_id r) (f_filename r) (f_path r) (f_size r) (f_description r) (f_uploader_id r) 0 (f_uploaded_at r).

(** What the member may have done to the database [b0]. *)
Record allowed (b : bbs) : Prop := {
  al_users : confined my_user nobody id never (db_users b0) (db_users b);
  al_self : forall r0, (uid, r0) ∈ rows (db_users b0) ->
    exists h cb, (uid, set_password h (set_colorblind cb r0)) ∈ rows (db_users b);
  al_memberships : db_memberships b = db_memberships b0;
  al_keys : confined my_key my_key id never (db_keys b0) (db_keys b);
  al_tokens : db_tokens b = db_tokens b0;
  al_anomalies : db_anomalies b = db_anomalies b0;
  al_areas : db_areas b = db_areas b0;
  al_messages : confined my_post my_post id reply_to_mine (db_messages b0) (db_messages b);
  al_pointers : forall u a, u <> uid -> db_pointers b !! (u, a) = db_pointers b0 !! (u, a);
  al_mail : confined to_me from_me id never (db_mail b0) (db_mail b);
  al_blocks : confined my_block my_block id never (db_blocks b0) (db_blocks b);
  al_reports : confined nobody my_report id never (db_reports b0) (db_reports b);
  al_fareas : db_fareas b = db_fareas b0;
  al_files : confined my_file my_file uncounted never (entries (db_files b0)) (entries (db_files b));
  al_library : lib_inv (db_files b);
  al_blobs : forall i r, (i, r) ∈ rows (entries (db_files b0)) -> my_file i r = false ->
    blobs (db_files b) !! blobName i = blobs (db_files b0) !! blobName i;
  al_bans : db_bans b = db_bans b0;
  al_doors : db_doors b = db_doors b0;
  al_installed : db_installed b = db_installed b0;
  al_settings : db_settings b = db_settings b0
}.

(** The tables of a database that operations produced. *)
Record tables_ok : Prop := {
  ok_users : wf (db_users b0); ok_keys : wf (db_keys b0); ok_messages : wf (db_messages b0); ok_mail : wf (db_mail b0);
  ok_blocks : wf (db_blocks b0); ok_reports : wf (db_reports b0); ok_library : lib_inv (db_files b0)
}.

Context (Hok : tables_ok).

Lemma allowed_refl : allowed b0.
Proof.
  destruct Hok. split; try done; try (by apply confined_refl).
  - intros r0 Hr. exists (c_password_hash r0), (c_colorblind r0). by destruct r0.
  - apply confined_refl, ok_library0.
Qed.

(** One table changes, the rest stays. *)
Ltac one_table := match goal with Ha : allowed ?b |- _ => destruct Ha; split;
  cbn [db_users db_memberships db_keys db_tokens db_anomalies db_areas db_messages db_pointers db_mail db_blocks db_reports
       db_fareas db_files db_bans db_doors db_installed db_settings db_log put_users put_keys put_messages put_pointers
       put_mail put_blocks put_reports put_files put_log entries blobs]; try assumption end.

Lemma allowed_log x b : allowed b -> allowed (put_log x b).
Proof. intros Ha. one_table. Qed.

Lemma allowed_user (f : userRow -> userRow) b :
  (forall r0 h cb, exists h' cb', f (set_password h (set_colorblind cb r0)) = set_password h' (set_colorblind cb' r0)) ->
  allowed b -> allowed (put_users (update (by_id uid) f (db_users b)).1 b).
Proof.
  intros Hf Ha. one_table.
  - apply confined_update; [done|]. intros i r _ Hi. unfold my_user, by_id in *. split_and!; [done|done|congruence].
  - intros r0 Hr. destruct (al_self0 r0 Hr) as (h & cb & Hin). destruct (Hf r0 h cb) as (h' & cb' & E).
    exists h', cb'. apply update_rows. eexists. split; [exact Hin|]. unfold by_id. by rewrite Z.eqb_refl, E.
Qed.

Lemma allowed_SetPassword h b : allowed b -> allowed (put_users (Users_SetPassword uid h (db_users b)) b).
Proof. apply allowed_user. intros r0 h0 cb. by exists h, cb. Qed.

Lemma allowed_SetColorblind on b : allowed b -> allowed (put_users (Users_SetColorblind uid on (db_users b)) b).
Proof. apply allowed_user. intros r0 h0 cb. by eexists h0, _. Qed.

Lemma allowed_Keys_Add us line now b : allowed b -> allowed (put_keys (Keys_Add us uid line now (db_keys b)).2 b).
Proof.
  intros Ha. one_table. unfold Keys_Add. destruct (ParseAuthorizedKey line) as [[pub comment]|]; [|done].
  destruct (row uid us); [|done]. destruct (existsb _ _); [done|]. destruct (insert _ _) as [[id t']|] eqn:E; [|done].
  eapply confined_insert; [done|exact E|]. apply Z.eqb_refl.
Qed.

Lemma allowed_Keys_Revoke id now b : owned_in my_key (db_keys b0) id -> allowed b ->
  allowed (put_keys (Keys_Revoke id now (db_keys b)) b).
Proof.
  intros Hown Ha. one_table. unfold Keys_Revoke. apply confined_update; [done|]. intros i r Hr Hp. own_row.
  assert (i = id) as -> by lia. split_and!; [done|done|]. intros Hm.
  rewrite (owned_row _ _ _ _ _ _ id r al_keys0) in Hm; done.
Qed.

Lemma allowed_Post us ars area parent s body now n1 n2 b : allowed b ->
  allowed (put_messages (Messages_Post v us ars area uid parent s body now n1 n2 (db_messages b)).2 b).
Proof.
  intros Ha. one_table. unfold Messages_Post. destruct (negb _); [done|].
  destruct (insert _ _) as [[id t']|] eqn:E; [|done]. eapply confined_insert; [done|exact E|]. apply Z.eqb_refl.
Qed.

Lemma allowed_Edit id s body n1 n2 b : allowed b -> allowed (put_messages (Messages_Edit v id uid s body n1 n2 (db_messages b)).2 b).
Proof.
  intros Ha. one_table. apply (confined_update _ _ _ _ _ _ _ _ al_messages0). intros i r Hr Hp. unfold owned, my_post in *. own_row.
  split_and!; [done|done|]. intros Hm. cbn in Hm. congruence.
Qed.

Lemma allowed_Delete_post id b : owned_in my_post (db_messages b0) id -> allowed b ->
  allowed (put_messages (Messages_Delete id (db_messages b)).2 b).
Proof.
  intros Hown Ha. one_table. unfold Messages_Delete. destruct (0 <? _); [done|]. cbn.
  apply (confined_delete _ _ _ _ _ _ _ al_messages0). intros i r r' Hr Hr' Hm _ E Hp. cbn in E. subst r'.
  unfold doomed in Hp. apply orb_true_iff in Hp as [Hi|Hi].
  - apply Z.eqb_eq in Hi as ->. specialize (Hown r Hr). congruence.
  - apply bool_decide_eq_true in Hi. by exists id.
Qed.

Lemma allowed_Mark us ars area m now b : allowed b -> allowed (put_pointers (Mark us ars uid area m now (db_pointers b)).2 b).
Proof.
  intros Ha. one_table. intros u a Hu. rewrite <-(al_pointers0 u a Hu). unfold Mark.
  destruct (db_pointers b !! (uid, area)) as [[old x]|]; [|destruct (exists_id _ _ && _); [|done]]; cbn; apply lookup_insert_ne; congruence.
Qed.

Lemma allowed_Send us to s body now n1 n2 b : allowed b ->
  allowed (put_mail (Mail_Send v us uid to s body now n1 n2 (db_mail b)).2 b).
Proof.
  intros Ha. one_table. unfold Mail_Send. destruct (negb _); [done|]. destruct (insert _ _) as [[id t']|] eqn:E; [|done].
  eapply confined_insert; [done|exact E|]. apply Z.eqb_refl.
Qed.

Lemma allowed_Get id now b : allowed b -> allowed (put_mail (Mail_Get v id uid now (db_mail b)).2 b).
Proof.
  intros Ha. one_table. unfold Mail_Get. destruct (row id (db_mail b)) as [r|] eqn:Er; [|done].
  destruct (Mail_scan v (id, r)) as [m|] eqn:Es; [|done].
  assert (Ht : ToID m = p_to_id r).
  { unfold Mail_scan in Es. cbn in Es. by repeat case_match; simplify_eq. }
  destruct (negb _ && _); [done|]. destruct ((ToID m =? uid) && _) eqn:Ec; [|done]. own_row. cbn.
  apply confined_update; [done|]. intros i x Hx Hi. apply Z.eqb_eq in Hi as ->. apply in_row in Hx; [|apply al_mail0].
  rewrite Er in Hx. injection Hx as <-. unfold to_me, from_me. cbn. split_and!; [done|done|]. intros Hm. lia.
Qed.

Lemma allowed_Mail_Delete id b : allowed b -> allowed (put_mail (Mail_Delete id uid (db_mail b)).2 b).
Proof.
  intros Ha. one_table. apply (confined_delete _ _ _ _ _ _ _ al_mail0). intros i r r' Hr Hr' _ Hm _ Hp.
  unfold received in Hp. own_row. unfold to_me in Hm. congruence.
Qed.

Lemma allowed_Block us target now b : allowed b -> allowed (put_blocks (Blocks_Block us uid target now (db_blocks b)).2 b).
Proof.
  intros Ha. one_table. unfold Blocks_Block. destruct (uid =? target); [done|]. destruct (0 <? _); [done|].
  destruct (negb _); [done|]. destruct (insert _ _) as [[id t']|] eqn:E; [|done].
  eapply confined_insert; [done|exact E|]. apply Z.eqb_refl.
Qed.

Lemma allowed_Unblock target b : allowed b -> allowed (put_blocks (Blocks_Unblock uid target (db_blocks b)) b).
Proof.
  intros Ha. one_table. unfold Blocks_Unblock. apply confined_delete; [done|]. intros i r r' Hr Hr' _ Hm _ Hp. unfold block_is in Hp. own_row.
  unfold my_block in Hm. congruence.
Qed.

Lemma allowed_File us target c note now b : allowed b -> allowed (put_reports (Reports_File us uid target c note now (db_reports b)).2 b).
Proof.
  intros Ha. one_table. unfold Reports_File. destruct (negb _); [done|]. destruct (insert _ _) as [[id t']|] eqn:E; [|done].
  eapply confined_insert; [done|exact E|]. apply Z.eqb_refl.
Qed.

(** An id of the library that is in range and whose file, if it was there, is the member's. *)
Definition my_entry (id : Z) : Prop := int64_ok id /\ owned_in my_file (entries (db_files b0)) id.

Lemma old_id i r : (i, r) ∈ rows (entries (db_files b0)) -> int64_ok i /\ i <= seq (entries (db_files b0)).
Proof.
  intros Hr. destruct Hok as [_ _ _ _ _ _ [Hw _ _ _]]. pose proof (in_row _ _ _ Hw Hr) as Hrow.
  destruct (wf_int64 _ _ _ Hw Hrow). split; [done|lia].
Qed.

Lemma allowed_Files_Add us ars area fn d c now n wr b : allowed b ->
  allowed (put_files (Files_Add v us ars area uid fn d c now n wr (db_files b)).2 b).
Proof.
  intros Ha. destruct (Files_Add v us ars area uid fn d c now n wr (db_files b)) as [r l'] eqn:E. cbn.
  assert (Hinv : lib_inv l') by (eapply (lib_step_inv v us ars); [by eapply ls_add|apply Ha]).
  apply Add_cases in E as [[-> _]|(id & t' & Ei & _ & _ & _ & E)]; [by one_table|].
  assert (Hc : confined my_file my_file uncounted never (entries (db_files b0)) t').
  { eapply confined_insert; [apply Ha|exact Ei|]. apply Z.eqb_refl. }
  assert (Hb : forall i x, (i, x) ∈ rows (entries (db_files b0)) -> blobName id <> blobName i).
  { intros i x Hx E'. destruct (old_id i x Hx) as [Hi Hl].
    assert (Hid : id = seq (entries (db_files b)) + 1 /\ seq (entries (db_files b)) < maxRowid).
    { unfold insert in Ei. destruct (Z.ltb_spec (seq (entries (db_files b))) maxRowid); [|done]. by injection Ei as <- _. }
    apply blobName_inj in E'; [|unfold int64_ok, maxRowid in *; pose proof (wf_seq _ (c_wf _ _ _ _ _ _ (al_files b Ha))); lia|done].
    pose proof (c_seq _ _ _ _ _ _ (al_files b Ha)). lia. }
  destruct E as [(part & _ & _ & ->)|(_ & _ & ->)]; one_table.
  - intros i x Hx Hm. rewrite <-(al_blobs0 i x Hx Hm). unfold leave. destruct part; [|done]. by eapply lookup_insert_ne, Hb.
  - apply confined_update; [done|]. intros i x Hx Hi. split_and!; [done|done|]. intros Hm.
    apply Z.eqb_eq in Hi as ->. assert (Hn : (id, FileRow area fn [] (len c) d uid 0 (fmtTime now)) ∈ rows t').
    { rewrite (insert_rows _ _ _ _ Ei). apply elem_of_app. right. by apply list_elem_of_singleton. }
    rewrite (wf_id_inj t' id _ _ (c_wf _ _ _ _ _ _ Hc) Hx Hn) in Hm. unfold my_file in Hm. cbn in Hm. lia.
  - intros i x Hx Hm. rewrite <-(al_blobs0 i x Hx Hm). by eapply lookup_insert_ne, Hb.
Qed.

Lemma allowed_Content id b : allowed b -> allowed (put_files (Files_Content v id (db_files b)).2 b).
Proof.
  intros Ha. destruct (Files_Content v id (db_files b)) as [r l'] eqn:E. cbn.
  assert (Hinv : lib_inv l') by (eapply (lib_step_inv v empty_table empty_table); [by eapply ls_content|apply Ha]).
  unfold Files_Content in E. destruct (_ !! _); [|injection E as <- <-; by one_table].
  destruct (Open v _); injection E as <- <-; one_table.
  apply confined_update; [done|]. by intros i x _ _.
Qed.

Lemma allowed_Files_Delete id b : my_entry id -> allowed b -> allowed (put_files (Files_Delete id (db_files b)).2 b).
Proof.
  intros [Hi Hown] Ha. destruct (Files_Delete id (db_files b)) as [r l'] eqn:E. cbn.
  assert (Hinv : lib_inv l') by (eapply (lib_step_inv v empty_table empty_table); [by eapply ls_delete|apply Ha]).
  injection E as _ <-. one_table.
  - apply confined_delete; [done|]. intros i x y Hx _ Hm _ _ Hp. apply Z.eqb_eq in Hp as ->.
    specialize (Hown x Hx). congruence.
  - intros i x Hx Hm. rewrite <-(al_blobs0 i x Hx Hm). apply lookup_delete_ne. intros E.
    destruct (old_id i x Hx) as [Hi' _]. apply blobName_inj in E; [|done|done]. subst i. specialize (Hown x Hx). congruence.
Qed.
End Allowed.

Create HintDb allowed discriminated.
#[export] Hint Resolve allowed_SetPassword allowed_SetColorblind allowed_Keys_Add allowed_Keys_Revoke allowed_Post allowed_Edit
  allowed_Delete_post allowed_Mark allowed_Send allowed_Get allowed_Mail_Delete allowed_Block allowed_Unblock allowed_File
  allowed_Files_Add allowed_Content allowed_Files_Delete : allowed.
