(* ===== verification/Member.v ===== *)
(** * A member's session confined (all of src/menu below the SysOp level)

    Every screen of the member's menu, run by a member below the SysOp level,
    keeps the database within what [Confine.allowed] permits. *)

From S2P Require Import Prelude Doors Wire Xmodem GoStrings Base64 GoTime Vault Sql Users Credentials Boards Mail Files AuditLog.
From S2P Require Import SessionLog Bans DoorStore Registry Input Screen Terminal Login World Widgets MailScreens BoardScreens.
From S2P Require Import FileScreens ProfileScreens DoorScreens SysOpScreens Menu Confine.

Section Member.
Context `{Crypto, SshKeys, Env, DoorHost, EventJson}.
Variable uid lvl : Z.
Variable b0 : bbs.
Context (Hok : tables_ok b0) (Hlvl : lvl < CoSysOpLevel).

(** The member's own record, and the database within bounds. *)
Definition is_me (u : User) : Prop := ID u = uid /\ AccessLevel u = lvl.
Definition mine (w : state) : Prop := allowed uid b0 (db w) /\ is_me (me w).

#[local] Instance mine_stable : Stable mine.
Proof. intros w w' [Hd Hm] [Ha Hi]. split; [|by rewrite Hm]. rewrite Hd. by apply allowed_log. Qed.

Abbreviation keeps_true m := (keeps mine m (λ _, True)).

Lemma keeps_me : keeps mine (ask me) is_me.
Proof. apply keeps_ask. by intros w [_ Hi]. Qed.

Lemma keeps_still {A} (m : flow A) : (forall w, still w (m w).2) -> keeps_true m.
Proof. intros Hm. apply (keeps_io mine). exact Hm. Qed.

Lemma keeps_table {A X} (op : bbs -> A * X) (put : X -> bbs -> bbs) :
  (forall b, allowed uid b0 b -> allowed uid b0 (put (op b).2 b)) ->
  keeps_true (exec (λ b, let '(r, x) := op b in (r, put x b))).
Proof.
  intros Hop. apply keeps_exec. intros w [Ha Hi]. specialize (Hop _ Ha). destruct (op (db w)) as [r x]. split; [by split|done].
Qed.

Lemma keeps_put (f : bbs -> bbs) : (forall b, allowed uid b0 b -> allowed uid b0 (f b)) -> keeps_true (exec (λ b, ((), f b))).
Proof. intros Hf. apply keeps_exec. intros w [Ha Hi]. split; [split; [by apply Hf|done]|done]. Qed.

Lemma keeps_query {A} (f : bbs -> A) (Q : A -> Prop) : (forall b, allowed uid b0 b -> Q (f b)) -> keeps mine (query f) Q.
Proof. intros Hq. apply keeps_ask. intros w [Ha _]. by apply Hq. Qed.

Lemma keeps_get {A} (f : bbs -> result err A) (Q : A -> Prop) :
  (forall b a, allowed uid b0 b -> f b = Ok a -> Q a) -> keeps mine (query_or_fail f) Q.
Proof. intros Hq. apply keeps_query_or_fail. intros w a [Ha _]. by apply Hq. Qed.

Lemma io_host {A} (f : nat -> A) w : still w (host f w).2.
Proof. by apply still_same. Qed.
Lemma io_piped n o w : still w (piped n o w).2.
Proof. by apply still_same. Qed.
#[local] Hint Resolve io_host io_piped : io.

Hint Resolve keeps_me : keep.

Ltac me := repeat match goal with Hu : is_me ?u |- _ => let E1 := fresh in let E2 := fresh in destruct Hu as [E1 E2] end;
           repeat match goal with E : ID _ = uid |- _ => rewrite E; clear E end.

(** A screen whose results do not matter. *)
Ltac keep := keep_by ltac:(idtac; first [apply keeps_table | apply keeps_put]; intros ? ?; me; eauto with allowed nocore).

(** ** Mail *)

Lemma keeps_reportUser id c : keeps_true (reportUser id c).
Proof. unfold reportUser. keep. Qed.

Lemma keeps_block_author t d : keeps_true (block_author t d).
Proof. unfold block_author. keep. Qed.
Hint Resolve keeps_reportUser keeps_block_author : keep.

Lemma keeps_deliver l s b n : keeps_true (deliver l s b n).
Proof. revert n. induction l as [|x l IH]; intros n; cbn [deliver]; keep; apply IH. Qed.
Hint Resolve keeps_deliver : keep.

Lemma keeps_sendToMany l s : keeps_true (sendToMany l s).
Proof. unfold sendToMany. keep. Qed.
Hint Resolve keeps_sendToMany : keep.

Lemma io_lookupUser f w : still w (lookupUser f w).2.
Proof. unfold lookupUser, directory_row. still. Qed.
#[local] Hint Resolve io_lookupUser : io.
Lemma io_resolveRecipient e w : still w (resolveRecipient e w).2.
Proof. unfold resolveRecipient. still. Qed.
#[local] Hint Resolve io_resolveRecipient : io.

Lemma keeps_composeMail : keeps_true composeMail.
Proof. unfold composeMail, pickRecipient, pickCC. keep. Qed.
Hint Resolve keeps_composeMail : keep.

Lemma keeps_readMail id : keeps_true (readMail id).
Proof. unfold readMail, sendMail. keep. Qed.
Hint Resolve keeps_readMail : keep.

Lemma keeps_RunMail : keeps_true RunMail.
Proof. unfold RunMail, inbox_row. keep. Qed.
Hint Resolve keeps_RunMail : keep.

(** ** Boards *)

(** A post shown as the member's own is one, in the first database too. *)
Definition good_post (m : Message) : Prop := AuthorID m = uid -> owned_in (my_post uid) (db_messages b0) (MsgID m).

Lemma scan_good b i r m : allowed uid b0 b -> (i, r) ∈ rows (db_messages b) -> Messages_scan vault (i, r) = Ok m -> good_post m.
Proof.
  intros Ha Hr Hs Hm. unfold Messages_scan in Hs. cbn in Hs. repeat case_match; simplify_eq/=.
  eapply confined_owns; [apply Hok|apply (al_messages _ _ _ Ha)|exact Hr|]. unfold my_post. lia.
Qed.

Lemma list_good b l ms : allowed uid b0 b -> (forall x, x ∈ l -> x ∈ rows (db_messages b)) ->
  Messages_list vault l = Ok ms -> Forall good_post ms.
Proof.
  intros Ha Hl Hs%mapR_ok. induction Hs as [|[i r] m l ms Hm Hs IH]; constructor.
  - eapply scan_good; [done|apply Hl; left|done].
  - apply IH. intros x Hx. apply Hl. by right.
Qed.

Lemma select_in {R} (p : Z -> R -> bool) (t : table R) x : x ∈ select p t -> x ∈ rows t.
Proof. by intros [? _]%elem_of_select. Qed.

Lemma keeps_thread area newest : keeps mine (query_or_fail (λ b, Messages_ThreadSorted vault area newest (db_messages b))) (Forall good_post).
Proof.
  apply keeps_get. intros b ms Ha. apply (list_good b); [done|]. intros x. destruct newest; rewrite ?elem_of_reverse; apply select_in.
Qed.

Lemma keeps_search area q : keeps mine (query_or_fail (λ b, Messages_Search vault lower area q (db_messages b))) (Forall good_post).
Proof.
  apply keeps_get. intros b ms Ha. unfold Messages_Search. destruct (Messages_list _ _) as [all|] eqn:E; [|done].
  intros [= <-]. assert (Hg : Forall good_post all) by (eapply list_good; [done| |exact E]; intros x; apply select_in).
  rewrite Forall_forall in *. intros m [Hm _]%list_elem_of_In%filter_In. by apply Hg, list_elem_of_In.
Qed.

Lemma keeps_by_author area a : keeps mine (query_or_fail (λ b, Messages_ByAuthor vault area a (db_messages b))) (Forall good_post).
Proof. apply keeps_get. intros b ms Ha. apply (list_good b); [done|]. apply select_in. Qed.

Lemma keeps_compose a p : keeps_true (compose a p).
Proof. unfold compose. keep. Qed.
Hint Resolve keeps_thread keeps_search keeps_by_author keeps_compose : keep.

Lemma keeps_editMessage m : keeps_true (editMessage m).
Proof. unfold editMessage. keep. Qed.

Lemma keeps_delete_post m : owned_in (my_post uid) (db_messages b0) (MsgID m) -> keeps_true (delete_post m).
Proof. intros Hm. unfold delete_post. keep. Qed.
Hint Resolve keeps_editMessage keeps_delete_post : keep.

Lemma not_sysop u : is_me u -> CoSysOpLevel <=? AccessLevel u = false.
Proof. intros [_ ->]. by apply Z.leb_gt. Qed.

Lemma keeps_readMessage m : good_post m -> keeps_true (readMessage m).
Proof.
  intros Hm. unfold readMessage, reply_row. keep.
  all: match goal with Hu : is_me ?u, E : _ || _ = true |- _ => rewrite (not_sysop u Hu), orb_false_r in E end.
  apply keeps_delete_post, Hm. me. lia.
Qed.
Hint Resolve keeps_readMessage : keep.

Lemma pick_in {A} s (l : list A) a : pick s l = Some a -> a ∈ l.
Proof.
  unfold pick. destruct (Atoi s) as [n|]; [|done]. destruct (_ && _); [|done]. by intros ?%list_elem_of_lookup_2.
Qed.

Lemma Forall_pick {A} (P : A -> Prop) s l a : Forall P l -> pick s l = Some a -> P a.
Proof. intros Hl Hp. rewrite Forall_forall in Hl. by eapply Hl, pick_in. Qed.

Lemma hideBlocked_good blocked ms kept array : Forall good_post ms -> hideBlocked blocked ms = (kept, array) ->
  Forall good_post kept /\ Forall good_post array.
Proof.
  intros Hm [= <- <-]. assert (Hk : Forall good_post (List.filter (λ m, negb (bool_decide (AuthorID m ∈ blocked))) ms)).
  { rewrite Forall_forall in *. intros m [Hi _]%list_elem_of_In%filter_In. by apply Hm, list_elem_of_In. }
  split; [done|]. apply Forall_app. split; [done|]. by apply Forall_drop.
Qed.

Lemma keeps_markRead area : keeps_true (markRead area).
Proof. unfold markRead. keep. Qed.
Hint Resolve keeps_markRead : keep.

Lemma keeps_browseArea area : keeps_true (browseArea area).
Proof.
  unfold browseArea, post_row. eapply keeps_bind; [apply keeps_me|]. intros u Hu.
  eapply keeps_bind; [apply keeps_still; still|]. intros seen _.
  apply (keeps_forever mine (λ st, Forall good_post (listed st))); [|constructor]. intros st Hst.
  eapply (keeps_bind mine _ _ (Forall good_post)).
  { destruct (listed st) as [|m l]; [apply keeps_thread|by apply keeps_ret]. }
  intros msgs Hmsgs. eapply keeps_bind; [apply keeps_still; still|]. intros blocked _.
  destruct (hideBlocked blocked msgs) as [kept array] eqn:Eh. destruct (hideBlocked_good _ _ _ _ Hmsgs Eh) as [Hk Ha].
  assert (Hl : Forall good_post (match listed st with [] => [] | _ => array end)) by by destruct (listed st).
  generalize dependent (match listed st with [] => [] | _ => array end). intros lst Hl.
  pose proof (λ s m, Forall_pick good_post s kept m Hk) as Hp. keep; cbn; try done; try constructor.
Qed.
Hint Resolve keeps_browseArea : keep.

Lemma keeps_RunBoards p : keeps_true (RunBoards p).
Proof.
  unfold RunBoards, area_row, newBoard. keep; exfalso; me; lia.
Qed.
Hint Resolve keeps_RunBoards : keep.

(** ** Files *)

Definition good_file (f : FileEntry) : Prop := UploaderID f = uid -> my_entry uid b0 (FID f).

Lemma file_good b x : allowed uid b0 b -> x ∈ rows (entries (db_files b)) -> good_file (Files_scan x).
Proof.
  destruct x as [i r]. intros Ha Hr Hu. cbn in *. split.
  - eapply (wf_int64 (entries (db_files b))); [apply Ha|]. apply in_row; [apply Ha|done].
  - eapply confined_owns; [apply Hok|apply (al_files _ _ _ Ha)|exact Hr|]. unfold my_file. lia.
Qed.

Lemma files_good b l : allowed uid b0 b -> (forall x, x ∈ l -> x ∈ rows (entries (db_files b))) -> Forall good_file (Files_scan <$> l).
Proof. intros Ha Hl. apply Forall_fmap, Forall_forall. intros x Hx. eapply file_good; [done|by apply Hl]. Qed.

Lemma sort_key_in by_ l x : x ∈ sort_key by_ l -> x ∈ l.
Proof.
  unfold sort_key. repeat case_match; rewrite ?order_by_Permutation, ?elem_of_reverse; done.
Qed.

Lemma keeps_listing area by_ :
  keeps mine (query (λ b, Files_ListSorted area by_ (entries (db_files b)))) (Forall good_file).
Proof. apply keeps_query. intros b Ha. apply (files_good b); [done|]. intros x ?%sort_key_in. by eapply select_in. Qed.

Lemma keeps_file_search area q : keeps mine (query (λ b, Files_Search area q (entries (db_files b)))) (Forall good_file).
Proof. apply keeps_query. intros b Ha. apply (files_good b); [done|]. intros x. rewrite elem_of_reverse. apply select_in. Qed.

Lemma keeps_by_uploader area a : keeps mine (query (λ b, Files_ByUploader area a (entries (db_files b)))) (Forall good_file).
Proof. apply keeps_query. intros b Ha. apply (files_good b); [done|]. intros x. rewrite elem_of_reverse. apply select_in. Qed.
Hint Resolve keeps_listing keeps_file_search keeps_by_uploader : keep.

Lemma keeps_downloadFile f : keeps_true (downloadFile f).
Proof. unfold downloadFile. keep. Qed.

Lemma io_readUpload mode w : still w (readUpload mode w).2.
Proof. unfold readUpload, readBase64. still. Qed.
#[local] Hint Resolve io_readUpload : io.

Lemma keeps_uploadFile a : keeps_true (uploadFile a).
Proof. unfold uploadFile. keep. Qed.
Hint Resolve keeps_downloadFile keeps_uploadFile : keep.

Lemma keeps_deleteFile st files : Forall good_file files -> Forall good_file (flisted st) ->
  keeps mine (deleteFile st files) (λ st', Forall good_file (flisted st')).
Proof.
  intros Hf Hst. unfold deleteFile. keep; try done.
  apply (allowed_Files_Delete vault uid b0 Hok); [|done]. eapply (Forall_pick good_file); [exact Hf|eassumption|].
  lia.
Qed.
Hint Resolve keeps_deleteFile : keep.

Lemma keeps_browseFileArea area : keeps_true (browseFileArea area).
Proof.
  unfold browseFileArea, file_row.
  apply (keeps_forever mine (λ st, Forall good_file (flisted st))); [|constructor]. intros st Hst.
  eapply (keeps_bind mine _ _ (Forall good_file)).
  { destruct (flisted st) as [|m l]; [apply keeps_listing|by apply keeps_ret]. }
  intros files Hf. keep; cbn; try done; try constructor.
Qed.
Hint Resolve keeps_browseFileArea : keep.

Lemma keeps_RunFiles p : keeps_true (RunFiles p).
Proof. unfold RunFiles, farea_row, newFileArea. keep; exfalso; me; lia. Qed.
Hint Resolve keeps_RunFiles : keep.

(** ** Profile *)

Lemma keeps_keys : keeps mine (query (λ b, Keys_Active uid (db_keys b))) (Forall (λ k, owned_in (my_key uid) (db_keys b0) (KID k))).
Proof.
  apply keeps_query. intros b Ha. unfold Keys_Active. apply Forall_fmap, Forall_forall. intros [i r] [Hr Hk]%elem_of_select.
  apply andb_true_iff in Hk as [Hk _]. eapply confined_owns; [apply Hok|apply (al_keys _ _ _ Ha)|exact Hr|exact Hk].
Qed.

Lemma keeps_with_me f : (forall u, is_me u -> is_me (f u)) -> keeps_true (change (λ w, with_me (f (me w)) w)).
Proof. intros Hf. apply keeps_change; [|done]. intros w [Ha Hi]. split; [done|]. by apply Hf. Qed.

Lemma keeps_changePassword : keeps_true changePassword.
Proof. unfold changePassword. keep. apply (keeps_with_me (with_hash _)). by intros []. Qed.

Lemma keeps_toggle on : keeps_true (toggle_colorblind on).
Proof.
  unfold toggle_colorblind. keep. apply keeps_change; [|done]. intros w [Ha Hi]. by split.
Qed.

Lemma keeps_manageBlocks : keeps_true manageBlocks.
Proof. unfold manageBlocks, block_row. keep. Qed.

Lemma keeps_add_key : keeps_true add_key.
Proof. unfold add_key. keep. Qed.

Lemma keeps_revoke_key l : Forall (λ k, owned_in (my_key uid) (db_keys b0) (KID k)) l -> keeps_true (revoke_key l).
Proof. intros Hl. unfold revoke_key. pose proof (λ s k, Forall_pick _ s l k Hl) as Hp. keep. Qed.
Hint Resolve keeps_changePassword keeps_toggle keeps_manageBlocks keeps_add_key keeps_revoke_key : keep.

Lemma keeps_RunProfile : keeps_true RunProfile.
Proof.
  unfold RunProfile, key_row. apply (keeps_forever mine (λ _, True)); [|done]. intros _ _.
  apply (keeps_weaken mine _ (λ _, True)); [|by intros []].
  eapply keeps_bind; [apply keeps_still; still|]. intros _ _. eapply keeps_bind; [apply keeps_me|]. intros u Hu.
  eapply keeps_bind; [apply keeps_still; still|]. intros stats _. eapply keeps_bind; [apply keeps_still; still|]. intros _ _.
  eapply keeps_bind; [destruct Hu as [-> _]; apply keeps_keys|]. intros active Hk. keep.
Qed.
Hint Resolve keeps_RunProfile : keep.

(** ** Doors, the panel, the menu *)

Lemma io_RunDoors o n d w : still w (RunDoors o n d w).2.
Proof. unfold RunDoors, door_row, playDoor, play_resident, play_subprocess, printLaunch. still. Qed.

Lemma keeps_RunSysOp p i d a f t : keeps_true (RunSysOp p i d a f t).
Proof.
  unfold RunSysOp. eapply keeps_bind; [apply keeps_me|]. intros u [_ Hu]. rewrite (proj2 (Z.ltb_lt _ _)) by lia. by apply keeps_ret.
Qed.
Hint Resolve keeps_RunSysOp : keep.

Lemma io_ShowMOTD m w : still w (ShowMOTD m w).2.
Proof. unfold ShowMOTD. still. Qed.
#[local] Hint Resolve io_RunDoors io_ShowMOTD : io.

Lemma io_RunWhosOnline r w : still w (RunWhosOnline r w).2.
Proof. unfold RunWhosOnline, online_row. still. Qed.
#[local] Hint Resolve io_RunWhosOnline : io.

Lemma io_logoffAction w : still w (logoffAction w).2.
Proof. unfold logoffAction. still. Qed.
#[local] Hint Resolve io_logoffAction : io.

Lemma keeps_opens m : keeps_true m -> keeps_true (opens m).
Proof. intros Hm. unfold opens. keep. Qed.

(** Whatever menu the member is shown: its actions are confined. *)
Lemma keeps_member_items c level motd : Forall (λ it, keeps_true (ItemAction it)) (member_items c level motd).
Proof.
  apply (Forall_member_items (λ m, keeps_true m)). unfold boardsAction, mailAction, filesAction, doorsAction, whosOnlineAction, profileAction, sysopAction.
  repeat (apply Forall_cons_2 || apply Forall_nil_2);
    first [apply keeps_opens; solve [auto with keep nocore] | apply keeps_still; unfold motdAction, opens; still].
Qed.

Lemma keeps_RunMember c : keeps_true (RunMember c).
Proof.
  apply keeps_Run; [exact _|]. unfold refresh_member. eapply keeps_bind; [apply keeps_me|]. intros u _.
  eapply keeps_bind; [apply keeps_still; still|]. intros set _. apply keeps_ret.
  split; [apply keeps_member_items|]. intros q [= <-]. apply keeps_still. still.
Qed.
End Member.

(** ** Properties *)

Section Properties.
Context `{Crypto, SshKeys, Env, DoorHost, EventJson}.

(** C7: A member below the SysOp level, whatever they type in the main menu and all
    its screens, changes nothing that is not theirs: no ban, door, setting, token
    or application; of the accounts only their own password and colours; of the
    keys, posts, letters, blocks, reports and files only their own (letters sent
    to them, replies to their own posts, and download counters apart), and the
    library stays within its bounds. *)
Theorem member_confined (c : config) (w : state)
    (Hok : tables_ok (db w)) (Hl : AccessLevel (me w) < CoSysOpLevel) :
  allowed (ID (me w)) (db w) (db (RunMember c w).2).
Proof.
  apply (keeps_RunMember (ID (me w)) (AccessLevel (me w)) (db w) Hok Hl c w). split; [by apply allowed_refl|done].
Qed.

(** The member's menu always returns: every loop of every screen reads, so the
    bytes the caller sends bound them all, and none of the loops' fuel runs out. *)
Theorem member_menu_returns (c : config) (w : state) :
  (RunMember c w).1 <> Err OutOfFuel /\ (length (s_in (io (RunMember c w).2)) <= length (s_in (io w)))%nat.
Proof. destruct (tame_RunMember c w) as [Hle Hf]. by split. Qed.
End Properties.
