(* ===== verification/Gates.v ===== *)
(** * What it takes to get past a gate (src/menu/sysop.go, boards.go, files.go, apply.go)

    The SysOp panel and the creation of areas need the level and the shared
    secret; a Telnet caller can only leave a pending application. *)

From S2P Require Import Prelude Doors Releases Wire Xmodem GoStrings Base64 GoTime Vault Sql Users Credentials Boards Mail Files AuditLog.
From S2P Require Import SessionLog Bans DoorStore Registry Input Screen Terminal Login World Widgets MailScreens BoardScreens.
From S2P Require Import FileScreens ProfileScreens Apply DoorScreens SysOpScreens Menu Confine Member.

(** ** The step-up secret *)

Section StepUp.
Context `{Crypto, SshKeys, Env, DoorHost, EventJson}.

Lemma readPassword_is w e : (readPassword w).1 = Ok e -> edited [] (plain (s_in (io w))) = Some e.
Proof.
  unfold readPassword, reading, ReadPassword.
  pose proof (line_loop_spec (S (length (s_in (io w)))) false [] (io w) ltac:(lia)) as Hs.
  destruct (line_loop _ _ _ _) as [[r|] s]; cbn in *; congruence.
Qed.

(** A check of the secret: still if it is not given, and then a refusal. *)
Definition refuses (pass : bytes) (m : flow bool) : Prop := forall w,
  edited [] (plain (s_in (io w))) <> Some pass -> still w (m w).2 /\ forall b, (m w).1 = Ok b -> b = false.

Lemma refuses_asking pass f (yes no : flow bool) :
  (forall w, still w (no w).2) -> (forall w b, (no w).1 = Ok b -> b = false) ->
  refuses pass (draw f ;; entered ← readPassword; if sysopPassOK entered pass then yes else no).
Proof.
  intros Hs Hn w He. rewrite !bind_run. cbn [draw change]. 
  set (w1 := with_io _ w). assert (Hw : still w w1) by by apply still_same.
  assert (E1 : s_in (io w1) = s_in (io w)) by done. rewrite <-E1 in He.
  pose proof (readPassword_is w1) as Hp. pose proof (io_readPassword w1) as Hr. rewrite bind_run.
  revert Hp Hr. destruct (readPassword w1) as [[e|x] w2]; cbn [fst snd]; intros Hp Hr; [|split; [exact (still_trans _ _ _ Hw Hr)|done]].
  specialize (Hp e eq_refl). destruct (sysopPassOK e pass) eqn:Eo.
  { apply beq_true in Eo. congruence. }
  split; [|apply Hn]. exact (still_trans _ _ _ (still_trans _ _ _ Hw Hr) (Hs _)).
Qed.

Lemma yields_bind {A} (m : flow A) (k : A -> flow bool) :
  (forall a w b, (k a w).1 = Ok b -> b = false) -> forall w b, ((m ≫= k) w).1 = Ok b -> b = false.
Proof. intros Hk w b. rewrite bind_run. destruct (m w) as [[a|] w']; [apply Hk|done]. Qed.

Lemma refuses_step_up pass d : pass <> [] -> refuses pass (step_up pass d).
Proof.
  intros Hp. unfold step_up. replace (beq pass []) with false by (symmetry; by apply bool_decide_eq_false).
  apply refuses_asking; [intros; still|]. do 3 (apply yields_bind; intros ?).
  by intros w b [= <-].
Qed.

Lemma refuses_panel pass : pass <> [] -> refuses pass (panel_gate pass).
Proof.
  intros Hp. unfold panel_gate. replace (beq pass []) with false by (symmetry; by apply bool_decide_eq_false).
  apply refuses_asking; [intros; still|]. do 3 (apply yields_bind; intros ?).
  by intros w b [= <-].
Qed.

(** A guarded screen of a SysOp: nothing below the level, nothing but what the
    refusal leaves without the secret. *)
Definition gated (gate : flow bool) (rest : flow ()) : flow () :=
  u ← ask me; if AccessLevel u <? CoSysOpLevel then mret () else ok ← gate; if negb ok then mret () else rest.

Lemma gated_below gate rest w : AccessLevel (me w) < CoSysOpLevel -> gated gate rest w = (Ok (), w).
Proof. intros Hl. unfold gated. rewrite bind_run. cbn [ask]. by rewrite (proj2 (Z.ltb_lt _ _) Hl). Qed.

Lemma gated_still pass gate rest w :
  refuses pass gate -> edited [] (plain (s_in (io w))) <> Some pass -> still w (gated gate rest w).2.
Proof.
  intros Hg He. unfold gated. rewrite bind_run. cbn [ask]. destruct (_ <? _); [by apply still_same|].
  rewrite bind_run. destruct (Hg w He) as [Hs Hb].
  destruct (gate w) as [[b|e] w1]; [|done]. rewrite (Hb b eq_refl). exact Hs.
Qed.
End StepUp.

(** C9: A caller below the SysOp level gets nothing from the control panel, the
    creation of a board or of a file area, whether a secret is configured or not:
    nothing is read, drawn or stored.  When one is configured, whoever does not
    give it as the first line gets nothing either: nothing is stored but the
    audit events. *)
Theorem sysop_actions_gated `{Crypto, SshKeys, Env, DoorHost, EventJson} (pass : bytes) (inst aud : bool) (base : bytes)
    (file : nat -> option bytes) (text : auditErr -> bytes) (w : state) :
  (AccessLevel (me w) < CoSysOpLevel ->
     RunSysOp pass inst base aud file text w = (Ok (), w) /\ newBoard pass w = (Ok (), w) /\ newFileArea pass w = (Ok (), w)) /\
  (pass <> [] -> edited [] (plain (s_in (io w))) <> Some pass ->
     still w (RunSysOp pass inst base aud file text w).2 /\ still w (newBoard pass w).2 /\ still w (newFileArea pass w).2).
Proof.
  split; [intros Hl; split_and!; by apply gated_below|]. intros Hp He.
  split_and!; [apply (gated_still pass); [by apply refuses_panel|done]|..];
    (apply (gated_still pass); [by apply refuses_step_up|done]).
Qed.

(** ** The application *)

Section Applying.
Context `{Crypto, SshKeys, Env, DoorHost, EventJson}.
Variable b0 : bbs.

(** A new account that cannot do anything yet. *)
Definition applicant : Z -> userRow -> bool :=
  λ _ r, beq (c_status r) StatusPending && beq (c_password_hash r) [] && (c_access_level r =? 0).
(** A row about an account that did not exist before. *)
Definition newcomer (i : Z) : bool := seq (db_users b0) <? i.

(** What one caller of the Telnet port may leave behind. *)
Record applied (b : bbs) : Prop := {
  ap_users : confined nobody applicant id never (db_users b0) (db_users b);
  ap_one : seq (db_users b) <= seq (db_users b0) + 1;
  ap_keys : confined nobody (λ _ r, newcomer (k_user_id r)) id never (db_keys b0) (db_keys b);
  ap_memberships : confined nobody (λ _ r, newcomer (m_user_id r) && beq (m_decision r) DecisionPending) id never
                     (db_memberships b0) (db_memberships b);
  ap_rest : b = put_log (db_log b) (put_memberships (db_memberships b) (put_keys (db_keys b) (put_users (db_users b) b0)))
}.

Context (Hu : wf (db_users b0)) (Hk : wf (db_keys b0)) (Hm : wf (db_memberships b0)).

Definition untouched (w : state) : Prop := db w = put_log (db_log (db w)) b0.
Definition is_applied (w : state) : Prop := applied (db w).

Lemma untouched_applied w : untouched w -> is_applied w.
Proof.
  unfold untouched, is_applied. intros ->. split; cbn; try (by apply confined_refl); [lia|]. by destruct b0.
Qed.

#[local] Instance applied_stable : Stable is_applied.
Proof.
  intros w w' [Hd _] [Ha Ho Hky Hmm Hr]. unfold is_applied. rewrite Hd. split; cbn; try assumption. rewrite Hr at 1. done.
Qed.

Lemma untouched_io {A B} (m : flow A) (k : A -> flow B) :
  (forall w, still w (m w).2) -> (forall a w, untouched w -> is_applied (k a w).2) ->
  forall w, untouched w -> is_applied ((m ≫= k) w).2.
Proof.
  intros Hs Hn w Hw. rewrite bind_run. destruct (Hs w) as [Hd _]. unfold untouched in *.
  destruct (m w) as [[a|e] w1]; cbn in Hd |- *; [apply Hn|apply untouched_applied]; unfold untouched; by rewrite Hd, Hw.
Qed.

Lemma untouched_leaf {A} (m : flow A) : (forall w, still w (m w).2) -> forall w, untouched w -> is_applied (m w).2.
Proof.
  intros Hs w Hw. destruct (Hs w) as [Hd _]. apply untouched_applied. unfold untouched in *. by rewrite Hd, Hw.
Qed.

Lemma io_readKeys w : still w (readKeys w).2.
Proof. unfold readKeys. still. Qed.

Lemma ByID_id i t u : Users_ByID vault i t = Ok u -> ID u = i.
Proof.
  unfold Users_ByID, first_user. destruct (select (by_id i) t) as [|[j r] l] eqn:E; [done|]. intros Hs.
  assert (Hin : (j, r) ∈ select (by_id i) t) by (rewrite E; left). apply elem_of_select in Hin as [_ Hj].
  unfold by_id in Hj. cbn in Hj. unfold Users_scan in Hs. repeat case_match; simplify_eq/=. lia.
Qed.

Lemma keeps_save_key i k : newcomer i = true -> keeps is_applied (save_key i k) (λ _, True).
Proof.
  intros Hi. unfold save_key. eapply keeps_bind; [apply (keeps_io is_applied); still|]. intros t _.
  eapply (keeps_bind is_applied _ _ (λ _, True)).
  - apply keeps_exec. intros w [Ha Ho Hky Hmm Hr]. split; [|done]. unfold is_applied.
    destruct (Keys_Add (db_users (db w)) i k t (db_keys (db w))) as [r x] eqn:E. cbn. split; cbn; try assumption.
    + unfold Keys_Add in E. destruct (ParseAuthorizedKey k) as [[pub c]|]; [|by injection E as _ <-].
      destruct (row i _); [|by injection E as _ <-]. destruct (existsb _ _); [by injection E as _ <-|].
      destruct (insert _ _) as [[id t']|] eqn:Ei; injection E as _ <-; [|done]. by eapply confined_insert.
    + rewrite Hr at 1. done.
  - intros [x|e] _; apply (keeps_io is_applied); still.
Qed.

Lemma submit_applied h ks note w : untouched w -> is_applied (submit h ks note w).2.
Proof.
  intros Hw. unfold submit. revert w Hw. apply untouched_io; [still|]. intros t.
  apply untouched_io; [still|]. intros n1. apply untouched_io; [still|]. intros n2 w Hw.
  rewrite bind_run. unfold exec. destruct (Users_Create vault h [] [] [] t n1 n2 (db_users (db w))) as [r us] eqn:E.
  assert (Hn : is_applied (with_db (put_users us (db w)) w) /\ forall u, r = Ok u -> newcomer (ID u) = true).
  { unfold Users_Create in E. destruct (0 <? _).
    { injection E as <- <-. split; [|done]. pose proof (untouched_applied _ Hw) as Ha. unfold is_applied in *. cbn.
      by destruct (db w). }
    destruct (insert _ _) as [[id t']|] eqn:Ei.
    - injection E as <- <-. destruct (untouched_applied _ Hw) as [Ha Ho Hky Hmm Hr].
      assert (Hid : id = seq (db_users (db w)) + 1 /\ seq t' = id).
      { unfold insert in Ei. destruct (_ <? maxRowid); [|done]. by injection Ei as <- <-. }
      assert (Hs : seq (db_users (db w)) = seq (db_users b0)) by by rewrite Hw.
      split; [|intros u Hb%ByID_id; unfold newcomer; lia]. unfold is_applied. cbn. split; cbn; try assumption.
      + by eapply confined_insert.
      + lia.
      + rewrite Hr at 1. done.
    - injection E as <- <-. split; [|done]. pose proof (untouched_applied _ Hw) as Ha. unfold is_applied in *. cbn.
      by destruct (db w). }
  destruct Hn as [Ha Hnew]. cbn. revert Ha. generalize (with_db (put_users us (db w)) w) as w1. intros w1 Ha.
  cut (keeps is_applied (match r with
      | Err e => draw (ColorLine Red (str "Could not submit application: " ++ err_text e))
      | Ok u =>
          for_each (save_key (ID u)) ks ;; t ← time_now; n ← random;
          r ← exec (λ b, let '(r, x) := Memberships_Apply vault (db_users b) (ID u) note t n (db_memberships b) in
                         (r, put_memberships x b));
          match r with
          | Err e => draw (ColorLine Red (str "Could not record application: " ++ err_text e))
          | Ok _ =>
              activity (str "membership-application") (str "handle=" ++ h) ;;
              draw (λ s, Line (str "connect via SSH to set your password and log in. 73!")
                (Line (str "Once approved you'll receive a one-time token out-of-band, then")
                (ColorLine Cyan (str "Application submitted! The SysOp will review it.") (Print CRLF s))))
          end
      end) (λ _, True)); [by intros Hc; apply Hc|].
  destruct r as [u|e]; [|apply (keeps_io is_applied); still]. specialize (Hnew u eq_refl).
  eapply keeps_bind; [apply keeps_for_each; [exact _|]; intros k _; by apply keeps_save_key|]. intros _ _.
  eapply keeps_bind; [apply (keeps_io is_applied); still|]. intros t1 _.
  eapply keeps_bind; [apply (keeps_io is_applied); still|]. intros n _.
  eapply (keeps_bind is_applied _ _ (λ _, True)).
  - apply keeps_exec. clear w Hw E Ha w1. intros w [Ha Ho Hky Hmm Hr]. split; [|done]. unfold is_applied.
    destruct (Memberships_Apply vault (db_users (db w)) (ID u) note t1 n (db_memberships (db w))) as [r x] eqn:E. cbn.
    split; cbn; try assumption.
    + unfold Memberships_Apply in E. destruct (negb _); [by injection E as _ <-|].
      destruct (insert _ _) as [[id t']|] eqn:Ei; injection E as _ <-; [|done].
      eapply confined_insert; [done|exact Ei|]. cbn. by rewrite Hnew.
    + rewrite Hr at 1. done.
  - intros [x|e] _; apply (keeps_io is_applied); still.
Qed.
End Applying.

(** C10: A Telnet caller, whatever they send, leaves at most one new account, pending,
    at level 0 and without a password; keys and applications only for it; and
    every other row and table as it was. *)
Theorem telnet_only_applies `{Crypto, SshKeys, Env, DoorHost, EventJson} (w : state)
    (Hu : wf (db_users (db w))) (Hk : wf (db_keys (db w))) (Hm : wf (db_memberships (db w))) :
  applied (db w) (db (RunApply w).2).
Proof.
  assert (G : forall w1, untouched (db w) w1 -> is_applied (db w) (RunApply w1).2).
  2:{ apply G. unfold untouched. by destruct (db w). }
  assert (Hr : forall w, still w (readKeys w).2) by apply io_readKeys.
  unfold RunApply. cbv zeta.
  do 3 (apply untouched_io; [assumption..|still|intros ?]). cbv zeta.
  destruct (beq _ []); [apply untouched_leaf; [assumption..|still]|].
  apply untouched_io; [assumption..|still|intros taken].
  destruct taken; [apply untouched_leaf; [assumption..|still]|].
  apply untouched_io; [assumption..|still|intros _].
  apply untouched_io; [assumption..|exact Hr|intros keyLines].
  destruct keyLines; [apply untouched_leaf; [assumption..|still]|].
  do 4 (apply untouched_io; [assumption..|still|intros ?]). by apply submit_applied.
Qed.

(** ** Witnesses *)

Definition toy_env : Env := {|
  vault := toy_vault; conn := a_caller; clock := on_time; rnd := λ _, toy_nonce; disk := λ _, Saved;
  err_text := λ _, str "error"; xerr_text := λ _, str "error"; base64_text := λ _, str "error";
  lower := lower_ascii; to_upper := λ s, s; quote := λ s, s
|}.
Definition toy_host : DoorHost := {|
  goos := str "linux"; goarch := str "amd64"; dial := λ _ _ _, Err (str "refused"); converse := λ _ _ _, (0, 0)%nat;
  run_process := λ _ _ _, (0%nat, [], None); http_get := λ _ _, Err (str "offline"); decode_release := λ _ _, Err []; fs_does := λ _, Releases.fs_fine;
  free_port := λ _, Ok 4000; mkdir := λ _ _, true; file_exists := λ _ _, true
|}.

(** A board with a thread of the first member, and the second member at the keys. *)
Definition a_bbs : bbs := Bbs two_users empty_table empty_table empty_table empty_table
  (Table [(1, AreaRow (str "General") [] 0)] 1) thread3 ∅ empty_table empty_table empty_table empty_table
  (Lib empty_table ∅) empty_table empty_table empty_table ∅ empty_table.
Definition trinity : User := MkUser 2 (str "Trinity") [] [] [] 10 StatusApproved 0 0 false 0 None.
Definition at_keys (u : User) (i : bytes) : state :=
  State {| s_in := i; s_out := []; s_resets := 0 |} a_bbs u false ∅ [] 0 ∅.
Definition a_config : config := Config (str "secret") true false (λ _, None) (λ _, [])
  (MkOpts 0 0 [] [] [] 0 0 [] false false) 1 (str "doors") (λ _, None) None.

Lemma two_users_wf : wf two_users.
Proof. split; [repeat constructor; done| |done]. repeat constructor; simpl; lia. Qed.

Lemma a_bbs_ok : tables_ok a_bbs.
Proof.
  split; try apply wf_empty; [apply two_users_wf|apply thread3_wf|apply lib_inv_empty].
Qed.

(** The second member opens the board, the first post, and presses D. *)
Lemma member_confined_witness :
  exists r, (1, r) ∈ rows (db_messages (db (RunMember (H := toy) (H0 := toy_ssh) (H1 := toy_env) (H2 := toy_host)
    (H3 := toy_json) a_config (at_keys trinity (typing [str "m"; str "1"; str "1"] ++ str "d"))).2)) /\ r = post None.
Proof.
  pose proof (member_confined (H := toy) (H0 := toy_ssh) (H1 := toy_env) (H2 := toy_host) (H3 := toy_json) a_config
    (at_keys trinity (typing [str "m"; str "1"; str "1"] ++ str "d")) a_bbs_ok ltac:(done)) as [_ _ _ _ _ _ _ Hc _ _ _ _ _ _ _ _ _ _ _ _].
  destruct (c_stay _ _ _ _ _ _ Hc 1 (post None)) as [(p & Hp & _)|(r & Hr & _ & Hs)]; [left|done|done|].
  exists r. split; [exact Hr|exact Hs].
Defined.

(** The first member, promoted, without the secret; the second one where none is set. *)
Lemma sysop_actions_gated_witness :
  db_areas (db (newBoard (H := toy) (H0 := toy_env) (str "secret") (at_keys (MkUser 1 (str "Neo") [] [] [] 100 StatusApproved 0 0 false 0 None)
    (typing [str "guess"; str "Board"; []; []]))).2) = db_areas a_bbs /\
  (newBoard (H := toy) (H0 := toy_env) [] (at_keys trinity (typing [str "Board"; []; []]))).1 = Ok ().
Proof.
  split.
  - destruct (sysop_actions_gated (H := toy) (H0 := toy_ssh) (H1 := toy_env) (H2 := toy_host) (H3 := toy_json) (str "secret") true false [] (λ _, None) (λ _, [])
      (at_keys (MkUser 1 (str "Neo") [] [] [] 100 StatusApproved 0 0 false 0 None) (typing [str "guess"; str "Board"; []; []]))) as [_ Hs].
    destruct Hs as (_ & [Hd _] & _); [done|vm_compute; done|]. by rewrite Hd.
  - destruct (sysop_actions_gated (H := toy) (H0 := toy_ssh) (H1 := toy_env) (H2 := toy_host) (H3 := toy_json) [] true false [] (λ _, None) (λ _, [])
      (at_keys trinity (typing [str "Board"; []; []]))) as [Hs _].
    destruct Hs as (_ & -> & _); [vm_compute; reflexivity|reflexivity].
Defined.

(** An application with a handle and one key. *)
Lemma telnet_only_applies_witness :
  seq (db_users (db (RunApply (H := toy) (H0 := toy_ssh) (H1 := toy_env) (at_keys trinity
    (typing [str "cypher"; str "key"; []; []; str "steak"]))).2)) <= 3.
Proof.
  destruct (telnet_only_applies (H := toy) (H0 := toy_ssh) (H1 := toy_env) (H2 := toy_host) (H3 := toy_json)
    (at_keys trinity (typing [str "cypher"; str "key"; []; []; str "steak"])) two_users_wf wf_empty wf_empty) as [_ Ho _ _ _].
  exact Ho.
Defined.
