(* ===== verification/Sessions.v ===== *)
(** * Members online (the SSH handler of src/cmd/admiralbbs/main.go)

    What the handler does to the registries all callers share: it enters the
    presence table, takes a node, joins the roster, and gives each back in
    deferred calls, which Go runs last in first out when the handler returns.
    Sessions interleave between these calls, and between the two halves of
    [Presence.Enter]: what it does to the table under its mutex, and the call of
    the displaced session's close function afterwards.  No step is ever forced: a
    session may wait at any point for ever, in that function or in its menu. *)

From S2P Require Import Prelude Registry.

(** ** State *)

(** The registries. *)
Record hub := Hub { presence : Presence.t; pool : NodePool.t; roster : Roster.t }.

Definition new_hub (maxPerUser nodes : Z) : hub := Hub (Presence.New maxPerUser) (NodePool.New nodes) ∅.

(** A deferred call. *)
Inductive deferred :=
  | PresenceLeave
  | NodeRelease (n : Z)
  | RosterLeave (n : Z).

(** Where the handler stands: inside [Presence.Enter], about to close the session
    it displaced; it has entered the presence table, it holds a node, it is on the
    roster (from the budget check through the last menu), or it has returned and
    its deferred calls run. *)
Inductive pc := Entering (displaced : option Z) | Entered | OnNode (n : Z) | Online | Returned.

(** A session past its login; [th_displaced]: a newer one has its place in the
    presence table; [th_closed]: its connection was closed by that one. *)
Record thread := Thread {
  th_handle : bytes; th_ip : bytes; th_transport : bytes; th_displaced : bool; th_closed : bool; th_pc : pc; th_defers : list deferred
}.

(** The sessions, by the id [Presence.Enter] gave them. *)
Abbreviation threads := (gmap Z thread).

Definition goto (p : pc) (ds : list deferred) (th : thread) : thread :=
  Thread (th_handle th) (th_ip th) (th_transport th) (th_displaced th) (th_closed th) p ds.
Definition displace (th : thread) : thread :=
  Thread (th_handle th) (th_ip th) (th_transport th) true (th_closed th) (th_pc th) (th_defers th).
Definition close_conn (th : thread) : thread :=
  Thread (th_handle th) (th_ip th) (th_transport th) (th_displaced th) true (th_pc th) (th_defers th).

Definition with_presence (p : Presence.t) (h : hub) : hub := Hub p (pool h) (roster h).
Definition with_pool (p : NodePool.t) (h : hub) : hub := Hub (presence h) p (roster h).
Definition with_roster (r : Roster.t) (h : hub) : hub := Hub (presence h) (pool h) r.

(** ** Steps *)

(** To the session of this id, if there is one. *)
Definition at_id (o : option Z) (f : thread -> thread) (ts : threads) : threads :=
  match o with Some j => alter f j ts | None => ts end.

(** [presence.Enter] up to the end of its critical section. *)
Definition enter (handle ip transport : bytes) (c : hub * threads) : hub * threads :=
  let '(h, ts) := c in
  let '(i, d, p) := Presence.Enter handle (Some (Presence.seq (presence h) + 1)) (presence h) in
  (with_presence p h, <[i := Thread handle ip transport false false (Entering d) []]> (at_id d displace ts)).

Definition undo (i : Z) (handle : bytes) (d : deferred) (h : hub) : hub :=
  match d with
  | PresenceLeave => with_presence (Presence.Leave handle i (presence h)) h
  | NodeRelease n => with_pool (NodePool.Release n (pool h)) h
  | RosterLeave n => with_roster (Roster.Leave n (roster h)) h
  end.

(** The next call of session [i]; the roster's clock reads [now].  A session on
    the roster may return at any time: logged off, hung up or closed.  Also the
    session whose connection the call closes; no thread: the handler is done. *)
Definition advance (i now : Z) (th : thread) (h : hub) : hub * option thread * option Z :=
  match th_pc th with
  | Entering d => (h, Some (goto Entered (PresenceLeave :: th_defers th) th), d)
  | Entered =>
      let '(n, p) := NodePool.Acquire (pool h) in
      if n =? 0 then (h, Some (goto Returned (th_defers th) th), None)
      else (with_pool p h, Some (goto (OnNode n) (NodeRelease n :: th_defers th) th), None)
  | OnNode n =>
      (with_roster (Roster.Join n (th_handle th) (th_ip th) (th_transport th) now (roster h)) h,
       Some (goto Online (RosterLeave n :: th_defers th) th), None)
  | Online => (h, Some (goto Returned (th_defers th) th), None)
  | Returned =>
      match th_defers th with
      | [] => (h, None, None)
      | d :: ds =>
          let h := undo i (th_handle th) d h in
          (h, match ds with [] => None | _ => Some (goto Returned ds th) end, None)
      end
  end.

Definition run (i now : Z) (c : hub * threads) : hub * threads :=
  match c.2 !! i with
  | Some th => let '(h, r, closed) := advance i now th c.1 in (h, partial_alter (λ _, r) i (at_id closed close_conn c.2))
  | None => c
  end.

Inductive step : hub * threads -> hub * threads -> Prop :=
  | step_enter handle ip tr c : step c (enter handle ip tr c)
  | step_run i now c : step c (run i now c).

Definition reachable (maxPerUser nodes : Z) (c : hub * threads) : Prop := rtc step (new_hub maxPerUser nodes, ∅) c.

(** ** Lemmas *)

(** What a handler at [p] has still to give back. *)
Definition owes (p : pc) (ds : list deferred) : Prop :=
  match p with
  | Entering _ => ds = []
  | Entered => ds = [PresenceLeave]
  | OnNode n => ds = [NodeRelease n; PresenceLeave]
  | Online => exists n, ds = [RosterLeave n; NodeRelease n; PresenceLeave]
  | Returned => ds <> [] /\ exists n, ds `suffix_of` [RosterLeave n; NodeRelease n; PresenceLeave]
  end.

(** The node a session holds, and the node it is on the roster with. *)
Fixpoint held (ds : list deferred) : option Z :=
  match ds with [] => None | NodeRelease n :: _ => Some n | _ :: ds => held ds end.
Fixpoint shown (ds : list deferred) : option Z :=
  match ds with [] => None | RosterLeave n :: _ => Some n | _ :: ds => shown ds end.

Definition holds (th : thread) (n : Z) : Prop := held (th_defers th) = Some n.
Definition listed (th : thread) (n : Z) : Prop := shown (th_defers th) = Some n.

#[export] Instance listed_dec th n : Decision (listed th n).
Proof. unfold listed. apply _. Defined.

(** The session as the presence registry sees it. *)
Definition seen (th : thread) : bytes * bool := (th_handle th, th_displaced th).

Lemma suffix_3 {A} (a b c : A) l : l `suffix_of` [a; b; c] -> l = [] \/ l = [c] \/ l = [b; c] \/ l = [a; b; c].
Proof.
  intros [k E]. destruct k as [|x [|y [|z k]]]; simpl in E; simplify_eq; auto.
  destruct k; simplify_eq/=; auto.
Qed.

(** The shapes of the deferred calls. *)
Lemma owes_shape p ds : owes p ds ->
  ds = [] \/ ds = [PresenceLeave] \/ exists n, ds = [NodeRelease n; PresenceLeave] \/ ds = [RosterLeave n; NodeRelease n; PresenceLeave].
Proof.
  destruct p as [d| |n| |]; cbn; [by left|by right; left|intros ->; eauto| |].
  - intros [n ->]. eauto.
  - intros [Hne [n Hs]]. apply suffix_3 in Hs as [->|[->|[->| ->]]]; [done|eauto..].
Qed.

Lemma owes_listed p ds n : owes p ds -> shown ds = Some n -> held ds = Some n.
Proof. intros [->|[->|(k & [->| ->])]]%owes_shape; cbn; congruence. Qed.

(** The nodes and the roster are exactly what the sessions hold. *)
Record core (nodes : Z) (p : NodePool.t) (r : Roster.t) (ts : threads) : Prop := {
  k_owes : forall i th, ts !! i = Some th -> owes (th_pc th) (th_defers th);
  k_max : NodePool.max p = NodePool.max (NodePool.New nodes);
  k_range : forall i th n, ts !! i = Some th -> holds th n -> 1 <= n <= NodePool.max p;
  k_used : forall n, n ∈ NodePool.used p <-> exists i th, ts !! i = Some th /\ holds th n;
  k_apart : forall i j ti tj n, ts !! i = Some ti -> ts !! j = Some tj -> holds ti n -> holds tj n -> i = j;
  k_roster : forall i th n, ts !! i = Some th -> listed th n ->
    exists now, r !! n = Some (Roster.Build_Online n (th_handle th) (th_ip th) (th_transport th) now);
  k_listed : forall n o, r !! n = Some o -> exists i th, ts !! i = Some th /\ listed th n
}.

(** Displaced sessions are closed, or the login that displaced them is about to. *)
Record pending (ts : threads) : Prop := {
  p_close : forall i th, ts !! i = Some th -> th_displaced th = true -> th_closed th = false ->
    exists k tk, ts !! k = Some tk /\ th_pc tk = Entering (Some i) /\ th_handle tk = th_handle th;
  p_target : forall k tk i, ts !! k = Some tk -> th_pc tk = Entering (Some i) -> i < k;
  p_newest : forall i j ti tj, ts !! i = Some ti -> ts !! j = Some tj -> th_handle ti = th_handle tj ->
    th_displaced ti = false -> j <= i
}.

Definition inv (nodes : Z) (c : hub * threads) : Prop :=
  core nodes (pool c.1) (roster c.1) c.2 /\ Presence.inv (presence c.1, seen <$> c.2) /\ pending c.2.

(** A change of a session's marks. *)
Record marks (f : thread -> thread) : Prop := {
  mk_handle : forall th, th_handle (f th) = th_handle th; mk_ip : forall th, th_ip (f th) = th_ip th;
  mk_transport : forall th, th_transport (f th) = th_transport th; mk_pc : forall th, th_pc (f th) = th_pc th;
  mk_defers : forall th, th_defers (f th) = th_defers th
}.

Lemma marks_displace : marks displace.
Proof. done. Qed.
Lemma marks_close : marks close_conn.
Proof. done. Qed.

Lemma lookup_at_id o f ts i : at_id o f ts !! i = if decide (o = Some i) then f <$> ts !! i else ts !! i.
Proof. destruct o as [j|]; cbn; [|done]. rewrite lookup_alter. repeat case_decide; congruence. Qed.

Lemma at_id_inv o f ts i th' : marks f -> at_id o f ts !! i = Some th' ->
  exists th, ts !! i = Some th /\ th_handle th' = th_handle th /\ th_ip th' = th_ip th /\ th_transport th' = th_transport th /\
    th_pc th' = th_pc th /\ th_defers th' = th_defers th /\ (th' = th \/ o = Some i /\ th' = f th).
Proof.
  intros [M1 M2 M3 M4 M5]. rewrite lookup_at_id. case_decide; [|intros ?; exists th'; by eauto 10].
  intros (th & Hi & ->)%fmap_Some. exists th. split_and!; eauto.
Qed.

Lemma at_id_fwd o f ts i th : marks f -> ts !! i = Some th ->
  exists th', at_id o f ts !! i = Some th' /\ th_defers th' = th_defers th /\ th_pc th' = th_pc th /\ th_handle th' = th_handle th.
Proof. intros [M1 M2 M3 M4 M5] Hi. rewrite lookup_at_id, Hi. case_decide; cbn; eauto. Qed.

Section Core.
Context (nodes : Z) (p : NodePool.t) (r : Roster.t) (ts : threads).
Context (K : core nodes p r ts).

Lemma core_mark o f : marks f -> core nodes p r (at_id o f ts).
Proof.
  intros M. pose proof (λ i th', at_id_inv o f ts i th' M) as F. pose proof (λ i th, at_id_fwd o f ts i th M) as B.
  destruct K as [K1 K2 K3 K4 K5 K6 K7]. split; unfold holds, listed in *.
  - intros i th' (th & Hi & _ & _ & _ & -> & -> & _)%F. eauto.
  - done.
  - intros i th' n (th & Hi & _ & _ & _ & _ & -> & _)%F. eauto.
  - intros n. rewrite K4. split.
    + intros (i & th & Hi & Hn). destruct (B i th Hi) as (th' & Hi' & E & _). exists i, th'. by rewrite E.
    + intros (i & th' & (th & Hi & _ & _ & _ & _ & -> & _)%F & Hn). eauto.
  - intros i1 i2 t1 t2 n (a & H1 & _ & _ & _ & _ & -> & _)%F (b & H2 & _ & _ & _ & _ & -> & _)%F. eauto.
  - intros i th' n (th & Hi & -> & -> & -> & _ & -> & _)%F. eauto.
  - intros n o' Ho. destruct (K7 n o' Ho) as (i & th & Hi & Hn). destruct (B i th Hi) as (th' & Hi' & E & _).
    exists i, th'. by rewrite E.
Qed.

(** A session comes to stand at [th'], owning the nodes it owned before. *)
Lemma core_new i th' : ts !! i = None -> owes (th_pc th') (th_defers th') -> th_defers th' = [] ->
  core nodes p r (<[i := th']> ts).
Proof.
  intros Hi Hp Hd. assert (N : forall n, ~ holds th' n /\ ~ listed th' n) by (unfold holds, listed; by rewrite Hd).
  destruct K as [K1 K2 K3 K4 K5 K6 K7]. split.
  - intros j th. rewrite lookup_insert_Some. intros [[<- <-]|[_ ?]]; [done|eauto].
  - done.
  - intros j th n. rewrite lookup_insert_Some. intros [[<- <-]|[_ ?]]; [by intros ?%N|eauto].
  - intros n. rewrite K4. split; intros (j & th & Hj & Hn); exists j, th; (split; [|done]).
    + apply lookup_insert_Some. right. split; [congruence|done].
    + apply lookup_insert_Some in Hj as [[<- <-]|[_ ?]]; [by apply N in Hn|done].
  - intros j1 j2 t1 t2 n. rewrite !lookup_insert_Some.
    intros [[<- <-]|[_ ?]] [[<- <-]|[_ ?]]; try done; try by intros ? ?%N. by intros ?%N. eauto.
  - intros j th n. rewrite lookup_insert_Some. intros [[<- <-]|[_ ?]]; [by intros ?%N|eauto].
  - intros n o Ho. destruct (K7 n o Ho) as (j & th & Hj & Hn). exists j, th. split; [|done].
    apply lookup_insert_Some. right. split; [congruence|done].
Qed.

(** Session [i] moves on, or is done: what it holds and is listed with afterwards
    decides the registries. *)
Lemma core_move i th o p' r' :
  ts !! i = Some th ->
  (forall th', o = Some th' -> owes (th_pc th') (th_defers th')) ->
  NodePool.max p' = NodePool.max p ->
  (forall th' n, o = Some th' -> holds th' n -> 1 <= n <= NodePool.max p /\ (holds th n \/ n ∉ NodePool.used p)) ->
  (forall n, n ∈ NodePool.used p' <-> (exists th', o = Some th' /\ holds th' n) \/ (n ∈ NodePool.used p /\ ~ holds th n)) ->
  (forall th' n, o = Some th' -> listed th' n ->
    exists now, r' !! n = Some (Roster.Build_Online n (th_handle th') (th_ip th') (th_transport th') now)) ->
  (forall n, ~ listed th n -> (forall th', o = Some th' -> ~ listed th' n) -> r' !! n = r !! n) ->
  (forall n, listed th n -> (forall th', o = Some th' -> ~ listed th' n) -> r' !! n = None) ->
  core nodes p' r' (partial_alter (λ _, o) i ts).
Proof.
  intros Hi Ho Hm Hh Hu Hr Hsame Hgone. destruct K as [K1 K2 K3 K4 K5 K6 K7].
  assert (Hl : forall j tj n, ts !! j = Some tj -> listed tj n -> holds tj n).
  { intros j tj n Hj. by apply (owes_listed (th_pc tj)), (K1 j). }
  assert (Apart : forall j tj n th', j <> i -> ts !! j = Some tj -> holds tj n -> o = Some th' -> ~ holds th' n).
  { intros j tj n th' Hne Hj Hn Eo Hn'. destruct (Hh th' n Eo Hn') as [_ [Ht|Ht]]; [pose proof (K5 j i tj th n); naive_solver|].
    apply Ht, K4. eauto. }
  split.
  - intros j tj. rewrite lookup_partial_alter. case_decide; eauto.
  - congruence.
  - intros j tj n. rewrite lookup_partial_alter, Hm. case_decide; [|by apply K3].
    intros Eo Hn. by apply (Hh tj).
  - intros n. rewrite Hu. split.
    + intros [(th' & -> & Hn)|[(j & tj & Hj & Hn)%K4 Hni]].
      * exists i, th'. by rewrite lookup_partial_alter, decide_True.
      * exists j, tj. rewrite lookup_partial_alter, decide_False by (intros ->; congruence). done.
    + intros (j & tj & Hj & Hn). rewrite lookup_partial_alter in Hj. case_decide; [left; eauto|].
      right. split; [apply K4; eauto|]. intros Hn'. pose proof (K5 i j th tj n). naive_solver.
  - intros j k tj tk n. rewrite !lookup_partial_alter. do 2 case_decide; subst; try done.
    + intros Eo Hk Hn Hn'. exfalso. by apply (Apart k tk n tj).
    + intros Hj Eo Hn Hn'. exfalso. by apply (Apart j tj n tk).
    + by apply K5.
  - intros j tj n. rewrite lookup_partial_alter. case_decide; [by apply Hr|]. intros Hj Hn.
    rewrite Hsame; [eauto| |].
    + intros Hn'. apply (Hl _ _ _ Hj) in Hn. apply (Hl _ _ _ Hi) in Hn'. pose proof (K5 i j th tj n). naive_solver.
    + intros th' Eo Hn'. apply (Apart j tj n th'); eauto. subst o. by eapply owes_listed; [apply Ho|].
  - intros n x Hx.
    assert ((exists th', o = Some th' /\ listed th' n) \/ forall th', o = Some th' -> ~ listed th' n) as [(th' & -> & Hn)|Hno].
    { destruct o as [t'|]; [|by right]. destruct (decide (listed t' n)); [left; eauto|right; by intros ? [= <-]]. }
    { exists i, th'. by rewrite lookup_partial_alter, decide_True. }
    destruct (decide (listed th n)) as [Hn|Hn]; [rewrite Hgone in Hx; [done..|]; eauto|].
    rewrite Hsame in Hx; [|done|eauto]. destruct (K7 n x Hx) as (j & tj & Hj & Hn'). exists j, tj.
    rewrite lookup_partial_alter, decide_False by (intros ->; congruence). done.
Qed.
End Core.

Lemma Acquire_cases p : let '(n, p') := NodePool.Acquire p in
  (n = 0 /\ p' = p) \/
  (n <> 0 /\ 1 <= n <= NodePool.max p /\ n ∉ NodePool.used p /\ p' = NodePool.Build_t ({[n]} ∪ NodePool.used p) (NodePool.max p)).
Proof.
  unfold NodePool.Acquire. destruct (NodePool.scan_spec (Z.to_nat (NodePool.max p)) 1 (NodePool.used p)) as [[-> _]|(Hr & Hn & _)];
    [lia|by left|]. destruct (Z.eqb_spec (NodePool.scan (Z.to_nat (NodePool.max p)) 1 (NodePool.used p)) 0); [by left|].
  right. split_and!; [done|lia|lia|done|done].
Qed.

(** The presence registry's view of a session that stays, and of one that goes. *)
Lemma seen_stays i th th' (ts : threads) : ts !! i = Some th -> seen th' = seen th ->
  seen <$> partial_alter (λ _, Some th') i ts = seen <$> ts.
Proof.
  intros Hi E. change (partial_alter _ i ts) with (<[i := th']> ts). rewrite fmap_insert, E. apply insert_id.
  by rewrite lookup_fmap, Hi.
Qed.

Lemma seen_closed o (ts : threads) : seen <$> at_id o close_conn ts = seen <$> ts.
Proof. apply map_eq. intros k. rewrite !lookup_fmap, lookup_at_id. case_decide; [|done]. by destruct (ts !! k). Qed.

Lemma seen_goes i (ts : threads) : seen <$> partial_alter (λ _, None) i ts = delete i (seen <$> ts).
Proof. change (partial_alter _ i ts) with (delete i ts). apply fmap_delete. Qed.

Lemma some_ex {A} (x : A) (P : A -> Prop) : (exists y, Some x = Some y /\ P y) <-> P x.
Proof. naive_solver. Qed.
Lemma none_ex {A} (P : A -> Prop) : (exists y, None = Some y /\ P y) <-> False.
Proof. naive_solver. Qed.

(** Settle the side conditions of [core_move] for known deferred calls. *)
Ltac settle Ed :=
  intros; simplify_eq; unfold holds, listed, NodePool.Release in *;
  cbn [goto th_defers th_pc NodePool.used NodePool.max with_pool with_roster pool roster] in *;
  rewrite ?some_ex, ?none_ex, ?elem_of_union, ?elem_of_difference, ?elem_of_singleton in *;
  cbn [goto th_defers] in *; rewrite ?Ed in *; cbn [held shown] in *; simplify_eq;
  repeat match goal with H : forall n, Some _ = Some n -> _ |- _ => specialize (H _ eq_refl) end;
  match goal with
  | |- context [_ <-> Some ?a = Some ?b \/ _] => destruct (decide (a = b)) as [<-|]
  | _ => idtac
  end; try naive_solver.

Ltac move_on K P O i th :=
  apply (core_move _ _ _ _ K i th); clear K P; repeat match goal with H : context [pending] |- _ => clear H end; try done; settle O.

(** Session [i] makes a call: whoever it was about to close is closed. *)
Definition closes (th : thread) : option Z := match th_pc th with Entering d => d | _ => None end.

Lemma pending_run i th o (ts : threads) : ts !! i = Some th -> pending ts ->
  (forall th', o = Some th' -> seen th' = seen th /\ th_closed th' = th_closed th /\ forall j, th_pc th' <> Entering (Some j)) ->
  pending (partial_alter (λ _, o) i (at_id (closes th) close_conn ts)).
Proof.
  intros Hi [P1 P2 P3] Ho.
  assert (F : forall j th', partial_alter (λ _, o) i (at_id (closes th) close_conn ts) !! j = Some th' -> exists t0, ts !! j = Some t0 /\
    th_handle th' = th_handle t0 /\ th_displaced th' = th_displaced t0 /\
    (th_closed th' = false -> th_closed t0 = false /\ (j <> i -> closes th <> Some j)) /\
    (forall m, th_pc th' = Entering (Some m) -> th_pc t0 = Entering (Some m))).
  { intros j th'. rewrite lookup_partial_alter. case_decide as Hj; [subst j|].
    - intros Eo. destruct (Ho th' Eo) as ([= E1 E2] & E3 & E4). exists th. split_and!; [done..|split; [congruence|done]|]. intros m Em. by destruct (E4 m).
    - rewrite lookup_at_id. case_decide as Hc.
      + intros (t0 & H0 & ->)%fmap_Some. exists t0. by split_and!.
      + intros H0. exists th'. by split_and!. }
  split.
  - intros j th' Hj Hd Hc. destruct (F j th' Hj) as (t0 & H0 & E1 & E2 & E3 & _). destruct (E3 Hc) as [Hc0 Hn].
    destruct (P1 j t0 H0) as (k & tk & Hk & Ek & Eh); [congruence|done|].
    assert (Hki : k <> i).
    { intros ->. rewrite Hi in Hk. injection Hk as <-. pose proof (P2 _ _ _ Hi Ek). apply Hn; [lia|]. unfold closes. by rewrite Ek. }
    destruct (at_id_fwd (closes th) close_conn ts k tk marks_close Hk) as (tk' & Hk' & _ & Ep & Eh').
    exists k, tk'. rewrite lookup_partial_alter, decide_False by done. split_and!; congruence.
  - intros k tk j Hk Ek. destruct (F k tk Hk) as (t0 & H0 & _ & _ & _ & E). by eapply P2, E.
  - intros a b ta tb Ha Hb Eh Hd. destruct (F a ta Ha) as (t0 & H0 & E1 & E2 & _). destruct (F b tb Hb) as (t1 & H1 & E3 & _).
    eapply (P3 a b t0 t1); congruence.
Qed.

(** What [move_on] leaves: the marks stay. *)
Lemma inv_run nodes i now c : inv nodes c -> inv nodes (run i now c).
Proof.
  destruct c as [h ts]. intros (K & P & Q). unfold run. cbn [fst snd] in *. destruct (ts !! i) as [th|] eqn:Hi; [|done].
  assert (U : forall n, holds th n -> n ∈ NodePool.used (pool h)) by (intros n Hn; apply (k_used _ _ _ _ K); eauto).
  assert (R : forall n, holds th n -> 1 <= n <= NodePool.max (pool h)) by (intros n; by apply (k_range _ _ _ _ K i)).
  pose proof (k_roster _ _ _ _ K i th) as L. pose proof (k_owes _ _ _ _ K i th Hi) as O. pose proof (pending_run i th) as Qr.
  unfold closes in Qr. unfold advance. destruct (th_pc th) as [d| |n| |] eqn:Ep; cbn [owes] in O.
  - assert (Hd : d <> Some i) by (intros ->; pose proof (p_target _ Q i th i Hi Ep); lia).
    assert (Hi' : at_id d close_conn ts !! i = Some th) by by rewrite lookup_at_id, decide_False.
    split_and!; cbn [fst snd].
    + pose proof (core_mark _ _ _ _ K d close_conn marks_close) as M. clear K Qr. move_on M P O i th.
    + rewrite (seen_stays i th) by done. by rewrite seen_closed.
    + apply Qr; [done..|]. intros th' [= <-]. done.
  - pose proof (Acquire_cases (pool h)) as A. destruct (NodePool.Acquire (pool h)) as [n p'].
    destruct A as [[-> ->]|(Hn & Hr & Hu & ->)].
    + rewrite Z.eqb_refl. split_and!; cbn [fst snd]; [|by rewrite (seen_stays i th)|apply Qr; [done..|]; by intros th' [= <-]]. move_on K P O i th.
      split; [done|]. exists 0, [RosterLeave 0; NodeRelease 0]. done.
    + apply Z.eqb_neq in Hn as Hb. rewrite Hb. split_and!; cbn [fst snd]; [|by rewrite (seen_stays i th)|apply Qr; [done..|]; by intros th' [= <-]].
      move_on K P O i th.
  - split_and!; cbn [fst snd]; [|by rewrite (seen_stays i th)|apply Qr; [done..|]; by intros th' [= <-]].
    move_on K P O i th.
    + exists now. by rewrite Roster.lookup_Join, decide_True.
    + cbn in *. by rewrite Roster.lookup_Join, decide_False by congruence.
  - destruct O as [n O]. split_and!; cbn [fst snd]; [|by rewrite (seen_stays i th)|apply Qr; [done..|]; by intros th' [= <-]].
    move_on K P O i th.
  - destruct O as [Hne [n O]]. apply suffix_3 in O as [O|[O|[O|O]]]; rewrite O; [done|..]; cbn [undo].
    + split_and!; cbn [fst snd].
      * move_on K P O i th.
      * rewrite seen_goes. eapply Presence.presence_inv_step; [exact P|]. apply (Presence.step_leave _ _ i _ (th_displaced th)).
        by rewrite lookup_fmap, Hi.
      * by apply Qr.
    + split_and!; cbn [fst snd]; [|by rewrite (seen_stays i th)|apply Qr; [done..|]; by intros th' [= <-]].
      move_on K P O i th; cbn in *.
      split; [done|]. by exists n, [RosterLeave n; NodeRelease n].
    + split_and!; cbn [fst snd]; [|by rewrite (seen_stays i th)|apply Qr; [done..|]; by intros th' [= <-]].
      move_on K P O i th; cbn in *.
      * split; [done|]. by exists n, [RosterLeave n].
      * by rewrite Roster.lookup_Leave, decide_False by congruence.
      * by rewrite Roster.lookup_Leave, decide_True.
Qed.

(** A login enters: the session it displaces is the newest one so far. *)
Lemma pending_enter handle ip tr p (ts : threads) i d p' : Presence.inv (p, seen <$> ts) -> pending ts ->
  Presence.Enter handle (Some (Presence.seq p + 1)) p = (i, d, p') ->
  pending (<[i := Thread handle ip tr false false (Entering d) []]> (at_id d displace ts)).
Proof.
  intros [Pc Pl Ps] [P1 P2 P3] E. cbn [fst snd] in *. unfold Presence.Enter in E. injection E as Ei Ed _.
  assert (Hlt : forall j th, ts !! j = Some th -> j < i).
  { intros j th Hj. specialize (Ps j (seen th)). rewrite lookup_fmap, Hj in Ps. specialize (Ps eq_refl). lia. }
  assert (Hd : forall j, d = Some j -> exists th, ts !! j = Some th /\ th_handle th = handle).
  { intros j ->. destruct (Presence.cur p !! handle) as [tk|] eqn:Et; [|done]. cbn in Ed. destruct (Pc _ _ Et) as [E1 E2].
    rewrite Ed in E1. injection E1 as ->. rewrite lookup_fmap in E2. apply fmap_Some in E2 as (th & Hj & [= -> _]). by exists th. }
  assert (Hl : forall j th, ts !! j = Some th -> th_handle th = handle -> th_displaced th = false -> d = Some j).
  { intros j th Hj Hh Hf. destruct (Pl j handle) as (tk & Et & Eid); [rewrite lookup_fmap, Hj; unfold seen; cbn; congruence|].
    rewrite <-Ed, Et. cbn. destruct (Pc _ _ Et) as [-> _]. congruence. }
  split.
  - intros j th. rewrite lookup_insert_Some. intros [[<- <-]|[Hne (t0 & H0 & E1 & _ & _ & E2 & _ & Hor)%(at_id_inv _ _ _ _ _ marks_displace)]]; [done|].
    intros Hdi Hc. destruct (decide (d = Some j)) as [Hj|Hj].
    + eexists i, _. rewrite lookup_insert_eq. split_and!; [done|by rewrite Hj|]. destruct (Hd j Hj) as (t1 & H1 & Eh). cbn. congruence.
    + destruct Hor as [->|[? _]]; [|done]. destruct (P1 j t0 H0 Hdi Hc) as (k & tk & Hk & Ek & Eh).
      destruct (at_id_fwd d displace ts k tk marks_displace Hk) as (tk' & Hk' & _ & Ep & Eh'). exists k, tk'.
      rewrite lookup_insert_ne by (specialize (Hlt k tk Hk); lia). split_and!; congruence.
  - intros k tk j. rewrite lookup_insert_Some. intros [[<- <-]|[Hne (t0 & H0 & _ & _ & _ & E2 & _)%(at_id_inv _ _ _ _ _ marks_displace)]].
    + cbn. intros [= Hj]. destruct (Hd j Hj) as (th & Hth & _). by eapply Hlt.
    + intros Ek. eapply P2; [exact H0|congruence].
  - assert (F : forall a ta, at_id d displace ts !! a = Some ta -> th_displaced ta = false -> ts !! a = Some ta /\ d <> Some a).
    { intros a ta. rewrite lookup_at_id. case_decide; [|done]. by intros (t0 & _ & ->)%fmap_Some. }
    intros a b ta tb. rewrite !lookup_insert_Some. intros [[<- <-]|[Ha Hta]] [[<- <-]|[Hb Htb]] Eh Hf; [lia| |..].
    + apply (at_id_inv _ _ _ _ _ marks_displace) in Htb as (t1 & H1 & _). apply Hlt in H1. lia.
    + destruct (F a ta Hta Hf) as [H0 Hna]. by destruct Hna; apply (Hl a ta).
    + destruct (F a ta Hta Hf) as [H0 _]. apply (at_id_inv _ _ _ _ _ marks_displace) in Htb as (t1 & H1 & E3 & _).
      eapply (P3 a b ta t1); congruence.
Qed.

Lemma inv_enter nodes handle ip tr c : inv nodes c -> inv nodes (enter handle ip tr c).
Proof.
  destruct c as [h ts]. intros (K & P & Q). unfold enter. destruct (Presence.Enter _ _ _) as [[i d] p] eqn:E. cbn [fst snd] in *.
  assert (Hs : seen <$> at_id d displace ts = Presence.kick d (seen <$> ts)).
  { apply map_eq. intros k. rewrite lookup_fmap, lookup_at_id, Presence.kick_lookup, lookup_fmap. case_decide; [|done]. by destruct (ts !! k). }
  assert (Hi : at_id d displace ts !! i = None).
  { apply eq_None_not_Some. intros [th (t0 & H0 & _)%(at_id_inv _ _ _ _ _ marks_displace)].
    assert (Hk : (seen <$> ts) !! i = Some (seen t0)) by by rewrite lookup_fmap, H0.
    apply (Presence.inv_seq _ P) in Hk. cbn in Hk. unfold Presence.Enter in E. injection E as <- _ _. lia. }
  split_and!; cbn [fst snd].
  - by apply core_new; [apply core_mark|..].
  - rewrite fmap_insert, Hs. eapply Presence.presence_inv_step; [exact P|]. by eapply Presence.step_enter.
  - by eapply pending_enter.
Qed.

Lemma inv_reachable m nodes c : reachable m nodes c -> inv nodes c.
Proof.
  intros Hr. assert (inv nodes (new_hub m nodes, ∅)) as Hi.
  { split; cbn.
    - split; cbn; [..|intros n; split; [done|]; intros (i & th & Hi & _); by rewrite lookup_empty in Hi| | |].
      all: intros *; rewrite ?lookup_empty; done.
    - split; [rewrite fmap_empty; apply (Presence.presence_inv_reachable m); constructor|]. split; intros *; by rewrite lookup_empty. }
  revert Hi. induction Hr as [|c1 c2 c3 Hs _ IH]; [done|]. intros Hi. apply IH.
  destruct Hs; [by apply inv_enter|by apply inv_run].
Qed.

Lemma roster_wf nodes c : inv nodes c -> Roster.wf (roster c.1).
Proof.
  intros [K _] n o Ho. destruct (k_listed _ _ _ _ K n o Ho) as (i & th & Hi & Hn).
  destruct (k_roster _ _ _ _ K i th n Hi Hn) as [now E]. by simplify_eq.
Qed.

(** ** Property *)

(** C20: The list of who is online is right under every interleaving of callers: it
    has an entry for each session that is at the menu, with its handle and
    address, and none for anyone who is not or is just leaving; no two sessions
    hold a node; of the sessions of a handle the newest is the only one whose
    connection is open, but for those that the login which displaced them has not
    closed yet, so the only one whenever no login of the handle is inside
    [Presence.Enter]; and when everybody is gone no node, roster entry or presence
    entry is left. *)
Theorem online_exact (maxPerUser nodes : Z) (h : hub) (ts : threads) (Hr : reachable maxPerUser nodes (h, ts)) :
  (forall i th, ts !! i = Some th -> th_pc th = Online ->
     exists o, o ∈ Roster.List (roster h) /\ holds th (Roster.Node o) /\
               Roster.Handle o = th_handle th /\ Roster.IP o = th_ip th) /\
  (forall o, o ∈ Roster.List (roster h) ->
     exists i th, ts !! i = Some th /\ (th_pc th = Online \/ th_pc th = Returned) /\ holds th (Roster.Node o) /\
                  Roster.Handle o = th_handle th /\ Roster.IP o = th_ip th) /\
  (forall i j ti tj n, ts !! i = Some ti -> ts !! j = Some tj -> holds ti n -> holds tj n -> i = j) /\
  (forall i j ti tj, ts !! i = Some ti -> ts !! j = Some tj -> th_handle ti = th_handle tj -> i < j -> th_closed ti = false ->
     exists k tk, ts !! k = Some tk /\ th_handle tk = th_handle ti /\ th_pc tk = Entering (Some i)) /\
  (ts = ∅ -> NodePool.used (pool h) = ∅ /\ roster h = ∅ /\ Presence.cur (presence h) = ∅).
Proof.
  pose proof (inv_reachable _ _ _ Hr) as I. pose proof (roster_wf _ _ I) as W. destruct I as (K & [Pc Pl _] & Q). cbn [fst snd] in *.
  destruct (Roster_List_spec _ W) as (_ & L & _). split_and!.
  - intros i th Hi Hp. pose proof (k_owes _ _ _ _ K i th Hi) as O. rewrite Hp in O. destruct O as [n O].
    assert (Hn : listed th n) by (unfold listed; by rewrite O).
    destruct (k_roster _ _ _ _ K i th n Hi Hn) as [now E]. eexists (Roster.Build_Online n _ _ _ _). rewrite L. split; [exact E|].
    split_and!; [|done..]. unfold holds. by rewrite O.
  - intros o Ho%L. destruct (k_listed _ _ _ _ K _ _ Ho) as (i & th & Hi & Hn). exists i, th.
    destruct (k_roster _ _ _ _ K i th _ Hi Hn) as [now E]. rewrite Ho in E. injection E as E.
    pose proof (k_owes _ _ _ _ K i th Hi) as O. split_and!; [done| |by eapply owes_listed|by rewrite E|by rewrite E].
    unfold listed in Hn. destruct (th_pc th); cbn in O; [by rewrite O in Hn..|by left|by right].
  - apply (k_apart _ _ _ _ K).
  - intros i j ti tj Hi Hj Eh Hlt Hc. destruct (th_displaced ti) eqn:Hd.
    + destruct (p_close _ Q i ti Hi Hd Hc) as (k & tk & Hk & Ek & Ehk). by exists k, tk.
    + pose proof (p_newest _ Q i j ti tj Hi Hj Eh Hd). lia.
  - intros ->. split_and!.
    + apply elem_of_equiv_empty_L. intros n (i & th & Hi & _)%(k_used _ _ _ _ K). by rewrite lookup_empty in Hi.
    + apply map_empty. intros n. apply eq_None_not_Some. intros [o Ho].
      destruct (k_listed _ _ _ _ K n o Ho) as (i & th & Hi & _). by rewrite lookup_empty in Hi.
    + apply map_empty. intros k. apply eq_None_not_Some. intros [tk Hk].
      apply Pc in Hk as [_ Hk]. by rewrite fmap_empty, lookup_empty in Hk.
Qed.

(** ** Witness *)

(** Neo calls twice; the second call displaces the first and then closes it, which
    gives back its node while the second is on the roster. *)
Definition neo_calls : hub * threads -> hub * threads := enter (str "neo") (str "10.0.0.1") (str "ssh").
Definition at_menu : hub * threads := run 1 3 (run 1 2 (run 1 1 (neo_calls (new_hub 1 64, ∅)))).
Definition two_calls : hub * threads := run 1 7 (run 1 6 (run 2 5 (run 2 4 (run 2 4 (neo_calls at_menu))))).

Lemma calls_reachable : reachable 1 64 (neo_calls at_menu) /\ reachable 1 64 two_calls.
Proof.
  split; unfold two_calls, at_menu, neo_calls, reachable;
    (repeat (eapply rtc_r; [|first [apply step_run|apply step_enter]]); constructor).
Defined.

(** The first is still connected while the second is inside [Presence.Enter]. *)
Lemma online_exact_witness :
  (exists o, o ∈ Roster.List (roster two_calls.1) /\ Roster.Handle o = str "neo" /\ Roster.IP o = str "10.0.0.1") /\
  (exists k tk, (neo_calls at_menu).2 !! k = Some tk /\ th_pc tk = Entering (Some 1)).
Proof.
  destruct calls_reachable as [R1 R2]. split.
  - destruct (online_exact 1 64 two_calls.1 two_calls.2 R2) as [Hon _].
    destruct (Hon 2 (Thread (str "neo") (str "10.0.0.1") (str "ssh") false false Online [RosterLeave 2; NodeRelease 2; PresenceLeave]))
      as (o & Ho & _ & Hh & Hip); [vm_compute; reflexivity|reflexivity|]. by exists o.
  - destruct (online_exact 1 64 (neo_calls at_menu).1 (neo_calls at_menu).2 R1) as (_ & _ & _ & Hone & _).
    destruct (Hone 1 2 (Thread (str "neo") (str "10.0.0.1") (str "ssh") true false Online [RosterLeave 1; NodeRelease 1; PresenceLeave])
      (Thread (str "neo") (str "10.0.0.1") (str "ssh") false false (Entering (Some 1)) []))
      as (k & tk & Hk & _ & Ek); [vm_compute; reflexivity|vm_compute; reflexivity|reflexivity|lia|reflexivity|]. by exists k, tk.
Defined.
