(* ===== verification/Server.v ===== *)
(** * The daemon (src/cmd/admiralbbs/main.go, the life of src/session/session.go)

    What happens between a connection and its end: the session is opened and
    closed in the audit trail, a Telnet caller applies, an SSH caller logs in, has
    the day's minutes checked and gets the main menu. *)

From S2P Require Import Prelude Doors Wire Xmodem GoStrings Base64 GoTime Vault Sql Users Credentials Boards Mail Files AuditLog.
From S2P Require Import SessionLog Bans DoorStore Registry Input Screen Terminal Login World Widgets MailScreens BoardScreens.
From S2P Require Import FileScreens ProfileScreens Apply DoorScreens SysOpScreens Menu Confine Member Gates.

Definition sysopLevel : Z := 100.
(** ** One connection *)

(** [defer f()]: [f] runs when [m] has returned, however it did. *)
Definition deferring {A} (m : flow A) (f : flow ()) : flow A := λ w, let '(r, w1) := m w in (r, (f w1).2).

Definition with_node (n : Z) (c : config) : config :=
  Config (cf_sysopPass c) (cf_installer c) (cf_audited c) (cf_auditFile c) (cf_auditText c) (cf_doorOpts c) n
    (cf_doorsData c) (cf_roster c) (cf_art c).

Section Server.
Context `{Crypto, SshKeys, Env, DoorHost, EventJson}.
#[local] Open Scope go_scope.

(** By ticks: how many unread bytes the session's reader already holds. *)
Variable buffered : nat -> nat.

Definition connection_event (ty : bytes) (mins t : Z) : flow () :=
  n ← random;
  change (log_event (MkEvent t ty (cl_id conn) (cl_ip conn) (cl_transport conn) (cl_username conn) [] [] mins) n).

(** [session.New]: the start of the session. *)
Definition Session_New : flow Z := start ← time_now; connection_event TypeConnect 0 start ;; mret start.

(** [Session.Close]: reads return what is buffered and then fail. *)
Definition Session_Close (start : Z) : flow () :=
  end_ ← time_now;
  connection_event TypeDisconnect (end_ - start) end_ ;;
  change (λ w, with_io (set_in (take (buffered (ticks w)) (s_in (io w))) (io w)) w).

(** Telnet is apply-only. *)
Definition telnetHandle : flow () := start ← Session_New; deferring RunApply (Session_Close start).

(** [menu.RunLogin] on this world; the session log mirrors its events. *)
Definition mirror_event (e : Event) : flow () :=
  n ← random; change (λ w, with_db (put_log (SessionLog_Emit vault n e (db_log (db w))) (db w)) w).

Definition login_world (w : state) : Login.world :=
  Login.World (io w) (db_users (db w)) (db_tokens (db w)) (db_anomalies (db w)) (trail w) (ticks w).

Definition after_login (y : Login.world) (w : state) : state :=
  State (w_session y) (put_anomalies (w_anomalies y) (put_tokens (w_tokens y) (put_users (w_users y) (db w))))
    (me w) (cb w) (names w) (w_log y) (w_tick y) (sup w).

Definition login : flow (option User) := λ w,
  let '(o, y) := RunLogin vault conn clock (rnd (ticks w)) (login_world w) in
  let '(_, w') := for_each mirror_event (drop (length (trail w)) (w_log y)) (after_login y w) in
  (match o with Granted u => Ok (Some u) | Refused => Ok None | Panicked => Err Crash end, w').

(** The minutes a member has left, in nanoseconds. *)
Definition remaining (defaultMinutes t : Z) (u : User) (b : bbs) : Z :=
  let budget := if Users.DailyMinutes u <=? 0 then DoorStore.DailyMinutes defaultMinutes (db_settings b) else Users.DailyMinutes u in
  budget * Minute - MinutesToday (Handle u) t (db_log b).

(** [enforceBudget]; the timer it starts may end the caller's input at any byte. *)
Definition enforceBudget (defaultMinutes start : Z) : flow () :=
  u ← ask me;
  if sysopLevel <=? AccessLevel u then mret ()
  else
    t ← time_now;
    left_ ← query (remaining defaultMinutes t u);
    if left_ <=? 0 then
      draw (ColorLine Red (str "Your daily time is used up. Come back tomorrow! NO CARRIER")) ;; Session_Close start
    else draw (Print (str "You have ~" ++ Itoa (left_ / Minute) ++ str " minutes left today." ++ CRLF)).

(** The handler past the login; [node]: what the pool answered. *)
Definition member_session (defaultMinutes start : Z) (c : config) (node : Z) : flow () :=
  if node =? 0 then draw (ColorLine Red (str "All nodes are busy right now — try again shortly. NO CARRIER"))
  else
    enforceBudget defaultMinutes start ;;
    motd ← query (λ b, MOTD (db_settings b));
    (if beq motd [] then mret () else ShowMOTD motd) ;;
    RunMember (with_node node c).

Definition sshHandle (defaultMinutes : Z) (c : config) (acquired : nat -> Z) : flow () :=
  start ← Session_New;
  deferring
    (r ← login;
     match r with
     | None => mret ()
     | Some u =>
         change (with_me u) ;; change (with_cb (Colorblind u)) ;;
         node ← host acquired;
         member_session defaultMinutes start c node
     end)
    (Session_Close start).
End Server.

(** A closing event of the caller. *)
Definition closing `{Env} (start : Z) (e : Event) : Prop :=
  Type_ e = TypeDisconnect /\ SessionID e = cl_id conn /\ Minutes e = Time e - start.

(** ** Lemmas *)

Section Effects.
Context `{Crypto, SshKeys, Env, DoorHost, EventJson}.
Variable buffered : nat -> nat.

Lemma io_event ty m t w : still w (connection_event ty m t w).2.
Proof. unfold connection_event. apply io_bind; [apply io_random|]. by intros n w1. Qed.

Lemma New_still w : still w (Session_New w).2.
Proof.
  unfold Session_New. apply io_bind; [apply io_time|]. intros t. apply io_bind; [apply io_event|]. intros []. apply io_ret.
Qed.

Lemma Close_still start w : still w (Session_Close buffered start w).2.
Proof.
  unfold Session_Close. apply io_bind; [apply io_time|]. intros t. apply io_bind; [apply io_event|]. intros [] w1.
  by apply still_same.
Qed.

Lemma mirror_still e w : still w (mirror_event e w).2.
Proof. unfold mirror_event. apply io_bind; [apply io_random|]. by intros n w1. Qed.

Lemma budget_still d start w : still w (enforceBudget buffered d start w).2.
Proof.
  unfold enforceBudget. pose proof Close_still. apply io_bind; [intros ?; still|]. intros u.
  destruct (sysopLevel <=? AccessLevel u); [apply io_ret|]. apply io_bind; [apply io_time|]. intros t.
  apply io_bind; [apply io_query|]. intros l w1. destruct (l <=? 0); [|apply io_draw]. by apply io_bind; [apply io_draw|].
Qed.

Lemma ShowMOTD_still m w : still w (ShowMOTD m w).2.
Proof. unfold ShowMOTD. still. Qed.

Lemma New_io w : exists t, (Session_New w).1 = Ok t /\ io (Session_New w).2 = io w.
Proof. by eexists. Qed.

Lemma deferring_still {A} (m : flow A) f w : (forall w, still w (f w).2) -> still (m w).2 (deferring m f w).2.
Proof. intros Hf. unfold deferring. destruct (m w) as [r w1]. apply Hf. Qed.

Lemma Close_run start w : exists e,
  (Session_Close buffered start w).1 = Ok () /\ closing start e /\
  trail (Session_Close buffered start w).2 = trail w ++ [e] /\
  exists n, io (Session_Close buffered start w).2 = set_in (take (buffered n) (s_in (io w))) (io w).
Proof. eexists. split_and!; [done| |done|by eexists]. by split_and!. Qed.

(** A program that finds no input. *)
Definition starved {A} (m : flow A) : Prop := forall w, s_in (io w) = [] ->
  (m w).1 = Err Hangup /\ still w (m w).2 /\ trail (m w).2 = trail w.
Definition silent_ {A} (m : flow A) : Prop := forall w, s_in (io w) = [] ->
  (exists a, (m w).1 = Ok a) /\ still w (m w).2 /\ trail (m w).2 = trail w /\ s_in (io (m w).2) = [].

Lemma starved_bind {A B} (m : flow A) (k : A -> flow B) : silent_ m -> (forall a, starved (k a)) -> starved (m ≫= k).
Proof.
  intros Hm Hk w Hw. rewrite bind_run. destruct (Hm w Hw) as ([a Ea] & Hs & Ht & Hi). destruct (m w) as [r w1]. cbn in *. subst r.
  destruct (Hk a w1 Hi) as (E & Hs' & Ht'). split_and!; [done|by eapply still_trans|congruence].
Qed.

Lemma starved_stop {A B} (m : flow A) (k : A -> flow B) : starved m -> starved (m ≫= k).
Proof.
  intros Hm w Hw. rewrite bind_run. destruct (Hm w Hw) as (E & Hs & Ht). destruct (m w) as [r w1]. cbn in *. by subst r.
Qed.

Lemma starved_reading {A} (f : session -> option A * session) :
  (forall s, s_in s = [] -> f s = (None, s)) -> starved (reading f).
Proof. intros Hf w Hw. unfold reading. rewrite Hf by done. split_and!; [done|by apply still_same|done]. Qed.
Lemma starved_readLine : starved readLine.
Proof. apply starved_reading. intros [i o n] Hi. cbn in Hi. by subst i. Qed.
Lemma starved_readKey : starved readKey.
Proof. apply starved_reading. intros [i o n] Hi. cbn in Hi. by subst i. Qed.

Lemma silent_draw f : silent_ (draw f).
Proof. intros w Hw. split_and!; [by eexists|by apply still_same|done|done]. Qed.
Lemma silent_ask {A} (f : state -> A) : silent_ (ask f).
Proof. intros w Hw. split_and!; [by eexists|by apply still_same|done|done]. Qed.

Lemma starved_forever {S A} (body : S -> flow (S + A)) s : starved (body s) -> starved (forever body s).
Proof. intros Hb w Hw. unfold forever. cbn [iter]. by apply (starved_stop (body s)). Qed.

Lemma starved_ShowMOTD m : starved (ShowMOTD m).
Proof.
  unfold ShowMOTD. apply starved_bind; [apply silent_draw|]. intros _. apply starved_stop, starved_readKey.
Qed.

Lemma starved_RunMember c : starved (RunMember c).
Proof.
  unfold RunMember, Run. apply starved_forever. apply starved_bind.
  { intros w Hw. split_and!; [by eexists|by apply still_same|done|done]. }
  intros m. apply starved_bind; [apply silent_draw|]. intros _. apply starved_stop, starved_readLine.
Qed.

(** The menu past the login keeps to the member. *)
Lemma member_session_allowed d start c node w :
  tables_ok (db w) -> AccessLevel (me w) < CoSysOpLevel ->
  allowed (ID (me w)) (db w) (db (member_session buffered d start c node w).2).
Proof.
  intros Hok Hl. set (I := mine (ID (me w)) (AccessLevel (me w)) (db w)).
  assert (Stable I) as HS.
  { intros w1 w2 [Hd Hm] [Ha Hi]. split; [|by rewrite Hm]. rewrite Hd. by apply allowed_log. }
  assert (K : keeps I (member_session buffered d start c node) (λ _, True)).
  { unfold member_session. destruct (node =? 0); [apply (keeps_io I), io_draw|].
    eapply keeps_bind; [apply (keeps_io I), budget_still|]. intros ? _.
    eapply keeps_bind; [apply (keeps_io I), io_query|]. intros motd _.
    eapply keeps_bind; [apply (keeps_io I); destruct (beq motd []); [apply io_ret|apply ShowMOTD_still]|]. intros ? _.
    by apply keeps_RunMember. }
  apply K. split; [by apply allowed_refl|done].
Qed.
End Effects.

Section Sessions.
Context `{CryptoLaws, SshKeys, Env, DoorHost, EventJson}.
Variable buffered : nat -> nat.

(** What a login changes: accounts, tokens, anomalies and the log. *)
Lemma login_db w : let y := (RunLogin vault conn clock (rnd (ticks w)) (login_world w)).2 in
  db (login w).2 = put_log (db_log (db (login w).2))
                     (put_anomalies (w_anomalies y) (put_tokens (w_tokens y) (put_users (w_users y) (db w)))) /\
  me (login w).2 = me w.
Proof.
  unfold login. destruct (RunLogin _ _ _ _ _) as [o y]. cbn [fst snd].
  pose proof (io_for_each mirror_event (drop (length (trail w)) (w_log y)) mirror_still (after_login y w)) as [Hd Hm].
  destruct (for_each _ _ _) as [r w']. cbn [fst snd] in *. by rewrite Hm.
Qed.

Lemma login_granted w u : (login w).1 = Ok (Some u) ->
  exists y, RunLogin vault conn clock (rnd (ticks w)) (login_world w) = (Granted u, y).
Proof.
  unfold login. destruct (RunLogin _ _ _ _ _) as [o y]. destruct (for_each _ _ _) as [r w']. cbn [fst].
  destruct o as [u'| |]; [|done..]. intros [= ->]. by exists y.
Qed.

Lemma login_refused w : (forall u, (login w).1 <> Ok (Some u)) ->
  exists l t, db (login w).2 = put_log l (put_tokens t (db w)).
Proof.
  intros Hn. destruct (login_db w) as [E _]. rewrite E. set (l := db_log _). clearbody l.
  pose proof (RunLogin_refused vault conn clock (rnd (ticks w)) (login_world w)) as R.
  destruct R as [Hu Ha].
  { intros x Hx. revert Hn. unfold login. destruct (RunLogin _ _ _ _ _) as [o y]. cbn [fst] in Hx. subst o.
    destruct (for_each _ _ _) as [r w']. intros Hn. by apply (Hn x). }
  exists l, (w_tokens (RunLogin vault conn clock (rnd (ticks w)) (login_world w)).2).
  rewrite Hu, Ha. cbn. by destruct (db w).
Qed.

(** C5: An SSH connection, whatever is typed in it: either nobody gets in, and nothing
    but tokens and the log changes; or an approved account of the user name does,
    after a second factor, the login touches no other account, and from there on,
    below the SysOp level, everything stays within what that member may do. *)
Theorem ssh_session (defaultMinutes : Z) (c : config) (acquired : nat -> Z) (w : state) (Hok : tables_ok (db w)) :
  let w0 := (Session_New w).2 in
  let w' := (sshHandle buffered defaultMinutes c acquired w).2 in
  (exists l t, db w' = put_log l (put_tokens t (db w))) \/
  (exists u y b1,
     Users_ByHandle vault (cl_username conn) (db_users (db w)) = Ok u /\ Status u = StatusApproved /\
     second_factor vault conn clock (rnd (ticks w0)) u (login_world w0) y /\
     only_account (ID u) (db_users (db w)) (db_users b1) /\
     b1 = put_log (db_log b1) (put_anomalies (db_anomalies b1) (put_tokens (w_tokens y) (put_users (w_users y) (db w)))) /\
     (AccessLevel u < CoSysOpLevel -> allowed (ID u) b1 (db w'))).
Proof.
  cbv zeta. unfold sshHandle. rewrite bind_run. destruct (New_io w) as (start & E & Hio). pose proof (New_still w) as [Hd0 _].
  destruct (Session_New w) as [r w0]. cbn [fst snd] in *. subst r.
  match goal with |- context [deferring ?m ?f w0] => pose proof (deferring_still m f w0 (Close_still buffered start)) as [Hdc _];
    set (body := m) in *; set (w' := (deferring _ _ w0).2) in * end.
  destruct (login_db w0) as [El Em]. pose proof (login_granted w0) as G. pose proof (login_refused w0) as R.
  assert (Hb : body w0 = match login w0 with
    | (Ok (Some u), w1) => (change (with_me u) ;; change (with_cb (Colorblind u)) ;; node ← host acquired;
                            member_session buffered defaultMinutes start c node) w1
    | (Ok None, w1) => (Ok (), w1) | (Err e, w1) => (Err e, w1) end).
  { unfold body. rewrite bind_run. by destruct (login w0) as [[[]|] w1]. }
  destruct (login w0) as [[[u|]|e] w1]; cbn [fst snd] in *.
  - right. destruct (G u eq_refl) as [y Ey]. rewrite Ey in El. cbn [snd] in El.
    destruct (RunLogin_granted _ _ _ _ _ _ _ Ey) as (u0 & Hu & Hs & Hi & Hl & Hf & Hon). exists u0, y, (db w1).
    assert (Hus : db_users (db w0) = db_users (db w)) by by rewrite Hd0.
    cbn [login_world w_users] in Hu, Hon. rewrite Hus in Hu, Hon.
    assert (E1 : db w1 = put_log (db_log (db w1)) (put_anomalies (db_anomalies (db w1))
      (put_tokens (w_tokens y) (put_users (w_users y) (db w))))).
    { rewrite El. cbn. by rewrite Hd0. }
    assert (Eu : db_users (db w1) = w_users y) by by rewrite E1.
    split_and!; [done|done|done|by rewrite Eu|done|]. intros Hlt.
    rewrite Hdc. apply allowed_log. rewrite Hb. rewrite bind_run. cbn [change]. rewrite bind_run. cbn [change].
    rewrite bind_run. cbn [host].
    match goal with |- allowed _ _ (db (member_session _ _ _ _ _ ?w2).2) =>
      pose proof (member_session_allowed buffered defaultMinutes start c (acquired (ticks w1)) w2) as A end.
    cbn [db me with_me with_cb tick_on ticks] in A. rewrite <-Hi, <-Hl in *. apply A; [|done].
    destruct Hok as [O1 O2 O3 O4 O5 O6 O7]. rewrite E1. split; try done. cbn. apply (Hon wf); [|done]. intros f t. apply wf_update.
  - left. destruct (R ltac:(done)) as (l & t & Er). eexists _, t. rewrite Hdc, Hb. cbn [snd]. rewrite Er, Hd0. done.
  - left. destruct (R ltac:(done)) as (l & t & Er). eexists _, t. rewrite Hdc, Hb. cbn [snd]. rewrite Er, Hd0. done.
Qed.
End Sessions.

(** ** The day's budget *)

Section Budget.
Context `{Crypto, SshKeys, Env, DoorHost, EventJson}.
Variable buffered : nat -> nat.

Lemma enforce_used_up d start w :
  AccessLevel (me w) < sysopLevel -> remaining d (clock (ticks w)) (me w) (db w) <= 0 ->
  exists e n w1, enforceBudget buffered d start w = (Ok (), w1) /\ closing start e /\ trail w1 = trail w ++ [e] /\
    still w w1 /\ s_in (io w1) = take (buffered n) (s_in (io w)).
Proof.
  intros Hl Hr. assert (E : enforceBudget buffered d start w =
    (draw (ColorLine Red (str "Your daily time is used up. Come back tomorrow! NO CARRIER")) ;; Session_Close buffered start) (tick_on w)).
  { unfold enforceBudget. rewrite bind_run. cbn [ask]. apply Z.leb_gt in Hl as ->. rewrite bind_run. cbn [time_now].
    rewrite bind_run. cbn [query ask db tick_on]. by apply Z.leb_le in Hr as ->. }
  rewrite bind_run in E. cbn [draw change] in E.
  match type of E with _ = Session_Close buffered start ?w2 => destruct (Close_run buffered start w2) as (e & E1 & Hc & Ht & n & Hn);
    pose proof (Close_still buffered start w2) as Hs; destruct (Session_Close buffered start w2) as [r w1] end.
  cbn [fst snd] in *. subst r. exists e, n, w1. split_and!; [done|done|exact Ht| |by rewrite Hn].
  eapply still_trans; [|exact Hs]. by apply still_same.
Qed.

(** C32: A member whose minutes of the day are used up is disconnected: without bytes
    typed ahead no screen follows, nothing is stored but two closing events, one
    of the budget check and one of the handler's own deferred close.  Bytes
    that were already buffered are obeyed: the main menu runs on them. *)
Theorem budget_used_up (defaultMinutes start node : Z) (c : config) (w : state)
    (Hl : AccessLevel (me w) < sysopLevel) (Hn : node <> 0)
    (Hr : remaining defaultMinutes (clock (ticks w)) (me w) (db w) <= 0) :
  let m := member_session buffered defaultMinutes start c node in
  ((forall n, buffered n = 0%nat) ->
     (m w).1 = Err Hangup /\ still w (m w).2 /\
     exists e1 e2, closing start e1 /\ closing start e2 /\
       trail (deferring m (Session_Close buffered start) w).2 = trail w ++ [e1; e2]) /\
  (MOTD (db_settings (db w)) = [] -> (forall n, length (s_in (io w)) <= buffered n)%nat ->
     exists w1, still w w1 /\ s_in (io w1) = s_in (io w) /\ m w = RunMember (with_node node c) w1).
Proof.
  cbv zeta. destruct (enforce_used_up defaultMinutes start w Hl Hr) as (e & n & w1 & E & He & Ht & Hs & Hi).
  apply Z.eqb_neq in Hn.
  assert (G : member_session buffered defaultMinutes start c node w =
    ((motd ← query (λ b, MOTD (db_settings b)); (if beq motd [] then mret () else ShowMOTD motd) ;; RunMember (with_node node c)) : flow ()) w1).
  { unfold member_session. rewrite Hn, bind_run, E. done. }
  split.
  - intros Hb. rewrite Hb in Hi.
    assert (Hm : starved ((motd ← query (λ b, MOTD (db_settings b)); (if beq motd [] then mret () else ShowMOTD motd) ;;
                           RunMember (with_node node c)) : flow ())).
    { apply starved_bind; [apply silent_ask|]. intros motd. destruct (beq motd []).
      - exact (starved_RunMember (with_node node c)).
      - apply starved_stop, starved_ShowMOTD. }
    destruct (Hm w1 Hi) as (Hh & Hs' & Ht'). unfold deferring. rewrite <-G in Hh, Hs', Ht'.
    destruct (member_session _ _ _ _ _ _) as [r w2]. cbn [fst snd] in *. subst r.
    split_and!; [done|by eapply still_trans|]. destruct (Close_run buffered start w2) as (e2 & _ & He2 & Ht2 & _).
    exists e, e2. split_and!; [done|done|]. by rewrite Ht2, Ht', Ht, <-app_assoc.
  - intros Hmo Hb. exists w1. split_and!; [done| |].
    + rewrite Hi. by apply take_ge.
    + rewrite G, bind_run. cbn [query ask]. destruct Hs as [-> _]. cbn [put_log db_settings]. by rewrite Hmo.
Qed.
End Budget.

(** *** Who is charged *)

Section Charged.
Context `{Crypto, SshKeys, Env, DoorHost, EventJson}.
Variable buffered : nat -> nat.

Lemma ByHandle_same h t u : Users_ByHandle vault h t = Ok u -> nocase_eqb (Handle u) h = true.
Proof.
  unfold Users_ByHandle, first_user. destruct (select (same_handle h) t) as [|[i r] l] eqn:E; [done|]. cbn [fst snd].
  assert (Hs : same_handle h i r = true).
  { assert ((i, r) ∈ select (same_handle h) t) as Hin by (rewrite E; left). by apply elem_of_select in Hin as [_ ?]. }
  unfold Users_scan. destruct (scan_int _); [|done]. destruct (open vault (c_real_name r)), (open vault (c_email r)); try done. by intros [= <-].
Qed.

(** Members are found by their handle in any case, but their minutes are those of
    the exact user name they connected with: the end of a session under another
    spelling of the handle leaves the minutes that the budget check counts as they
    were, however long it was. *)
Theorem budget_by_spelling (u : User) (start t : Z) (w : state)
    (Hu : Users_ByHandle vault (cl_username conn) (db_users (db w)) = Ok u) (Hne : cl_username conn <> Handle u) :
  nocase_eqb (Handle u) (cl_username conn) = true /\
  MinutesToday (Handle u) t (db_log (db (Session_Close buffered start w).2)) = MinutesToday (Handle u) t (db_log (db w)).
Proof.
  split; [by eapply ByHandle_same|].
  set (e := MkEvent (clock (ticks w)) TypeDisconnect (cl_id conn) (cl_ip conn) (cl_transport conn) (cl_username conn) [] []
              (clock (ticks w) - start)).
  change (db_log (db (Session_Close buffered start w).2)) with (SessionLog_Emit vault (rnd (S (ticks w))) e (db_log (db w))).
  unfold SessionLog_Emit. destruct (insert _ _) as [[i l]|] eqn:E; [|done]. unfold MinutesToday.
  rewrite (select_insert _ _ _ _ _ E), foldr_app. unfold of_day at 1. cbn.
  apply beq_false in Hne as ->. done.
Qed.
End Charged.

(** ** Termination *)

Section Termination.
Context `{Crypto, SshKeys, Env, DoorHost, EventJson}.
Variable buffered : nat -> nat.

Lemma tame_event ty m t : tame (connection_event ty m t).
Proof. unfold connection_event. apply tame_bind; [apply tame_random|]. intros n. by apply tame_change. Qed.

Lemma tame_New : tame Session_New.
Proof.
  unfold Session_New. apply tame_bind; [apply tame_time|]. intros t. apply tame_bind; [apply tame_event|]. intros _. apply tame_ret.
Qed.

Lemma tame_Close start : tame (Session_Close buffered start).
Proof.
  unfold Session_Close. apply tame_bind; [apply tame_time|]. intros t. apply tame_bind; [apply tame_event|]. intros _ w.
  unfold unread. cbn. rewrite length_take. split; [lia|done].
Qed.

Lemma tame_deferring {A} (m : flow A) f : tame m -> tame f -> tame (deferring m f).
Proof.
  intros Hm Hf w. unfold deferring. destruct (Hm w) as [Hl Ho]. destruct (m w) as [r w1]. destruct (Hf w1) as [Hl1 _].
  cbn in *. split; [lia|done].
Qed.

Lemma tame_mirror e : tame (mirror_event e).
Proof. unfold mirror_event. apply tame_bind; [apply tame_random|]. intros n. by apply tame_change. Qed.

Lemma tame_login : tame login.
Proof.
  intros w. unfold login, unread. pose proof (RunLogin_le vault conn clock (rnd (ticks w)) (login_world w)) as Hl.
  destruct (RunLogin _ _ _ _ _) as [o y]. cbn [snd] in Hl.
  destruct (tame_for_each mirror_event (drop (length (trail w)) (w_log y)) tame_mirror (after_login y w)) as [Hm _].
  destruct (for_each _ _ _) as [r w']. cbn [fst snd] in *. unfold World.unread, to_read in *. cbn in *.
  split; [lia|]. by destruct o.
Qed.

Lemma tame_member_session d start c node : tame (member_session buffered d start c node).
Proof.
  unfold member_session. destruct (node =? 0); [apply tame_draw|]. apply tame_bind.
  - unfold enforceBudget. apply tame_bind; [apply tame_ask|]. intros u. destruct (sysopLevel <=? _); [apply tame_ret|].
    apply tame_bind; [apply tame_time|]. intros t. apply tame_bind; [apply tame_ask|]. intros l.
    destruct (l <=? 0); [|apply tame_draw]. apply tame_bind; [apply tame_draw|]. intros _. apply tame_Close.
  - intros _. apply tame_bind; [apply tame_ask|]. intros motd. apply tame_bind; [|intros _; apply tame_RunMember].
    destruct (beq motd []); [apply tame_ret|]. unfold ShowMOTD. tame.
Qed.

(** C21: Both handlers return on every input: no loop of the login, of a screen or of
    the application runs out of its fuel, and input is never put back. *)
Theorem handlers_return (defaultMinutes : Z) (c : config) (acquired : nat -> Z) (w : state) :
  ((sshHandle buffered defaultMinutes c acquired w).1 <> Err OutOfFuel /\
   (unread (sshHandle buffered defaultMinutes c acquired w).2 <= unread w)%nat) /\
  ((telnetHandle buffered w).1 <> Err OutOfFuel /\ (unread (telnetHandle buffered w).2 <= unread w)%nat).
Proof.
  assert (T : tame (sshHandle buffered defaultMinutes c acquired)).
  { unfold sshHandle. apply tame_bind; [apply tame_New|]. intros start. apply tame_deferring; [|apply tame_Close].
    apply tame_bind; [apply tame_login|]. intros [u|]; [|apply tame_ret].
    apply tame_bind; [by apply tame_change|]. intros _. apply tame_bind; [by apply tame_change|]. intros _.
    apply tame_bind; [by apply tame_same|]. intros node. apply tame_member_session. }
  assert (T2 : tame (telnetHandle buffered)).
  { unfold telnetHandle. apply tame_bind; [apply tame_New|]. intros start. apply tame_deferring; [apply tame_RunApply|apply tame_Close]. }
  destruct (T w), (T2 w). by repeat split.
Qed.
End Termination.

(** ** Witnesses *)

(** The second member's hour of the day is on the log, a minute is allowed. *)
Definition trinity_for (mins : Z) : User := MkUser 2 (str "Trinity") [] [] [] 10 StatusApproved mins 0 false 0 None.
Definition an_hour : table logRow :=
  Table [(1, LogRow (str "s-1") (str "Trinity") (str "ssh") [] TypeDisconnect [] [] (60 * Minute) (fmtTime (7 * Second)))] 1.
Definition late (i : bytes) : state :=
  let w := at_keys (trinity_for 1) i in with_db (put_log an_hour (db w)) w.

Lemma ssh_session_witness :
  let w' := (sshHandle (H := toy) (H0 := toy_ssh) (H1 := toy_env) (H2 := toy_host) (H3 := toy_json) (λ _, 0%nat) 60 a_config (λ _, 1)
     (at_keys trinity (typing [str "guess"; str "m"]))).2 in
  db_areas (db w') = db_areas a_bbs \/
  exists u, Users_ByHandle (H := toy) toy_vault (str "neo") two_users = Ok u /\ Status u = StatusApproved.
Proof.
  destruct (ssh_session (H := toy) (H1 := toy_ssh) (H2 := toy_env) (H3 := toy_host) (H4 := toy_json)
    (λ _, 0%nat) 60 a_config (λ _, 1) (at_keys trinity (typing [str "guess"; str "m"])) a_bbs_ok)
    as [(l & t & E)|(u & y & b1 & Hu & Hs & _)]; [left; exact (f_equal db_areas E)|right; exact (ex_intro _ u (conj Hu Hs))].
Defined.

Lemma budget_used_up_witness :
  (member_session (H := toy) (H0 := toy_ssh) (H1 := toy_env) (H2 := toy_host) (H3 := toy_json) (λ _, 0%nat) 60 0 a_config 1
     (late (typing [str "g"]))).1 = Err Hangup.
Proof.
  destruct (budget_used_up (H := toy) (H0 := toy_ssh) (H1 := toy_env) (H2 := toy_host) (H3 := toy_json) (λ _, 0%nat) 60 0 1
    a_config (late (typing [str "g"]))) as [Hs _]; [vm_compute; reflexivity|discriminate|vm_compute; discriminate|].
  by apply Hs.
Defined.

(** "neo" ends a long session of the account "Neo". *)
Lemma budget_by_spelling_witness :
  MinutesToday (str "Neo") 0 (db_log (db (Session_Close (H := toy) (H1 := toy_env) (λ _, 0%nat) (- (90 * Minute)) (late [])).2)) = 0.
Proof.
  assert (A : account two_users (λ u, beq (Handle u) (str "Neo")) = true) by (vm_compute; reflexivity).
  apply account_ok in A as (u & Hu & Hh%beq_true).
  destruct (budget_by_spelling (H := toy) (H1 := toy_env) (λ _, 0%nat) u (- (90 * Minute)) 0 (late [])) as [_ E];
    [exact Hu|rewrite Hh; vm_compute; discriminate|]. rewrite Hh in E. rewrite E. vm_compute. reflexivity.
Defined.
