(* ===== verification/Shutdown.v ===== *)
(** * The audit trail under concurrent sessions and shutdown (Emit and Close of src/audit/log.go, the signal handler of src/cmd/admiralbbs/main.go)

    Sessions emit events at the same time, each through the logger's lock and then
    into the session log; the signal handler closes the trail, the database and
    the vault, in this order, under the running sessions, and exits.  The steps
    are those between which others can run: Seal, MAC and the write each see the
    vault and the file as they are then. *)

From S2P Require Import Prelude GoStrings Base64 Vault Sql AuditLog SessionLog.

(** ** State *)

(** A session inside [Emit]: before the lock, and at the steps under it; then at
    the sink. *)
Inductive emitter :=
  | Wants (n : bytes) (e : Event)
  | Locked (n : bytes) (e : Event) (plain : bytes)
  | HasText (n : bytes) (e : Event) (ct : bytes)
  | HasMac (n : bytes) (e : Event) (ct mac : bytes)
  | AtSink (e : Event).

(** The signal handler. *)
Inductive phase := Serving | Signalled | LogClosed | DbClosed | VaultClosed | Exited.

#[export] Instance phase_eq_dec : EqDecision phase.
Proof. solve_decision. Defined.

(** [written], [dropped] and [failed]: the events that reached the trail, those
    whose write found it closed and those whose write failed on the open file;
    [torn]: how many were written when such a write first left a part of its line. *)
Record daemon := Daemon {
  logger : Logger;
  log_open : bool;
  lock : option Z;
  vault_ : Vault;
  db_open : bool;
  mirror_ : table logRow;
  inside : gmap Z emitter;
  phase_ : phase;
  written : list Event;
  dropped : list Event;
  failed : list Event;
  torn : option nat
}.

Definition launch (l : Logger) (v : Vault) (m : table logRow) : daemon := Daemon l true None v true m ∅ Serving [] [] [] None.

Definition at_ (i : Z) (p : emitter) (d : daemon) : daemon :=
  Daemon (logger d) (log_open d) (lock d) (vault_ d) (db_open d) (mirror_ d) (<[i := p]> (inside d)) (phase_ d) (written d) (dropped d) (failed d) (torn d).
Definition locked_by (o : option Z) (d : daemon) : daemon :=
  Daemon (logger d) (log_open d) o (vault_ d) (db_open d) (mirror_ d) (inside d) (phase_ d) (written d) (dropped d) (failed d) (torn d).

Definition left (i : Z) (d : daemon) : daemon :=
  Daemon (logger d) (log_open d) (lock d) (vault_ d) (db_open d) (mirror_ d) (base.delete i (inside d)) (phase_ d) (written d) (dropped d) (failed d) (torn d).

(** ** Steps *)

Section Steps.
Context `{Crypto, EventJson}.

(** [io.WriteString], and [prevMAC = mac] if it succeeds; [w]: it fails after so
    many bytes.  On a closed file it fails with nothing. *)
Definition write (w : option nat) (e : Event) (ct mac : bytes) (d : daemon) : daemon :=
  let text := line ct mac ++ [10] in
  if log_open d then
    match w with
    | None =>
        Daemon (MkLogger (file (logger d) ++ text) mac) true (lock d) (vault_ d) (db_open d) (mirror_ d) (inside d)
          (phase_ d) (written d ++ [e]) (dropped d) (failed d) (torn d)
    | Some k =>
        Daemon (MkLogger (file (logger d) ++ take k text) (prevMAC (logger d))) true (lock d) (vault_ d) (db_open d) (mirror_ d) (inside d)
          (phase_ d) (written d) (dropped d) (failed d ++ [e])
          (if (k =? 0)%nat then torn d else Some (default (length (written d)) (torn d)))
    end
  else Daemon (logger d) false (lock d) (vault_ d) (db_open d) (mirror_ d) (inside d) (phase_ d) (written d) (dropped d ++ [e]) (failed d) (torn d).

(** The next step of session [i] in [Emit]: [json.Marshal] needs no lock. *)
Definition emit_step (i : Z) (w : option nat) (d : daemon) : option daemon :=
  match inside d !! i with
  | None => None
  | Some (Wants n e) =>
      match marshal e with
      | None => Some (left i d)
      | Some plain => if lock d is None then Some (locked_by (Some i) (at_ i (Locked n e plain) d)) else None
      end
  | Some (Locked n e plain) => Some (at_ i (HasText n e (Seal (vault_ d) n plain)) d)
  | Some (HasText n e ct) => Some (at_ i (HasMac n e ct (MAC (vault_ d) (prevMAC (logger d)) ct)) d)
  | Some (HasMac n e ct mac) => Some (locked_by None (at_ i (AtSink e) (write w e ct mac d)))
  | Some (AtSink e) => None
  end.

(** The session log takes the event, if the database is open. *)
Definition sink (i : Z) (n : bytes) (e : Event) (d : daemon) : daemon :=
  left i (Daemon (logger d) (log_open d) (lock d) (vault_ d) (db_open d)
    (if db_open d then SessionLog_Emit (vault_ d) n e (mirror_ d) else mirror_ d) (inside d) (phase_ d) (written d) (dropped d) (failed d) (torn d)).

(** The handler's next call; [logger.Close] waits for the lock. *)
Definition close_step (d : daemon) : option daemon :=
  match phase_ d with
  | Serving => Some (Daemon (logger d) (log_open d) (lock d) (vault_ d) (db_open d) (mirror_ d) (inside d) Signalled (written d) (dropped d) (failed d) (torn d))
  | Signalled =>
      if lock d is None then
        Some (Daemon (logger d) false None (vault_ d) (db_open d) (mirror_ d) (inside d) LogClosed (written d) (dropped d) (failed d) (torn d))
      else None
  | LogClosed => Some (Daemon (logger d) (log_open d) (lock d) (vault_ d) false (mirror_ d) (inside d) DbClosed (written d) (dropped d) (failed d) (torn d))
  | DbClosed =>
      Some (Daemon (logger d) (log_open d) (lock d) (Close (vault_ d)) (db_open d) (mirror_ d) (inside d) VaultClosed (written d) (dropped d) (failed d) (torn d))
  | VaultClosed => Some (Daemon (logger d) (log_open d) (lock d) (vault_ d) (db_open d) (mirror_ d) (inside d) Exited (written d) (dropped d) (failed d) (torn d))
  | Exited => None
  end.

(** Nothing runs after [os.Exit].  [ok]: what is emitted. *)
Inductive step (ok : bytes * Event -> Prop) : daemon -> daemon -> Prop :=
  | step_call i n e d : phase_ d <> Exited -> inside d !! i = None -> ok (n, e) -> step ok d (at_ i (Wants n e) d)
  | step_emit i w d d' : phase_ d <> Exited -> emit_step i w d = Some d' -> step ok d d'
  | step_sink i n e d : phase_ d <> Exited -> inside d !! i = Some (AtSink e) -> step ok d (sink i n e d)
  | step_close d d' : close_step d = Some d' -> step ok d d'.

(** A schedule: who takes the next step; [Fails]: with a write that fails. *)
Inductive turn := Calls (i : Z) (n : bytes) (e : Event) | Emits (i : Z) | Fails (i : Z) (k : nat) | Sinks (i : Z) (n : bytes) | Closes.

Definition take_turn (t : turn) (d : daemon) : option daemon :=
  match t with
  | Closes => close_step d
  | _ =>
      if decide (phase_ d = Exited) then None
      else match t, inside d !! match t with Calls i _ _ | Emits i | Fails i _ | Sinks i _ => i | Closes => 0 end with
           | Calls i n e, None => Some (at_ i (Wants n e) d)
           | Emits i, _ => emit_step i None d
           | Fails i k, _ => emit_step i (Some k) d
           | Sinks i n, Some (AtSink e) => Some (sink i n e d)
           | _, _ => None
           end
  end.

Fixpoint run (ts : list turn) (d : daemon) : option daemon :=
  match ts with
  | [] => Some d
  | t :: ts' => match take_turn t d with Some d' => run ts' d' | None => None end
  end.
End Steps.

(** ** Lemmas *)

Section Trail.
Context `{CryptoLaws, EventJsonLaws}.
Variable v : Vault.
Variable old : list Event.

Definition holder (p : emitter) : Prop := match p with Wants _ _ | AtSink _ => False | _ => True end.

(** What a session inside [Emit] has computed, as long as the trail is open. *)
Definition sound (l : Logger) (p : emitter) : Prop :=
  match p with
  | Wants n e => emit_ok v (n, e)
  | Locked n e plain => emit_ok v (n, e) /\ marshal e = Some plain
  | HasText n e ct => emit_ok v (n, e) /\ exists b, marshal e = Some b /\ ct = Seal v n b
  | HasMac n e ct mac => emit_ok v (n, e) /\ (exists b, marshal e = Some b /\ ct = Seal v n b) /\ mac = MAC v (prevMAC l) ct
  | AtSink _ => True
  end.

(** The file starts with a trail of the events of before and the first ones
    written, all of them as long as no write has left a torn line. *)
Definition trail_of (d : daemon) : Prop := exists cts es later rest,
  file (logger d) = trail_file v cts ++ rest /\ Forall2 (reads_as v) cts (old ++ es) /\ written d = es ++ later /\
  match torn d with
  | None => later = [] /\ rest = [] /\ prevMAC (logger d) = tip v (start v) cts
  | Some k => length es = k
  end.

Record inv (d : daemon) : Prop := {
  n_trail : trail_of d;
  n_open : log_open d = true <-> phase_ d = Serving \/ phase_ d = Signalled;
  n_vault : log_open d = true -> vault_ d = v;
  n_lock : forall i, lock d = Some i <-> exists p, inside d !! i = Some p /\ holder p;
  n_sound : forall i p, inside d !! i = Some p -> log_open d = true -> sound (logger d) p;
  n_dropped : log_open d = true -> dropped d = [];
  n_failed : failed d = [] -> torn d = None
}.

Lemma inv_launch f l m cts : holds v f cts old -> New f v = Ok l -> inv (launch l v m).
Proof.
  intros Hh Hn. unfold New in Hn. rewrite (holds_tip v f cts old Hh) in Hn. injection Hn as <-. destruct Hh as [Hf Hr].
  split; cbn; try done; [| |naive_solver]; [|by split; [left|]].
  exists cts, [], [], []. by rewrite !app_nil_r.
Qed.

(** Session [i] goes on to [p'], and the lock to [o]. *)
Lemma inv_at i p' d o : inv d ->
  (holder p' <-> o = Some i) ->
  (forall j, j <> i -> o = Some j <-> exists q, inside d !! j = Some q /\ holder q) ->
  (log_open d = true -> sound (logger d) p') -> inv (locked_by o (at_ i p' d)).
Proof.
  intros [N1 N2 N3 N4 N5 N6 N7] Hp Ho Hs. split; cbn; try done.
  - intros j. destruct (decide (j = i)) as [->|Hne].
    + rewrite lookup_insert_eq. naive_solver.
    + rewrite lookup_insert_ne by done. by apply Ho.
  - intros j q [[<- <-]|[_ Hj]]%lookup_insert_Some Hl; [by apply Hs|by apply (N5 j)].
Qed.

(** It leaves [Emit]. *)
Lemma inv_left i p d : inside d !! i = Some p -> ~ holder p -> inv d -> inv (left i d).
Proof.
  intros Hi Hp [N1 N2 N3 N4 N5 N6 N7]. split; cbn; try done.
  - intros j. rewrite N4. destruct (decide (j = i)) as [->|Hne].
    + rewrite lookup_delete_eq. naive_solver.
    + by rewrite lookup_delete_ne.
  - intros j q [_ Hj]%lookup_delete_Some. by apply (N5 j).
Qed.

Lemma held_by d i p j q : inv d -> inside d !! i = Some p -> holder p -> inside d !! j = Some q -> holder q -> j = i.
Proof.
  intros N Hi Hp Hj Hq. assert (lock d = Some i) by (apply (n_lock d N); eauto).
  assert (lock d = Some j) by (apply (n_lock d N); eauto). congruence.
Qed.

(** The write, as the last step under the lock. *)
Lemma trail_write w n e ct mac d : trail_of d -> log_open d = true -> sound (logger d) (HasMac n e ct mac) -> trail_of (write w e ct mac d).
Proof.
  intros (cts & es & later & rest & Hf & Hr & Hw & Ht) Ho (Hok & (b & Hm & Hct) & Hmac). unfold write. rewrite Ho.
  destruct w as [k|].
  - exists cts, es, later, (rest ++ take k (line ct mac ++ [10])). cbn. rewrite Hf, <-app_assoc. split_and!; [done..|].
    destruct (Nat.eqb_spec k 0) as [->|_]; [rewrite app_nil_r; by destruct (torn d)|].
    destruct (torn d) as [m|]; [done|]. cbn. destruct Ht as (-> & _ & _). by rewrite Hw, app_nil_r.
  - destruct (torn d) as [m|] eqn:Et.
    { exists cts, es, (later ++ [e]), (rest ++ line ct mac ++ [10]). cbn. rewrite Hf, Hw, <-!app_assoc. by split_and!. }
    destruct Ht as (-> & -> & Hp). rewrite app_nil_r in Hf, Hw.
    destruct (emit_holds v (n, e) (logger d) cts _ Hok Hf Hp Hr) as (ct' & Hf' & Hp' & Hr'). cbn [fst snd] in *.
    unfold Emit in Hf', Hp'. rewrite Hm in Hf', Hp'. cbn [file prevMAC] in Hf', Hp'. rewrite <-Hct, <-Hmac in Hf', Hp'.
    exists (cts ++ [ct']), (es ++ [e]), [], []. cbn. rewrite !app_nil_r, Hw. rewrite <-app_assoc in Hr'. by split_and!.
Qed.

Lemma inv_write w n e ct mac d : lock d = None -> inv d ->
  (log_open d = true -> sound (logger d) (HasMac n e ct mac)) -> inv (write w e ct mac d).
Proof.
  intros Hl N Hs. pose proof (trail_write w n e ct mac d (n_trail d N)) as Ht. destruct N as [N1 N2 N3 N4 N5 N6 N7]. unfold write in *.
  destruct (log_open d) eqn:Ho; [|by split; cbn; try done; rewrite Ho in N2]. specialize (Ht eq_refl (Hs eq_refl)).
  assert (Hq : forall j q l, inside d !! j = Some q -> sound l q).
  { intros j q l Hj. specialize (N5 j q Hj eq_refl). assert (~ holder q) by (intros Hq; assert (lock d = Some j) by (apply N4; eauto); congruence).
    by destruct q. }
  destruct w as [k|]; split; cbn; try done; try (intros j q Hj _; by eapply Hq).
  intros E. by apply app_nil in E as [_ ?].
Qed.

Lemma write_after w e ct mac i p d :
  locked_by None (at_ i p (write w e ct mac d)) = write w e ct mac (locked_by None (at_ i p d)).
Proof. unfold write. cbn. destruct (log_open d); [by destruct w|done]. Qed.

Lemma inv_emit i w d d' : emit_step i w d = Some d' -> inv d -> inv d'.
Proof.
  intros St N. pose proof N as [N1 N2 N3 N4 N5 N6 N7]. unfold emit_step in St. destruct (inside d !! i) as [p|] eqn:Hi; [|done].
  assert (Hsame : forall p', holder p -> holder p' -> (log_open d = true -> sound (logger d) p') -> inv (at_ i p' d)).
  { intros p' Hp Hp' Hs. change (at_ i p' d) with (locked_by (lock d) (at_ i p' d)).
    apply inv_at; [done| |intros j _; apply N4|done]. split; [|done]. intros _. apply N4. eauto. }
  destruct p as [n e|n e b|n e ct|n e ct mac|e]; [..|done].
  - destruct (marshal e) as [b|] eqn:Hm; [|injection St as <-; apply (inv_left i _ _ Hi); [by intros []|done]].
    destruct (lock d) eqn:Hl; [done|]. injection St as <-.
    apply inv_at; [done|done| |intros Ho; split; [exact (N5 i _ Hi Ho)|done]].
    intros j Hne. split; [congruence|]. intros Hq. apply N4 in Hq. congruence.
  - injection St as <-. apply Hsame; [done..|]. intros Ho. rewrite (N3 Ho). destruct (N5 i _ Hi Ho). split; eauto.
  - injection St as <-. apply Hsame; [done..|]. intros Ho. rewrite (N3 Ho). destruct (N5 i _ Hi Ho) as [? ?]. by split_and!.
  - injection St as <-. rewrite write_after. apply (inv_write w n); [done| |intros Ho; exact (N5 i _ Hi Ho)].
    apply inv_at; [done..| |done]. intros j Hne. split; [done|]. intros (q & Hj & Hq). exfalso.
    by apply Hne, (held_by d i (HasMac n e ct mac) j q).
Qed.

Lemma inv_sink i n e d : inside d !! i = Some (AtSink e) -> inv d -> inv (sink i n e d).
Proof. intros Hi N. apply (inv_left i (AtSink e)); [done|by intros []|]. destruct N. by split. Qed.

Lemma inv_close d d' : close_step d = Some d' -> inv d -> inv d'.
Proof.
  intros St [N1 N2 N3 N4 N5 N6 N7]. unfold close_step in St. destruct (phase_ d) eqn:Hp.
  - injection St as <-. split; cbn; try done. rewrite N2. naive_solver.
  - destruct (lock d) eqn:Hl; [done|]. injection St as <-. split; cbn; try done. naive_solver.
  - injection St as <-. split; cbn; try done. rewrite N2. naive_solver.
  - injection St as <-. assert (Ho : log_open d = false) by (destruct (log_open d); [naive_solver|done]).
    split; cbn; rewrite ?Ho; try done. naive_solver.
  - injection St as <-. split; cbn; try done. rewrite N2. naive_solver.
  - done.
Qed.

Lemma inv_call i n e d : inside d !! i = None -> emit_ok v (n, e) -> inv d -> inv (at_ i (Wants n e) d).
Proof.
  intros Hi He N. change (at_ i (Wants n e) d) with (locked_by (lock d) (at_ i (Wants n e) d)).
  apply inv_at; [done| |intros j _; apply N|done]. split; [done|]. intros (p & Hp & _)%(n_lock d N). congruence.
Qed.

Lemma shutdown_inv d d' : rtc (step (emit_ok v)) d d' -> inv d -> inv d'.
Proof.
  induction 1 as [|d d1 d' St _ IH]; [done|]. intros N. apply IH.
  destruct St; eauto using inv_call, inv_emit, inv_sink, inv_close.
Qed.

(** Every event that is past the trail was written, or its write failed. *)
Definition accounted (d : daemon) : Prop := forall i e, inside d !! i = Some (AtSink e) -> e ∈ written d ++ failed d ++ dropped d.

Lemma accounted_at i p d o : (forall e, p <> AtSink e) -> accounted d -> accounted (locked_by o (at_ i p d)).
Proof.
  intros Hp A j e Hj. cbn in Hj |- *. apply lookup_insert_Some in Hj as [[_ Ep]|[_ Hj]]; [by destruct (Hp e)|by apply (A j)].
Qed.

Lemma accounted_write w e ct mac i o d : accounted d -> accounted (locked_by o (at_ i (AtSink e) (write w e ct mac d))).
Proof.
  intros A j x Hj. assert (Hj' : j = i /\ x = e \/ inside d !! j = Some (AtSink x)).
  { unfold write in Hj. destruct (log_open d); [destruct w|]; cbn in Hj; apply lookup_insert_Some in Hj; naive_solver. }
  specialize (A j x). unfold write. destruct (log_open d); [destruct w|]; cbn; rewrite !elem_of_app, ?list_elem_of_singleton in *; naive_solver.
Qed.

Lemma accounted_step d d' : step (emit_ok v) d d' -> accounted d -> accounted d'.
Proof.
  intros St A. destruct St as [i n e d _ Hi _|i w d d' _ St|i n e d _ Hi|d d' St].
  - by apply (accounted_at i (Wants n e) d (lock d)).
  - unfold emit_step in St. destruct (inside d !! i) as [[n e|n e b|n e ct|n e ct mac|e]|]; [..|done|done].
    + destruct (marshal e); [|injection St as <-; intros j x Hj; cbn in Hj; apply lookup_delete_Some in Hj as [_ Hj]; by apply (A j)].
      destruct (lock d); [done|]. injection St as <-. by apply accounted_at.
    + injection St as <-. by apply (accounted_at i _ d (lock d)).
    + injection St as <-. by apply (accounted_at i _ d (lock d)).
    + injection St as <-. by apply accounted_write.
  - intros j x Hj. cbn in Hj. apply lookup_delete_Some in Hj as [_ Hj]. by apply (A j).
  - unfold close_step in St. destruct (phase_ d); [| |..|done]; try by injection St as <-. destruct (lock d); [done|]. by injection St as <-.
Qed.

(** From [d] the daemon can get to a state with [P]. *)
Definition can (P : daemon -> Prop) (d : daemon) : Prop := exists d', rtc (step (emit_ok v)) d d' /\ P d'.

Lemma can_step (P : daemon -> Prop) d d1 : step (emit_ok v) d d1 -> can P d1 -> can P d.
Proof. intros St (d' & R & Hp). exists d'. split; [by eapply rtc_l|done]. Qed.

Lemma can_emit (P : daemon -> Prop) i d d1 : phase_ d <> Exited -> emit_step i None d = Some d1 -> can P d1 -> can P d.
Proof. intros Hx St. by eapply can_step, step_emit. Qed.

Lemma can_close (P : daemon -> Prop) d d1 : close_step d = Some d1 -> can P d1 -> can P d.
Proof. intros St. by eapply can_step, step_close. Qed.

Definition free (ph : phase) (d : daemon) : Prop := lock d = None /\ phase_ d = ph.

(** The session under the lock gets through. *)
Lemma unlock_mac i n e ct mac ph d :
  ph <> Exited -> phase_ d = ph -> inside d !! i = Some (HasMac n e ct mac) -> can (free ph) d.
Proof.
  intros Hx <- Hi. eapply can_emit; [done|unfold emit_step; by rewrite Hi|]. eexists. split; [done|].
  split; [done|]. unfold write. cbn. by destruct (log_open d).
Qed.

Lemma unlock_text i n e ct ph d :
  ph <> Exited -> phase_ d = ph -> inside d !! i = Some (HasText n e ct) -> can (free ph) d.
Proof.
  intros Hx Hd Hi. eapply can_emit; [congruence|unfold emit_step; by rewrite Hi|]. eapply (unlock_mac i); [done..|].
  cbn. by rewrite lookup_insert_eq.
Qed.

Lemma unlocks d : inv d -> phase_ d <> Exited -> can (free (phase_ d)) d.
Proof.
  intros N Hx. destruct (lock d) as [i|] eqn:Hl; [|by exists d]. apply (n_lock d N) in Hl as (p & Hi & Hp).
  destruct p as [| n e b | n e ct | n e ct mac |]; [done| |by eapply unlock_text|by eapply unlock_mac|done].
  eapply can_emit; [done|unfold emit_step; by rewrite Hi|]. eapply (unlock_text i); [done..|]. cbn. by rewrite lookup_insert_eq.
Qed.

(** So does the handler, once [sup.StopAll] has. *)
Lemma exits_closed d : phase_ d <> Serving -> phase_ d <> Signalled -> can (λ d', phase_ d' = Exited) d.
Proof.
  assert (Hv : forall d, phase_ d = VaultClosed -> can (λ d', phase_ d' = Exited) d).
  { intros d0 E. eapply can_close; [unfold close_step; by rewrite E|]. by eexists. }
  assert (Hd : forall d, phase_ d = DbClosed -> can (λ d', phase_ d' = Exited) d).
  { intros d0 E. eapply can_close; [unfold close_step; by rewrite E|]. by apply Hv. }
  intros Hs Hg. destruct (phase_ d) eqn:E; [done|done| |by apply Hd|by apply Hv|by exists d].
  eapply can_close; [unfold close_step; by rewrite E|]. by apply Hd.
Qed.

Lemma exits_signalled d : inv d -> phase_ d = Signalled -> can (λ d', phase_ d' = Exited) d.
Proof.
  intros N E. destruct (unlocks d N) as (d1 & R & Hl & Hp); [congruence|]. rewrite E in Hp.
  destruct (can_close (λ d', phase_ d' = Exited) d1 (Daemon (logger d1) false None (vault_ d1) (db_open d1) (mirror_ d1) (inside d1)
    LogClosed (written d1) (dropped d1) (failed d1) (torn d1))) as (d' & R' & E').
  - unfold close_step. by rewrite Hp, Hl.
  - by apply exits_closed.
  - exists d'. split; [by etrans|done].
Qed.

Lemma exits d : inv d -> can (λ d', phase_ d' = Exited) d.
Proof.
  intros N. destruct (phase_ d) eqn:E; [|by apply exits_signalled|apply exits_closed; congruence..].
  eapply can_close; [unfold close_step; by rewrite E|]. apply exits_signalled; [|done].
  eapply inv_close; [|exact N]. unfold close_step. by rewrite E.
Qed.
End Trail.

(** A schedule is a run of the relation. *)
Definition turn_ok `{Crypto, EventJson} (v : Vault) (t : turn) : Prop := match t with Calls _ n e => emit_ok v (n, e) | _ => True end.

Lemma take_turn_step `{Crypto, EventJson} v t d d' : turn_ok v t -> take_turn t d = Some d' -> step (emit_ok v) d d'.
Proof.
  intros Ht Hd. unfold take_turn in Hd. destruct t as [i n e|i|i k|i n|]; [..|by apply step_close]; destruct (decide _) as [|Hx]; try done.
  - destruct (inside d !! i) eqn:Hi; [done|]. injection Hd as <-. by apply step_call.
  - assert (Hd' : emit_step i None d = Some d') by by destruct (inside d !! i). by eapply step_emit.
  - assert (Hd' : emit_step i (Some k) d = Some d') by by destruct (inside d !! i). by eapply step_emit.
  - destruct (inside d !! i) as [[]|] eqn:Hi; try done. injection Hd as <-. by apply step_sink.
Qed.

Lemma run_steps `{Crypto, EventJson} v ts d d' : Forall (turn_ok v) ts -> run ts d = Some d' -> rtc (step (emit_ok v)) d d'.
Proof.
  intros Hts. revert d. induction Hts as [|t ts Ht _ IH]; cbn; intros d Hd; [by injection Hd as <-|].
  destruct (take_turn t d) as [d1|] eqn:E; [|done]. eapply rtc_l; [by eapply take_turn_step|by apply IH].
Qed.

(** ** Theorems *)

(** A write that stops inside the ciphertext: until something follows it on the
    line, the whole trail reads as nothing, and no server starts on it. *)
Lemma torn_line_refused `{Crypto, EventJson} v cts es ct mac k :
  Forall2 (reads_as v) cts es -> bytes_ok ct -> (2 <= k <= length (RawURLEncode ct))%nat -> Z.of_nat k < maxLine ->
  let f := Some (trail_file v cts ++ take k (line ct mac ++ [10])) in
  ReadAll f v = ([], Some ErrMalformed) /\ New f v = Err ErrMalformed.
Proof.
  intros Hr Hct Hk Hm f. subst f. set (part := take k (line ct mac ++ [10])).
  assert (Ep : part = take k (RawURLEncode ct)).
  { unfold part, line. rewrite <-!app_assoc. apply take_app_le. lia. }
  assert (Hc : Forall (b64_char true) part) by (rewrite Ep; apply Forall_take, encode_chars, Hct).
  assert (Hl : length part = k) by (rewrite Ep, length_take; lia).
  assert (Hf : framed part).
  { destruct part as [|x [|y l]] eqn:E; [cbn in Hl; lia..|]. destruct (exists_last (l := y :: l)) as (m & z & Em); [done|].
    rewrite Em in *. apply Forall_cons in Hc as [Hx Hc]. apply Forall_app in Hc as [_ [Hz _]%Forall_cons].
    exists x, z, m. split_and!; [by eapply b64_graphic..|done]. }
  assert (H10 : 10 ∉ part) by by apply (b64_no true). assert (H46 : 46 ∉ part) by by apply (b64_no true).
  assert (Hs : splitLine part = Err ErrMalformed) by (unfold splitLine; by rewrite IndexByte_None).
  assert (Ht : TrimSpace part = part) by (rewrite <-(app_nil_r part) at 1; apply TrimSpace_framed; auto).
  assert (Hne : beq part [] = false) by (apply beq_false; intros E; by rewrite E in Hf; destruct Hf as (? & ? & ? & _ & _ & ?)).
  destruct (chain_lines v (start v) cts es Hr) as [Hcf Hcn]. split.
  - unfold ReadAll, trail_file. rewrite scan_text_app by done. rewrite (read_chain_app v _ [] cts es) by done.
    unfold scan_lines. rewrite Split_single by done. cbn [drop_last_empty]. rewrite Hne. cbn [read_loop].
    rewrite (proj2 (Z.leb_gt _ _)) by (unfold len; lia). rewrite drop_cr_framed, Ht, Hne, Hs by done. done.
  - unfold New, chainTip.
    assert (Hw : TrimSpace (trail_file v cts ++ part) = trail_file v cts ++ part).
    { rewrite <-(app_nil_r (trail_file v cts ++ part)) at 1. apply TrimSpace_framed; [|auto]. unfold trail_file.
      destruct (chain v (start v) cts) as [|x l]; [done|]. apply Forall_cons in Hcf as [Hx _].
      unfold text_of. rewrite bind_cons, <-!app_assoc, (app_assoc [10]). by apply framed_app. }
    rewrite Hw. destruct (Z.eqb_spec (len (trail_file v cts ++ part)) 0) as [E|_].
    { rewrite len_app in E. unfold len in E. lia. }
    unfold trail_file. rewrite Split_text_app, Split_single, last_snoc by done. change (default [] (Some part)) with part. by rewrite Hs.
Qed.

(** C13: at every moment of a run in which any sessions emit events concurrently, any
    of their writes may fail half way, and the signal handler closes the trail,
    the database and the vault under them: as long as no failed write has left a
    part of its line, the audit file verifies and reads as the events of before
    followed by those written, in order, and a server started on it continues
    from the very tip; afterwards the file still starts with a trail that
    verifies and holds what was written up to then.  An event that gets past the
    trail was written, or its write failed, or the trail was closed, which
    happens to none as long as the trail is open; so long the vault keeps its
    keys.  And the handler can always get to the exit, no session keeping it from
    the trail's lock. *)
Theorem shutdown_keeps_trail `{CryptoLaws, EventJsonLaws} (v : Vault) (f : option bytes) (cts : list bytes) (old : list Event)
    (l : Logger) (m : table logRow) (d : daemon)
    (Hold : holds v f cts old) (Hnew : New f v = Ok l) (Hrun : rtc (step (emit_ok v)) (launch l v m) d) :
  (torn d = None -> ReadAll (Some (file (logger d))) v = (old ++ written d, None) /\
                    New (Some (file (logger d))) v = Ok (logger d)) /\
  (forall k, torn d = Some k -> exists trail rest, file (logger d) = trail ++ rest /\
     ReadAll (Some trail) v = (old ++ take k (written d), None)) /\
  (failed d = [] -> torn d = None) /\
  (forall i e, inside d !! i = Some (AtSink e) -> e ∈ written d ++ failed d ++ dropped d) /\
  (log_open d = true -> dropped d = [] /\ vault_ d = v) /\
  exists d', rtc (step (emit_ok v)) d d' /\ phase_ d' = Exited.
Proof.
  assert (N : inv v old d) by (eapply shutdown_inv; [exact Hrun|by eapply inv_launch]).
  assert (A : accounted d).
  { assert (A0 : accounted (launch l v m)) by (intros i e; cbn; by rewrite lookup_empty).
    revert A0. clear -Hrun. induction Hrun as [|? ? ? St _ IH]; [done|]. intros A0. by eapply IH, accounted_step. }
  destruct (n_trail _ _ _ N) as (cts' & es & later & rest & Hf & Hr & Hw & Ht). split_and!.
  - intros Et. rewrite Et in Ht. destruct Ht as (-> & -> & Hp). rewrite !app_nil_r in *. subst es.
    assert (Hh : holds v (Some (file (logger d))) cts' (old ++ written d)) by done.
    split; [by eapply holds_read|]. unfold New. rewrite (holds_tip v _ cts' _ Hh), <-Hp. by destruct (logger d).
  - intros k Et. rewrite Et in Ht. exists (trail_file v cts'), rest. split; [done|].
    rewrite Hw, take_app_length' by done. by apply (holds_read v (Some _) cts').
  - apply (n_failed _ _ _ N).
  - exact A.
  - intros Ho. split; [by eapply n_dropped|by eapply n_vault].
  - by eapply exits.
Qed.

(** ** Witness *)

(** Two sessions share the trail; the signal comes, and the event of a third
    finds the file closed: the session log has it, the trail has not. *)
Definition late_turns : list turn :=
  [Calls 1 toy_nonce (toy_event (str "a")); Calls 2 toy_nonce (toy_event (str "b")); Emits 2; Closes; Emits 2; Calls 3 toy_nonce (toy_event (str "c"));
   Emits 2; Emits 2; Emits 1; Emits 1; Sinks 2 toy_nonce; Emits 1; Emits 1; Closes; Emits 3; Emits 3; Emits 3; Emits 3; Sinks 3 toy_nonce; Closes].

Definition late_start : daemon := launch (MkLogger [] (MAC toy_vault [] genesis)) toy_vault empty_table.
Definition late_end : daemon := default late_start (run (H := toy) (H0 := toy_json) late_turns late_start).

(** A full disk: the second event's write stops after seven bytes, the third
    event goes on the same line. *)
Definition torn_turns : list turn :=
  (λ i, [Calls i toy_nonce (toy_event (str "a")); Emits i; Emits i; Emits i]) 1 ++ [Emits 1; Sinks 1 toy_nonce] ++
  (λ i, [Calls i toy_nonce (toy_event (str "b")); Emits i; Emits i; Emits i]) 1 ++ [Fails 1 7; Sinks 1 toy_nonce] ++
  (λ i, [Calls i toy_nonce (toy_event (str "c")); Emits i; Emits i; Emits i]) 1 ++ [Emits 1; Sinks 1 toy_nonce].
Definition torn_end : daemon := default late_start (run (H := toy) (H0 := toy_json) torn_turns late_start).

Definition toy_turn (t : turn) : Prop :=
  match t with Calls _ n e => n = toy_nonce /\ e ∈ (toy_event <$> [str "a"; str "b"; str "c"]) | _ => True end.

Lemma toy_turns ts : Forall toy_turn ts ->
  Forall (turn_ok (H := toy) (H0 := toy_json) toy_vault) ts.
Proof.
  intros Hts. refine (Forall_impl _ _ _ Hts _). intros [i n e|i|i k|i n|] Ht; try done. destruct Ht as [-> He].
  assert (G : forall d, bytes_ok d -> len (RawURLEncode (Seal (H := toy) toy_vault toy_nonce d)) + 44 < maxLine ->
    emit_ok (H := toy) (H1 := toy_json) toy_vault (toy_nonce, toy_event d)).
  { intros d Hd Hlen. split; [by_decide|]. split; [by split|]. intros b [= <-]. exact Hlen. }
  cbn [fmap list_fmap] in He. rewrite !elem_of_cons in He.
  destruct He as [->|[->|[->|[]%elem_of_nil]]]; (apply G; [apply str_ok|vm_compute; reflexivity]).
Qed.

Lemma shutdown_keeps_trail_witness :
  (phase_ late_end = DbClosed /\ dropped late_end = [toy_event (str "c")] /\ SessionLog_Count (mirror_ late_end) = 2 /\
   ReadAll (H := toy) (H0 := toy_json) (Some (file (logger late_end))) toy_vault = (toy_event <$> [str "b"; str "a"], None)) /\
  (ReadAll (H := toy) (H0 := toy_json) (Some (file (logger torn_end))) toy_vault).2 <> None /\
  exists trail rest, file (logger torn_end) = trail ++ rest /\
    ReadAll (H := toy) (H0 := toy_json) (Some trail) toy_vault = ([toy_event (str "a")], None).
Proof.
  assert (T : forall ts d, Forall toy_turn ts ->
    run (H := toy) (H0 := toy_json) ts late_start = Some d ->
    rtc (step (H := toy) (H0 := toy_json) (emit_ok (H := toy) (H1 := toy_json) toy_vault)) (launch (logger late_start) toy_vault empty_table) d)
    by (intros ts d Hts Hd; apply (run_steps (H := toy) (H0 := toy_json) _ ts); [by apply toy_turns|exact Hd]).
  assert (Hl : Forall toy_turn (late_turns ++ torn_turns)).
  { repeat (apply Forall_cons_2 || apply Forall_nil_2); try done; (split; [done|cbn; set_solver]). }
  apply Forall_app in Hl as [Hl Ht]. split; [|split; [vm_compute; discriminate|]].
  - split_and!; [by vm_compute..|].
    destruct (shutdown_keeps_trail (H := toy) (H0 := toy_laws) (H1 := toy_json) (H2 := toy_json_laws) toy_vault None [] []
      (logger late_start) empty_table late_end) as (R & _).
    + by split; [|constructor].
    + done.
    + apply (T late_turns); [exact Hl|by vm_compute].
    + destruct (R ltac:(vm_compute; reflexivity)) as [R1 _]. rewrite R1. apply (f_equal (λ x, (x, None))). vm_compute. reflexivity.
  - destruct (shutdown_keeps_trail (H := toy) (H0 := toy_laws) (H1 := toy_json) (H2 := toy_json_laws) toy_vault None [] []
      (logger late_start) empty_table torn_end) as (_ & R & _).
    + by split; [|constructor].
    + done.
    + apply (T torn_turns); [exact Ht|by vm_compute].
    + destruct (R 1%nat ltac:(vm_compute; reflexivity)) as (trail & rest & E & R1). exists trail, rest. split; [exact E|].
      rewrite R1. apply (f_equal (λ x, (x, None))). vm_compute. reflexivity.
Defined.
