(* ===== verification/Sysopctl.v ===== *)
(** * The operator's tool (src/cmd/sysopctl/main.go)

    [list], [approve], [promote], [bootstrap] and [addkey] as functions on the
    database: the text printed, or the message of [log.Fatal] with the
    database as the command left it, and how they fit the login. *)

From S2P Require Import Prelude Doors GoStrings GoTime Vault Sql Users Credentials Input Terminal Login World.

Section Sysopctl.
Context `{Crypto, SshKeys, Env}.

Definition line (s : bytes) : bytes := s ++ [10].

(** [strconv.Atoi] of an optional level argument. *)
Definition level_arg (def : Z) (arg : option bytes) : Z := default def (arg ≫= Atoi).

Definition list_row (u : User) : bytes :=
  line (pad_right 18 (Handle u) ++ [32] ++ pad_right 10 (Status u) ++ [32] ++ pad_right 6 (Itoa (AccessLevel u)) ++ [32] ++
        (if beq (PasswordHash u) [] then str "(unset)" else str "set")).

Definition cmd_list (b : bbs) : result bytes bytes :=
  match Users_All vault (db_users b) with
  | Err e => Err (err_text e)
  | Ok us => Ok (line (pad_right 18 (str "HANDLE") ++ [32] ++ pad_right 10 (str "STATUS") ++ [32] ++ pad_right 6 (str "LEVEL") ++ [32] ++
                 str "PASSWORD") ++ concat (list_row <$> us))
  end.

(** [approve] and [promote]; [raw]: the random bytes of a token. *)
Definition cmd_approve (promote : bool) (handle : bytes) (level : option bytes) (raw : bytes) (now : Z) (b : bbs) :
    result bytes bytes * bbs :=
  let level := level_arg 1 level in
  match Users_ByHandle vault handle (db_users b) with
  | Err e => (Err (str "no such user " ++ quote handle ++ str ": " ++ err_text e), b)
  | Ok u =>
      let b := put_users (Users_Approve (ID u) level (db_users b)) b in
      let done_ := line (handle ++ str " is now approved at access level " ++ Itoa level ++ str ".") in
      if negb promote || beq (PasswordHash u) [] then
        match Tokens_Issue (db_users b) (ID u) raw now (db_tokens b) with
        | (Err e, t) => (Err (str "issue token: " ++ err_text e), put_tokens t b)
        | (Ok tok, t) =>
            (Ok (done_ ++ line (str "One-time onboarding token (relay out-of-band; used once on first SSH login):") ++
                 line (str "  " ++ tok)), put_tokens t b)
        end
      else (Ok done_, b)
  end.

(** The public key argument: a file, its contents or the error, or "-". *)
Inductive key_source := KeyFile (contents : result bytes bytes) | KeyStdin.

(** What is read for the key, and what stays on standard input. *)
Definition read_key (src : key_source) (stdin : bytes) : result bytes bytes * bytes :=
  match src with KeyFile c => (c, stdin) | KeyStdin => (Ok stdin, []) end.

(** [strings.TrimRight(line, "\r\n")] of the first line of standard input. *)
Fixpoint drop_eol (r : bytes) : bytes :=
  match r with b :: r' => if (b =? 13) || (b =? 10) then drop_eol r' else r | [] => [] end.
Definition read_password (stdin : bytes) : bytes :=
  reverse (drop_eol (reverse (match IndexByte stdin 10 with Some i => take (S i) stdin | None => stdin end))).

(** The key line, validated, and the rest of standard input. *)
Definition key_line (src : key_source) (stdin : bytes) : result bytes (bytes * bytes) :=
  match read_key src stdin with
  | (Err e, _) => Err (str "read public key: " ++ e)
  | (Ok k, rest) =>
      let l := TrimSpace k in
      if ValidatePublicKey l then Ok (l, rest) else Err (str "invalid SSH public key: " ++ err_text ErrBadKey)
  end.

Definition existing_key (uid : Z) (l : bytes) (b : bbs) : bool :=
  match ParseAuthorizedKey l with
  | Some (pub, _) => Keys_Authorizes uid pub (db_keys b)
  | None => false
  end.

Definition register_key (uid : Z) (l taken : bytes) (now : Z) (b : bbs) : result bytes Key * bbs :=
  match Keys_Add (db_users b) uid l now (db_keys b) with
  | (Err ErrKeyTaken, t) => (Err taken, put_keys t b)
  | (Err e, t) => (Err (str "add key: " ++ err_text e), put_keys t b)
  | (Ok k, t) => (Ok k, put_keys t b)
  end.

(** [ByHandle], or [Create] when that fails. *)
Definition find_or_create (handle : bytes) (now : Z) (n1 n2 : bytes) (us : users) : result err User * users :=
  match Users_ByHandle vault handle us with
  | Ok u => (Ok u, us)
  | Err _ => Users_Create vault handle [] [] [] now n1 n2 us
  end.

(** [bootstrap] once the key and the password are read. *)
Definition bootstrap_account (handle l hash : bytes) (level now : Z) (n1 n2 : bytes) (b : bbs) : result bytes bytes * bbs :=
  match find_or_create handle now n1 n2 (db_users b) with
  | (Err e, us) => (Err (str "create user: " ++ err_text e), put_users us b)
  | (Ok u, us) =>
      let b := put_users (Users_Approve (ID u) level (Users_SetPassword (ID u) hash us)) b in
      let ready := line (str "SysOp " ++ quote handle ++ str " is ready at access level " ++ Itoa level ++
                         str " (password set, key registered).") ++
                   line (str "Log in over SSH with that key + password — no onboarding token needed.") in
      if existing_key (ID u) l b then (Ok (line (str "SSH key already registered to this account") ++ ready), b)
      else match register_key (ID u) l (str "that SSH key is already registered to another account") now b with
           | (Err m, b) => (Err m, b)
           | (Ok k, b) => (Ok (line (str "registered SSH key " ++ Fingerprint k) ++ ready), b)
           end
  end.

Definition cmd_bootstrap (handle : bytes) (src : key_source) (level : option bytes) (env_password stdin salt : bytes)
    (now : Z) (n1 n2 : bytes) (b : bbs) : result bytes bytes * bbs :=
  match key_line src stdin with
  | Err m => (Err m, b)
  | Ok (l, stdin) =>
      let pw := if beq env_password [] then read_password stdin else env_password in
      if beq pw [] then (Err (str "empty password"), b)
      else bootstrap_account handle l (HashPassword pw salt) (level_arg 100 level) now n1 n2 b
  end.

Definition cmd_addkey (handle : bytes) (src : key_source) (stdin : bytes) (now : Z) (b : bbs) : result bytes bytes * bbs :=
  match key_line src stdin with
  | Err m => (Err m, b)
  | Ok (l, _) =>
      match Users_ByHandle vault handle (db_users b) with
      | Err e => (Err (str "no such user " ++ quote handle ++ str ": " ++ err_text e), b)
      | Ok u =>
          match register_key (ID u) l (str "that SSH key is already registered (to this or another account)") now b with
          | (Err m, b) => (Err m, b)
          | (Ok k, b) => (Ok (line (str "registered SSH key " ++ Fingerprint k ++ str " on " ++ quote handle ++ str ".")), b)
          end
      end
  end.
End Sysopctl.

(** ** Lemmas *)

Section Laws.
Context `{CryptoLaws, SshKeys, Env}.

(** One statement about the account that is found. *)
Lemma found_after h t u f P :
  Users_ByHandle vault h t = Ok u -> (forall r, c_handle (f r) = c_handle r) ->
  (forall r, Users_scan vault (ID u) r = Ok u -> exists u', Users_scan vault (ID u) (f r) = Ok u' /\ ID u' = ID u /\ P u') ->
  exists u', Users_ByHandle vault h (update (by_id (ID u)) f t).1 = Ok u' /\ ID u' = ID u /\ P u'.
Proof. intros Hu Hf Hs. destruct (ByHandle_update vault h t u f Hu Hf) as (r & Hr & ->). by apply Hs. Qed.

Lemma scan_set_status s l id r u :
  Users_scan vault id r = Ok u -> exists u', Users_scan vault id (set_status s l r) = Ok u' /\ ID u' = ID u /\
    Status u' = s /\ AccessLevel u' = l /\ PasswordHash u' = PasswordHash u.
Proof.
  unfold Users_scan. simpl. destruct (scan_int _); [|done].
  destruct (open vault (c_real_name r)), (open vault (c_email r)); try done. intros [= <-]. by eexists.
Qed.

(** The account after its password and its approval. *)
Lemma stored_account h hash l us u :
  Users_ByHandle vault h us = Ok u ->
  exists u', Users_ByHandle vault h (Users_Approve (ID u) l (Users_SetPassword (ID u) hash us)) = Ok u' /\ ID u' = ID u /\
    Status u' = StatusApproved /\ AccessLevel u' = l /\ PasswordHash u' = hash.
Proof.
  intros Hu. destruct (found_after h us u (set_password hash) (λ u', PasswordHash u' = hash) Hu ltac:(done)) as (u1 & Hu1 & I1 & P1).
  { intros r Hr. exists (with_hash hash u). split; [by apply scan_set_password|done]. }
  destruct (found_after h _ u1 (set_status StatusApproved l)
    (λ u', Status u' = StatusApproved /\ AccessLevel u' = l /\ PasswordHash u' = hash) Hu1 ltac:(done)) as (u2 & Hu2 & I2 & P2).
  { intros r Hr. destruct (scan_set_status StatusApproved l _ _ _ Hr) as (u' & ? & ? & ? & ? & ?). exists u'. split_and!; congruence. }
  exists u2. unfold Users_Approve, Users_SetStatus, Users_SetPassword. rewrite I1 in Hu2. split_and!; [done|congruence|apply P2..].
Qed.

Lemma find_or_create_found h now n1 n2 us u us' :
  wf us -> find_or_create h now n1 n2 us = (Ok u, us') -> Users_ByHandle vault h us' = Ok u.
Proof.
  intros Hw. unfold find_or_create. destruct (Users_ByHandle vault h us) as [u0|e] eqn:E; [by intros [= <- <-]|].
  intros Hc. apply Create_inv in Hc as [(? & _)|(Hc & [(? & _)|(id & Hi & Hu)])]; [done..|].
  unfold Users_ByHandle. rewrite (select_insert _ _ _ _ _ Hi), Hu.
  assert (select (same_handle h) us = []) as ->.
  { unfold count, len in Hc. by apply length_zero_iff_nil, Nat2Z.inj. }
  assert (same_handle h id (UserRow h [] (seal vault n1 []) (seal vault n2 []) 0 StatusPending 0 (SqlInt 0) 0 (fmtTime now) None []) = true)
    as -> by apply nocase_refl. cbn. unfold Users_ByID. rewrite select_by_id by by eapply wf_insert.
  by rewrite (row_insert _ _ _ _ Hw Hi), decide_True.
Qed.

Lemma register_key_authorizes uid l pub comment taken now b k b' :
  ParseAuthorizedKey l = Some (pub, comment) -> register_key uid l taken now b = (Ok k, b') ->
  Keys_Authorizes uid pub (db_keys b') = true /\ db_users b' = db_users b.
Proof.
  unfold register_key. intros Hp. destruct (Keys_Add _ _ _ _ _) as [r t] eqn:E. destruct r as [k'|e]; [|by destruct e].
  intros [= -> <-]. split; [|done]. apply Keys_Add_inv in E as (pub' & c & u & id & Hp' & Hu & Ei & _).
  rewrite Hp in Hp'. injection Hp' as <- <-. apply Authorizes_spec. eexists _, _.
  cbn [db_keys put_keys]. rewrite (insert_rows _ _ _ _ Ei). split; [apply elem_of_app; right; by apply list_elem_of_singleton|done].
Qed.

(** ** Properties *)

(** What bootstrap promises: when it succeeds, the handle and the key pass the SSH
    authenticator, and whoever then types that password is logged in at the level
    asked for (100 without a number), whatever the account was before. *)
Theorem bootstrap_logs_in (handle env_password stdin salt l rest pub comment out : bytes) (src : key_source)
    (level : option bytes) (now : Z) (n1 n2 : bytes) (b b' : bbs)
    (Hw : wf (db_users b)) (Hs : bytes_ok salt) (Hk : key_line src stdin = Ok (l, rest))
    (Hp : ParseAuthorizedKey l = Some (pub, comment))
    (Hb : cmd_bootstrap handle src level env_password stdin salt now n1 n2 b = (Ok out, b')) :
  let pw := if beq env_password [] then read_password rest else env_password in
  authenticator vault handle pub (db_users b') (db_keys b') = true /\
  forall c clk slt wl i, cl_username c = handle -> w_users wl = db_users b' -> line_ok pw ->
    s_in (w_session wl) = typing [pw] ++ i ->
    exists u wl', RunLogin vault c clk slt wl = (Granted u, wl') /\ AccessLevel u = level_arg 100 level.
Proof.
  cbv zeta. unfold cmd_bootstrap in Hb. rewrite Hk in Hb. cbv zeta in Hb.
  set (pw := if beq env_password [] then _ else _) in *. destruct (beq pw []); [done|].
  unfold bootstrap_account in Hb. destruct (find_or_create _ _ _ _ _) as [[u|e] us] eqn:Ef; [|done].
  apply find_or_create_found in Ef; [|done].
  destruct (stored_account handle (HashPassword pw salt) (level_arg 100 level) us u Ef) as (u' & Hu & Hi & Hst & Hlv & Hh).
  set (b1 := put_users _ b) in Hb.
  assert (G : Keys_Authorizes (ID u) pub (db_keys b') = true /\ db_users b' = db_users b1).
  { unfold existing_key in Hb. rewrite Hp in Hb. destruct (Keys_Authorizes (ID u) pub (db_keys b1)) eqn:Ea.
    - by injection Hb as _ <-.
    - destruct (register_key _ _ _ _ b1) as [[k|m] b2] eqn:Er; [|done]. injection Hb as _ <-.
      by eapply register_key_authorizes. }
  destruct G as [Hka Eus]. split.
  - unfold authenticator. rewrite Eus. cbn [b1 db_users put_users]. by rewrite Hu, Hst, Hi, Hka.
  - intros c clk slt wl i Hc Hwl Hl Hin. rewrite Eus in Hwl. cbn [b1 db_users put_users] in Hwl.
    unfold RunLogin. rewrite Hc, Hwl, Hu, Hst, beq_refl. simpl negb. cbv iota.
    assert (beq (PasswordHash u') [] = false) as -> by by rewrite Hh.
    unfold verify. cbn [verify_loop].
    destruct (readPassword_typed (Login.draw c (Login.prompt (str "Password: ")) wl) pw [] i Hin Hl) as (s1 & -> & _).
    rewrite Hh, Verify_HashPassword, beq_refl by done. by eexists u', _.
Qed.

(** A failure once the account is found or created does not undo anything: it
    stays approved at the level asked for with the new password, although the
    command ends with an error, as it does when the key is another account's. *)
Theorem bootstrap_not_undone (handle l hash m : bytes) (level now : Z) (n1 n2 : bytes) (b b' : bbs) (u : User) (us : users)
    (Hw : wf (db_users b)) (Hf : find_or_create handle now n1 n2 (db_users b) = (Ok u, us))
    (Hb : bootstrap_account handle l hash level now n1 n2 b = (Err m, b')) :
  existing_key (ID u) l b = false /\
  exists u', Users_ByHandle vault handle (db_users b') = Ok u' /\ ID u' = ID u /\
    Status u' = StatusApproved /\ AccessLevel u' = level /\ PasswordHash u' = hash.
Proof.
  unfold bootstrap_account in Hb. rewrite Hf in Hb. apply find_or_create_found in Hf; [|done].
  set (b1 := put_users _ b) in Hb. change (existing_key (ID u) l b1) with (existing_key (ID u) l b) in Hb.
  destruct (existing_key (ID u) l b); [done|]. split; [done|].
  assert (E : db_users b' = db_users b1).
  { unfold register_key in Hb. destruct (Keys_Add _ _ _ _ _) as [[k|e] t]; [done|]. by destruct e; injection Hb as _ <-. }
  rewrite E. by apply stored_account.
Qed.
End Laws.

(** ** Witnesses *)

(** The environment of the tool: only the vault and the texts matter. *)
Definition tool_env : Env := {|
  vault := toy_vault; conn := a_caller; clock := on_time; rnd := λ _, toy_nonce; disk := λ _, Files.Saved;
  err_text := λ _, str "error"; xerr_text := λ _, str "error"; base64_text := λ _, str "error";
  lower := lower_ascii; to_upper := λ s, s; quote := λ s, s
|}.
Definition host_db (us : users) (ks : table keyRow) : bbs :=
  Bbs us empty_table ks empty_table empty_table empty_table empty_table ∅ empty_table empty_table empty_table
    empty_table (Files.Lib empty_table ∅) empty_table empty_table empty_table ∅ empty_table.
Definition first_sysop : result bytes bytes * bbs :=
  cmd_bootstrap (H := toy) (H0 := toy_ssh) (H1 := tool_env) (str "trinity") (KeyFile (Ok (str "key"))) None [] (a_password ++ [13; 10])
    a_salt 0 toy_nonce toy_nonce (host_db some_users empty_table).
Definition is_ok {E A} (r : result E A) : bool := match r with Ok _ => true | Err _ => false end.
Definition trinity_calls : caller := Caller (str "s-2") (str "1.2.3.4") (str "ssh") (str "trinity")
  {| ANSI := true; CP437 := true; Terminal.Cols := 80; Rows := 25 |} false.

Lemma bootstrap_logs_in_witness :
  exists u wl', RunLogin (H := toy) toy_vault trinity_calls on_time a_salt
    (arrives (typing [a_password]) (db_users first_sysop.2) empty_table) = (Granted u, wl') /\ AccessLevel u = 100.
Proof.
  assert (E : is_ok first_sysop.1 = true) by (vm_compute; reflexivity).
  destruct first_sysop as [[out|m] b'] eqn:Eb; [clear E|discriminate E].
  destruct (bootstrap_logs_in (H := toy) (H0 := toy_laws) (H1 := toy_ssh) (H2 := tool_env) (str "trinity") [] (a_password ++ [13; 10]) a_salt
    (str "key") (a_password ++ [13; 10]) (str "key") [] out (KeyFile (Ok (str "key"))) None 0 toy_nonce toy_nonce
    (host_db some_users empty_table) b' some_users_wf) as [_ L]; [by_decide|vm_compute; reflexivity|reflexivity|exact Eb|].
  assert (Ep : read_password (a_password ++ [13; 10]) = a_password) by (vm_compute; reflexivity).
  rewrite beq_refl, Ep in L. apply (L trinity_calls on_time a_salt _ []); [reflexivity|reflexivity|by_decide|reflexivity].
Defined.

(** The key is the other SysOp's. *)
Lemma bootstrap_not_undone_witness :
  let r := bootstrap_account (H := toy) (H0 := toy_ssh) (H1 := tool_env) (str "trinity") (str "K") (str "hash") 100 0 toy_nonce toy_nonce
    (host_db with_sysop (Table [(1, KeyRow 2 (str "K") (str "K") [] (fmtTime 0) None)] 1)) in
  is_ok r.1 = false /\ exists u, Users_ByHandle (H := toy) toy_vault (str "trinity") (db_users r.2) = Ok u /\ AccessLevel u = 100.
Proof.
  set (b := host_db _ _). intros r. assert (E : is_ok r.1 = false) by (vm_compute; reflexivity). split; [exact E|].
  destruct r as [[out|m] b'] eqn:Er; [discriminate E|].
  assert (F : is_ok (find_or_create (H := toy) (H1 := tool_env) (str "trinity") 0 toy_nonce toy_nonce (db_users b)).1 = true)
    by (vm_compute; reflexivity).
  destruct (find_or_create _ _ _ _ _) as [[u|e] us] eqn:Ef; [|discriminate F].
  destruct (bootstrap_not_undone (H := toy) (H1 := toy_ssh) (H2 := tool_env) (str "trinity") (str "K") (str "hash") m 100 0
    toy_nonce toy_nonce b b' u us) as (_ & u' & Hu & _ & _ & Hl & _); [|exact Ef|exact Er|].
  - split; [repeat constructor; done| |done]. repeat constructor; simpl; lia.
  - exists u'. split; [exact Hu|exact Hl].
Defined.
