(* ===== verification/Ssh.v ===== *)
(** * The SSH transport (src/transport/ssh.go)

    From an accepted connection to the handler: bans and limits, the handshake
    with the first factor, the channels, the requests of a channel with the window
    sizes the session follows, and the host key file.  golang.org/x/crypto/ssh is
    the handshake, the decoders of the payloads and the key format. *)

From S2P Require Import Prelude GoStrings GoTime Sql Vault Users Credentials Bans Login Limits Telnet Terminal.

(** ** One channel *)

(** What the program reads of the two payloads; the sizes are [uint32]s. *)
Record ptyReq := PtyReq { Term : bytes; p_Cols : Z; p_Rows : Z }.
Record winChReq := WinChReq { w_Cols : Z; w_Rows : Z }.

(** [sshConn] without its channel and address. *)
Record sshConn := SshConn {
  c_user : bytes;
  c_termType : bytes;
  c_win : WindowSize;
  c_winCh : list WindowSize;   (** a buffered channel of capacity 8 *)
  c_started : bool
}.

Definition newSshConn (user : bytes) : sshConn := SshConn user [] {| Telnet.Cols := 0; Telnet.Rows := 0 |} [] false.

Definition set_pty (p : ptyReq) (c : sshConn) : sshConn :=
  SshConn (c_user c) (Term p) {| Telnet.Cols := p_Cols p; Telnet.Rows := p_Rows p |} (c_winCh c) (c_started c).
(** The non-blocking send drops the size when the channel is full. *)
Definition set_window (ws : WindowSize) (c : sshConn) : sshConn :=
  SshConn (c_user c) (c_termType c) ws
    (if decide (length (c_winCh c) < winChCap)%nat then c_winCh c ++ [ws] else c_winCh c) (c_started c).
Definition set_started (c : sshConn) : sshConn := SshConn (c_user c) (c_termType c) (c_win c) (c_winCh c) true.

Record request := Request { r_Type : bytes; Payload : bytes; WantReply : bool }.

Section Requests.
(** [ssh.Unmarshal] at the two types. *)
Context (unmarshal_pty : bytes -> option ptyReq) (unmarshal_win : bytes -> option winChReq).

(** The body of the loop of [serviceRequests]: the connection, the reply, whether
    the handler is started. *)
Definition service (q : request) (c : sshConn) : sshConn * option bool * bool :=
  if beq (r_Type q) (str "pty-req") then
    (match unmarshal_pty (Payload q) with Some p => set_pty p c | None => c end, Some true, false)
  else if beq (r_Type q) (str "window-change") then
    (match unmarshal_win (Payload q) with
     | Some w => set_window {| Telnet.Cols := w_Cols w; Telnet.Rows := w_Rows w |} c
     | None => c end, if WantReply q then Some true else None, false)
  else if beq (r_Type q) (str "shell") then (set_started c, Some true, negb (c_started c))
  else if beq (r_Type q) (str "exec") then (c, Some false, false)
  else (c, if WantReply q then Some false else None, false).

(** [serviceRequests] on the requests of a channel: the connection, the replies and
    the connections the handler was started on. *)
Fixpoint serviceRequests (qs : list request) (c : sshConn) : sshConn * list (option bool) * list sshConn :=
  match qs with
  | [] => (c, [], [])
  | q :: qs =>
      let '(c, r, start) := service q c in
      let '(c', rs, hs) := serviceRequests qs c in
      (c', r :: rs, if start : bool then c :: hs else hs)
  end.

(** ** One connection *)

(** A channel the client opens: its type, what [Accept] answers and its requests. *)
Record newChannel := NewChannel { ChannelType : bytes; Accepted : bool; reqs : list request }.

(** The connections the handler of [serveSSHConn] is started on, with what is
    answered to each channel. *)
Definition serveChannel (user : bytes) (nc : newChannel) : bool * list sshConn :=
  if beq (ChannelType nc) (str "session") && Accepted nc then
    (true, (serviceRequests (reqs nc) (newSshConn user)).2)
  else (false, []).
Definition serveChannels (user : bytes) (chans : list newChannel) : list sshConn :=
  concat (snd ∘ serveChannel user <$> chans).

(** [ssh.NewServerConn] under a callback for public keys: the user and channels of
    a connection that got through the handshake. *)
Context {wire : Type} (NewServerConn : (bytes -> bytes -> bool) -> wire -> option (bytes * list newChannel)).

Definition serveSSHConn (auth : bytes -> bytes -> bool) (raw : wire) : list sshConn :=
  match NewServerConn auth raw with
  | None => []
  | Some (user, chans) => serveChannels user chans
  end.

(** One turn of the accept loop of [ServeSSH] on a connection from [ip]. *)
Definition accept (auth : bytes -> bytes -> bool) (banned : bytes -> bool) (ip : bytes) (raw : wire) (lm : limiter) :
    option (limiter * list sshConn) :=
  match admitConn (Some banned) ip lm with
  | None => None
  | Some (false, lm) => Some (lm, [])
  | Some (true, lm) => Some (lm, serveSSHConn auth raw)
  end.
End Requests.

(** ** The session's window *)

(** A channel and the session on it: [session.New] reads type and size,
    [trackResizes] takes one size from the channel. *)
Inductive event := EvRequest (q : request) | EvNew | EvTrack.

Section Window.
Context (unmarshal_pty : bytes -> option ptyReq) (unmarshal_win : bytes -> option winChReq).

Definition happen (e : event) (s : sshConn * option Capability) : sshConn * option Capability :=
  let '(c, cap) := s in
  match e with
  | EvRequest q => ((service unmarshal_pty unmarshal_win q c).1.1, cap)
  | EvNew => (c, match cap with
                 | None => if c_started c then Some (DetectCapability (c_termType c) (c_win c)) else None
                 | Some k => Some k end)
  | EvTrack => match cap, c_winCh c with
               | Some k, ws :: l => (SshConn (c_user c) (c_termType c) (c_win c) l (c_started c), Some (trackResize ws k))
               | _, _ => s
               end
  end.

Definition happens (es : list event) (s : sshConn * option Capability) : sshConn * option Capability :=
  fold_left (λ s e, happen e s) es s.

(** The capability once all sizes in the channel are taken. *)
Definition settled (s : sshConn * option Capability) : option Capability :=
  (λ k, fold_left (λ k ws, trackResize ws k) (c_winCh s.1) k) <$> s.2.
End Window.

(** ** The host key *)

Section HostKey.
Context {signer : Type} (ParsePrivateKey : bytes -> result bytes signer) (MarshalPrivateKey : bytes -> result bytes bytes)
  (NewSignerFromKey : bytes -> result bytes signer).

(** [loadOrCreateHostKey]: [file] is what [ReadFile] gives, [generated] the fresh
    private key, [WriteFile] the file after a write, with the error if it failed. *)
Definition loadOrCreateHostKey (generated : result bytes bytes) (WriteFile : bytes -> option bytes * option bytes)
    (file : option bytes) : result bytes signer * option bytes :=
  match file with
  | Some data => (ParsePrivateKey data, file)
  | None =>
      match generated with
      | Err e => (Err e, None)
      | Ok priv =>
          match MarshalPrivateKey priv with
          | Err e => (Err e, None)
          | Ok pem => match WriteFile pem with
                      | (written, Some e) => (Err e, written)
                      | (written, None) => (NewSignerFromKey priv, written)
                      end
          end
      end
  end.
End HostKey.

(** ** Lemmas *)

Section Service.
Context (unmarshal_pty : bytes -> option ptyReq) (unmarshal_win : bytes -> option winChReq).
#[local] Abbreviation service := (service unmarshal_pty unmarshal_win).
#[local] Abbreviation serviceRequests := (serviceRequests unmarshal_pty unmarshal_win).
#[local] Abbreviation happen := (happen unmarshal_pty unmarshal_win).
#[local] Abbreviation happens := (happens unmarshal_pty unmarshal_win).

Definition is_shell (q : request) : bool := beq (r_Type q) (str "shell").

Lemma service_spec q c : let '(c', r, start) := service q c in
  c_user c' = c_user c /\ start = is_shell q && negb (c_started c) /\ c_started c' = c_started c || is_shell q /\
  (length (c_winCh c) <= winChCap -> length (c_winCh c') <= winChCap)%nat /\
  (beq (r_Type q) (str "exec") = true -> c' = c /\ r = Some false).
Proof.
  unfold service, is_shell. set (t := r_Type q).
  destruct (beq t (str "pty-req")) eqn:E1; [apply beq_true in E1; rewrite E1; destruct (unmarshal_pty _); by rewrite orb_false_r|].
  destruct (beq t (str "window-change")) eqn:E2.
  { apply beq_true in E2. rewrite E2. destruct (unmarshal_win _); cbn; rewrite orb_false_r; split_and!; try done.
    case_decide; [rewrite length_app; cbn; lia|done]. }
  destruct (beq t (str "shell")) eqn:E3; [apply beq_true in E3; rewrite E3; cbn; by rewrite orb_true_r|].
  destruct (beq t (str "exec")); cbn; by rewrite orb_false_r.
Qed.

Lemma serviceRequests_spec qs c : let '(c', rs, hs) := serviceRequests qs c in
  c_user c' = c_user c /\ length rs = length qs /\
  length hs = (if existsb is_shell qs && negb (c_started c) then 1 else 0)%nat /\
  (length (c_winCh c) <= winChCap -> length (c_winCh c') <= winChCap)%nat /\
  Forall (λ h, c_user h = c_user c) hs.
Proof.
  revert c. induction qs as [|q qs IH]; intros c; [split_and!; try done; constructor|]. cbn [serviceRequests Ssh.serviceRequests].
  pose proof (service_spec q c) as S. destruct (service q c) as [[c1 r] start]. destruct S as (Hu & Hs & Hst & Hw & _).
  specialize (IH c1). destruct (serviceRequests qs c1) as [[c' rs] hs]. destruct IH as (Hu' & Hl & Hh & Hw' & Hf).
  rewrite Hu in *. rewrite Hst in Hh. cbn [existsb length].
  assert (F : Forall (λ h, c_user h = c_user c) (if start then c1 :: hs else hs)) by (destruct start; [by constructor|done]).
  split_and!; [done|by rewrite Hl| |by auto|done]. subst start.
  destruct (is_shell q), (c_started c); cbn in *; rewrite ?andb_false_r in *; cbn in *; try done. by rewrite Hh.
Qed.

Lemma serveChannels_user user chans : Forall (λ h, c_user h = user) (serveChannels unmarshal_pty unmarshal_win user chans).
Proof.
  unfold serveChannels. apply Forall_concat, Forall_fmap, Forall_true. intros nc. unfold serveChannel. cbn.
  destruct (_ && _); [|constructor]. pose proof (serviceRequests_spec (reqs nc) (newSshConn user)) as S.
  destruct (serviceRequests _ _) as [[c' rs] hs]. by destruct S as (_ & _ & _ & _ & ?).
Qed.
End Service.

(** *** Windows *)

Section Windows.
Context (unmarshal_pty : bytes -> option ptyReq) (unmarshal_win : bytes -> option winChReq).
#[local] Abbreviation service := (service unmarshal_pty unmarshal_win).
#[local] Abbreviation happen := (happen unmarshal_pty unmarshal_win).
#[local] Abbreviation happens := (happens unmarshal_pty unmarshal_win).

Definition fits (k : Capability) (ws : WindowSize) : Prop :=
  Rows k = Telnet.Rows ws /\ (0 < Telnet.Cols ws -> Terminal.Cols k = Telnet.Cols ws).

Abbreviation tracked ws k := (fold_left (λ k w, trackResize w k) ws k).

Lemma trackResize_fits ws k : fits (trackResize ws k) ws.
Proof. split; [done|]. cbn. intros H. by apply Z.ltb_lt in H as ->. Qed.

Lemma Detect_fits t ws : fits (DetectCapability t ws) ws.
Proof.
  unfold fits, DetectCapability. destruct (Z.leb_spec (Telnet.Cols ws) 0); repeat go_case; cbn; split; done || lia.
Qed.

Lemma tracked_fits l k ws : last l = Some ws -> fits (tracked l k) ws.
Proof.
  intros H. destruct l as [|a l] using rev_ind; [done|]. rewrite last_snoc in H. injection H as ->.
  rewrite fold_left_app. apply trackResize_fits.
Qed.

(** The newest size waits last in the channel, and the session that has taken all
    of it is at the newest size. *)
Definition follows (s : sshConn * option Capability) : Prop :=
  (c_winCh s.1 = [] \/ last (c_winCh s.1) = Some (c_win s.1)) /\
  forall k, s.2 = Some k -> fits (tracked (c_winCh s.1) k) (c_win s.1).

Definition no_pty (e : event) : Prop := match e with EvRequest q => r_Type q <> str "pty-req" | _ => True end.

Lemma happen_follows e s : no_pty e -> (match e with EvRequest _ => length (c_winCh s.1) < winChCap | _ => True end)%nat ->
  follows s -> follows (happen e s).
Proof.
  destruct s as [c cap]. destruct e as [q| |]; cbn [fst snd happen Ssh.happen]; intros Hp Hroom [Hl Hf]; cbn [fst snd] in *.
  - unfold service. apply beq_false in Hp. rewrite Hp.
    destruct (beq (r_Type q) (str "window-change")); [|by destruct (beq (r_Type q) (str "shell")), (beq (r_Type q) (str "exec")); split].
    cbn [fst]. destruct (unmarshal_win _) as [w|]; [|by split]. cbn in Hroom. split; cbn; rewrite decide_True by done.
    + right. apply last_snoc.
    + intros k _. rewrite fold_left_app. apply trackResize_fits.
  - destruct cap as [k|]; [done|]. destruct (c_started c); [|done]. split; [done|]. intros k [= <-]. cbn.
    destruct Hl as [->|Hl]; [apply Detect_fits|by apply tracked_fits].
  - destruct cap as [k|]; [|done]. revert Hl Hf. destruct (c_winCh c) as [|w l] eqn:E; intros Hl Hf; [by split; cbn; rewrite E|].
    split; cbn.
    + destruct Hl as [|Hl]; [done|]. destruct l; [by left|by right].
    + intros k' [= <-]. by apply (Hf k).
Qed.

Lemma happens_app es es' s : happens (es ++ es') s = happens es' (happens es s).
Proof. apply fold_left_app. Qed.
End Windows.

(** ** Properties *)

Section Properties.
Context (unmarshal_pty : bytes -> option ptyReq) (unmarshal_win : bytes -> option winChReq).

(** Whatever a client asks of a channel, its handler runs once if a shell was
    asked for and not at all otherwise, every request is answered in its turn and
    [exec] is refused without effect, and at most eight sizes wait. *)
Theorem one_handler (user : bytes) (qs : list request) :
  let '(c, rs, hs) := serviceRequests unmarshal_pty unmarshal_win qs (newSshConn user) in
  length hs = (if existsb is_shell qs then 1 else 0)%nat /\ length rs = length qs /\
  (length (c_winCh c) <= winChCap)%nat /\ Forall (λ h, c_user h = user) (c :: hs) /\
  forall q c0, r_Type q = str "exec" -> service unmarshal_pty unmarshal_win q c0 = (c0, Some false, false).
Proof.
  pose proof (serviceRequests_spec unmarshal_pty unmarshal_win qs (newSshConn user)) as S.
  destruct (serviceRequests _ _ _ _) as [[c rs] hs]. destruct S as (Hu & Hl & Hh & Hw & Hf). cbn [newSshConn c_started c_winCh c_user] in *.
  rewrite andb_true_r in Hh. split_and!; [done|done|apply Hw; cbn; lia|by constructor|].
  intros q c0 Hq. unfold service. by rewrite Hq.
Qed.

(** The session follows the caller's window: after the pty request, as long as
    the channel of sizes is never full when a change comes, taking what waits
    brings the session to the newest size.  But with more than eight changes
    before the session takes any, it starts at the newest size and then goes back
    to the eighth, where it stays. *)
Theorem window_followed (c : sshConn) (Hc : c_winCh c = []) :
  (forall es k, Forall no_pty es ->
     (forall es1 q es2, es = es1 ++ EvRequest q :: es2 ->
        (length (c_winCh (happens unmarshal_pty unmarshal_win es1 (c, None)).1) < winChCap)%nat) ->
     let s := happens unmarshal_pty unmarshal_win es (c, None) in
     settled s = Some k -> fits k (c_win s.1)) /\
  (forall qs ws w8 more w q0 c1, length ws = 7%nat ->
     Forall2 (λ q w, r_Type q = str "window-change" /\
                exists m, unmarshal_win (Payload q) = Some m /\ w = {| Telnet.Cols := w_Cols m; Telnet.Rows := w_Rows m |})
       qs (ws ++ [w8] ++ more ++ [w]) ->
     r_Type q0 = str "shell" ->
     c1 = happens unmarshal_pty unmarshal_win (map EvRequest (qs ++ [q0]) ++ [EvNew]) (c, None) ->
     c1.2 = Some (DetectCapability (c_termType c) w) /\ c_win c1.1 = w /\ exists k, settled c1 = Some k /\ fits k w8).
Proof.
  split.
  - intros es k Hp Hroom s. subst s. assert (F : follows (happens unmarshal_pty unmarshal_win es (c, None))).
    { induction es as [|e es IH] using rev_ind; [by split; [left|]|].
      rewrite happens_app. apply Forall_app in Hp as [Hp He]. apply Forall_cons in He as [He _]. apply happen_follows; [done| |].
      - destruct e as [q| |]; try done. by apply (Hroom es q []).
      - apply IH; [done|]. intros es1 q es2 ->. apply (Hroom es1 q (es2 ++ [e])). by rewrite <-app_assoc. }
    destruct (happens _ _ _ _) as [c' [k'|]]; [|done]. intros [= <-]. by apply F.
  - intros qs ws w8 more w q0 c1 Hlen Hq H0 ->.
    assert (G : forall qs ws c, Forall2 (λ q w, r_Type q = str "window-change" /\
        exists m, unmarshal_win (Payload q) = Some m /\ w = {| Telnet.Cols := w_Cols m; Telnet.Rows := w_Rows m |}) qs ws ->
      (length (c_winCh c) <= winChCap)%nat ->
      happens unmarshal_pty unmarshal_win (map EvRequest qs) (c, None) =
        (SshConn (c_user c) (c_termType c) (default (c_win c) (last ws)) (take winChCap (c_winCh c ++ ws)) (c_started c), None)).
    { clear. intros qs ws. revert qs. induction ws as [|w ws IH] using rev_ind; intros qs c Hq Hl.
      - apply Forall2_nil_inv_r in Hq as ->. cbn. rewrite app_nil_r, take_ge by done. by destruct c.
      - apply Forall2_app_inv_r in Hq as (qs1 & qs2 & Hq1 & Hq2 & ->). inversion Hq2 as [|q w' qs' ws' (Ht & m & Hm & ->) Hq3]; subst.
        apply Forall2_nil_inv_r in Hq3 as ->. rewrite map_app, happens_app, (IH qs1 c) by done. cbn.
        unfold service. rewrite Ht. cbn. rewrite Hm, last_snoc. unfold set_window. cbn. do 3 f_equal.
        rewrite length_take, app_assoc. set (l := c_winCh c ++ ws). case_decide; unfold winChCap in *.
        + rewrite (take_ge l), (take_ge (l ++ _)); [done|rewrite length_app; cbn; lia|lia].
        + by rewrite (take_app_le l) by lia. }
    rewrite map_app, <-app_assoc, happens_app, (G qs _ c Hq) by (rewrite Hc; cbn; lia).
    rewrite Hc, !app_assoc, last_snoc. cbn [app default]. unfold happens. cbn. unfold service. rewrite H0. cbn.
    split_and!; [done|done|]. eexists. split; [done|]. apply tracked_fits.
    rewrite <-!app_assoc. cbn. change (take 8 (ws ++ w8 :: more ++ [w])) with (take winChCap (ws ++ [w8] ++ more ++ [w])).
    rewrite app_assoc, take_app_length' by (rewrite length_app; cbn; unfold winChCap; lia). apply last_snoc.
Qed.
End Properties.

(** C4: A handler runs only for somebody: past the ban list and the limits, on a
    connection whose user name is the handle of an approved account, for which an
    active key of that account was accepted, whatever channels and requests the
    client sends. *)
Theorem handler_authenticated `{Crypto, SshKeys} (unmarshal_pty : bytes -> option ptyReq) (unmarshal_win : bytes -> option winChReq)
    {wire : Type} (NewServerConn : (bytes -> bytes -> bool) -> wire -> option (bytes * list newChannel))
    (v : Vault) (us : users) (ks : table keyRow) (t : bans) (ip : bytes) (raw : wire) (lm lm' : limiter) (hs : list sshConn) (c : sshConn)
    (Hhs : forall auth raw user chans, NewServerConn auth raw = Some (user, chans) -> exists key, auth user key = true)
    (Ha : accept unmarshal_pty unmarshal_win NewServerConn (λ u k, authenticator v u k us ks) (λ i, IsBanned i t) ip raw lm = Some (lm', hs))
    (Hc : c ∈ hs) :
  IsBanned ip t = false /\ Limits.acquire ip lm = Some (true, lm') /\
  exists u key, Users_ByHandle v (c_user c) us = Ok u /\ Status u = StatusApproved /\ Keys_Authorizes (ID u) key ks = true.
Proof.
  unfold accept, admitConn in Ha. destruct (IsBanned ip t); [injection Ha as <- <-; by apply elem_of_nil in Hc|].
  destruct (Limits.acquire ip lm) as [[[] l]|]; [|injection Ha as <- <-; by apply elem_of_nil in Hc|done].
  injection Ha as <- <-. split_and!; [done|done|]. unfold serveSSHConn in Hc.
  destruct (NewServerConn _ raw) as [[user chans]|] eqn:E; [|by apply elem_of_nil in Hc].
  apply Hhs in E as [key Hk]. pose proof (serveChannels_user unmarshal_pty unmarshal_win user chans) as F.
  rewrite Forall_forall in F. rewrite (F c Hc). unfold authenticator in Hk. destruct (Users_ByHandle v user us) as [u|e]; [|done].
  apply andb_true_iff in Hk as [Hs%beq_true Hk]. by exists u, key.
Qed.

(** The host key of the first start is the host key of every later one, as long as
    the file stays; when that first write fails half way, what it left is what
    every later start is refused with. *)
Theorem host_key_kept {signer : Type} (ParsePrivateKey : bytes -> result bytes signer) (MarshalPrivateKey : bytes -> result bytes bytes)
    (NewSignerFromKey : bytes -> result bytes signer) (priv pem : bytes) (W W' : bytes -> option bytes * option bytes) g'
    (Hm : MarshalPrivateKey priv = Ok pem) (Hp : ParsePrivateKey pem = NewSignerFromKey priv) :
  let load := loadOrCreateHostKey ParsePrivateKey MarshalPrivateKey NewSignerFromKey in
  (W pem = (Some pem, None) -> load g' W' (load (Ok priv) W None).2 = load (Ok priv) W None) /\
  (forall part e, W pem = (Some part, Some e) ->
     (load (Ok priv) W None).1 = Err e /\ load g' W' (load (Ok priv) W None).2 = (ParsePrivateKey part, Some part)).
Proof.
  unfold loadOrCreateHostKey. rewrite Hm. split; [intros ->; cbn; by rewrite Hp|]. by intros part e ->.
Qed.

(** ** Witnesses *)

Definition size_bytes (p : bytes) : option winChReq := match p with [c; r] => Some (WinChReq c r) | _ => None end.
Definition pty_bytes (p : bytes) : option ptyReq := match p with c :: r :: t => Some (PtyReq t c r) | _ => None end.
Definition resized (c : Z) : request := Request (str "window-change") [c; 25] false.
Definition a_shell : request := Request (str "shell") [] true.

Lemma window_followed_witness :
  let c1 := happens pty_bytes size_bytes (map EvRequest (map resized [61; 62; 63; 64; 65; 66; 67; 68; 69] ++ [a_shell]) ++ [EvNew])
              (newSshConn (str "neo"), None) in
  Telnet.Cols (c_win c1.1) = 69 /\ exists k, settled c1 = Some k /\ Terminal.Cols k = 68.
Proof.
  destruct (window_followed pty_bytes size_bytes (newSshConn (str "neo")) eq_refl) as [_ B]. cbv zeta. split; [reflexivity|].
  destruct (B (map resized [61; 62; 63; 64; 65; 66; 67; 68; 69])
    (map (λ c, {| Telnet.Cols := c; Telnet.Rows := 25 |}) [61; 62; 63; 64; 65; 66; 67])
    {| Telnet.Cols := 68; Telnet.Rows := 25 |} [] {| Telnet.Cols := 69; Telnet.Rows := 25 |} a_shell
    (happens pty_bytes size_bytes (map EvRequest (map resized [61; 62; 63; 64; 65; 66; 67; 68; 69] ++ [a_shell]) ++ [EvNew])
       (newSshConn (str "neo"), None)) eq_refl) as (_ & _ & k & Hk & [_ F]);
    [|reflexivity|reflexivity|exists k; split; [exact Hk|by apply F]].
  repeat (apply Forall2_cons; split; [split; [reflexivity|eexists; split; reflexivity]|]). apply Forall2_nil. done.
Defined.

(** A handshake: the user, the key and the channels of the connection. *)
Definition toy_handshake (auth : bytes -> bytes -> bool) (raw : bytes * bytes * list newChannel) : option (bytes * list newChannel) :=
  let '(u, k, chans) := raw in if auth u k then Some (u, chans) else None.

Lemma handler_authenticated_witness :
  let raw := (str "neo", str "fp", [NewChannel (str "session") true [a_shell]]) in
  let us := Table [(1, set_status StatusApproved 10 neo)] 1 in
  exists u, Users_ByHandle (H := toy) toy_vault (str "neo") us = Ok u /\ Status u = StatusApproved /\
    exists key, Keys_Authorizes (H := toy_ssh) (ID u) key shared_key = true.
Proof.
  intros raw us.
  destruct (accept pty_bytes size_bytes toy_handshake (λ u k, authenticator (H := toy) (H0 := toy_ssh) toy_vault u k us shared_key)
    (λ i, IsBanned i empty_table) (str "10.0.0.1") raw (newLimiter DefaultLimits)) as [[lm' hs]|] eqn:E; [|vm_compute in E; discriminate E].
  assert (Hh : hs = [set_started (newSshConn (str "neo"))]) by (vm_compute in E; injection E as <- <-; reflexivity).
  destruct (handler_authenticated (H := toy) (H0 := toy_ssh) pty_bytes size_bytes toy_handshake toy_vault us shared_key empty_table
    (str "10.0.0.1") raw (newLimiter DefaultLimits) lm' hs (set_started (newSshConn (str "neo")))) as (_ & _ & u & key & Hu & Hs & Hk);
    [|exact E|rewrite Hh; by left|exists u; split; [exact Hu|split; [exact Hs|by exists key]]].
  intros auth [[u k] chans] user chans'. cbn. destruct (auth u k) eqn:A; [|done]. intros [= <- <-]. by exists k.
Defined.

Lemma host_key_kept_witness :
  let W := λ p : bytes, (Some p, None : option bytes) in
  let load := loadOrCreateHostKey (λ d, Ok d) (λ p, Ok p) (λ p, Ok p) in
  load (Err []) W (load (Ok (str "key")) W None).2 = (Ok (str "key"), Some (str "key")).
Proof.
  intros W load. by apply (host_key_kept (λ d, Ok d) (λ p, Ok p) (λ p, Ok p) (str "key") (str "key") W W (Err []) eq_refl eq_refl).
Defined.
