(* ===== verification/Migrate.v ===== *)
(** * Schema migrations ([migrate] of src/store/store.go)

    The embedded migrations, each applied in its own transaction when its number
    exceeds the version the database records.  The SQL of a migration is a
    function on the schema that may fail; beginning a transaction, setting the
    version and committing may fail at any migration. *)

From S2P Require Import Prelude GoStrings.

(** What [migrate] reports. *)
Inductive failure :=
  | NoVersion (e : bytes)                    (** reading [user_version] *)
  | BadName (name : bytes)                   (** no number and underscore *)
  | BadNumber (name : bytes)
  | NoBegin (name e : bytes)
  | MigrationFailed (name e : bytes)
  | VersionFailed (ver : Z) (e : bytes)
  | NoCommit (name e : bytes).

(** [migrationVersion]. *)
Definition migrationVersion (name : bytes) : result failure Z :=
  match IndexByte name 95 with
  | None | Some O => Err (BadName name)
  | Some i => match Atoi (take i name) with Some n => Ok n | None => Err (BadNumber name) end
  end.

(** The database, as far as migrations see it. *)
Record database (S : Type) := Database { schema : S; user_version : Z }.
Arguments Database {S}.
Arguments schema {S}.
Arguments user_version {S}.

(** What may go wrong around the SQL, by migration. *)
Record faults := Faults {
  f_read : option bytes;
  f_begin : bytes -> option bytes;
  f_pragma : bytes -> option bytes;
  f_commit : bytes -> option bytes
}.
Definition no_faults : faults := Faults None (λ _, None) (λ _, None) (λ _, None).

Section Migrate.
(** What SQLite does with the text of a migration. *)
Context {S : Type} (exec : bytes -> S -> result bytes S).

(** One transaction: all of it or nothing. *)
Definition transaction (f : faults) (name : bytes) (ver : Z) (d : database S) : result failure () * database S :=
  match f_begin f name with
  | Some e => (Err (NoBegin name e), d)
  | None =>
      match exec name (schema d) with
      | Err e => (Err (MigrationFailed name e), d)
      | Ok s =>
          match f_pragma f name with
          | Some e => (Err (VersionFailed ver e), d)
          | None =>
              match f_commit f name with
              | Some e => (Err (NoCommit name e), d)
              | None => (Ok (), Database s ver)
              end
          end
      end
  end.

(** The loop over the sorted names; [current] is the loop's own variable. *)
Fixpoint apply_all (f : faults) (names : list bytes) (current : Z) (d : database S) : result failure () * database S :=
  match names with
  | [] => (Ok (), d)
  | name :: names =>
      match migrationVersion name with
      | Err e => (Err e, d)
      | Ok ver =>
          if ver <=? current then apply_all f names current d
          else match transaction f name ver d with
               | (Err e, d) => (Err e, d)
               | (Ok _, d) => apply_all f names ver d
               end
      end
  end.

(** Go's order on strings. *)
Fixpoint string_leb (a b : bytes) : bool :=
  match a, b with
  | [], _ => true
  | _, [] => false
  | x :: a, y :: b => (x <? y) || ((x =? y) && string_leb a b)
  end.
Fixpoint insert_name (a : bytes) (l : list bytes) : list bytes :=
  match l with [] => [a] | b :: l' => if string_leb a b then a :: l else b :: insert_name a l' end.
Definition sort_strings (l : list bytes) : list bytes := foldr insert_name [] l.

Definition HasSuffix (s p : bytes) : bool := HasPrefix (reverse s) (reverse p).

(** [migrate] over the entries of the directory. *)
Definition migrate (f : faults) (entries : list bytes) (d : database S) : result failure () * database S :=
  match f_read f with
  | Some e => (Err (NoVersion e), d)
  | None => apply_all f (sort_strings (filter (λ n, HasSuffix n (str ".sql") = true) entries)) (user_version d) d
  end.
End Migrate.

(** The directory src/store/migrations. *)
Definition migrationsFS : list bytes :=
  str <$> ["001_init.sql"; "002_approval_tokens.sql"; "003_door_kind.sql"; "004_key_fingerprint_unique.sql"; "005_ip_ban.sql";
           "006_moderation.sql"; "007_read_pointers.sql"; "008_login_anomaly.sql"; "009_key_per_tier.sql"; "010_settings.sql";
           "011_installed_doors.sql"; "012_user_points.sql"; "013_user_colorblind.sql"]%string.

(** ** Lemmas *)

(** Names in the order of their numbers, all above [v]. *)
Fixpoint numbered (v : Z) (names : list bytes) : Prop :=
  match names with
  | [] => True
  | n :: names => exists ver, migrationVersion n = Ok ver /\ v < ver /\ numbered ver names
  end.

(** The names left to apply at version [v]. *)
Definition is_due (v : Z) (n : bytes) : bool := match migrationVersion n with Ok ver => v <? ver | Err _ => false end.
Definition due (v : Z) (names : list bytes) : list bytes := filter (λ n, is_due v n = true) names.

Lemma due_cons v n ver names : migrationVersion n = Ok ver ->
  due v (n :: names) = if v <? ver then n :: due v names else due v names.
Proof.
  intros E. unfold due. destruct (v <? ver) eqn:L; [rewrite filter_cons_True by (unfold is_due; by rewrite E)|
    rewrite filter_cons_False by (unfold is_due; rewrite E; by rewrite L)]; done.
Qed.

Section Loop.
Context {S : Type} (exec : bytes -> S -> result bytes S).
#[local] Abbreviation transaction := (transaction exec).
#[local] Abbreviation apply_all := (apply_all exec).

(** The database with the migrations [names] applied. *)
Fixpoint applied (names : list bytes) (d : database S) : option (database S) :=
  match names with
  | [] => Some d
  | n :: names =>
      match migrationVersion n, exec n (schema d) with
      | Ok ver, Ok s => applied names (Database s ver)
      | _, _ => None
      end
  end.

Lemma transaction_all f name ver d : let '(r, d') := transaction f name ver d in
  match r with Ok _ => exists s, exec name (schema d) = Ok s /\ d' = Database s ver | Err _ => d' = d end.
Proof.
  unfold transaction, Migrate.transaction. destruct (f_begin f name), (exec name (schema d)) as [s|e] eqn:E, (f_pragma f name), (f_commit f name);
    try done. by exists s.
Qed.

Lemma transaction_clean name ver d s : exec name (schema d) = Ok s -> transaction no_faults name ver d = (Ok (), Database s ver).
Proof. intros E. unfold transaction, Migrate.transaction. cbn. by rewrite E. Qed.

Lemma due_low v w names : v <= w -> numbered w names -> due v names = names.
Proof.
  revert w. induction names as [|n names IH]; [done|]. intros w Hv (ver & E & Hw & Hn). rewrite (due_cons _ _ _ _ E), (proj2 (Z.ltb_lt v ver)) by lia.
  f_equal. apply (IH ver); [lia|done].
Qed.

(** The loop applies, in order, a part of what is due: all of it exactly when it
    reports success. *)
Lemma apply_all_prefix f names v0 d : numbered v0 names -> let '(r, d') := apply_all f names (user_version d) d in
  exists done_ rest, due (user_version d) names = done_ ++ rest /\ applied done_ d = Some d' /\
    (r = Ok () -> rest = []) /\ user_version d <= user_version d'.
Proof.
  revert v0 d. induction names as [|n names IH]; intros v0 d Hn; [by exists [], []|].
  destruct Hn as (ver & E & Hv & Hn). cbn [Migrate.apply_all]. rewrite (due_cons _ _ _ _ E), E. destruct (Z.leb_spec ver (user_version d)) as [Hle|Hgt].
  - rewrite (proj2 (Z.ltb_ge _ _)) by lia. by apply (IH ver).
  - rewrite (proj2 (Z.ltb_lt _ _)) by lia. pose proof (transaction_all f n ver d) as T.
    destruct (transaction f n ver d) as [[[]|e] d1].
    + destruct T as (s & Ex & ->). specialize (IH ver (Database s ver) Hn). cbn [user_version] in IH.
      destruct (apply_all f names ver (Database s ver)) as [r d']. destruct IH as (dn & rest & Hd & Ha & Hr & Hle).
      exists (n :: dn), rest. split_and!; [|cbn; by rewrite E, Ex|done|lia].
      cbn [app]. f_equal. rewrite <-Hd, (due_low ver ver) by (done || lia). apply (due_low _ ver); [lia|done].
    + subst d1. exists [], (n :: due (user_version d) names). by split_and!.
Qed.

(** Starting again from where any run stopped is starting from the beginning. *)
Lemma apply_all_resume f names v0 d : numbered v0 names ->
  let d1 := (apply_all f names (user_version d) d).2 in
  apply_all no_faults names (user_version d1) d1 = apply_all no_faults names (user_version d) d.
Proof.
  revert v0 d. induction names as [|n names IH]; intros v0 d Hn; [done|].
  pose proof (apply_all_prefix f (n :: names) v0 d Hn) as P. revert P.
  destruct Hn as (ver & E & Hv & Hn). cbn [Migrate.apply_all]. rewrite E. destruct (Z.leb_spec ver (user_version d)) as [Hle|Hgt].
  - intros P. specialize (IH ver d Hn). cbv zeta in *. destruct (apply_all f names (user_version d) d) as [r d1]. cbn [snd] in *.
    destruct P as (_ & _ & _ & _ & _ & Hm). by rewrite (proj2 (Z.leb_le ver (user_version d1))) by lia.
  - pose proof (transaction_all f n ver d) as T. destruct (transaction f n ver d) as [[[]|e] d1].
    + destruct T as (s & Ex & ->). intros _. rewrite (transaction_clean _ _ _ _ Ex). specialize (IH ver (Database s ver) Hn).
      pose proof (apply_all_prefix f names ver (Database s ver) Hn) as P. cbn [user_version] in *. cbv zeta in *.
      destruct (apply_all f names ver (Database s ver)) as [r d']. cbn [snd] in *. destruct P as (_ & _ & _ & _ & _ & Hm).
      by rewrite (proj2 (Z.leb_le ver (user_version d'))) by lia.
    + subst d1. intros _. cbn [snd]. by rewrite (proj2 (Z.leb_gt ver (user_version d))) by lia.
Qed.

(** Nothing is due after a success, whatever is done to the rows meanwhile. *)
Lemma apply_all_again f f' names v0 d d1 d2 : numbered v0 names -> user_version d2 = user_version d1 ->
  apply_all f names (user_version d) d = (Ok (), d1) -> apply_all f' names (user_version d2) d2 = (Ok (), d2).
Proof.
  intros Hn Hv2. rewrite Hv2. revert v0 d Hn. induction names as [|n names IH]; intros v0 d Hn; [done|].
  pose proof (apply_all_prefix f (n :: names) v0 d Hn) as P. revert P.
  destruct Hn as (ver & E & Hv & Hn). cbn [Migrate.apply_all]. rewrite E. destruct (Z.leb_spec ver (user_version d)) as [Hle|Hgt].
  - intros P Ha. rewrite Ha in P. destruct P as (_ & _ & _ & _ & _ & Hm). rewrite (proj2 (Z.leb_le ver (user_version d1))) by lia. by apply (IH ver d).
  - intros _. pose proof (transaction_all f n ver d) as T. destruct (transaction f n ver d) as [[[]|e] d3]; [|done].
    destruct T as (s & Ex & ->). intros Ha. pose proof (apply_all_prefix f names ver (Database s ver) Hn) as P. cbn [user_version] in P.
    rewrite Ha in P. destruct P as (_ & _ & _ & _ & _ & Hm). cbn [user_version] in Hm. rewrite (proj2 (Z.leb_le ver (user_version d1))) by lia.
    by apply (IH ver (Database s ver)).
Qed.
End Loop.

Definition migrations : list bytes := sort_strings (filter (λ n, HasSuffix n (str ".sql") = true) migrationsFS).

Lemma migrations_numbered : numbered 0 migrations.
Proof. assert (migrations = migrationsFS) as -> by by vm_compute. repeat (eexists; split; [vm_compute; reflexivity|split; [done|]]). done. Qed.

(** ** Properties *)

(** C30: Opening the database, wherever it fails: the migrations of the repository
    above the recorded version are applied in order, some first part of them
    completely and the rest not at all, the version going only up; a success
    means all of them, and then another start changes nothing; after a failure, a
    start without one ends exactly as if the failure had not been. *)
Theorem migrations_resume {S : Type} (exec : bytes -> S -> result bytes S) (f f' : faults) (d : database S) :
  let '(r, d1) := migrate exec f migrationsFS d in
  (exists done_ rest, due (user_version d) migrations = done_ ++ rest /\ applied exec done_ d = Some d1 /\ (r = Ok () -> rest = [])) /\
  user_version d <= user_version d1 /\
  (r = Ok () -> f_read f' = None -> migrate exec f' migrationsFS d1 = (Ok (), d1)) /\
  migrate exec no_faults migrationsFS d1 = migrate exec no_faults migrationsFS d.
Proof.
  unfold migrate. fold migrations. cbn [no_faults f_read]. destruct (f_read f) as [e|].
  { split_and!; [by exists [], (due (user_version d) migrations)|lia|done|done]. }
  pose proof (apply_all_prefix exec f migrations 0 d migrations_numbered) as P.
  pose proof (apply_all_resume exec f migrations 0 d migrations_numbered) as R.
  pose proof (λ d1, apply_all_again exec f f' migrations 0 d d1 d1 migrations_numbered eq_refl) as A.
  destruct (apply_all exec f migrations (user_version d) d) as [r d1]. cbn [snd] in R. destruct P as (dn & rest & Hd & Ha & Hr & Hle).
  split_and!; [by exists dn, rest|done| |exact R]. intros -> ->. by apply A.
Qed.

(** The schema as the list of what was applied; the ninth migration cannot commit. *)
Example stopped_at_nine :
  let f := Faults None (λ _, None) (λ _, None) (λ n, if beq n (str "009_key_per_tier.sql") then Some (str "disk full") else None) in
  let d := (migrate (λ n s, Ok (s ++ [n])) f migrationsFS (Database [] 0)).2 in
  user_version d = 8 /\ schema d = take 8 migrationsFS /\
  migrate (λ n s, Ok (s ++ [n])) no_faults migrationsFS d = (Ok (), Database migrationsFS 13).
Proof. by vm_compute. Qed.
