(* ===== verification/Startup.v ===== *)
(** * The start of the daemon (src/cmd/admiralbbs/main.go, Open of src/store/store.go)

    [main] from the flags and the environment to the listeners, over the host: the
    process' user and environment, the salt file, the database and the audit
    trail, with what the operating system decides.  A start either serves, with
    everything a session is given, or ends in [log.Fatal] and leaves what it did. *)

From S2P Require Import Prelude Limits Registry GoStrings Base64 GoTime Vault Sql Boards Files AuditLog Doors DoorStore World Migrate.

Definition version : bytes := str "2.2.0".

(** ** Text *)

Definition TrimPrefix (s p : bytes) : bytes := if HasPrefix s p then drop (length p) s else s.

(** [checkUpdate] on the tag the forge answers: the release to tell the log about. *)
Definition checkUpdate (current tag : bytes) : option bytes :=
  let latest := TrimPrefix (TrimSpace tag) (str "v") in
  if beq latest [] || beq latest current then None else Some latest.

(** [strings.SplitN(s, c, n)] for [n > 0]. *)
Fixpoint SplitN (n : nat) (s : bytes) (c : Z) : list bytes :=
  match n with
  | O => []
  | S O => [s]
  | S n' => match Cut s c with Some (a, b) => a :: SplitN n' b c | None => [s] end
  end.

(** The value of [strconv.Atoi] when its error is thrown away: 0 for what is no
    number, the nearest [int] for a number out of range. *)
Fixpoint parse_uint (acc : Z) (s : bytes) : option Z :=
  match s with
  | [] => Some acc
  | b :: s' => match digit b with
               | None => None
               | Some d => if 18446744073709551615 <? 10 * acc + d then Some 18446744073709551615 else parse_uint (10 * acc + d) s'
               end
  end.
Definition Atoi_value (s : bytes) : Z :=
  let '(neg, ds) := match s with
                    | b :: t => if b =? 43 then (false, t) else if b =? 45 then (true, t) else (false, s)
                    | [] => (false, s)
                    end in
  match ds with
  | [] => 0
  | _ => match parse_uint 0 ds with
         | Some n => if neg then Z.max (-9223372036854775808) (- n) else Z.min 9223372036854775807 n
         | None => 0
         end
  end.

(** [filepath.Clean]: the parts kept so far, innermost first. *)
Fixpoint clean_parts (rooted : bool) (kept parts : list bytes) : list bytes :=
  match parts with
  | [] => reverse kept
  | p :: parts =>
      if beq p [] || beq p (str ".") then clean_parts rooted kept parts
      else if beq p (str "..") then
        match kept with
        | k :: kept' => if beq k (str "..") then clean_parts rooted (p :: kept) parts else clean_parts rooted kept' parts
        | [] => if rooted then clean_parts rooted [] parts else clean_parts rooted [p] parts
        end
      else clean_parts rooted (p :: kept) parts
  end.
Definition Clean (p : bytes) : bytes :=
  let rooted := HasPrefix p (str "/") in
  let parts := clean_parts rooted [] (Split p 47) in
  if rooted then str "/" ++ Join parts (str "/") else if bool_decide (parts = []) then str "." else Join parts (str "/").

(** [filepath.Dir] and [filepath.Join] of two non-empty elements. *)
Fixpoint up_to_slash (r : bytes) : bytes := match r with b :: r' => if b =? 47 then r else up_to_slash r' | [] => [] end.
Definition Dir (p : bytes) : bytes := Clean (reverse (up_to_slash (reverse p))).
Definition Join2 (a b : bytes) : bytes := Clean (a ++ str "/" ++ b).

Example paths_clean :
  (λ p, Join2 (Dir (str p)) (str "files")) <$> ["admiralbbs.db"; "data/admiralbbs.db"; "/srv//bbs/./x/../a.db"; "../a"]%string
  = str <$> ["files"; "data/files"; "/srv/bbs/files"; "../files"]%string.
Proof. reflexivity. Qed.

(** ** Options and host *)

(** The flags. *)
Record options := Options {
  o_version : bool; o_telnet : bytes; o_ssh : bytes; o_hostkey : bytes; o_audit : bytes; o_db : bytes; o_salt : bytes;
  o_art : bytes; o_max_sessions : Z; o_per_ip : Z; o_idle : Z; o_daily_minutes : Z; o_door_opts : Opts; o_max_per_user : Z;
  o_nodes : Z; o_doors_data : bytes; o_doors : list bytes; o_update_url : bytes
}.

(** The flags' defaults; [url]: ADMIRALBBS_UPDATE_URL. *)
Definition default_options (url : bytes) : options := {|
  o_version := false; o_telnet := str ":2323"; o_ssh := str ":2222"; o_hostkey := str "ssh_host_ed25519_key";
  o_audit := str "audit.jsonl"; o_db := str "admiralbbs.db"; o_salt := str "key.salt"; o_art := [];
  o_max_sessions := 100; o_per_ip := 5; o_idle := 10 * Minute; o_daily_minutes := 60;
  o_door_opts := MkOpts 0 0 [] [] [] 0 0 [] false false; o_max_per_user := 1; o_nodes := 64;
  o_doors_data := []; o_doors := []; o_update_url := url
|}.

Definition ENV_KEY : bytes := str "ADMIRALBBS_KEY".
Definition ENV_SYSOP_PASS : bytes := str "ADMIRALBBS_SYSOP_PASS".

Record host := Host {
  euid : Z;
  environ : gmap bytes bytes;
  saltFile : option bytes;
  disk : database bbs;
  trailFile : option bytes
}.

Definition set_environ (x : gmap bytes bytes) (h : host) : host := Host (euid h) x (saltFile h) (disk h) (trailFile h).
Definition set_salt (x : option bytes) (h : host) : host := Host (euid h) (environ h) x (disk h) (trailFile h).
Definition set_disk (x : database bbs) (h : host) : host := Host (euid h) (environ h) (saltFile h) x (trailFile h).
Definition set_trail (x : option bytes) (h : host) : host := Host (euid h) (environ h) (saltFile h) (disk h) x.
Definition on_schema (f : bbs -> bbs) (h : host) : host :=
  set_disk (Migrate.Database (f (Migrate.schema (disk h))) (Migrate.user_version (disk h))) h.

Definition Getenv (k : bytes) (h : host) : bytes := default [] (environ h !! k).
Definition Unsetenv (k : bytes) (h : host) : host := set_environ (base.delete k (environ h)) h.

(** What the operating system decides: the bytes of a new salt and whether it can
    be written; the errors of opening the database, of its directory of files, of
    the migrations and of opening the trail; whether the demo door's script is there. *)
Record chance := Chance {
  salt_rnd : bytes; salt_writes : bool; db_opens : option bytes; files_dir : option bytes; migrating : faults;
  demo_there : bool; trail_opens : option bytes
}.

(** The message of [log.Fatal]. *)
Inductive fatal :=
  | AsRoot | NoSecret | NoSalt (e : vaultErr) | NoVault (e : vaultErr)
  | NoDatabase (e : bytes) | NoFilesDir (e : bytes) | NotMigrated (e : failure)
  | NotSeeded (e : err) | BadDoor (spec : bytes) | NotRegistered (name : bytes) (e : err)
  | NoTrail (e : auditErr) | TrailClosed (e : bytes).

(** What the sessions are given. *)
Record server := Server {
  sv_vault : Vault; sv_sysopPass : bytes; sv_logger : Logger; sv_limits : Limits; sv_presence : Presence.t; sv_nodes : NodePool.t;
  sv_doorsData : bytes; sv_daily : Z; sv_idle : Z; sv_doorOpts : Opts; sv_art : bytes; sv_audit : bytes
}.

Inductive outcome := Printed (b : bytes) | Fatal (e : fatal) | Listens (s : server).

(** ** Steps *)

(** A step of the start: its value or the end of the process, and the state. *)
Definition boot (S A : Type) : Type := S -> result fatal A * S.
#[export] Instance boot_ret {S} : MRet (boot S) := λ A a h, (Ok a, h).
#[export] Instance boot_bind {S} : MBind (boot S) := λ A B k m h, match m h with (Ok a, h) => k a h | (Err e, h) => (Err e, h) end.

Definition halt {S A} (e : fatal) : boot S A := λ h, (Err e, h).
Definition getenv (k : bytes) : boot host bytes := λ h, (Ok (Getenv k h), h).
Definition unsetenv (k : bytes) : boot host () := λ h, (Ok (), Unsetenv k h).
Definition must {S A E} (wrap : E -> fatal) (r : result E A) : boot S A := match r with Ok a => mret a | Err e => halt (wrap e) end.

(** A call on one table. *)
Definition on_table {T} (get : bbs -> T) (put : T -> bbs -> bbs) (wrap : err -> fatal) (f : T -> result err () * T) : boot bbs () :=
  λ b, let '(r, t) := f (get b) in (match r with Ok _ => Ok () | Err e => Err (wrap e) end, put t b).

Definition on_disk {A} (m : boot bbs A) : boot host A := λ h, let '(r, b) := m (Migrate.schema (disk h)) in (r, on_schema (λ _, b) h).

(** A [-door] flag; [None]: the daemon refuses to start. *)
Definition door_spec (spec : bytes) : option (bytes * bytes * bytes * Z) :=
  match SplitN 4 spec 124 with
  | [n; net; a] => Some (n, net, a, 0)
  | [n; net; a; l] => Some (n, net, a, Atoi_value (TrimSpace l))
  | _ => None
  end.

Fixpoint register_specs (specs : list bytes) : boot bbs () :=
  match specs with
  | [] => mret ()
  | s :: specs =>
      match door_spec s with
      | None => halt (BadDoor s)
      | Some (n, net, a, l) => on_table db_doors put_doors (NotRegistered n) (EnsureResidentDoor n net a l) ;; register_specs specs
      end
  end.

(** The flags are the defaults of a fresh database only. *)
Definition seed_setting (key : bytes) (def : Z) (m : settings) : settings :=
  if beq (Settings_Get key [] m) [] then Settings_Set key (Itoa def) m else m.
Definition seed_settings (idle daily : Z) : boot bbs () := λ b,
  (Ok (), put_settings (seed_setting (str "daily_minutes") daily (seed_setting (str "idle_minutes") idle (db_settings b))) b).

(** What a start adds to the database. *)
Definition seed (demo : bool) (specs : list bytes) (idle daily : Z) : boot bbs () :=
  on_table db_areas put_areas NotSeeded EnsureSeedAreas ;;
  on_table db_fareas put_fareas NotSeeded EnsureSeedFileAreas ;;
  on_table db_doors put_doors NotSeeded (EnsureSeedDoors demo) ;;
  register_specs specs ;;
  seed_settings idle daily.

Section Startup.
Context `{Crypto}.
(** What SQLite does with the text of a migration. *)
Variable exec : bytes -> bbs -> result bytes bbs.

Definition load_vault (c : chance) : boot host Vault := λ h,
  let secret := Getenv ENV_KEY h in
  if beq secret [] then (Err NoSecret, h)
  else let '(r, f) := LoadOrCreateSalt (saltFile h) (salt_rnd c) (salt_writes c) in
       let h := set_salt f h in
       match r with
       | Err e => (Err (NoSalt e), h)
       | Ok salt => must NoVault (NewVault secret salt) h
       end.

(** [store.Open]: the pragmas are part of the data source's name. *)
Definition Store_Open (c : chance) : boot host () := λ h,
  match db_opens c, files_dir c with
  | Some e, _ => (Err (NoDatabase e), h)
  | None, Some e => (Err (NoFilesDir e), h)
  | None, None =>
      let '(r, d) := migrate exec (migrating c) migrationsFS (disk h) in
      (match r with Ok _ => Ok () | Err e => Err (NotMigrated e) end, set_disk d h)
  end.

(** [audit.New] reads the tip before it opens the file, creating it. *)
Definition open_trail (c : chance) (v : Vault) : boot host Logger := λ h,
  match AuditLog.New (trailFile h) v, trail_opens c with
  | Err e, _ => (Err (NoTrail e), h)
  | Ok _, Some e => (Err (TrailClosed e), h)
  | Ok l, None => (Ok l, set_trail (Some (file l)) h)
  end.

Definition bring_up (o : options) (c : chance) : boot host server :=
  v ← load_vault c;
  unsetenv ENV_KEY ;;
  pass ← getenv ENV_SYSOP_PASS;
  unsetenv ENV_SYSOP_PASS ;;
  Store_Open c ;;
  on_disk (seed (demo_there c) (o_doors o) (Z.quot (o_idle o) Minute) (o_daily_minutes o)) ;;
  l ← open_trail c v;
  mret (Server v pass l {| MaxSessions := o_max_sessions o; PerIP := o_per_ip o; HandshakeTimeout := 10 * Second |}
    (Presence.New (o_max_per_user o)) (NodePool.New (o_nodes o))
    (if beq (o_doors_data o) [] then Join2 (Dir (o_db o)) (str "doors-data") else o_doors_data o)
    (o_daily_minutes o) (Z.quot (o_idle o) Minute) (o_door_opts o) (o_art o) (o_audit o)).

Definition main (o : options) (c : chance) (h : host) : outcome * host :=
  if o_version o then (Printed (str "AdmiralBBS " ++ version ++ [10]), h)
  else if euid h =? 0 then (Fatal AsRoot, h)
  else match bring_up o c h with (Ok s, h) => (Listens s, h) | (Err e, h) => (Fatal e, h) end.
End Startup.

(** ** Lemmas *)

Section Inversion.
Context `{Crypto}.
Variable exec : bytes -> bbs -> result bytes bbs.

(** What a start that gets to the listeners went through, and the host it leaves. *)
Record served (o : options) (c : chance) (h : host) (s : server) (h1 : host) : Prop := {
  s_user : o_version o = false /\ euid h <> 0;
  s_secret : Getenv ENV_KEY h <> [];
  s_salt : exists salt, LoadOrCreateSalt (saltFile h) (salt_rnd c) (salt_writes c) = (Ok salt, saltFile h1) /\
    NewVault (Getenv ENV_KEY h) salt = Ok (sv_vault s);
  s_opened : db_opens c = None /\ files_dir c = None /\ trail_opens c = None;
  s_disk : exists d, migrate exec (migrating c) migrationsFS (disk h) = (Ok (), d) /\
    seed (demo_there c) (o_doors o) (Z.quot (o_idle o) Minute) (o_daily_minutes o) (Migrate.schema d) = (Ok (), Migrate.schema (disk h1)) /\
    Migrate.user_version (disk h1) = Migrate.user_version d;
  s_trail : AuditLog.New (trailFile h) (sv_vault s) = Ok (sv_logger s) /\ trailFile h1 = Some (file (sv_logger s));
  s_environ : euid h1 = euid h /\ environ h1 = base.delete ENV_SYSOP_PASS (base.delete ENV_KEY (environ h));
  s_given : s = Server (sv_vault s) (Getenv ENV_SYSOP_PASS h) (sv_logger s)
    {| MaxSessions := o_max_sessions o; PerIP := o_per_ip o; HandshakeTimeout := 10 * Second |}
    (Presence.New (o_max_per_user o)) (NodePool.New (o_nodes o))
    (if beq (o_doors_data o) [] then Join2 (Dir (o_db o)) (str "doors-data") else o_doors_data o)
    (o_daily_minutes o) (Z.quot (o_idle o) Minute) (o_door_opts o) (o_art o) (o_audit o)
}.

Lemma boot_ok {S A B} (m : boot S A) (k : A -> boot S B) h a h1 : m h = (Ok a, h1) -> (m ≫= k) h = k a h1.
Proof. intros E. unfold mbind, boot_bind. by rewrite E. Qed.

Lemma Getenv_pass h : Getenv ENV_SYSOP_PASS (Unsetenv ENV_KEY h) = Getenv ENV_SYSOP_PASS h.
Proof. unfold Getenv, Unsetenv. cbn [environ set_environ]. by rewrite lookup_delete_ne. Qed.

Lemma served_spec o c h s h1 : main exec o c h = (Listens s, h1) <-> served o c h s h1.
Proof.
  unfold main, bring_up. split.
  - destruct (o_version o) eqn:Ev; [done|]. destruct (Z.eqb_spec (euid h) 0) as [|Hu]; [done|].
    unfold mbind, boot_bind, load_vault. destruct (beq (Getenv ENV_KEY h) []) eqn:Ek; [done|].
    destruct (LoadOrCreateSalt _ _ _) as [[salt|] f] eqn:Es; [|done]. destruct (NewVault _ salt) as [v|] eqn:En; [|done].
    cbn -[migrate seed AuditLog.New Getenv]. unfold Store_Open, on_disk. destruct (db_opens c) eqn:Eo; [done|].
    destruct (files_dir c) eqn:Ef; [done|]. cbn -[migrate seed AuditLog.New Getenv].
    destruct (migrate _ _ _ _) as [[[]|] d] eqn:Em; [|done]. cbn -[seed AuditLog.New Getenv].
    destruct (seed _ _ _ _ _) as [[[]|] b] eqn:Ee; [|done]. cbn -[AuditLog.New Getenv]. unfold open_trail. cbn -[AuditLog.New Getenv].
    destruct (AuditLog.New (trailFile h) v) as [l|] eqn:El; [|done]. destruct (trail_opens c) eqn:Et; [done|]. cbn -[Getenv].
    rewrite Getenv_pass. intros [= <- <-]. apply beq_false in Ek. split; cbn; eauto 10.
  - intros [[Ev Hu] Hk (salt & Es & En) (Eo & Ef & Et) (d & Em & Ee & Hv) (El & Ht) [Hu1 He] Hs].
    rewrite Ev, (proj2 (Z.eqb_neq _ _) Hu).
    rewrite (boot_ok _ _ _ (sv_vault s) (set_salt (saltFile h1) h)).
    2: { unfold load_vault. by rewrite (proj2 (beq_false _ _) Hk), Es, En. }
    erewrite (boot_ok (unsetenv _)), (boot_ok (getenv _)), (boot_ok (unsetenv _)) by reflexivity.
    erewrite boot_ok by (unfold Store_Open; rewrite Eo, Ef; cbn [disk set_salt set_environ Unsetenv]; by rewrite Em).
    erewrite boot_ok by (unfold on_disk; cbn [disk set_disk]; by rewrite Ee).
    erewrite boot_ok by (unfold open_trail; cbn [trailFile set_disk on_schema set_salt set_environ Unsetenv]; by rewrite El, Et).
    rewrite Getenv_pass. change (Getenv ENV_SYSOP_PASS (set_salt _ h)) with (Getenv ENV_SYSOP_PASS h).
    unfold mret, boot_ret. rewrite <-Hs. destruct h1 as [u1 e1 s1 [b1 n1] t1]. cbn in Hv, Ht, Hu1, He. by rewrite Hv, Ht, Hu1, He.
Qed.
End Inversion.

(** ** Lemmas: starting again *)

Lemma Itoa_nonempty n : Itoa n <> [].
Proof.
  unfold Itoa. destruct (n <? 0); [done|]. apply dec_nonempty.
Qed.

Lemma seed_set key d m : Settings_Get key [] m <> [] -> seed_setting key d m = m.
Proof. intros Hm. unfold seed_setting. by rewrite (proj2 (beq_false _ _) Hm). Qed.

Lemma Get_seed key d m : Settings_Get key [] (seed_setting key d m) <> [].
Proof.
  unfold seed_setting. destruct (beq (Settings_Get key [] m) []) eqn:E; [|by apply beq_false in E].
  unfold Settings_Get, Settings_Set. rewrite lookup_insert_eq. apply Itoa_nonempty.
Qed.

Lemma Get_seed_other key k d m : key <> k -> Settings_Get key [] (seed_setting k d m) = Settings_Get key [] m.
Proof. intros Hk. unfold seed_setting. destruct (beq _ _); [|done]. unfold Settings_Get, Settings_Set. by rewrite lookup_insert_ne. Qed.

Lemma seed_both_again k k' d d' i i' m : k' <> k ->
  let m1 := seed_setting k d (seed_setting k' i m) in seed_setting k d' (seed_setting k' i' m1) = m1.
Proof.
  intros Hk m1. assert (E : seed_setting k' i' m1 = m1).
  { apply seed_set. unfold m1. rewrite Get_seed_other by done. apply Get_seed. }
  rewrite E. apply seed_set. apply Get_seed.
Qed.

Lemma insert_filled {R} (r : R) t id t' : insert r t = Ok (id, t') -> 0 < len (rows t').
Proof. intros Hi. rewrite (insert_rows _ _ _ _ Hi), len_app. pose proof (len_nonneg (rows t)). change (len [(id, r)]) with 1. lia. Qed.

Lemma areas_again a a1 : EnsureSeedAreas a = (Ok (), a1) -> EnsureSeedAreas a1 = (Ok (), a1).
Proof.
  unfold EnsureSeedAreas, Areas_Count. destruct (0 <? len (rows a)) eqn:E; [intros [= <-]; by rewrite E|].
  intros Hs. replace (0 <? len (rows a1)) with true; [done|]. symmetry. apply Z.ltb_lt. revert Hs. unfold seedAreas. cbn [seed_areas].
  unfold Areas_Create. destruct (0 <? count _ a); [done|]. destruct (insert _ a) as [[i t]|]; [|done].
  destruct (0 <? count _ t); [done|]. destruct (insert _ t) as [[j u]|] eqn:Ei; [|done]. intros [= <-]. by eapply insert_filled.
Qed.

Lemma fareas_again a a1 : EnsureSeedFileAreas a = (Ok (), a1) -> EnsureSeedFileAreas a1 = (Ok (), a1).
Proof.
  unfold EnsureSeedFileAreas, FileAreas_Count. destruct (0 <? len (rows a)) eqn:E; [intros [= <-]; by rewrite E|].
  unfold FileAreas_Create. destruct (0 <? count _ a); [done|]. destruct (insert _ a) as [[i t]|] eqn:Ei; [|done]. intros [= <-].
  apply insert_filled in Ei. by rewrite (proj2 (Z.ltb_lt _ _) Ei).
Qed.

(** ** Doors of the command line *)

(** The door table is well formed and its names are unique. *)
Definition doors_ok (t : doors) : Prop := wf t /\ names_unique t.

Fixpoint register (specs : list bytes) (t : doors) : option doors :=
  match specs with
  | [] => Some t
  | s :: specs =>
      match door_spec s with
      | None => None
      | Some (n, net, a, l) => match EnsureResidentDoor n net a l t with (Ok _, t) => register specs t | (Err _, _) => None end
      end
  end.

Lemma put_doors_twice x y b : put_doors x (put_doors y b) = put_doors x b.
Proof. done. Qed.

Lemma register_specs_ok specs b b1 :
  register_specs specs b = (Ok (), b1) <-> exists t, register specs (db_doors b) = Some t /\ b1 = put_doors t b.
Proof.
  revert b. induction specs as [|s specs IH]; intros b; cbn [register_specs register].
  - split; [intros [= <-]; exists (db_doors b); by destruct b|intros (t & [= <-] & ->); by destruct b].
  - destruct (door_spec s) as [[[[n net] a] l]|]; [|by split; [|intros (t & ? & _)]].
    unfold mbind, boot_bind, on_table. destruct (EnsureResidentDoor n net a l (db_doors b)) as [[[]|e] t']; [|by split; [|intros (t & ? & _)]].
    rewrite IH. cbn [db_doors put_doors]. by setoid_rewrite put_doors_twice.
Qed.

Lemma set_resident_name net a r : d_name (set_resident net a r) = d_name r.
Proof. done. Qed.

Lemma ensure_spec n net a l t t' : doors_ok t -> EnsureResidentDoor n net a l t = (Ok (), t') ->
  doors_ok t' /\
  (exists i r, (i, r) ∈ rows t' /\ d_name r = n) /\
  (forall i r, (i, r) ∈ rows t' -> if decide (d_name r = n) then set_resident net a r = r else (i, r) ∈ rows t) /\
  (forall i r, (i, r) ∈ rows t -> exists r', (i, r') ∈ rows t' /\ d_name r' = d_name r).
Proof.
  intros [Hw Hu]. unfold EnsureResidentDoor. pose proof (head_select (named n) t) as Hh.
  destruct (head (select (named n) t)) as [[i r]|].
  - intros [= <-]. destruct Hh as [Hi Hn]. apply beq_true in Hn. split; [by apply update_door_spec|]. split_and!.
    + exists i, (set_resident net a r). split; [|done]. apply update_rows. exists r. unfold by_id. by rewrite Z.eqb_refl.
    + intros j s (s0 & Hs & ->)%update_rows. unfold by_id. destruct (Z.eqb_spec j i) as [->|Hne].
      * rewrite (wf_id_inj t i s0 r), set_resident_name by done. by rewrite decide_True.
      * rewrite decide_False; [done|]. intros E. by apply Hne, (Hu j s0 i r); [| |congruence].
    + intros j s Hs. eexists. split; [apply update_rows; by exists s|]. by destruct (by_id i j s).
  - unfold Doors_CreateResident, insert_door. cbn [d_name]. rewrite Hh. cbn [Z.ltb Z.compare].
    pose proof (insert_door_spec (DoorRow n [] (str "door32.sys") l KindResident net a) t Hw Hu) as Hk.
    unfold insert_door in Hk. cbn [d_name] in Hk. rewrite Hh in Hk. cbn [Z.ltb Z.compare] in Hk.
    destruct (insert _ t) as [[i u]|] eqn:Ei; [|done]. intros [= <-]. split; [done|]. rewrite (insert_rows _ _ _ _ Ei). rewrite count_zero in Hh. split_and!.
    + exists i. eexists. rewrite elem_of_app, list_elem_of_singleton. split; [by right|done].
    + intros j s [Hs|Hs]%elem_of_app; [|apply list_elem_of_singleton in Hs as [= -> ->]; by rewrite decide_True].
      rewrite decide_False; [done|]. intros E. apply Hh in Hs. by apply beq_false in Hs.
    + intros j s Hs. exists s. rewrite elem_of_app. auto.
Qed.

(** The names a list of flags gives. *)
Definition spec_name (s : bytes) : bytes := match door_spec s with Some (n, _, _, _) => n | None => [] end.
Definition spec_names (specs : list bytes) : list bytes := spec_name <$> specs.

(** Every door of [specs] is in the table as its last flag has it. *)
Fixpoint landed (specs : list bytes) (t : doors) : Prop :=
  match specs with
  | [] => True
  | s :: specs =>
      (exists i r, (i, r) ∈ rows t /\ d_name r = spec_name s) /\
      (match door_spec s with
       | None => False
       | Some (n, net, a, _) => n ∈ spec_names specs \/ forall i r, (i, r) ∈ rows t -> d_name r = n -> set_resident net a r = r
       end) /\ landed specs t
  end.

Lemma register_keeps specs t t1 : doors_ok t -> register specs t = Some t1 ->
  doors_ok t1 /\ (forall i r, (i, r) ∈ rows t1 -> d_name r ∉ spec_names specs -> (i, r) ∈ rows t) /\
  (forall i r, (i, r) ∈ rows t -> exists r', (i, r') ∈ rows t1 /\ d_name r' = d_name r).
Proof.
  revert t. induction specs as [|s specs IH]; intros t Ht; cbn [register]; [intros [= <-]; split_and!; eauto|].
  unfold spec_names. cbn [fmap list_fmap]. unfold spec_name at 1. destruct (door_spec s) as [[[[n net] a] l]|] eqn:Es; [|done].
  destruct (EnsureResidentDoor n net a l t) as [[[]|] t'] eqn:E; [|done]. intros Hr.
  destruct (ensure_spec _ _ _ _ _ _ Ht E) as (Ht' & _ & Hin & Hout). destruct (IH t' Ht' Hr) as (H1x & H2x & H3x). split_and!; [done| |].
  - intros i r Hi Hn. apply not_elem_of_cons in Hn as [Hn Hs]. specialize (Hin i r (H2x i r Hi Hs)). by rewrite decide_False in Hin.
  - intros i r Hi. destruct (Hout i r Hi) as (r' & Hi' & <-). by apply H3x.
Qed.

Lemma register_lands specs t t1 : doors_ok t -> register specs t = Some t1 -> landed specs t1.
Proof.
  revert t. induction specs as [|s specs IH]; intros t Ht; cbn [register landed]; [done|].
  unfold spec_name. destruct (door_spec s) as [[[[n net] a] l]|] eqn:Es; [|done].
  destruct (EnsureResidentDoor n net a l t) as [[[]|] t'] eqn:E; [|done]. intros Hr.
  destruct (ensure_spec _ _ _ _ _ _ Ht E) as (Ht' & (i & r & Hi & Hn) & Hin & _).
  destruct (register_keeps specs t' t1 Ht' Hr) as (_ & Hk & Hm). split_and!; [|destruct (decide (n ∈ spec_names specs)) as [|Hns]; [by left|right]|by eapply IH].
  - destruct (Hm i r Hi) as (r' & Hi' & Hn'). exists i, r'. split; [done|congruence].
  - intros j q Hj Hq. assert (Hj' : (j, q) ∈ rows t') by (apply Hk; [done|congruence]). specialize (Hin j q Hj'). by rewrite decide_True in Hin.
Qed.

(** [x] is the row [y], but for a door that is still to be set. *)
Definition settled (names : list bytes) (x y : Z * doorRow) : Prop :=
  x.1 = y.1 /\ set_resident [] [] x.2 = set_resident [] [] y.2 /\ (x.2 = y.2 \/ d_name y.2 ∈ names) \/ x = y.

Definition alike (names : list bytes) (t' t : doors) : Prop :=
  exists g, rows t' = g <$> rows t /\ seq t' = seq t /\ forall y, y ∈ rows t -> settled names (g y) y.

Lemma settled_same names x y : settled names x y -> x.1 = y.1 /\ set_resident [] [] x.2 = set_resident [] [] y.2.
Proof. intros [(? & ? & _)| ->]; done. Qed.

Lemma set_resident_from net a x y : set_resident [] [] x = set_resident [] [] y -> set_resident net a x = set_resident net a y.
Proof. destruct x, y. cbn. unfold set_resident. cbn. by intros [= -> -> ->]. Qed.

Lemma named_alike x y : set_resident [] [] x = set_resident [] [] y -> d_name x = d_name y.
Proof. destruct x, y. cbn. by intros [= -> _ _]. Qed.

Lemma ensure_again n net a l names t' t : doors_ok t -> alike (n :: names) t' t ->
  (exists i r, (i, r) ∈ rows t /\ d_name r = n) ->
  (n ∈ names \/ forall i r, (i, r) ∈ rows t -> d_name r = n -> set_resident net a r = r) ->
  exists t'', EnsureResidentDoor n net a l t' = (Ok (), t'') /\ alike names t'' t.
Proof.
  intros [Hw Hu] (g & Hg & Hs & Hsame) (i0 & r0 & Hi0 & Hn0) Hfix. unfold EnsureResidentDoor.
  pose proof (head_select (named n) t') as Hh. destruct (head (select (named n) t')) as [[i r]|].
  - eexists. split; [reflexivity|]. destruct Hh as [Hi Hn]. apply beq_true in Hn.
    rewrite Hg in Hi. apply list_elem_of_fmap in Hi as ([j s] & Hgy & Hj). pose proof (Hsame _ Hj) as Sy. rewrite <-Hgy in Sy.
    destruct (settled_same _ _ _ Sy) as [Ej Es]. cbn in Ej, Es. subst j. apply named_alike in Es as En.
    exists (λ y, if by_id i y.1 y.2 then (y.1, set_resident net a (g y).2) else g y). split; [|split; [done|]].
    + cbn. rewrite Hg, <-list_fmap_compose. apply list_fmap_ext. intros k y Hk. apply list_elem_of_lookup_2 in Hk.
      destruct (settled_same _ _ _ (Hsame y Hk)) as [E1 _]. unfold compose, by_id. rewrite E1. by destruct (y.1 =? i).
    + intros [j q] Hq. destruct (settled_same _ _ _ (Hsame _ Hq)) as [E1 E2]. unfold by_id. cbn [fst snd] in *. destruct (Z.eqb_spec j i) as [->|Hne].
      * assert (q = s) as -> by by eapply wf_id_inj. left. cbn. split; [done|]. split; [exact E2|].
        destruct Hfix as [Hin|Hfix]; [right; congruence|left]. rewrite (set_resident_from net a _ s E2). apply (Hfix i s Hj). congruence.
      * destruct (Hsame _ Hq) as [(F1 & F2 & [F3|F3])|F]; [left; auto| |by right]. left. split; [done|]. split; [done|].
        apply elem_of_cons in F3 as [F3|F3]; [|by right]. exfalso. apply Hne, (Hu j q i s); [done..|]. cbn in F3. congruence.
  - exfalso. rewrite count_zero in Hh. assert (Hin : g (i0, r0) ∈ rows t') by (rewrite Hg; by apply list_elem_of_fmap_2).
    destruct (settled_same _ _ _ (Hsame _ Hi0)) as [_ E]. apply named_alike in E. destruct (g (i0, r0)) as [i r] eqn:Eg.
    specialize (Hh i r Hin). unfold named in Hh. apply beq_false in Hh. cbn in E. congruence.
Qed.

Lemma register_again specs t' t : doors_ok t -> landed specs t -> alike (spec_names specs) t' t -> register specs t' = Some t.
Proof.
  intros Ht. revert t'. induction specs as [|s specs IH]; intros t'; cbn [register landed].
  - intros _ (g & Hg & Hs & Hsame). f_equal. destruct t as [l k], t' as [l' k']. cbn in *. subst. f_equal.
    rewrite <-(list_fmap_id l) at 2. apply list_fmap_ext. intros i y Hi. apply list_elem_of_lookup_2 in Hi.
    destruct (Hsame y Hi) as [(E1 & _ & [E2|E2])|E]; [|by apply elem_of_nil in E2|done]. destruct (g y), y. cbn in *. by subst.
  - intros (Hex & Hfix & Hl) Ha. unfold spec_names in Ha. cbn in Ha. unfold spec_name in Hex, Ha at 1.
    destruct (door_spec s) as [[[[n net] a] l]|]; [|done].
    destruct (ensure_again n net a l _ _ _ Ht Ha Hex Hfix) as (t'' & -> & Ha'). by apply IH.
Qed.

Lemma alike_refl names t : alike names t t.
Proof. exists id. rewrite list_fmap_id. split_and!; [done..|]. intros y _. by right. Qed.

Lemma register_count specs t t1 : doors_ok t -> register specs t = Some t1 -> Doors_Count t1 = 0 -> Doors_Count t = 0.
Proof.
  intros Ht Hr. unfold Doors_Count. destruct (rows t) as [|[i r] k] eqn:E; [done|]. destruct (register_keeps _ _ _ Ht Hr) as (_ & _ & Hm).
  destruct (Hm i r) as (r' & Hin & _); [rewrite E; left|]. destruct (rows t1); [by apply elem_of_nil in Hin|]. done.
Qed.

Lemma seed_doors_ok demo t t1 : doors_ok t -> EnsureSeedDoors demo t = (Ok (), t1) -> doors_ok t1 /\ (Doors_Count t1 = 0 -> demo = false).
Proof.
  intros [Hw Hu]. unfold EnsureSeedDoors. destruct (Z.ltb_spec 0 (Doors_Count t)); [intros [= <-]; split; [done|lia]|].
  destruct demo; [|intros [= <-]; done]. cbn [negb]. unfold Doors_Create. cbn [beq].
  match goal with |- context [insert_door ?r t] => pose proof (insert_door_spec r t Hw Hu) as Hk; pose proof (insert_filled r t) as Hf; unfold insert_door in *; cbn [d_name] in * end.
  destruct (0 <? count _ t); [done|]. destruct (insert _ t) as [[i u]|] eqn:Ei; [|done]. intros [= <-]. split; [done|].
  specialize (Hf i u eq_refl). unfold Doors_Count. lia.
Qed.

Lemma seed_doors_again demo t t1 specs t2 : doors_ok t -> EnsureSeedDoors demo t = (Ok (), t1) -> register specs t1 = Some t2 ->
  EnsureSeedDoors demo t2 = (Ok (), t2).
Proof.
  intros Ht Hs Hr. destruct (seed_doors_ok _ _ _ Ht Hs) as [Ht1 Hd]. unfold EnsureSeedDoors. destruct (Z.ltb_spec 0 (Doors_Count t2)); [done|].
  rewrite Hd; [done|]. apply (register_count specs t1 t2 Ht1 Hr). unfold Doors_Count in *. pose proof (len_nonneg (rows t2)). lia.
Qed.

(** What was seeded once is not seeded again, whatever the flags for the times say now. *)
Lemma seed_again demo specs i d i' d' b b1 : doors_ok (db_doors b) ->
  seed demo specs i d b = (Ok (), b1) -> seed demo specs i' d' b1 = (Ok (), b1).
Proof.
  intros Ht. unfold seed, mbind, boot_bind, on_table.
  destruct (EnsureSeedAreas (db_areas b)) as [[[]|] ars] eqn:Ea; [|done]. cbn [db_fareas put_areas].
  destruct (EnsureSeedFileAreas (db_fareas b)) as [[[]|] fars] eqn:Ef; [|done]. cbn [db_doors put_fareas put_areas].
  destruct (EnsureSeedDoors demo (db_doors b)) as [[[]|] t1] eqn:Ed; [|done].
  destruct (register_specs specs _) as [[[]|] b2] eqn:Er; [|done]. apply register_specs_ok in Er as (t2 & Hr & ->).
  cbn [db_doors put_doors] in Hr. intros [= <-]. unfold seed_settings. cbn [db_areas db_fareas db_doors db_settings put_settings put_doors put_fareas put_areas].
  rewrite (areas_again _ _ Ea). cbn [db_fareas put_settings put_doors put_fareas put_areas]. rewrite (fareas_again _ _ Ef).
  cbn [db_doors put_settings put_doors put_fareas put_areas]. rewrite (seed_doors_again _ _ _ _ _ Ht Ed Hr).
  destruct (seed_doors_ok _ _ _ Ht Ed) as [Ht1 _]. destruct (register_keeps _ _ _ Ht1 Hr) as (Ht2 & _).
  match goal with |- context [register_specs specs ?b] => assert (register_specs specs b = (Ok (), b)) as -> end.
  - apply register_specs_ok. exists t2. split; [|done]. apply register_again; [done|exact (register_lands _ _ _ Ht1 Hr)|apply alike_refl].
  - cbn [db_settings put_settings put_doors put_fareas put_areas]. by rewrite seed_both_again.
Qed.

(** ** Lemmas: the trail under another key *)

Section OtherKey.
Context `{CryptoLaws, EventJsonLaws}.

Lemma New_file f v l : AuditLog.New f v = Ok l -> file l = default [] f.
Proof. unfold AuditLog.New. destruct (chainTip f v); [|done]. by intros [= <-]. Qed.

(** A file made empty is a file that was not there. *)
Lemma New_again f v l : AuditLog.New f v = Ok l -> AuditLog.New (Some (file l)) v = Ok l.
Proof. intros Hn. rewrite (New_file _ _ _ Hn), <-Hn. by destruct f. Qed.

(** The key plays no part in recovering the tip. *)
Lemma New_other_key f v v' cts es : holds v f cts es -> cts <> [] -> AuditLog.New f v' = AuditLog.New f v.
Proof.
  intros [Hf Hr] Hne. unfold AuditLog.New, chainTip. destruct f as [data|].
  - cbn in Hf. destruct (chain_lines v (start v) cts es Hr) as [Hfr _].
    destruct (trim_text (chain v (start v) cts) Hfr) as (t & Et & Hft & _); [by destruct cts|].
    rewrite Hf. unfold trail_file. rewrite Et. destruct (Z.eqb_spec (len t) 0) as [Hz|]; [|done].
    apply len_nil_inv in Hz as ->. by destruct Hft as (? & ? & ? & _ & _ & ?).
  - destruct cts; [done|]. apply (f_equal length) in Hf. unfold trail_file, text_of in Hf. cbn [chain] in Hf.
    rewrite bind_cons, !length_app in Hf. cbn in Hf. lia.
Qed.

(** Reading stops at the first line of another key, whatever comes after it. *)
Lemma read_other_line v cts es ct mac later : Forall2 (reads_as v) cts es ->
  bytes_ok ct -> ct <> [] -> bytes_ok mac -> mac <> [] -> len (line ct mac) < maxLine -> MAC v (tip v (start v) cts) ct <> mac ->
  ReadAll (Some (trail_file v cts ++ line ct mac ++ [10] ++ later)) v = (es, Some ErrChainBroken).
Proof.
  intros Hr Hb Hne Hm Hmne Hl Hmac. destruct (chain_lines v (start v) cts es Hr) as [_ Hn].
  assert (Hn1 : Forall (λ l, 10 ∉ l) (chain v (start v) cts ++ [line ct mac])).
  { apply Forall_app. split; [done|]. apply Forall_singleton. by apply line_no_newline. }
  replace (trail_file v cts ++ line ct mac ++ [10] ++ later) with (text_of (chain v (start v) cts ++ [line ct mac]) ++ later).
  2: { rewrite text_of_app. unfold trail_file, text_of at 2. rewrite bind_cons. cbn. by rewrite <-!app_assoc. }
  unfold ReadAll. rewrite scan_text_app, <-app_assoc by done. rewrite (read_chain_app v _ [] cts es _ Hr). cbn [app].
  rewrite read_line by done. destruct (hmacEqual _ mac) eqn:E; [by apply hmacEqual_spec in E|done].
Qed.
End OtherKey.

Lemma LoadOrCreateSalt_kept f rnd wr salt f1 : LoadOrCreateSalt f rnd wr = (Ok salt, f1) -> f1 = Some salt.
Proof.
  unfold LoadOrCreateSalt. destruct f as [d|]; [destruct (len d =? saltLen); [by intros [= -> <-]|done]|].
  destruct wr; [by intros [= -> <-]|done].
Qed.

Lemma NewVault_salt `{Crypto} k salt v : NewVault k salt = Ok v -> len salt = saltLen /\ len k <> 0.
Proof. unfold NewVault. destruct (Z.eqb_spec (len k) 0); [done|]. destruct (Z.eqb_spec (len salt) saltLen); [done|done]. Qed.

Lemma migrate_again (exec : bytes -> bbs -> result bytes bbs) f f' d d1 d2 : f_read f' = None -> Migrate.user_version d2 = Migrate.user_version d1 ->
  migrate exec f migrationsFS d = (Ok (), d1) -> migrate exec f' migrationsFS d2 = (Ok (), d2).
Proof.
  unfold migrate. intros -> Hv. destruct (f_read f); [done|]. intros Ha. eapply apply_all_again; [apply migrations_numbered|exact Hv|exact Ha].
Qed.

(** What the migrations do not break holds in the database they leave, even half way. *)
Lemma migrate_preserves (P : bbs -> Prop) (exec : bytes -> bbs -> result bytes bbs) f d r d1 : (forall n b b', exec n b = Ok b' -> P b -> P b') ->
  P (Migrate.schema d) -> migrate exec f migrationsFS d = (r, d1) -> P (Migrate.schema d1).
Proof.
  intros Hx. unfold migrate. destruct (f_read f); [by intros ? [= _ <-]|]. generalize (Migrate.user_version d) as v.
  generalize (sort_strings (filter (λ n, HasSuffix n (str ".sql") = true) migrationsFS)) as names. intros names.
  revert d. induction names as [|n names IH]; intros d v Hp; cbn [apply_all]; [by intros [= _ <-]|].
  destruct (migrationVersion n) as [ver|]; [|by intros [= _ <-]]. destruct (ver <=? v); [by apply IH|].
  pose proof (transaction_all exec f n ver d) as T. destruct (transaction exec f n ver d) as [[[]|] d2]; [|subst d2; by intros [= _ <-]].
  destruct T as (s & Ex & ->). apply IH. cbn. by eapply Hx.
Qed.

(** ** Properties *)

(** C29: A daemon started again on what a start left, with the same environment and the
    same doors on the command line, gives its sessions exactly what the first gave,
    key, tip of the trail and limits, and changes nothing: neither areas, doors
    and settings are seeded twice, nor does a migration run again, nor is the salt
    touched, whatever random bytes are offered for one. *)
Theorem restart_same `{Crypto} (exec : bytes -> bbs -> result bytes bbs) (o : options) (c c' : chance) (h h1 : host) (s : server)
    (Hexec : forall n b b', exec n b = Ok b' -> doors_ok (db_doors b) -> doors_ok (db_doors b'))
    (Hdoors : doors_ok (db_doors (Migrate.schema (disk h))))
    (Hstart : main exec o c h = (Listens s, h1))
    (Hcalm : db_opens c' = None /\ files_dir c' = None /\ trail_opens c' = None /\ f_read (migrating c') = None /\ demo_there c' = demo_there c) :
  main exec o c' (set_environ (environ h) h1) = (Listens s, h1).
Proof.
  destruct Hcalm as (Ho & Hf & Ht & Hr & Hd). apply served_spec in Hstart as [[U1 U2] S1 (salt & L & N) S2 (d & M & E & V) [A1 A2] [X1 X2] G].
  apply served_spec. split; cbn [euid environ saltFile disk trailFile set_environ]; unfold Getenv in *; cbn [environ set_environ] in *; try done.
  - split; [done|congruence].
  - exists salt. split; [|done]. pose proof (LoadOrCreateSalt_kept _ _ _ _ _ L) as K. rewrite K. unfold LoadOrCreateSalt.
    by rewrite (proj2 (Z.eqb_eq _ _) (proj1 (NewVault_salt _ _ _ N))).
  - exists (disk h1). assert (Hok : doors_ok (db_doors (Migrate.schema d))) by (eapply (migrate_preserves (λ b, doors_ok (db_doors b))); eauto).
    split_and!; [| |done].
    + by eapply migrate_again.
    + rewrite Hd. by eapply seed_again.
  - split; [rewrite A2; by eapply New_again|done].
Qed.

(** C28: A daemon started with another key on the data of a genuine one is not refused:
    it serves, with the same database and the same tip of the trail; but the first
    event it writes breaks the trail for good: whatever is appended later, by
    either key, the genuine key reads the events of before and reports a broken
    chain, and the other key reads nothing at all (as long as the two keys' MACs
    of the line written, and of the first line, differ). *)
Theorem wrong_key_serves `{CryptoLaws, EventJsonLaws} (exec : bytes -> bbs -> result bytes bbs) (o : options) (c : chance) (h h1 : host)
    (s : server) (other : bytes) (ct : bytes) (cts : list bytes) (es : list Event)
    (Hstart : main exec o c h = (Listens s, h1)) (Hold : holds (sv_vault s) (trailFile h) (ct :: cts) es) (Hother : len other <> 0) :
  exists s2, main exec o c (set_environ (<[ENV_KEY := other]> (environ h)) h) = (Listens s2, h1) /\
  let v := sv_vault s in let v2 := sv_vault s2 in
  prevMAC (sv_logger s2) = prevMAC (sv_logger s) /\
  forall n e plain later, emit_ok v2 (n, e) -> marshal e = Some plain ->
    MAC v (prevMAC (sv_logger s)) (Seal v2 n plain) <> MAC v2 (prevMAC (sv_logger s)) (Seal v2 n plain) ->
    let f := Some (file (Emit v2 n None e (sv_logger s2)) ++ later) in
    ReadAll f v = (es, Some ErrChainBroken) /\
    (MAC v2 (AuditLog.start v2) ct <> MAC v (AuditLog.start v) ct -> ReadAll f v2 = ([], Some ErrChainBroken)).
Proof.
  apply served_spec in Hstart as [[U1 U2] S1 (salt & L & N) S2 (d & M & E & V) [A1 A2] [X1 X2] G].
  destruct (NewVault_salt _ _ _ N) as [Hsalt _]. destruct (NewVault other salt) as [v2|] eqn:N2.
  2: { unfold NewVault in N2. by rewrite (proj2 (Z.eqb_neq _ _) Hother), (proj2 (Z.eqb_eq _ _) Hsalt) in N2. }
  set (s2 := Server v2 (sv_sysopPass s) (sv_logger s) (sv_limits s) (sv_presence s) (sv_nodes s) (sv_doorsData s)
    (sv_daily s) (sv_idle s) (sv_doorOpts s) (sv_art s) (sv_audit s)).
  pose proof (New_other_key _ _ v2 _ _ Hold ltac:(done)) as Hn.
  exists s2. split; [apply served_spec|].
  - split; cbn [euid environ saltFile disk trailFile set_environ]; unfold Getenv in *; cbn [environ set_environ] in *; try done.
    + rewrite lookup_insert_eq. cbn. intros ->. by apply Hother.
    + exists salt. split; [done|]. by rewrite lookup_insert_eq.
    + by exists d.
    + cbn [sv_vault sv_logger s2]. by rewrite Hn.
    + split; [done|]. by rewrite delete_insert_eq.
    + unfold s2. rewrite lookup_insert_ne by done. cbn [sv_vault sv_logger]. f_equal; by rewrite G.
  - cbv zeta. split; [done|]. intros n e plain later Hok Hp Hmac. cbn [sv_vault sv_logger s2] in *.
    pose proof Hold as [Hf Hr]. rewrite <-(New_file _ _ _ A1) in Hf.
    assert (Ht : prevMAC (sv_logger s) = tip (sv_vault s) (AuditLog.start (sv_vault s)) (ct :: cts)).
    { unfold AuditLog.New in A1. rewrite (holds_tip _ _ _ _ Hold) in A1. by injection A1 as <-. }
    destruct Hok as (Hnn & He & Hlen). cbn [fst snd] in *. destruct (unmarshal_marshal e He) as (b & Hb & Hbok & _).
    assert (b = plain) as -> by congruence. unfold Emit. rewrite Hp. cbn [file]. rewrite Hf, <-!app_assoc.
    assert (Hct : bytes_ok (Seal v2 n plain)) by (apply Seal_ok; [apply Hnn|done]).
    assert (Hne : Seal v2 n plain <> []) by (unfold Seal; destruct Hnn as [Hl _]; by destruct n).
    split.
    + apply read_other_line; [done|done|done|apply MAC_ok|apply MAC_ne|rewrite length_line by apply MAC_ok; by apply Hlen|by rewrite <-Ht].
    + intros Hfirst. apply Forall2_cons_inv_l in Hr as (e1 & es1 & H1e & _ & _). pose proof (reads_as_ne _ _ _ H1e) as Hne1.
      destruct H1e as (Hb1 & _ & Hl1). unfold trail_file. cbn [chain]. unfold text_of. rewrite bind_cons, <-!app_assoc.
      apply (read_other_line v2 [] []); [done|done|done|apply MAC_ok|apply MAC_ne|by rewrite length_line by apply MAC_ok|done].
Qed.

(** ** Witnesses *)

(** A host with one event in its trail, made with the toy cryptography. *)
Definition a_key : bytes := str "secret".
Definition a_salt : bytes := replicate 16 7.
Definition its_vault : Vault := match NewVault (H := toy) a_key a_salt with Ok v => v | Err _ => toy_vault end.
Definition its_ct : bytes := Seal (H := toy) its_vault toy_nonce (str "a").
Definition no_bbs : bbs := Bbs empty_table empty_table empty_table empty_table empty_table empty_table empty_table ∅ empty_table
  empty_table empty_table empty_table (Lib empty_table ∅) empty_table empty_table empty_table ∅ empty_table.
Definition its_host : host := Host 1000 (<[ENV_KEY := a_key]> (<[ENV_SYSOP_PASS := str "panel"]> ∅)) (Some a_salt)
  (Migrate.Database no_bbs 0) (Some (trail_file its_vault [its_ct])).
Definition calm (rnd : bytes) : chance := Chance rnd true None None no_faults true None.
Definition its_options : options :=
  let o := default_options [] in
  Options false (o_telnet o) (o_ssh o) (o_hostkey o) (o_audit o) (o_db o) (o_salt o) (o_art o) (o_max_sessions o) (o_per_ip o)
    (o_idle o) (o_daily_minutes o) (o_door_opts o) (o_max_per_user o) (o_nodes o) (o_doors_data o)
    [str "Cowboys|tcp|127.0.0.1:4000| 10 "; str "Cowboys|tcp|127.0.0.1:4001"] (o_update_url o).
Definition just_apply : bytes -> bbs -> result bytes bbs := λ _ b, Ok b.

Definition its_start : outcome * host := main (H := toy) just_apply its_options (calm []) its_host.
Definition listening (r : outcome) : server :=
  match r with Listens s => s | _ => Server toy_vault [] (MkLogger [] []) DefaultLimits (Presence.New 0) (NodePool.New 0) [] 0 0 (MkOpts 0 0 [] [] [] 0 0 [] false false) [] [] end.
Definition its_server : server := listening its_start.1.

Lemma its_start_listens : its_start = (Listens its_server, its_start.2).
Proof. vm_compute. reflexivity. Qed.

Lemma restart_same_witness :
  main (H := toy) just_apply its_options (calm [1; 2; 3]) (set_environ (environ its_host) its_start.2) = (Listens its_server, its_start.2) /\
  (rows (db_doors (Migrate.schema (disk its_start.2)))).*2 =
    [DoorRow (str "Number Guess") demo_door (str "door32.sys") 0 KindSubprocess (str "tcp") [];
     DoorRow (str "Cowboys") [] (str "door32.sys") 10 KindResident (str "tcp") (str "127.0.0.1:4001")].
Proof.
  split; [|by vm_compute].
  apply (restart_same (H := toy) just_apply its_options (calm []) (calm [1; 2; 3]) its_host its_start.2 its_server).
  - by intros n b b' [= <-].
  - split; [apply wf_empty|]. intros i r j q Hi. exact (not_in_empty _ _ Hi).
  - apply its_start_listens.
  - by split_and!.
Defined.

Definition other_host : host := set_environ (<[ENV_KEY := str "Secret"]> (environ its_host)) its_host.
Definition other_server : server := listening (main (H := toy) just_apply its_options (calm []) other_host).1.

Lemma wrong_key_serves_witness :
  main (H := toy) just_apply its_options (calm []) other_host = (Listens other_server, its_start.2) /\
  ReadAll (H := toy) (H0 := toy_json)
    (Some (file (Emit (H := toy) (H0 := toy_json) (sv_vault other_server) toy_nonce None (toy_event (str "b")) (sv_logger other_server)) ++ str "later"))
    (sv_vault its_server) = ([toy_event (str "a")], Some ErrChainBroken).
Proof.
  destruct (wrong_key_serves (H := toy) (H0 := toy_laws) (H1 := toy_json) (H2 := toy_json_laws) just_apply its_options (calm []) its_host its_start.2
    its_server (str "Secret") its_ct [] [toy_event (str "a")]) as (s2 & Hs & _ & Hb).
  - apply its_start_listens.
  - split; [vm_compute; reflexivity|]. constructor; [|constructor]. split; [|split; [exists (str "a"); split; [vm_compute; reflexivity|done]|vm_compute; reflexivity]].
    apply (Seal_ok (H := toy) (H0 := toy_laws)); by_decide.
  - done.
  - assert (E : other_server = s2) by (unfold other_server, other_host; by rewrite Hs). rewrite <-E in Hs, Hb. split; [exact Hs|].
    apply (Hb toy_nonce (toy_event (str "b")) (str "b") (str "later")); [|done|by_decide].
    split; [by_decide|]. split; [split; [apply str_ok|reflexivity]|]. intros b [= <-]. vm_compute. reflexivity.
Defined.
