(* ===== verification/Tool.v ===== *)
(** * The operator's tool on the host (main of src/cmd/sysopctl/main.go)

    From the arguments and the environment to the command: the same salt, key and
    database the daemon opens.  And the two together: the first SysOp, made with
    the tool, at the daemon. *)

From S2P Require Import Prelude GoStrings Vault Sql Users Credentials AuditLog Input Login World Migrate Startup Sysopctl.

(** What the process is given besides the host. *)
Record invocation := Invocation {
  args : list bytes;
  read_file : bytes -> result bytes bytes;   (** [os.ReadFile], for the key *)
  stdin : bytes;
  now_ : Z;
  pw_salt : bytes; token_raw : bytes; nonce1 : bytes; nonce2 : bytes   (** random bytes *)
}.

Inductive failed := Usage (text : bytes) | NotOpened (e : fatal) | CommandFailed (text : bytes).

Definition usage_main : bytes :=
  str "usage: sysopctl [-db ...] [-salt ...] list | approve <handle> [level=1; 100=SysOp] | promote <handle> [level=1; 100=SysOp] | bootstrap <handle> <pubkey-file|-> [level] | addkey <handle> <pubkey-file|->".
Definition ENV_SYSOP_PASSWORD : bytes := str "SYSOP_PASSWORD".

(** The environment of the commands under the vault that was opened. *)
Definition with_vault (v : Vault) (E : Env) : Env := {|
  vault := v; conn := @conn E; clock := @clock E; rnd := @rnd E; World.disk := @World.disk E; err_text := @err_text E;
  xerr_text := @xerr_text E; base64_text := @base64_text E; lower := @lower E; to_upper := @to_upper E; quote := @quote E
|}.

Section Tool.
Context `{Crypto, SshKeys, E : Env}.
Variable exec : bytes -> bbs -> result bytes bbs.

(** "-" is standard input. *)
Definition key_of (x : invocation) (path : bytes) : key_source :=
  if beq path (str "-") then KeyStdin else KeyFile (read_file x path).

(** The command on the open database. *)
Definition command (v : Vault) (x : invocation) (password : bytes) (b : bbs) : result failed bytes * bbs :=
  let wrap (r : result bytes bytes * bbs) := (match r.1 with Ok out => Ok out | Err m => Err (CommandFailed m) end, r.2) in
  let E := with_vault v E in
  match args x with
  | [] => (Err (Usage usage_main), b)
  | cmd :: rest =>
      if beq cmd (str "list") then wrap (cmd_list b, b)
      else if beq cmd (str "approve") || beq cmd (str "promote") then
        match rest with
        | [] => (Err (Usage (str "usage: sysopctl " ++ cmd ++ str " <handle> [level]")), b)
        | handle :: rest => wrap (cmd_approve (beq cmd (str "promote")) handle (head rest) (token_raw x) (now_ x) b)
        end
      else if beq cmd (str "bootstrap") then
        match rest with
        | handle :: path :: rest =>
            wrap (cmd_bootstrap handle (key_of x path) (head rest) password (stdin x) (pw_salt x) (now_ x) (nonce1 x) (nonce2 x) b)
        | _ => (Err (Usage (str "usage: sysopctl bootstrap <handle> <pubkey-file|-> [level]")), b)
        end
      else if beq cmd (str "addkey") then
        match rest with
        | handle :: path :: _ => wrap (cmd_addkey handle (key_of x path) (stdin x) (now_ x) b)
        | _ => (Err (Usage (str "usage: sysopctl addkey <handle> <pubkey-file|->")), b)
        end
      else (Err (CommandFailed (str "unknown command " ++ quote cmd)), b)
  end.

(** [main]: the database is opened, and migrated, before the command is looked at. *)
Definition sysopctl (c : chance) (x : invocation) (h : host) : result failed bytes * host :=
  match args x with
  | [] => (Err (Usage usage_main), h)
  | _ =>
      match load_vault c h with
      | (Err e, h) => (Err (NotOpened e), h)
      | (Ok v, h) =>
          match Store_Open exec c h with
          | (Err e, h) => (Err (NotOpened e), h)
          | (Ok _, h) =>
              let '(r, b) := command v x (Getenv ENV_SYSOP_PASSWORD h) (Migrate.schema (Startup.disk h)) in (r, on_schema (λ _, b) h)
          end
      end
  end.
End Tool.

(** ** Lemmas *)

Section Chain.
Context `{CryptoLaws, SshKeys, E : Env}.
Variable exec : bytes -> bbs -> result bytes bbs.

(** Seeding concerns neither accounts nor keys. *)
Lemma seed_accounts demo specs i d b b1 : seed demo specs i d b = (Ok (), b1) -> db_users b1 = db_users b /\ db_keys b1 = db_keys b.
Proof.
  unfold seed, mbind, boot_bind, on_table.
  destruct (Boards.EnsureSeedAreas (db_areas b)) as [[[]|] ars]; [|done]. cbn [db_fareas put_areas].
  destruct (Files.EnsureSeedFileAreas (db_fareas b)) as [[[]|] fars]; [|done]. cbn [db_doors put_fareas put_areas].
  destruct (DoorStore.EnsureSeedDoors demo (db_doors b)) as [[[]|] t1]; [|done].
  destruct (register_specs specs _) as [[[]|] b2] eqn:Er; [|done]. apply register_specs_ok in Er as (t2 & _ & ->). by intros [= <-].
Qed.

Lemma load_vault_inv c h v h1 : load_vault c h = (Ok v, h1) ->
  exists salt, h1 = set_salt (Some salt) h /\ NewVault (Getenv ENV_KEY h) salt = Ok v.
Proof.
  unfold load_vault. destruct (beq _ []); [done|]. destruct (LoadOrCreateSalt _ _ _) as [[salt|] f] eqn:Es; [|done].
  unfold must. destruct (NewVault _ salt) as [v'|] eqn:En; [|done]. intros [= <- <-].
  exists salt. by rewrite (LoadOrCreateSalt_kept _ _ _ _ _ Es).
Qed.

Lemma Store_Open_inv c h u h1 : Store_Open exec c h = (Ok u, h1) ->
  exists d, h1 = set_disk d h /\ migrate exec (migrating c) migrationsFS (Startup.disk h) = (Ok (), d).
Proof.
  unfold Store_Open. destruct (db_opens c), (files_dir c); try done. destruct (migrate _ _ _ _) as [[[]|] d]; [|done].
  intros [= _ <-]. by exists d.
Qed.

(** What a command that succeeded worked on and left. *)
Lemma sysopctl_inv c x h out h1 : sysopctl exec c x h = (Ok out, h1) ->
  exists v salt d b, NewVault (Getenv ENV_KEY h) salt = Ok v /\
    migrate exec (migrating c) migrationsFS (Startup.disk h) = (Ok (), d) /\
    command v x (Getenv ENV_SYSOP_PASSWORD h) (Migrate.schema d) = (Ok out, b) /\
    h1 = Host (euid h) (environ h) (Some salt) (Migrate.Database b (Migrate.user_version d)) (trailFile h).
Proof.
  unfold sysopctl. destruct (args x) eqn:Ea; [done|].
  destruct (load_vault c h) as [[v|] h2] eqn:Ev; [|done]. apply load_vault_inv in Ev as (salt & -> & Hv).
  destruct (Store_Open exec c _) as [[u|] h3] eqn:Eo; [|done]. apply Store_Open_inv in Eo as (d & -> & Hd).
  cbn [Startup.disk set_disk]. change (Getenv ENV_SYSOP_PASSWORD _) with (Getenv ENV_SYSOP_PASSWORD h).
  destruct (command _ _ _ _) as [r b] eqn:Ec. intros [= -> <-]. by exists v, salt, d, b.
Qed.

(** The daemon started next opens the same vault and the rows the tool left. *)
Lemma daemon_after o c c' h b s h2 salt v d :
  NewVault (Getenv ENV_KEY h) salt = Ok v -> migrate exec (migrating c) migrationsFS (Startup.disk h) = (Ok (), d) ->
  main exec o c' (Host (euid h) (environ h) (Some salt) (Migrate.Database b (Migrate.user_version d)) (trailFile h)) = (Listens s, h2) ->
  sv_vault s = v /\ db_users (Migrate.schema (Startup.disk h2)) = db_users b /\ db_keys (Migrate.schema (Startup.disk h2)) = db_keys b.
Proof.
  intros Hv Hm Hs. apply served_spec in Hs as [_ _ (salt' & L & N) _ (d' & M & Se & _) _ _ _]. cbn [Startup.disk saltFile] in *.
  unfold LoadOrCreateSalt in L. destruct (len salt =? saltLen); [|done]. injection L as <- _.
  change (Getenv ENV_KEY (Host _ _ _ _ _)) with (Getenv ENV_KEY h) in N. split; [congruence|].
  assert (Hr : f_read (migrating c') = None) by (unfold migrate in M; by destruct (f_read (migrating c'))).
  rewrite (migrate_again exec (migrating c) _ _ d (Migrate.Database b (Migrate.user_version d)) Hr eq_refl Hm) in M. injection M as <-. cbn in Se. by apply seed_accounts in Se.
Qed.
End Chain.

(** ** Theorem *)

(** C33: The way to the first SysOp, from the host to the menu: bootstrap succeeds on a
    host, fresh or not; whenever the daemon then gets to its listeners there with
    the same environment, it has opened the vault and the database the tool used;
    the handle and the key pass its SSH authenticator, and whoever then types the
    password is logged in at the level asked for. *)
Theorem first_sysop_logs_in `{CryptoLaws, SshKeys, E : Env} (exec : bytes -> bbs -> result bytes bbs) (o : options) (c c' : chance)
    (x : invocation) (h h1 h2 : host) (s : server) (out handle path l rest pub comment : bytes) (level : list bytes)
    (Hexec : forall n b b', exec n b = Ok b' -> wf (db_users b) -> wf (db_users b'))
    (Husers : wf (db_users (Migrate.schema (Startup.disk h)))) (Hsalt : bytes_ok (pw_salt x))
    (Hargs : args x = str "bootstrap" :: handle :: path :: level)
    (Hkey : key_line (key_of x path) (stdin x) = Ok (l, rest)) (Hparse : ParseAuthorizedKey l = Some (pub, comment))
    (Htool : sysopctl exec c x h = (Ok out, h1)) (Hdaemon : main exec o c' h1 = (Listens s, h2)) :
  let pw := if beq (Getenv ENV_SYSOP_PASSWORD h) [] then read_password rest else Getenv ENV_SYSOP_PASSWORD h in
  let b := Migrate.schema (Startup.disk h2) in
  authenticator (sv_vault s) handle pub (db_users b) (db_keys b) = true /\
  forall caller clk slt w i, cl_username caller = handle -> w_users w = db_users b -> line_ok pw ->
    s_in (w_session w) = typing [pw] ++ i ->
    exists u w', RunLogin (sv_vault s) caller clk slt w = (Granted u, w') /\ AccessLevel u = level_arg 100 (head level).
Proof.
  apply sysopctl_inv in Htool as (v & salt & d & b & Hv & Hm & Hc & ->).
  destruct (daemon_after exec o c c' h b s h2 salt v d Hv Hm Hdaemon) as (-> & Eu & Ek). cbv zeta. rewrite Eu, Ek.
  unfold command in Hc. rewrite Hargs in Hc. cbn [beq] in Hc.
  assert (Hw : wf (db_users (Migrate.schema d))) by (eapply (migrate_preserves (λ b, wf (db_users b))); eauto).
  match type of Hc with context [cmd_bootstrap ?a ?k ?lv ?p ?i ?t ?n ?m ?q ?bb] =>
    pose proof (bootstrap_logs_in (H2 := with_vault v E) a p i t l rest pub comment out k lv n m q bb b Hw Hsalt Hkey Hparse) as B;
    destruct (cmd_bootstrap a k lv p i t n m q bb) as [[out'|] b'] end; [|done].
  injection Hc as <- <-. exact (B eq_refl).
Qed.

(** ** Witness *)

Definition ENV_PASSWORD_SET : gmap bytes bytes := <[ENV_SYSOP_PASSWORD := a_password]> (<[ENV_KEY := a_key]> ∅).
Definition new_host : host := Host 1000 ENV_PASSWORD_SET None (Migrate.Database no_bbs 0) None.
Definition call : invocation := Invocation [str "bootstrap"; str "trinity"; str "id.pub"] (λ _, Ok (str "key")) [] 0 (replicate 16 1) [] toy_nonce toy_nonce.
Definition by_tool : result failed bytes * host :=
  sysopctl (H := toy) (H0 := toy_ssh) (E := tool_env) just_apply (calm Startup.a_salt) call new_host.
Definition by_daemon : outcome * host := main (H := toy) just_apply its_options (calm []) by_tool.2.

Lemma first_sysop_logs_in_witness :
  exists u w', RunLogin (H := toy) (sv_vault (listening by_daemon.1)) trinity_calls on_time Login.a_salt
    (arrives (typing [a_password]) (db_users (Migrate.schema (Startup.disk by_daemon.2))) empty_table) = (Granted u, w') /\ AccessLevel u = 100.
Proof.
  assert (E1 : is_ok by_tool.1 = true) by (vm_compute; reflexivity). destruct by_tool as [[out|] h1] eqn:Et; [clear E1|discriminate E1].
  assert (E2 : by_daemon = (Listens (listening by_daemon.1), by_daemon.2)) by (vm_compute; reflexivity).
  destruct (first_sysop_logs_in (H := toy) (H0 := toy_laws) (H1 := toy_ssh) (E := tool_env) just_apply its_options (calm Startup.a_salt) (calm [])
    call new_host h1 by_daemon.2 (listening by_daemon.1) out (str "trinity") (str "id.pub") (str "key") [] (str "key") [] []) as [_ L].
  - by intros n b b' [= <-].
  - apply wf_empty.
  - by_decide.
  - reflexivity.
  - vm_compute. reflexivity.
  - reflexivity.
  - exact Et.
  - rewrite <-E2. unfold by_daemon. by rewrite Et.
  - assert (Ep : Getenv ENV_SYSOP_PASSWORD new_host = a_password) by (vm_compute; reflexivity). rewrite Ep in L.
    apply (L trinity_calls on_time _ _ []); [reflexivity|reflexivity|by_decide|reflexivity].
Defined.
