(* ===== verification/Sound.v ===== *)
(** * Integrity of the database (src/store/migrations, all of src/store)

    What the schema declares, ids, UNIQUE columns and foreign keys, as one
    predicate on the whole database, and that every operation of the
    repositories preserves it.  SQLite checks its constraints statement by statement
    in the models of the operations; here they are put together. *)

From S2P Require Import Prelude GoStrings GoTime Vault Sql Users Credentials Boards Mail Files Bans DoorStore Login World.

(** ** Tables *)

(** [i] is the id of a row. *)
Definition is_row {R} (t : table R) (i : Z) : Prop := i ∈ ids t.
Definition grows {R} (t t' : table R) : Prop := forall i, is_row t i -> is_row t' i.
(** A column that may be NULL. *)
Definition nullable (P : Z -> Prop) (o : option Z) : Prop := match o with Some i => P i | None => True end.

(** A table with a unique [key] (of the rows that have one), all of whose rows are [ok]. *)
Record intact {R K} (key : R -> option K) (ok : R -> Prop) (t : table R) : Prop := {
  it_wf : wf t;
  it_unique : forall i r j s k, (i, r) ∈ rows t -> (j, s) ∈ rows t -> key r = Some k -> key s = Some k -> i = j;
  it_ok : forall i r, (i, r) ∈ rows t -> ok r
}.

Definition no_key {R} : R -> option () := λ _, None.
Definition any_row {R} : R -> Prop := λ _, True.

Lemma is_row_spec {R} (t : table R) i : is_row t i <-> exists r, (i, r) ∈ rows t.
Proof.
  unfold is_row, ids. rewrite list_elem_of_fmap. split.
  - intros ([j r] & -> & Hr). by exists r.
  - intros [r Hr]. by exists (i, r).
Qed.

Lemma exists_row {R} (t : table R) i : exists_id i t = true <-> is_row t i.
Proof. by rewrite exists_id_spec, is_row_spec. Qed.

Lemma grows_refl {R} (t : table R) : grows t t.
Proof. by intros i. Qed.

Lemma grows_update {R} p f (t : table R) : grows t (update p f t).1.
Proof. intros i. unfold is_row. by rewrite ids_update. Qed.

Lemma grows_insert {R} (r : R) t id t' : insert r t = Ok (id, t') -> grows t t'.
Proof.
  intros Hi i [x Hx]%is_row_spec. apply is_row_spec. exists x. rewrite (insert_rows _ _ _ _ Hi). apply elem_of_app. by left.
Qed.

Lemma nullable_impl (P Q : Z -> Prop) o : (forall i, P i -> Q i) -> nullable P o -> nullable Q o.
Proof. destruct o; cbn; auto. Qed.

Section Table.
Context {R K : Type} (key : R -> option K) (ok : R -> Prop).

Lemma intact_empty : intact key ok empty_table.
Proof. split; [apply wf_empty|..]; intros *; by intros ?%elem_of_nil. Qed.

Lemma intact_weaken (ok' : R -> Prop) t : (forall r, ok r -> ok' r) -> intact key ok t -> intact key ok' t.
Proof. intros Hw [H1 H2 H3]. split; [done..|]. eauto. Qed.

Lemma intact_insert r t id t' : intact key ok t -> insert r t = Ok (id, t') -> ok r ->
  (forall i s, (i, s) ∈ rows t -> key r <> None -> key s <> key r) -> intact key ok t'.
Proof.
  intros [Hw Hu Ho] Hi Hr Hn. assert (E := insert_rows _ _ _ _ Hi). split; [by eapply wf_insert|..].
  - intros i x j y k. rewrite E, !elem_of_app, !list_elem_of_singleton. intros [Hx|[= -> ->]] [Hy|[= -> ->]] Ex Ey; [by eapply Hu| | |done].
    + destruct (Hn i x Hx); congruence.
    + destruct (Hn j y Hy); congruence.
  - intros i x. rewrite E, elem_of_app, list_elem_of_singleton. intros [Hx|[= -> ->]]; [by eapply Ho|done].
Qed.

Lemma intact_update p f t : intact key ok t ->
  (forall i r, p i r = true -> key (f r) = key r /\ (ok r -> ok (f r))) -> intact key ok (update p f t).1.
Proof.
  intros [Hw Hu Ho] Hf. assert (Hk : forall i r, key (if p i r then f r else r) = key r).
  { intros i r. destruct (p i r) eqn:E; [|done]. by apply (Hf i r). }
  split; [by apply wf_update|..].
  - intros i x j y k (r & Hr & ->)%update_rows (s & Hs & ->)%update_rows. rewrite !Hk. by eapply Hu.
  - intros i x (r & Hr & ->)%update_rows. destruct (p i r) eqn:E; [|by eapply Ho]. apply (Hf i r E). by eapply Ho.
Qed.

Lemma intact_delete p t : intact key ok t -> intact key ok (delete p t).1.
Proof.
  intros [Hw Hu Ho]. split; [by apply wf_delete|..].
  - intros i x j y k [Hx _]%delete_rows [Hy _]%delete_rows. by eapply Hu.
  - intros i x [Hx _]%delete_rows. by eapply Ho.
Qed.
End Table.

(** A row that no other row conflicts with, as the code counts them. *)
Lemma fresh_key {R K} (key : R -> option K) (p : Z -> R -> bool) (r : R) t :
  (forall i s, key s = key r -> p i s = true) -> (0 <? count p t) = false ->
  forall i s, (i, s) ∈ rows t -> key r <> None -> key s <> key r.
Proof.
  intros Hp Hc i s Hs _ E. apply Z.ltb_ge in Hc. apply (Hp i) in E.
  assert (0 < count p t) by (apply count_pos; eauto). lia.
Qed.

(** ** The database *)

Definition handle_key (r : userRow) : option bytes := Some (lower_ascii (c_handle r)).
Definition block_key (r : blockRow) : option (Z * Z) := Some (b_blocker r, b_blocked r).

(** The foreign keys of a row, to the users [us] and the areas [ars]. *)
Section Refs.
Context {A : Type} (us : users) (ars : table A).
Definition refs_membership (r : membershipRow) : Prop := is_row us (m_user_id r) /\ nullable (is_row us) (m_reviewed_by r).
Definition refs_key (r : keyRow) : Prop := is_row us (k_user_id r).
Definition refs_token (r : tokenRow) : Prop := is_row us (t_user_id r).
Definition refs_anomaly (r : anomalyRow) : Prop := is_row us (a_user_id r).
Definition refs_message (r : messageRow) : Prop := is_row ars (ms_area_id r) /\ is_row us (ms_author_id r).
Definition refs_mail (r : mailRow) : Prop := is_row us (p_from_id r) /\ is_row us (p_to_id r).
Definition refs_block (r : blockRow) : Prop := is_row us (b_blocker r) /\ is_row us (b_blocked r) /\ b_blocker r <> b_blocked r.
Definition refs_report (r : reportRow) : Prop :=
  is_row us (r_reporter r) /\ is_row us (r_target r) /\ nullable (is_row us) (r_resolved_by r).
Definition refs_file (r : fileRow) : Prop := is_row ars (f_area_id r) /\ is_row us (f_uploader_id r).
Definition refs_ban (r : banRow) : Prop := nullable (is_row us) (bn_by r).
Definition refs_pointers (p : readPointers) : Prop := forall u a x, p !! (u, a) = Some x -> is_row us u /\ is_row ars a.
End Refs.

(** A reply is to an earlier message that is there: threads are trees. *)
Definition threads (t : messages) : Prop :=
  forall i r p, (i, r) ∈ rows t -> ms_parent_id r = Some p -> is_row t p /\ p < i.

(** The accounts [us0] of an earlier moment: none is gone, none has another handle. *)
Definition carries (us0 us : users) : Prop :=
  forall i r, (i, r) ∈ rows us0 -> exists r', (i, r') ∈ rows us /\ c_handle r' = c_handle r.

Record sound (us0 : users) (b : bbs) : Prop := {
  so_users : intact handle_key any_row (db_users b);
  so_since : carries us0 (db_users b);
  so_memberships : intact no_key (refs_membership (db_users b)) (db_memberships b);
  so_keys : intact no_key (refs_key (db_users b)) (db_keys b);
  so_tokens : intact no_key (refs_token (db_users b)) (db_tokens b);
  so_anomalies : intact no_key (refs_anomaly (db_users b)) (db_anomalies b);
  so_areas : intact (λ r, Some (ar_name r)) any_row (db_areas b);
  so_messages : intact no_key (refs_message (db_users b) (db_areas b)) (db_messages b);
  so_threads : threads (db_messages b);
  so_pointers : refs_pointers (db_users b) (db_areas b) (db_pointers b);
  so_mail : intact no_key (refs_mail (db_users b)) (db_mail b);
  so_blocks : intact block_key (refs_block (db_users b)) (db_blocks b);
  so_reports : intact no_key (refs_report (db_users b)) (db_reports b);
  so_fareas : intact (λ r, Some (fa_name r)) any_row (db_fareas b);
  so_files : intact no_key (refs_file (db_users b) (db_fareas b)) (entries (db_files b));
  so_library : lib_inv (db_files b);
  so_bans : intact no_key (refs_ban (db_users b)) (db_bans b);
  so_doors : intact (λ r, Some (d_name r)) any_row (db_doors b);
  so_installed : intact (λ r, Some (i_name r)) any_row (db_installed b)
}.

(** One table changes, the rest stays. *)
Ltac one_table := match goal with Hs : sound _ ?b |- _ => destruct Hs; split;
  cbn [db_users db_memberships db_keys db_tokens db_anomalies db_areas db_messages db_pointers db_mail db_blocks db_reports
       db_fareas db_files db_bans db_doors db_installed db_settings db_log put_users put_memberships put_keys put_tokens
       put_anomalies put_areas put_messages put_pointers put_mail put_blocks put_reports put_fareas put_files put_bans
       put_doors put_installed put_settings put_log]; try assumption end.

(** The foreign keys of a row, of a nullable column, to a table that has grown. *)
Ltac follow := intros; match goal with
  | Hg : grows _ _ |- intact _ _ _ => eapply intact_weaken; [|eassumption]; intros ? Hr; hnf in Hr |- *;
      intuition (first [by apply Hg | by eapply nullable_impl; [apply Hg|]])
  | Hg : grows _ _, Hp : refs_pointers _ _ _ |- refs_pointers _ _ _ =>
      intros ? ? ? Hx; apply Hp in Hx; intuition (by apply Hg)
  end.

Section Growth.
Variable us0 : users.
Variable b : bbs.
Context (Hs : sound us0 b).

Lemma sound_users us : intact handle_key any_row us -> grows (db_users b) us -> carries us0 us -> sound us0 (put_users us b).
Proof. intros Hu Hg Hc. one_table; follow. Qed.

Lemma sound_areas ars : intact (λ r, Some (ar_name r)) any_row ars -> grows (db_areas b) ars -> sound us0 (put_areas ars b).
Proof. intros Hu Hg. one_table; follow. Qed.

Lemma sound_fareas ars : intact (λ r, Some (fa_name r)) any_row ars -> grows (db_fareas b) ars -> sound us0 (put_fareas ars b).
Proof. intros Hu Hg. one_table; follow. Qed.
End Growth.

(** ** The operations *)

Section Operations.
Context `{Crypto, SshKeys}.
Variable v : Vault.
Variable us0 : users.
Variable b : bbs.
Context (Hs : sound us0 b).

(** A guard that lets only existing rows through. *)
Ltac guards := repeat match goal with
  | E : negb _ = false |- _ => apply negb_false_iff in E
  | E : _ && _ = true |- _ => apply andb_true_iff in E as [? ?]
  | E : exists_id _ _ = true |- _ => apply exists_row in E
  | E : user_exists _ _ = true |- _ => apply (exists_row (db_users b)) in E
  end.
Ltac keyless := try done; guards; try done; repeat split; done.

Lemma row_is_row {R} (t : table R) i r : row i t = Some r -> is_row t i.
Proof. intros Hr%row_in. apply is_row_spec. by exists r. Qed.

(** *** Accounts *)

Lemma carries_update us p f : (forall r, c_handle (f r) = c_handle r) -> carries us0 us -> carries us0 (update p f us).1.
Proof.
  intros Hf Hc i r Hr. destruct (Hc i r Hr) as (r' & Hr' & E). exists (if p i r' then f r' else r').
  split; [apply update_rows; by exists r'|]. destruct (p i r'); by rewrite ?Hf.
Qed.

Lemma carries_insert us r id us' : carries us0 us -> insert r us = Ok (id, us') -> carries us0 us'.
Proof.
  intros Hc Hi i x Hx. destruct (Hc i x Hx) as (r' & Hr' & E). exists r'. split; [|done].
  rewrite (insert_rows _ _ _ _ Hi). apply elem_of_app. by left.
Qed.

Lemma sound_user_update p f : (forall r, c_handle (f r) = c_handle r) -> sound us0 (put_users (update p f (db_users b)).1 b).
Proof.
  intros Hf. apply sound_users; [done| |apply grows_update|by apply carries_update, Hs]. apply intact_update; [apply Hs|].
  intros i r _. unfold handle_key. by rewrite Hf.
Qed.

Lemma sound_AddPoints id d : sound us0 (put_users (Users_AddPoints id d (db_users b)).2 b).
Proof. by apply sound_user_update. Qed.

Lemma sound_Create h p n e now n1 n2 : sound us0 (put_users (Users_Create v h p n e now n1 n2 (db_users b)).2 b).
Proof.
  unfold Users_Create. destruct (0 <? count _ _) eqn:Ec; [by destruct b|].
  destruct (insert _ _) as [[id t']|] eqn:Ei; [|by destruct b]. cbn [snd]. apply sound_users; [done| |by eapply grows_insert|by eapply carries_insert; [apply Hs|]].
  eapply intact_insert; [apply Hs|exact Ei|done|]. eapply fresh_key; [|exact Ec]. intros i s E.
  injection E as E. by apply beq_true.
Qed.

Lemma sound_RecordLogin id ip w us an r : Users_RecordLogin id ip w (db_users b) (db_anomalies b) = (r, us, an) ->
  sound us0 (put_anomalies an (put_users us b)).
Proof.
  unfold Users_RecordLogin. destruct (row id _) as [x|] eqn:Er; [|intros [= <- <- <-]; by destruct b].
  apply row_is_row in Er. pose proof (sound_user_update (by_id id) (set_login (fmtTime w) ip) ltac:(done)) as Hu.
  destruct (rapid_change _ _ _); [destruct (insert _ _) as [[k a]|] eqn:Ei|]; intros [= <- <- <-]; [|by destruct b|by destruct b].
  clear Hs. one_table. eapply intact_insert; [done|exact Ei| |done]. by apply grows_update.
Qed.

(** *** Applications, keys, tokens *)

Lemma sound_Apply u note now n : sound us0 (put_memberships (Memberships_Apply v (db_users b) u note now n (db_memberships b)).2 b).
Proof.
  one_table. unfold Memberships_Apply. destruct (negb _) eqn:E; [done|]. destruct (insert _ _) as [[id t']|] eqn:Ei; [|done].
  eapply intact_insert; [done|exact Ei|keyless|done].
Qed.

Lemma sound_Review id u d note now n : sound us0 (put_memberships (Memberships_Review v (db_users b) id u d note now n (db_memberships b)).2 b).
Proof.
  one_table. unfold Memberships_Review. destruct (_ && _) eqn:E; [done|]. split; [by apply wf_update, so_memberships0|done|].
  intros i x (r & Hr & ->)%update_rows. pose proof (it_ok _ _ _ so_memberships0 i r Hr) as [Hu Hby].
  destruct (by_id id i r) eqn:Ei; [|by split]. apply andb_false_iff in E as [E|E]; guards; [|by split].
  apply Z.ltb_ge in E. assert (0 < count (by_id id) (db_memberships b)) by (apply count_pos; eauto). lia.
Qed.

Lemma sound_Keys_Add u l now : sound us0 (put_keys (Keys_Add (db_users b) u l now (db_keys b)).2 b).
Proof.
  one_table. unfold Keys_Add. destruct (ParseAuthorizedKey l) as [[pub c]|]; [|done]. destruct (row u _) eqn:Er; [|done].
  destruct (existsb _ _); [done|]. destruct (insert _ _) as [[id t']|] eqn:Ei; [|done].
  eapply intact_insert; [done|exact Ei| |done]. by eapply row_is_row.
Qed.

Lemma sound_Keys_Revoke id now : sound us0 (put_keys (Keys_Revoke id now (db_keys b)) b).
Proof. one_table. by apply intact_update. Qed.

Lemma sound_Issue u raw now : sound us0 (put_tokens (Tokens_Issue (db_users b) u raw now (db_tokens b)).2 b).
Proof.
  one_table. unfold Tokens_Issue. destruct (negb _) eqn:E; [done|]. destruct (insert _ _) as [[id t']|] eqn:Ei; [|done].
  eapply intact_insert; [done|exact Ei|keyless|done].
Qed.

Lemma sound_Redeem u tok now : sound us0 (put_tokens (Tokens_Redeem u tok now (db_tokens b)).2 b).
Proof. one_table. unfold Tokens_Redeem. destruct (Redeem_find _ _ _ _); [|done]. by apply intact_update. Qed.

(** *** Boards *)

Lemma sound_Areas_Create n d l : sound us0 (put_areas (Areas_Create n d l (db_areas b)).2 b).
Proof.
  unfold Areas_Create. destruct (0 <? count _ _) eqn:Ec; [by destruct b|].
  destruct (insert _ _) as [[id t']|] eqn:Ei; [|by destruct b]. apply sound_areas; [done| |by eapply grows_insert].
  eapply intact_insert; [apply Hs|exact Ei|done|]. eapply (fresh_key (λ r, Some (ar_name r))); [|exact Ec].
  intros i s [= E]. by apply beq_true.
Qed.

Lemma threads_update p f : (forall r, ms_parent_id (f r) = ms_parent_id r) -> threads (db_messages b) -> threads (update p f (db_messages b)).1.
Proof.
  intros Hf Ht i x q (r & Hr & ->)%update_rows Hq. unfold is_row. rewrite ids_update. apply (Ht i r q Hr).
  destruct (p i r); by rewrite ?Hf in Hq.
Qed.

Lemma sound_Post a u parent s body now n1 n2 :
  sound us0 (put_messages (Messages_Post v (db_users b) (db_areas b) a u parent s body now n1 n2 (db_messages b)).2 b).
Proof.
  unfold Messages_Post. destruct (negb _) eqn:E; [by destruct b|]. destruct (insert _ _) as [[id t']|] eqn:Ei; [|by destruct b].
  unfold message_refs_ok in E. guards. cbn [snd]. one_table.
  - eapply intact_insert; [done|exact Ei|keyless|done].
  - intros i x p. rewrite (insert_rows _ _ _ _ Ei), elem_of_app, list_elem_of_singleton. intros [Hx|[= -> ->]] Hp.
    + destruct (so_threads0 i x p Hx Hp). split; [by eapply grows_insert|done].
    + cbn in Hp. subst parent. guards. split; [by eapply grows_insert|].
      assert (p <= seq (db_messages b) < id); [|lia]. destruct (it_wf _ _ _ so_messages0) as [_ Hr _].
      rewrite Forall_forall in Hr. split; [by apply Hr|]. unfold insert in Ei. destruct (_ <? _); [|done]. injection Ei as <- _. lia.
Qed.

Lemma sound_Edit id u s body n1 n2 : sound us0 (put_messages (Messages_Edit v id u s body n1 n2 (db_messages b)).2 b).
Proof. one_table; [by apply (intact_update _ _ _ _ _ so_messages0)|by apply threads_update]. Qed.

(** A post goes with its replies, or not at all. *)
Lemma sound_Delete_post id : sound us0 (put_messages (Messages_Delete id (db_messages b)).2 b).
Proof.
  unfold Messages_Delete. destruct (0 <? _) eqn:E; [by destruct b|]. cbn [snd]. one_table; [by apply intact_delete|].
  intros i r p [Hr Hd]%delete_rows Hp. destruct (so_threads0 i r p Hr Hp) as [[s Hs']%is_row_spec Hlt]. split; [|done].
  apply is_row_spec. exists s. apply delete_rows. split; [done|]. apply not_true_iff_false. intros Hds.
  assert (0 < count (orphaned id (db_messages b)) (db_messages b)); [|lia]. apply count_pos. exists i, r. split; [done|].
  unfold orphaned. rewrite Hd, Hp. cbn. apply Z.ltb_lt, count_pos. exists p, s. by rewrite Z.eqb_refl, Hds.
Qed.

Lemma sound_Mark u a m now : sound us0 (put_pointers (Mark (db_users b) (db_areas b) u a m now (db_pointers b)).2 b).
Proof.
  one_table. unfold Mark. intros u' a' x.
  destruct (db_pointers b !! (u, a)) as [[old y]|] eqn:Ep; [|destruct (_ && _) eqn:E; [guards|by apply so_pointers0]];
    cbn [snd]; rewrite lookup_insert_Some; intros [[[= <- <-] _]|[_ Hx]]; eauto.
Qed.

(** *** Mail and moderation *)

Lemma sound_Send f to s body now n1 n2 : sound us0 (put_mail (Mail_Send v (db_users b) f to s body now n1 n2 (db_mail b)).2 b).
Proof.
  one_table. unfold Mail_Send. destruct (negb _) eqn:E; [done|]. destruct (insert _ _) as [[id t']|] eqn:Ei; [|done].
  eapply intact_insert; [done|exact Ei|keyless|done].
Qed.

Lemma sound_Get id u now : sound us0 (put_mail (Mail_Get v id u now (db_mail b)).2 b).
Proof.
  one_table. unfold Mail_Get. destruct (row _ _); [|done]. destruct (Mail_scan _ _); [|done]. destruct (negb _ && _); [done|].
  destruct (_ && _); [|done]. by apply intact_update.
Qed.

Lemma sound_Mail_Delete id u : sound us0 (put_mail (Mail_Delete id u (db_mail b)).2 b).
Proof. one_table. by apply (intact_delete _ _ _ _ so_mail0). Qed.

Lemma sound_Block u to now : sound us0 (put_blocks (Blocks_Block (db_users b) u to now (db_blocks b)).2 b).
Proof.
  one_table. unfold Blocks_Block. destruct (Z.eqb_spec u to); [done|]. destruct (0 <? count _ _) eqn:Ec; [done|].
  destruct (negb _) eqn:E; [done|]. destruct (insert _ _) as [[id t']|] eqn:Ei; [|done].
  eapply intact_insert; [done|exact Ei|keyless|]. eapply (fresh_key block_key); [|exact Ec].
  intros i r [= E1 E2]. unfold block_is. by rewrite E1, E2, !Z.eqb_refl.
Qed.

Lemma sound_Unblock u to : sound us0 (put_blocks (Blocks_Unblock u to (db_blocks b)) b).
Proof. one_table. by apply intact_delete. Qed.

Lemma sound_File u to c note now : sound us0 (put_reports (Reports_File (db_users b) u to c note now (db_reports b)).2 b).
Proof.
  one_table. unfold Reports_File. destruct (negb _) eqn:E; [done|]. destruct (insert _ _) as [[id t']|] eqn:Ei; [|done].
  eapply intact_insert; [done|exact Ei|keyless|done].
Qed.

Lemma sound_Resolve id u now : sound us0 (put_reports (Reports_Resolve (db_users b) id u now (db_reports b)).2 b).
Proof.
  one_table. unfold Reports_Resolve. destruct (_ && _) eqn:E; [done|]. split; [by apply wf_update, so_reports0|done|].
  intros i x (r & Hr & ->)%update_rows. pose proof (it_ok _ _ _ so_reports0 i r Hr) as (Hf & Ht & Hby).
  destruct ((i =? id) && open_report i r) eqn:Ei; [|by split_and!]. apply andb_false_iff in E as [E|E]; guards; [|by split_and!].
  apply Z.ltb_ge in E. enough (0 < count (λ i r, (i =? id) && open_report i r) (db_reports b)) by lia.
  apply count_pos. exists i, r. split; [done|]. apply Z.eqb_eq in H1 as ->. by rewrite Z.eqb_refl.
Qed.

(** *** The library *)

Lemma sound_FileAreas_Create n l : sound us0 (put_fareas (FileAreas_Create n l (db_fareas b)).2 b).
Proof.
  unfold FileAreas_Create. destruct (0 <? count _ _) eqn:Ec; [by destruct b|].
  destruct (insert _ _) as [[id t']|] eqn:Ei; [|by destruct b]. apply sound_fareas; [done| |by eapply grows_insert].
  eapply intact_insert; [apply Hs|exact Ei|done|]. eapply (fresh_key (λ r, Some (fa_name r))); [|exact Ec].
  intros i s [= E]. by apply beq_true.
Qed.

Lemma sound_files l : lib_step v (db_users b) (db_fareas b) (db_files b) l ->
  intact no_key (refs_file (db_users b) (db_fareas b)) (entries l) -> sound us0 (put_files l b).
Proof. intros Hl Hi. apply lib_step_inv in Hl; [|apply Hs]. one_table. Qed.

Lemma sound_Files_Add a u fn d c now n wr :
  sound us0 (put_files (Files_Add v (db_users b) (db_fareas b) a u fn d c now n wr (db_files b)).2 b).
Proof.
  apply sound_files; [by eapply ls_add, surjective_pairing|]. pose proof (so_files us0 b Hs) as Hf. unfold Files_Add.
  destruct (_ <? len c); [done|]. destruct (0 <? _); [done|]. destruct (_ <? _ + _); [done|].
  destruct (negb _) eqn:E; [done|]. destruct (insert _ _) as [[id t']|] eqn:Ei; [|done]. guards.
  assert (intact no_key (refs_file (db_users b) (db_fareas b)) t') by (eapply intact_insert; [done|exact Ei|by split|done]).
  destruct wr; [by apply intact_update|done].
Qed.

Lemma sound_Content id : sound us0 (put_files (Files_Content v id (db_files b)).2 b).
Proof.
  apply sound_files; [by eapply ls_content, surjective_pairing|]. pose proof (so_files us0 b Hs) as Hf. unfold Files_Content.
  destruct (_ !! _); [|done]. destruct (Open v _); [|done]. by apply intact_update.
Qed.

Lemma sound_Files_Delete id : sound us0 (put_files (Files_Delete id (db_files b)).2 b).
Proof. one_table; [by apply intact_delete|]. destruct (db_files b). by eapply inv_delete. Qed.

(** *** Bans, doors, settings *)

Lemma sound_Bans_Add p reason u now : sound us0 (put_bans (Bans_Add (db_users b) p reason u now (db_bans b)).2 b).
Proof.
  one_table. unfold Bans_Add. destruct (NormalizeBanPattern p) as [canon|]; [|done]. cbv zeta.
  destruct (0 <? u); [destruct (negb _) eqn:E; [done|]|]; (destruct (insert _ _) as [[id t']|] eqn:Ei; [|done]);
    (eapply intact_insert; [done|exact Ei|keyless|done]).
Qed.

Lemma sound_Lift id now : sound us0 (put_bans (Bans_Lift id now (db_bans b)) b).
Proof. one_table. by apply intact_update. Qed.

Lemma sound_insert_door r : sound us0 (put_doors (insert_door r (db_doors b)).2 b).
Proof.
  one_table. unfold insert_door. destruct (0 <? _) eqn:Ec; [done|]. destruct (insert _ _) as [[id t']|] eqn:Ei; [|done].
  eapply intact_insert; [done|exact Ei|done|]. eapply (fresh_key (λ r, Some (d_name r))); [|exact Ec].
  intros i s [= E]. by apply beq_true.
Qed.

Lemma sound_Doors_Create n c d l : sound us0 (put_doors (Doors_Create n c d l (db_doors b)).2 b).
Proof.
  unfold Doors_Create. cbv zeta. match goal with |- context [insert_door ?r _] => pose proof (sound_insert_door r) as Hd end.
  by destruct (insert_door _ _).
Qed.

Lemma sound_CreateResident n net a l : sound us0 (put_doors (Doors_CreateResident n net a l (db_doors b)).2 b).
Proof.
  unfold Doors_CreateResident. match goal with |- context [insert_door ?r _] => pose proof (sound_insert_door r) as Hd end.
  by destruct (insert_door _ _).
Qed.

Lemma sound_EnsureResident n net a l : sound us0 (put_doors (EnsureResidentDoor n net a l (db_doors b)).2 b).
Proof.
  unfold EnsureResidentDoor. destruct (head _) as [[id r]|].
  - one_table. by apply intact_update.
  - pose proof (sound_CreateResident n net a l) as Hd. by destruct (Doors_CreateResident _ _ _ _ _).
Qed.

Lemma sound_Upsert d now : sound us0 (put_installed (Installed_Upsert d now (db_installed b)).2 b).
Proof.
  one_table. unfold Installed_Upsert. destruct (0 <? _) eqn:Ec.
  - apply (intact_update _ _ _ _ _ so_installed0). intros i r Hp%beq_true. split; [by rewrite Hp|done].
  - destruct (insert _ _) as [[id t']|] eqn:Ei; [|done]. eapply intact_insert; [done|exact Ei|done|].
    eapply (fresh_key (λ r, Some (i_name r))); [|exact Ec]. intros i s [= E]. by apply beq_true.
Qed.

Lemma sound_settings m : sound us0 (put_settings m b).
Proof. one_table. Qed.

Lemma sound_log l : sound us0 (put_log l b).
Proof. one_table. Qed.
End Operations.

(** The statements of the screens. *)
Create HintDb sound discriminated.
#[export] Hint Resolve sound_AddPoints sound_Create sound_Apply sound_Review sound_Keys_Add sound_Keys_Revoke sound_Issue sound_Redeem
  sound_Areas_Create sound_Post sound_Edit sound_Delete_post sound_Mark sound_Send sound_Get sound_Mail_Delete sound_Block sound_Unblock
  sound_File sound_Resolve sound_FileAreas_Create sound_Files_Add sound_Content sound_Files_Delete sound_Bans_Add sound_Lift
  sound_Doors_Create sound_CreateResident sound_EnsureResident sound_Upsert sound_settings sound_log : sound.
(** The statements that set columns of accounts. *)
#[export] Hint Extern 1 (sound _ (put_users _ _)) => apply sound_user_update; [assumption | done] : sound.

(** A database with the schema and no rows. *)
Lemma sound_no_rows : sound empty_table (Bbs empty_table empty_table empty_table empty_table empty_table empty_table empty_table ∅
  empty_table empty_table empty_table empty_table (Lib empty_table ∅) empty_table empty_table empty_table ∅ empty_table).
Proof.
  split; try apply intact_empty; try apply lib_inv_empty.
  - intros i r Hi. exact (not_in_empty _ _ Hi).
  - intros i r p Hi. exact (not_in_empty _ _ Hi).
  - intros u a x. cbn. by rewrite lookup_empty.
Qed.
