(* ===== verification/Integrity.v ===== *)
(** * The whole life of a database

    Every screen, both handlers, the operator's tool, key rotation and the start of
    the daemon leave a database with the integrity of [Sound.sound]; so does
    any history of them.  A connection is one step of a history: connections that run at
    the same time are not interleaved here. *)

From S2P Require Import Prelude Doors Releases Wire Xmodem GoStrings Base64 GoTime Vault Sql Users Credentials Boards Mail Files AuditLog.
From S2P Require Import SessionLog Bans Rekey DoorStore Registry Input Screen Terminal Login World Widgets MailScreens BoardScreens.
From S2P Require Import FileScreens ProfileScreens Apply DoorScreens SysOpScreens Menu Confine Member Gates Server Sysopctl Migrate Startup Tool Sound.

(** The accounts at some earlier moment. *)
Section Since.
Variable us0 : users.

(** ** Screens *)

Section Screens.
Context `{Crypto, SshKeys, Env, DoorHost, EventJson}.

Definition whole (w : state) : Prop := sound us0 (db w).

#[local] Instance whole_stable : Stable whole.
Proof. intros w w' [Hd _] Hw. unfold whole in *. rewrite Hd. by apply sound_log. Qed.

Abbreviation steady m := (keeps whole m (λ _, True)).

Lemma steady_still {A} (m : flow A) : (forall w, still w (m w).2) -> steady m.
Proof. apply (keeps_io whole). Qed.

Lemma steady_table {A X} (op : bbs -> A * X) (put : X -> bbs -> bbs) :
  (forall b, sound us0 b -> sound us0 (put (op b).2 b)) -> steady (exec (λ b, let '(r, x) := op b in (r, put x b))).
Proof. intros Hop. apply keeps_exec. intros w Hw. specialize (Hop _ Hw). by destruct (op (db w)). Qed.

Lemma steady_put (f : bbs -> bbs) : (forall b, sound us0 b -> sound us0 (f b)) -> steady (exec (λ b, ((), f b))).
Proof. intros Hf. apply keeps_exec. intros w Hw. split; [by apply Hf|done]. Qed.

Lemma steady_change f : (forall w, db (f w) = db w) -> steady (change f).
Proof. intros Hf. apply keeps_change; [|done]. intros w Hw. unfold whole. by rewrite Hf. Qed.

Ltac keep := keep_by ltac:(idtac; first [apply steady_table | apply steady_put]; intros ? ?; eauto with sound nocore).

#[local] Hint Resolve io_host io_piped io_lookupUser io_resolveRecipient io_readUpload io_RunDoors io_ShowMOTD io_RunWhosOnline
  io_logoffAction : io.
#[local] Hint Extern 1 (keeps _ ?m _) => lazymatch m with change _ => apply steady_change; done end : keep.

Lemma io_press_any_key w : still w (press_any_key w).2.
Proof. unfold press_any_key. still. Qed.
#[local] Hint Resolve io_press_any_key : io.

Lemma steady_run f : (forall b, sound us0 b -> sound us0 (f b)) -> steady (run f).
Proof. intros Hf. unfold run. keep. Qed.

(** *** Mail *)

Lemma steady_reportUser id c : steady (reportUser id c).
Proof. unfold reportUser. keep. Qed.
Lemma steady_block_author t d : steady (block_author t d).
Proof. unfold block_author. keep. Qed.
Hint Resolve steady_reportUser steady_block_author : keep.

Lemma steady_deliver l s b n : steady (deliver l s b n).
Proof. revert n. induction l as [|x l IH]; intros n; cbn [deliver]; keep; apply IH. Qed.
Hint Resolve steady_deliver : keep.
Lemma steady_sendToMany l s : steady (sendToMany l s).
Proof. unfold sendToMany. keep. Qed.
Hint Resolve steady_sendToMany : keep.
Lemma steady_composeMail : steady composeMail.
Proof. unfold composeMail, pickRecipient, pickCC. keep. Qed.
Lemma steady_readMail id : steady (readMail id).
Proof. unfold readMail, sendMail. keep. Qed.
Hint Resolve steady_composeMail steady_readMail : keep.
Lemma steady_RunMail : steady RunMail.
Proof. unfold RunMail, inbox_row. keep. Qed.

(** *** Boards *)

Lemma steady_compose a p : steady (compose a p).
Proof. unfold compose. keep. Qed.
Lemma steady_editMessage m : steady (editMessage m).
Proof. unfold editMessage. keep. Qed.
Lemma steady_delete_post m : steady (delete_post m).
Proof. unfold delete_post. keep. Qed.
Hint Resolve steady_compose steady_editMessage steady_delete_post : keep.
Lemma steady_readMessage m : steady (readMessage m).
Proof. unfold readMessage, reply_row. keep. Qed.
Lemma steady_markRead a : steady (markRead a).
Proof. unfold markRead. keep. Qed.
Hint Resolve steady_readMessage steady_markRead : keep.
Lemma steady_browseArea a : steady (browseArea a).
Proof. unfold browseArea, post_row. keep. Qed.
Lemma steady_newBoard p : steady (newBoard p).
Proof. unfold newBoard. keep. Qed.
Hint Resolve steady_browseArea steady_newBoard : keep.
Lemma steady_RunBoards p : steady (RunBoards p).
Proof. unfold RunBoards, area_row. keep. Qed.

(** *** Files and the profile *)

Lemma steady_downloadFile f : steady (downloadFile f).
Proof. unfold downloadFile. keep. Qed.
Lemma steady_uploadFile a : steady (uploadFile a).
Proof. unfold uploadFile. keep. Qed.
Lemma steady_deleteFile st l : steady (deleteFile st l).
Proof. unfold deleteFile. keep. Qed.
Lemma steady_newFileArea p : steady (newFileArea p).
Proof. unfold newFileArea. keep. Qed.
Hint Resolve steady_downloadFile steady_uploadFile steady_deleteFile steady_newFileArea : keep.
Lemma steady_browseFileArea a : steady (browseFileArea a).
Proof. unfold browseFileArea, file_row. keep. Qed.
Hint Resolve steady_browseFileArea : keep.
Lemma steady_RunFiles p : steady (RunFiles p).
Proof. unfold RunFiles, farea_row. keep. Qed.

Lemma steady_changePassword : steady changePassword.
Proof. unfold changePassword. keep. Qed.
Lemma steady_toggle on : steady (toggle_colorblind on).
Proof. unfold toggle_colorblind. keep. Qed.
Lemma steady_manageBlocks : steady manageBlocks.
Proof. unfold manageBlocks, block_row. keep. Qed.
Lemma steady_add_key : steady add_key.
Proof. unfold add_key. keep. Qed.
Lemma steady_revoke_key l : steady (revoke_key l).
Proof. unfold revoke_key. keep. Qed.
Hint Resolve steady_changePassword steady_toggle steady_manageBlocks steady_add_key steady_revoke_key : keep.
Lemma steady_RunProfile : steady RunProfile.
Proof. unfold RunProfile, key_row. keep. Qed.

(** *** Doors, the control panel, the menu *)

Lemma steady_launch p n bin a l : steady (launch_and_register p n bin a l).
Proof. unfold launch_and_register. keep. Qed.
Hint Resolve steady_launch : keep.
Lemma steady_Install p n u l : steady (Install p n u l).
Proof. unfold Install. keep. Qed.
Lemma steady_RelaunchAll p : steady (RelaunchAll p).
Proof. unfold RelaunchAll, relaunch_door, restore_binary. keep. Qed.
Hint Resolve steady_Install : keep.

Lemma steady_installDoorScreen p : steady (installDoorScreen p).
Proof. unfold installDoorScreen, installed_row. keep. Qed.
Lemma steady_membershipQueue : steady membershipQueue.
Proof. unfold membershipQueue, pending_row, approve_member, deny_member, or_fail, run. keep. Qed.
Lemma steady_userManagement : steady userManagement.
Proof. unfold userManagement, user_row, manage_user, award_points, set_number, run. keep. Qed.
Lemma steady_contentManagement : steady contentManagement.
Proof. unfold contentManagement, registerDoor, run. keep. Qed.
Lemma steady_auditViewer a f t : steady (auditViewer a f t).
Proof. unfold auditViewer, audit_page, event_row, anomaly_row. keep. Qed.
Lemma steady_reportsQueue : steady reportsQueue.
Proof. unfold reportsQueue, report_row, suspend_reported, resolve, run. keep. Qed.
Lemma steady_banManagement : steady banManagement.
Proof. unfold banManagement, ban_row, add_ban, lift_ban, run. keep. Qed.
Lemma steady_editSettings : steady editSettings.
Proof. unfold editSettings, SysOpScreens.set_text, save_setting, run. keep. Qed.
Lemma steady_editTimeouts : steady editTimeouts.
Proof. unfold editTimeouts, SysOpScreens.set_minutes, promptMinutes, save_setting, run. keep. Qed.
Hint Resolve steady_installDoorScreen steady_membershipQueue steady_userManagement steady_contentManagement steady_auditViewer
  steady_reportsQueue steady_banManagement steady_editSettings steady_editTimeouts : keep.

Lemma steady_RunSysOp p i d a f t : steady (RunSysOp p i d a f t).
Proof. unfold RunSysOp, panel_gate, panel_choice, panel_screen. keep. Qed.
Hint Resolve steady_RunMail steady_RunBoards steady_RunFiles steady_RunProfile steady_RunSysOp : keep.

Lemma steady_opens m : steady m -> steady (opens m).
Proof. intros Hm. unfold opens. keep. Qed.

(** Whatever menu the caller is shown. *)
Lemma steady_member_items c level motd : Forall (λ it, steady (ItemAction it)) (member_items c level motd).
Proof.
  apply (Forall_member_items (λ m, steady m)). unfold boardsAction, mailAction, filesAction, doorsAction, whosOnlineAction, profileAction, sysopAction.
  repeat (apply Forall_cons_2 || apply Forall_nil_2);
    first [apply steady_opens; first [simple apply steady_RunBoards | simple apply steady_RunMail | simple apply steady_RunFiles
             | simple apply steady_RunProfile | simple apply steady_RunSysOp]
          | apply steady_still; unfold motdAction, opens; still].
Qed.

Lemma steady_RunMember c : steady (RunMember c).
Proof.
  apply keeps_Run; [exact _|]. unfold refresh_member. keep. split; [apply steady_member_items|].
  intros q [= <-]. apply steady_still. still.
Qed.

Lemma steady_RunApply : steady RunApply.
Proof. unfold RunApply, readKeys, submit, save_key. keep. Qed.
End Screens.

(** ** The login *)

Section Login.
Context `{Crypto, SshKeys, Env, DoorHost, EventJson}.
Variable b : bbs.

(** The tables a login works on, put back into the database. *)
Definition fits (y : Login.world) : Prop :=
  sound us0 (put_anomalies (w_anomalies y) (put_tokens (w_tokens y) (put_users (w_users y) b))).

Lemma fits_update p f y : (forall r, c_handle (f r) = c_handle r) -> fits y -> fits (Login.with_users (update p f (w_users y)).1 y).
Proof. intros Hf Hy. exact (sound_user_update _ _ Hy p f Hf). Qed.

Lemma fits_redeem u tok now y : fits y -> fits (Login.with_tokens (Tokens_Redeem u tok now (w_tokens y)).2 y).
Proof. intros Hy. exact (sound_Redeem _ _ Hy u tok now). Qed.

Lemma fits_enter u y : fits y -> fits (enter conn clock u y).
Proof.
  intros Hy. unfold enter. destruct (Users_RecordLogin _ _ _ _ _) as [[r us] an] eqn:E.
  pose proof (sound_RecordLogin _ _ Hy _ _ _ _ _ _ E) as Hs. by destruct r as [[]|].
Qed.

Lemma fits_verify n u y : fits y -> fits (verify_loop conn clock n u y).2.
Proof.
  revert y. induction n as [|n IH]; intros y Hy; [done|]. cbn [verify_loop]. read_next; [|done].
  destruct (VerifyPassword _ _) as [[]| |]; [by apply fits_enter|by apply IH..|done].
Qed.

Lemma fits_first_password salt u y : fits y -> fits (set_first_password conn clock salt u y).2.
Proof.
  intros Hy. unfold set_first_password. cbv zeta. read_next; [|done]. read_next; [|done]. destruct (_ || _); [done|].
  exact (fits_update (by_id (ID u)) (λ r, set_login (fmtTime _) (c_last_login_ip r) r) _ (λ _, eq_refl)
          (fits_update (by_id (ID u)) (set_password _) y (λ _, eq_refl) Hy)).
Qed.

Lemma fits_RunLogin salt y : fits y -> fits (RunLogin vault conn clock salt y).2.
Proof.
  intros Hy. unfold RunLogin. destruct (Users_ByHandle _ _ _) as [u|]; [|done]. destruct (negb _); [done|].
  destruct (beq (PasswordHash u) []); [|by apply fits_verify]. unfold onboard. cbv zeta. read_next; [|done].
  match goal with |- context [Tokens_Redeem ?i ?t ?n ?x] => pose proof (fits_redeem i t n y Hy) as Hr end.
  destruct (Tokens_Redeem _ _ _ _) as [r t]. destruct r as [[]|]; [|done]. by apply fits_first_password.
Qed.
End Login.

(** ** The handlers of the daemon *)

Section Handlers.
Context `{Crypto, SshKeys, Env, DoorHost, EventJson}.
Variable buffered : nat -> nat.

Abbreviation steady m := (keeps whole m (λ _, True)).

Lemma steady_login : steady login.
Proof.
  intros w Hw. split; [|done]. destruct (login_db w) as [E _]. unfold whole. rewrite E. apply sound_log, fits_RunLogin.
  unfold fits. cbn. unfold whole in Hw. by destruct (db w).
Qed.

Lemma steady_deferring {A} (m : flow A) f : steady m -> steady f -> steady (deferring m f).
Proof.
  intros Hm Hf w Hw. split; [|done]. unfold deferring. destruct (Hm w Hw) as [H1' _]. destruct (m w) as [r w1]. by apply Hf.
Qed.

Lemma steady_Close start : steady (Session_Close buffered start).
Proof. apply steady_still, Close_still. Qed.

Lemma steady_telnetHandle : steady (telnetHandle buffered).
Proof.
  unfold telnetHandle. eapply keeps_bind; [apply steady_still, New_still|]. intros start _.
  apply steady_deferring; [apply steady_RunApply|apply steady_Close].
Qed.

Lemma steady_member_session d start c node : steady (member_session buffered d start c node).
Proof.
  unfold member_session. destruct (node =? 0); [apply steady_still, io_draw|].
  eapply keeps_bind; [apply steady_still, budget_still|]. intros ? _. eapply keeps_bind; [apply steady_still, io_query|].
  intros motd _. eapply keeps_bind; [apply steady_still; destruct (beq motd []); [apply io_ret|apply ShowMOTD_still]|].
  intros ? _. apply steady_RunMember.
Qed.

Lemma steady_sshHandle d c acquired : steady (sshHandle buffered d c acquired).
Proof.
  unfold sshHandle. eapply keeps_bind; [apply steady_still, New_still|]. intros start _. apply steady_deferring; [|apply steady_Close].
  eapply keeps_bind; [apply steady_login|]. intros [u|] _; [|by apply keeps_ret].
  eapply keeps_bind; [by apply steady_change|]. intros ? _. eapply keeps_bind; [by apply steady_change|]. intros ? _.
  eapply keeps_bind; [apply steady_still, io_host|]. intros node _. apply steady_member_session.
Qed.
End Handlers.

(** ** The start of the daemon *)

Section Boot.
Context {S : Type} (I : S -> Prop).
Definition boots {A} (m : boot S A) : Prop := forall h, I h -> I (m h).2.

Lemma boots_bind {A B} (m : boot S A) (k : A -> boot S B) : boots m -> (forall a, boots (k a)) -> boots (m ≫= k).
Proof.
  intros Hm Hk h Hh. specialize (Hm h Hh). unfold mbind, boot_bind. destruct (m h) as [[a|e] h1]; [by apply Hk|done].
Qed.
End Boot.

Lemma boots_table {T} (get : bbs -> T) put wrap f :
  (forall b, sound us0 b -> sound us0 (put (f (get b)).2 b)) -> boots (sound us0) (on_table get put wrap f).
Proof. intros Hf b Hb. specialize (Hf b Hb). unfold on_table. by destruct (f (get b)). Qed.

Lemma seed_areas_sound l b : sound us0 b -> sound us0 (put_areas (seed_areas l (db_areas b)).2 b).
Proof.
  revert b. induction l as [|[n d] l IH]; intros b Hb; [by destruct b|]. cbn [seed_areas].
  pose proof (sound_Areas_Create us0 b Hb n d 0) as Hc. destruct (Areas_Create _ _ _ _) as [[a|e] t]; [|done]. exact (IH (put_areas t b) Hc).
Qed.

Lemma seed_sound demo specs i d : boots (sound us0) (seed demo specs i d).
Proof.
  unfold seed. repeat (apply boots_bind; [|intros ?]).
  - apply boots_table. intros b Hb. unfold EnsureSeedAreas. destruct (0 <? _); [by destruct b|]. by apply seed_areas_sound.
  - apply boots_table. intros b Hb. unfold EnsureSeedFileAreas. destruct (0 <? _); [by destruct b|].
    pose proof (sound_FileAreas_Create us0 b Hb (str "General Files") 0) as Hc. by destruct (FileAreas_Create _ _ _) as [[]].
  - apply boots_table. intros b Hb. unfold EnsureSeedDoors. destruct (0 <? _); [by destruct b|]. destruct (negb _); [by destruct b|].
    pose proof (sound_Doors_Create us0 b Hb (str "Number Guess") demo_door (str "door32.sys") 0) as Hc. by destruct (Doors_Create _ _ _ _ _).
  - induction specs as [|s specs IH]; [by intros b|]. cbn [register_specs].
    destruct (door_spec s) as [[[[name net] addr] lvl]|]; [|by intros b]. apply boots_bind; [|intros ?; exact IH].
    apply boots_table. intros b Hb. by apply sound_EnsureResident.
  - intros b Hb. by apply sound_settings.
Qed.

Definition disk_sound (h : Startup.host) : Prop := sound us0 (Migrate.schema (Startup.disk h)).

Section Main.
Context `{Crypto}.
Variable exec : bytes -> bbs -> result bytes bbs.
Context (Hexec : forall n b b', exec n b = Ok b' -> sound us0 b -> sound us0 b').

Lemma boots_load_vault c : boots disk_sound (load_vault c).
Proof.
  intros h Hh. unfold load_vault. destruct (beq _ []); [done|]. destruct (LoadOrCreateSalt _ _ _) as [[salt|] f]; [|done].
  unfold must. by destruct (NewVault _ salt).
Qed.

Lemma boots_Store_Open c : boots disk_sound (Store_Open exec c).
Proof.
  intros h Hh. unfold Store_Open. destruct (db_opens c); [done|]. destruct (files_dir c); [done|].
  destruct (migrate _ _ _ _) as [r d] eqn:E. by apply (migrate_preserves (sound us0) exec _ _ _ _ Hexec Hh E).
Qed.

Lemma boots_main o c h : disk_sound h -> disk_sound (main exec o c h).2.
Proof.
  intros Hh. unfold main. destruct (o_version o); [done|]. destruct (euid h =? 0); [done|].
  assert (B : boots disk_sound (bring_up exec o c)).
  { unfold bring_up. apply boots_bind; [apply boots_load_vault|intros v]. do 3 (apply boots_bind; [by intros h1|intros ?]).
    apply boots_bind; [apply boots_Store_Open|intros ?]. apply boots_bind; [|intros ?; apply boots_bind; [|by intros ? h1]].
    - intros h1 Hh1. unfold on_disk. pose proof (seed_sound (demo_there c) (o_doors o) (Z.quot (o_idle o) Minute) (o_daily_minutes o) _ Hh1).
      by destruct (seed _ _ _ _ _).
    - intros h1 Hh1. unfold open_trail. destruct (AuditLog.New _ _); [|done]. by destruct (trail_opens c). }
  specialize (B h Hh). by destruct (bring_up _ _ _ _) as [[]].
Qed.
End Main.

(** ** The operator's tool *)

Section Commands.
Context `{Crypto, SshKeys, Env}.

Lemma cmd_approve_sound promote handle level raw now b : sound us0 b -> sound us0 (cmd_approve promote handle level raw now b).2.
Proof.
  intros Hb. unfold cmd_approve. cbv zeta. destruct (Users_ByHandle _ _ _) as [u|]; [|done].
  assert (Ha : sound us0 (put_users (Users_Approve (ID u) (level_arg 1 level) (db_users b)) b)) by (by apply sound_user_update).
  destruct (_ || _); [|done]. pose proof (sound_Issue _ _ Ha (ID u) raw now) as Ht. by destruct (Tokens_Issue _ _ _ _ _) as [[]].
Qed.

Lemma register_key_sound uid l taken now b : sound us0 b -> sound us0 (register_key uid l taken now b).2.
Proof.
  intros Hb. unfold register_key. pose proof (sound_Keys_Add us0 b Hb uid l now) as Hk. destruct (Keys_Add _ _ _ _ _) as [[k|e] t]; [done|by destruct e].
Qed.

Lemma bootstrap_account_sound handle l hash level now n1 n2 b : sound us0 b -> sound us0 (bootstrap_account handle l hash level now n1 n2 b).2.
Proof.
  intros Hb. unfold bootstrap_account.
  assert (Hf : sound us0 (put_users (find_or_create handle now n1 n2 (db_users b)).2 b)).
  { unfold find_or_create. destruct (Users_ByHandle _ _ _); [by destruct b|]. by apply sound_Create. }
  destruct (find_or_create _ _ _ _ _) as [[u|] us]; [|done]. cbv zeta.
  match goal with |- context [put_users ?x b] => assert (Ha : sound us0 (put_users x b)) end.
  { exact (sound_user_update _ _ (sound_user_update _ _ Hf (by_id (ID u)) (set_password hash) (λ _, eq_refl))
             (by_id (ID u)) (set_status StatusApproved level) (λ _, eq_refl)). }
  destruct (existing_key _ _ _); [done|]. pose proof (register_key_sound (ID u) l (str "that SSH key is already registered to another account") now _ Ha).
  by destruct (register_key _ _ _ _ _) as [[]].
Qed.

Lemma cmd_bootstrap_sound handle src level pw stdin salt now n1 n2 b : sound us0 b -> sound us0 (cmd_bootstrap handle src level pw stdin salt now n1 n2 b).2.
Proof.
  intros Hb. unfold cmd_bootstrap. destruct (key_line _ _) as [[l rest]|]; [|done]. cbv zeta. destruct (beq _ []); [done|].
  by apply bootstrap_account_sound.
Qed.

Lemma cmd_addkey_sound handle src stdin now b : sound us0 b -> sound us0 (cmd_addkey handle src stdin now b).2.
Proof.
  intros Hb. unfold cmd_addkey. destruct (key_line _ _) as [[l rest]|]; [|done]. destruct (Users_ByHandle _ _ _) as [u|]; [|done].
  pose proof (register_key_sound (ID u) l (str "that SSH key is already registered (to this or another account)") now b Hb).
  by destruct (register_key _ _ _ _ _) as [[]].
Qed.
End Commands.

Section Tool.
Context `{Crypto, SshKeys, E : Env}.

Lemma command_sound v x pw b : sound us0 b -> sound us0 (command v x pw b).2.
Proof.
  intros Hb. unfold command. cbv zeta. destruct (args x) as [|cmd rest]; [done|]. destruct (beq cmd (str "list")); [done|].
  destruct (_ || _); [destruct rest; [done|]; by apply cmd_approve_sound|].
  destruct (beq cmd (str "bootstrap")); [destruct rest as [|? []]; [done..|]; by apply cmd_bootstrap_sound|].
  destruct (beq cmd (str "addkey")); [destruct rest as [|? []]; [done..|]; by apply cmd_addkey_sound|done].
Qed.

Lemma sysopctl_sound exec c x h : (forall n b b', exec n b = Ok b' -> sound us0 b -> sound us0 b') ->
  disk_sound h -> disk_sound (sysopctl exec c x h).2.
Proof.
  intros Hx Hh. unfold sysopctl. destruct (args x); [done|]. pose proof (boots_load_vault c h Hh) as H1.
  destruct (load_vault c h) as [[v|] h1]; [|done]. pose proof (boots_Store_Open exec Hx c h1 H1) as H2.
  destruct (Store_Open exec c h1) as [[u|] h2]; [|done]. pose proof (command_sound v x (Getenv ENV_SYSOP_PASSWORD h2) _ H2).
  by destruct (command _ _ _ _).
Qed.
End Tool.

(** ** Key rotation *)

(** The tables a rotation rewrites, taken from the database and put back. *)
Definition sealed_part (b : bbs) : Rekey.database := Rekey.DB (db_users b) (db_memberships b) (db_messages b) (db_mail b) (db_log b).
Definition with_sealed (d : Rekey.database) (b : bbs) : bbs :=
  put_log (Rekey.db_log d) (put_mail (Rekey.db_mail d) (put_messages (Rekey.db_messages d)
    (put_memberships (Rekey.db_memberships d) (put_users (Rekey.db_users d) b)))).
Definition put_blobs (x : gmap bytes bytes) (b : bbs) : bbs := put_files (Lib (entries (db_files b)) x) b.

Section Rotation.
Context `{Crypto}.
Variables oldV newV : Vault.
Variable rnd : nat -> bytes.

(** A rotation of a table is a series of updates of sealed columns. *)
Lemma rekey_rows_keeps {R} `{SealedColumns R} (I : table R -> Prop) batch t k t' k' :
  (forall id args t, I t -> I (update (by_id id) (with_cols args) t).1) ->
  rekey_rows oldV newV rnd batch t k = Ok (t', k') -> I t -> I t'.
Proof.
  intros HI. revert t k. induction batch as [|[id vals] batch IH]; intros t k; cbn [rekey_rows]; [by intros [= <- _]|].
  destruct (reseal_all _ _ _ _ _) as [[args k1]|]; [|done]. intros E Ht. eapply IH; [exact E|]. by apply HI.
Qed.

Lemma sealed_update_sound id args b : sound us0 b ->
  sound us0 (put_users (update (by_id id) (with_cols args) (db_users b)).1 b) /\
  sound us0 (put_memberships (update (by_id id) (with_cols args) (db_memberships b)).1 b) /\
  sound us0 (put_messages (update (by_id id) (with_cols args) (db_messages b)).1 b) /\
  sound us0 (put_mail (update (by_id id) (with_cols args) (db_mail b)).1 b).
Proof.
  intros Hb. split_and!.
  - apply sound_user_update; [done|]. intros r. by destruct args as [|? [|? []]].
  - one_table. apply intact_update; [done|]. intros i r _. by destruct args as [|? []].
  - one_table; [apply intact_update; [done|]; intros i r _|apply threads_update; [|done]; intros r]; by destruct args as [|? [|? []]].
  - one_table. apply intact_update; [done|]. intros i r _. by destruct args as [|? [|? []]].
Qed.

Lemma rekey_tables_sound b d k : rekey_tables oldV newV rnd (sealed_part b) = Ok (d, k) -> sound us0 b -> sound us0 (with_sealed d b).
Proof.
  unfold rekey_tables, rekeyTable. cbn [sealed_part Rekey.db_users Rekey.db_memberships Rekey.db_messages Rekey.db_mail Rekey.db_log].
  destruct (rekey_rows _ _ _ _ (db_users b) _) as [[us k1]|] eqn:E1; [|done].
  destruct (rekey_rows _ _ _ _ (db_memberships b) _) as [[ms k2]|] eqn:E2; [|done].
  destruct (rekey_rows _ _ _ _ (db_messages b) _) as [[msgs k3]|] eqn:E3; [|done].
  destruct (rekey_rows _ _ _ _ (db_mail b) _) as [[pms k4]|] eqn:E4; [|done].
  destruct (rekey_rows _ _ _ _ (db_log b) _) as [[lg k5]|]; [|done]. intros [= <- _] Hb. apply sound_log.
  refine (rekey_rows_keeps (λ t, sound us0 (put_mail t _)) _ _ _ _ _ _ E4 _).
  { intros id args t Ht. exact (proj2 (proj2 (proj2 (sealed_update_sound id args _ Ht)))). }
  refine (rekey_rows_keeps (λ t, sound us0 (put_messages t _)) _ _ _ _ _ _ E3 _).
  { intros id args t Ht. exact (proj1 (proj2 (proj2 (sealed_update_sound id args _ Ht)))). }
  refine (rekey_rows_keeps (λ t, sound us0 (put_memberships t _)) _ _ _ _ _ _ E2 _).
  { intros id args t Ht. exact (proj1 (proj2 (sealed_update_sound id args _ Ht))). }
  refine (rekey_rows_keeps (λ t, sound us0 (put_users t b)) _ _ _ _ _ _ E1 _).
  { intros id args t Ht. exact (proj1 (sealed_update_sound id args _ Ht)). }
  by destruct b.
Qed.

Lemma RekeyDB_sound commit rd wr b f r d f' : RekeyDB oldV newV rnd commit rd wr (sealed_part b) f = (r, d, f') ->
  sound us0 b -> sound us0 (with_sealed d b).
Proof.
  intros E Hb. assert (Hsame : sound us0 (with_sealed (sealed_part b) b)) by by destruct b. unfold RekeyDB in E.
  destruct (rekey_tables _ _ _ _) as [[d1 k]|] eqn:Er; [|by injection E as _ <- _].
  destruct commit; cbn [negb] in E; [|by injection E as _ <- _]. apply rekey_tables_sound in Er; [|done].
  destruct f; [by injection E as _ <- _..|]. destruct (rekey_blobs _ _ _ _ _ _ _). by injection E as _ <- _.
Qed.

Lemma sound_blobs x b : sound us0 b -> sound us0 (put_blobs x b).
Proof. intros Hb. pose proof (so_library us0 b Hb) as Hl. unfold put_blobs. one_table. by destruct Hl. Qed.
End Rotation.

(** ** Histories *)

Section Life.
Context `{Crypto, SshKeys, EventJson}.
Variable exec : bytes -> bbs -> result bytes bbs.

(** What the process or the tool does to the host's database. *)
Definition on_host (b : bbs) (h : Startup.host) : Startup.host := on_schema (λ _, b) h.
Definition finds (w : state) (h : Startup.host) : Prop := db w = Migrate.schema (Startup.disk h).

(** One event in the life of an installation: a start of the daemon, also one that
    fails; the relaunch of its doors; a connection, from accept to close, of any
    caller, with any key, clock, network and operating system; a command of the tool;
    a rotation, whatever it leaves of the blobs. *)
Inductive life : Startup.host -> Startup.host -> Prop :=
  | l_start o c h : life h (main exec o c h).2
  | l_relaunch (E : Env) (D : DoorHost) dir w h : finds w h -> life h (on_host (db (RelaunchAll dir w).2) h)
  | l_telnet (E : Env) buffered w h : finds w h -> life h (on_host (db (telnetHandle buffered w).2) h)
  | l_ssh (E : Env) (D : DoorHost) buffered minutes c acquired w h :
      finds w h -> life h (on_host (db (sshHandle buffered minutes c acquired w).2) h)
  | l_tool (E : Env) c x h : life h (sysopctl exec c x h).2
  | l_rekey oldV newV rnd commit rd wr f r d f' blobs h :
      RekeyDB oldV newV rnd commit rd wr (sealed_part (Migrate.schema (Startup.disk h))) f = (r, d, f') ->
      life h (on_schema (λ b, put_blobs blobs (with_sealed d b)) h).

Lemma life_sound h h' : (forall n b b', exec n b = Ok b' -> sound us0 b -> sound us0 b') -> life h h' -> disk_sound h -> disk_sound h'.
Proof.
  intros Hx Hl Hh. unfold disk_sound in *.
  assert (S : forall (m : flow ()) w, keeps whole m (λ _, True) -> finds w h -> sound us0 (db (m w).2)).
  { intros m w Hm Hw. apply (Hm w). unfold whole. by rewrite Hw. }
  destruct Hl; [by apply boots_main|..].
  - apply S; [apply steady_RelaunchAll|done].
  - apply S; [apply steady_telnetHandle|done].
  - apply S; [apply steady_sshHandle|done].
  - by apply sysopctl_sound.
  - apply sound_blobs. by eapply RekeyDB_sound.
Qed.
End Life.

End Since.

(** What the other properties ask of the tables. *)
Lemma sound_tables_ok us0 b : sound us0 b -> tables_ok b.
Proof. intros []. split; try done; by eapply it_wf. Qed.

Lemma sound_now us0 b : sound us0 b -> sound (db_users b) b.
Proof. intros []. split; try done. intros i r Hr. by exists r. Qed.

Lemma history_keeps `{Crypto, SshKeys, EventJson} (exec : bytes -> bbs -> result bytes bbs) us0 h h'
    (Hexec : forall us n b b', exec n b = Ok b' -> sound us b -> sound us b') :
  rtc (life exec) h h' -> disk_sound us0 h -> disk_sound us0 h'.
Proof.
  induction 1 as [h|h h1 h2 Hl _ IH]; [done|]. intros Hh. apply IH. eapply life_sound; [apply Hexec|exact Hl|exact Hh].
Qed.

(** C8: The database is never broken: whatever happens to an installation, in any order,
    starts of the daemon (failed ones too), applications by Telnet, SSH sessions of
    members and SysOps, commands of the operator's tool, key rotations that fail
    anywhere: every id is unique and was given out, handles, areas, file areas,
    doors and installed doors are distinct by name, every foreign key refers to
    a row that is there, replies to earlier posts, the library is within its
    bounds, and no account is gone or renamed; provided the migrations' SQL does
    as much. *)
Theorem history_sound `{Crypto, SshKeys, EventJson} (exec : bytes -> bbs -> result bytes bbs) (h h' : Startup.host)
    (Hexec : forall us n b b', exec n b = Ok b' -> sound us b -> sound us b')
    (Hstart : sound empty_table (Migrate.schema (Startup.disk h))) (Hlife : rtc (life exec) h h') :
  sound (db_users (Migrate.schema (Startup.disk h))) (Migrate.schema (Startup.disk h')).
Proof. eapply (history_keeps exec); [done|exact Hlife|]. by eapply sound_now. Qed.

(** ** Witness *)

(** The SysOp is made, the board starts, somebody applies by Telnet. *)
Definition an_applicant : state :=
  with_db (Migrate.schema (Startup.disk by_daemon.2)) (at_keys trinity (typing [str "neo"; str "key"; []; []; str "steak"])).
Definition applied : Startup.host := on_host (db (telnetHandle (H := toy) (H0 := toy_ssh) (H1 := toy_env) (λ _, 0%nat) an_applicant).2) by_daemon.2.

Lemma applied_life : rtc (life (H := toy) (H0 := toy_ssh) (H1 := toy_json) just_apply) new_host applied.
Proof.
  eapply rtc_l; [apply (l_tool (H := toy) (H0 := toy_ssh) (H1 := toy_json) just_apply tool_env (calm Startup.a_salt) call)|].
  eapply rtc_l; [apply (l_start (H := toy) (H0 := toy_ssh) (H1 := toy_json) just_apply its_options (calm []))|].
  apply rtc_once. by apply (l_telnet (H := toy) (H0 := toy_ssh) (H1 := toy_json) just_apply toy_env).
Qed.

Lemma history_sound_witness :
  length (rows (db_users (Migrate.schema (Startup.disk applied)))) = 2%nat /\ sound empty_table (Migrate.schema (Startup.disk applied)).
Proof.
  split; [vm_compute; reflexivity|].
  apply (history_sound (H := toy) (H0 := toy_ssh) (H1 := toy_json) just_apply new_host applied);
    [by intros us n b b' [= <-]|apply sound_no_rows|apply applied_life].
Defined.
