(* ===== verification/Watchdog.v ===== *)
(** * The watchdogs of a session (WatchIdle, WatchBudget, resetIdle and Close of src/session/session.go)

    Two timers close a caller's connection: one that every byte read puts off, one
    that nothing puts off.  Times are nanoseconds. *)

From S2P Require Import Prelude.

(** A [*time.Timer]: nil, pending with its deadline, or fired or stopped. *)
Inductive timer := Nil | Pending (deadline : Z) | Idle_.

(** The fields of [Session] for them, and when the connection was first closed. *)
Record watch := Watch { idle : Z; idleTimer : timer; budgetTimer : timer; closed_at : option Z }.

Definition new_watch : watch := Watch 0 Nil Nil None.

Definition WatchIdle (d now : Z) (s : watch) : watch :=
  if d <=? 0 then s else Watch d (Pending (now + d)) (budgetTimer s) (closed_at s).

Definition WatchBudget (d now : Z) (s : watch) : watch :=
  if d <=? 0 then s else Watch (idle s) (idleTimer s) (Pending (now + d)) (closed_at s).

(** [Timer.Reset] also arms a timer that has fired. *)
Definition resetIdle (now : Z) (s : watch) : watch :=
  match idleTimer s with
  | Nil => s
  | _ => Watch (idle s) (Pending (now + idle s)) (budgetTimer s) (closed_at s)
  end.

Definition stop (t : timer) : timer := match t with Nil => Nil | _ => Idle_ end.
Definition first_close (at_ : Z) (c : option Z) : option Z := match c with None => Some at_ | Some x => Some x end.

Definition Close (now : Z) (s : watch) : watch :=
  Watch (idle s) (stop (idleTimer s)) (stop (budgetTimer s)) (first_close now (closed_at s)).

(** The deadline of a timer that is due at [now]. *)
Definition due (now : Z) (t : timer) : option Z :=
  match t with Pending x => if x <=? now then Some x else None | _ => None end.

(** Time passes up to [now]: what is due fires and closes the connection. *)
Definition elapse (now : Z) (s : watch) : watch :=
  let i := due now (idleTimer s) in
  let b := due now (budgetTimer s) in
  let close := match i, b with Some x, Some y => Some (Z.min x y) | Some x, None | None, Some x => Some x | None, None => None end in
  Watch (idle s) (if i is Some _ then Idle_ else idleTimer s) (if b is Some _ then Idle_ else budgetTimer s)
    (match close with Some x => first_close x (closed_at s) | None => closed_at s end).

(** A byte is read at [t]. *)
Definition input (t : Z) (s : watch) : watch := resetIdle t (elapse t s).

(** The state at [now] after bytes at the times [ts]. *)
Definition watched (ts : list Z) (now : Z) (s : watch) : watch := elapse now (fold_left (λ s t, input t s) ts s).

(** ** What it amounts to *)

(** When a caller is cut off whose idle deadline is [i]: at the deadline in force
    when the first byte misses it, or at the budget's. *)
Fixpoint cutoff (d budget i : Z) (ts : list Z) : Z :=
  match ts with
  | [] => Z.min i budget
  | t :: ts => if Z.min i budget <=? t then Z.min i budget else cutoff d budget (t + d) ts
  end.

(** Times in order, none before [now]. *)
Fixpoint in_order (now : Z) (ts : list Z) : Prop :=
  match ts with [] => True | t :: ts => now <= t /\ in_order t ts end.

Lemma closed_stays ts s x : closed_at s = Some x -> closed_at (fold_left (λ s t, input t s) ts s) = Some x.
Proof.
  revert s. induction ts as [|t ts IH]; intros s Hs; [done|]. cbn. apply IH. unfold input, resetIdle, elapse. cbn. rewrite Hs.
  by destruct (idleTimer s) as [|a|], (budgetTimer s) as [|c|]; cbn; repeat destruct (_ <=? t).
Qed.

Lemma elapse_open i b d now : let s := Watch d (Pending i) (Pending b) None in
  (now < Z.min i b -> elapse now s = s) /\ (Z.min i b <= now -> closed_at (elapse now s) = Some (Z.min i b)).
Proof.
  cbn. unfold elapse. cbn. destruct (Z.leb_spec i now), (Z.leb_spec b now); cbn; split; intros; try done; try lia; f_equal; lia.
Qed.

Lemma watched_cutoff d b i ts now : (forall t, t ∈ ts -> t <= now) ->
  closed_at (watched ts now (Watch d (Pending i) (Pending b) None)) =
    (if cutoff d b i ts <=? now then Some (cutoff d b i ts) else None).
Proof.
  unfold watched. revert i. induction ts as [|t ts IH]; intros i Hn; cbn [fold_left cutoff].
  - destruct (elapse_open i b d now) as [Ho Hc]. destruct (Z.leb_spec (Z.min i b) now) as [Hle|Hgt]; [by apply Hc|by rewrite Ho].
  - assert (Ht : t <= now) by (apply Hn; by left). destruct (elapse_open i b d t) as [Ho Hc].
    destruct (Z.leb_spec (Z.min i b) t) as [Hle|Hgt].
    + rewrite (proj2 (Z.leb_le (Z.min i b) now)) by lia. specialize (Hc Hle).
      set (s := input t _). assert (Hs : closed_at s = Some (Z.min i b)).
      { unfold s, input, resetIdle. by destruct (idleTimer _). }
      pose proof (closed_stays ts s _ Hs) as Hs'. unfold elapse. cbn. rewrite Hs'.
      by destruct (due now (idleTimer _)), (due now (budgetTimer _)).
    + unfold input at 2. rewrite Ho by done. cbn [resetIdle idleTimer idle budgetTimer closed_at]. apply IH.
      intros t' Ht'. apply Hn. by right.
Qed.

(** The moments at which a caller has been silent for [d], last heard of at [a],
    or has used the budget up. *)
Definition ends (d budget a : Z) (ts : list Z) (x : Z) : Prop :=
  x = budget \/ exists h, h ∈ a :: ts /\ x = h + d /\ forall t, t ∈ ts -> t <= h \/ h + d <= t.

Lemma in_order_le a ts : in_order a ts -> forall t, t ∈ ts -> a <= t.
Proof.
  revert a. induction ts as [|u ts IH]; intros a; [by intros _ ? ?%elem_of_nil|]. intros [Ha Ho] t [->|Ht]%elem_of_cons; [done|].
  specialize (IH u Ho t Ht). lia.
Qed.

Lemma cutoff_least d budget a ts : 0 < d -> in_order a ts ->
  ends d budget a ts (cutoff d budget (a + d) ts) /\ forall x, ends d budget a ts x -> cutoff d budget (a + d) ts <= x.
Proof.
  intros Hd. revert a. induction ts as [|t ts IH]; intros a Ho.
  { split.
    - destruct (Z.min_spec (a + d) budget) as [[_ E]|[_ E]]; cbn; rewrite E; [right|by left]. exists a.
      split_and!; [by left|done|by intros ? ?%elem_of_nil].
    - intros x [->|(h & Hh & -> & _)]; [cbn; lia|]. apply list_elem_of_singleton in Hh as ->. cbn. lia. }
  pose proof (in_order_le a _ Ho) as Hle. destruct Ho as [Hat Ho]. pose proof (in_order_le t _ Ho) as Hle'. cbn [cutoff].
  destruct (Z.leb_spec (Z.min (a + d) budget) t) as [Hmin|Hmin].
  - split.
    + destruct (Z.min_spec (a + d) budget) as [[_ E]|[_ E]]; rewrite E in *; [right|by left]. exists a.
      split_and!; [by left|done|]. intros u [->|Hu]%elem_of_cons; [by right|]. right. specialize (Hle' u Hu). lia.
    + intros x [->|(h & Hh & -> & _)]; [lia|]. apply elem_of_cons in Hh as [->|Hh]; [lia|]. specialize (Hle h Hh). lia.
  - destruct (IH t Ho) as [He Hl]. split.
    + destruct He as [->|(h & Hh & -> & Hg)]; [by left|]. right. exists h. split_and!; [by right|done|].
      intros u [->|Hu]%elem_of_cons; [|by apply Hg]. left. apply elem_of_cons in Hh as [->|Hh]; [lia|by apply Hle'].
    + intros x [->|(h & Hh & -> & Hg)]; apply Hl; [by left|]. right. exists h.
      split_and!; [|done|intros u Hu; apply Hg; by right]. apply elem_of_cons in Hh as [->|Hh]; [|done].
      destruct (Hg t) as [Hta| ]; [by left| |lia]. assert (t = a) as -> by lia. by left.
Qed.

(** ** Properties *)

(** C31: A caller under both watchdogs is cut off exactly at the first moment at which
    no byte was read for the idle time, since the start or since the last byte, or
    the budget, counted from when it was set, is used up, however busy the caller
    is; and at no other. *)
Theorem disconnect_time (d b t0 t1 now : Z) (ts : list Z) (Hd : 0 < d) (Hb : 0 < b)
    (H01 : t0 <= t1) (H1 : t1 < t0 + d) (Ho : in_order t1 ts) (Hn : forall t, t ∈ ts -> t <= now) :
  let s := watched ts now (WatchBudget b t1 (elapse t1 (WatchIdle d t0 new_watch))) in
  let x := ends d (t1 + b) t0 ts in
  match closed_at s with
  | Some c => c <= now /\ x c /\ forall c', x c' -> c <= c'
  | None => forall c', x c' -> now < c'
  end.
Proof.
  cbv zeta. assert (E : WatchBudget b t1 (elapse t1 (WatchIdle d t0 new_watch)) = Watch d (Pending (t0 + d)) (Pending (t1 + b)) None).
  { unfold WatchIdle, WatchBudget, elapse. apply Z.leb_gt in Hd as ->, Hb as ->. cbn. by rewrite (proj2 (Z.leb_gt (t0 + d) t1)) by lia. }
  rewrite E, watched_cutoff by done. assert (Ho' : in_order t0 ts) by (destruct ts; [done|split; [destruct Ho; lia|by destruct Ho]]).
  destruct (cutoff_least d (t1 + b) t0 ts Hd Ho') as [Hc Hl]. destruct (Z.leb_spec (cutoff d (t1 + b) (t0 + d) ts) now).
  - by split_and!.
  - intros c' Hc'. specialize (Hl c' Hc'). lia.
Qed.

Lemma disconnect_time_witness :
  closed_at (watched [3; 9; 14] 40 (WatchBudget 30 2 (elapse 2 (WatchIdle 10 0 new_watch)))) = Some 24 /\ 24 <= 40.
Proof.
  split; [reflexivity|]. pose proof (disconnect_time 10 30 0 2 40 [3; 9; 14] ltac:(lia) ltac:(lia) ltac:(lia) ltac:(lia)
    ltac:(cbn; lia) ltac:(intros t Ht; repeat (apply elem_of_cons in Ht as [->|Ht]; [lia|]); by apply elem_of_nil in Ht)) as D.
  exact (proj1 D).
Defined.
