(* ===== verification/Supervise.v ===== *)
(** * Supervised doors (the goroutines of Supervisor in src/doors/install.go)

    The table of Doors.v with what runs behind it: a goroutine per supervised
    door that starts the binary, waits for it and starts it again, interleaved
    with Launch and Stop, which hold the supervisor's lock. *)

From S2P Require Import Prelude Doors.

(** ** State *)

(** [sp.cmd]: none yet, made but not (or not successfully) started, started and
    running or not any more. *)
Inductive command := NoCmd | Made | Started (alive : bool).

(** Where [supervise] stands: at the first select, between [sp.cmd = cmd] and
    [cmd.Start], in [cmd.Wait], at the second select, at the third, returned. *)
Inductive point := AtTop | BeforeStart | InWait | AfterWait | Sleeping (backoff : Z) | Done.

Record goroutine := Goroutine {
  g_door : superProc; g_stop : bool; g_cmd : command; g_pc : point; g_backoff : Z
}.

(** [procs] maps a name to its goroutine. *)
Record state := State { procs : gmap bytes Z; gos : gmap Z goroutine; next_id : Z }.

Definition NewSupervisor : state := State ∅ ∅ 0.

Definition at_ (pc : point) (g : goroutine) : goroutine := Goroutine (g_door g) (g_stop g) (g_cmd g) pc (g_backoff g).
Definition with_cmd (c : command) (g : goroutine) : goroutine := Goroutine (g_door g) (g_stop g) c (g_pc g) (g_backoff g).
Definition set_gos (m : gmap Z goroutine) (s : state) : state := State (procs s) m (next_id s).

(** ** Steps *)

(** [Launch]; [mkdir]: whether the data directory can be made. *)
Definition Launch (mkdir : bool) (name : bytes) (d : superProc) (s : state) : bool * state :=
  match procs s !! name with
  | Some _ => (true, s)
  | None =>
      if mkdir then
        (true, State (<[name := next_id s]> (procs s)) (<[next_id s := Goroutine d false NoCmd AtTop (10 ^ 9)]> (gos s)) (next_id s + 1))
      else (false, s)
  end.

(** [close(sp.stop)] and the kill of the process, if [sp.cmd] has one. *)
Definition end_door (g : goroutine) : goroutine :=
  Goroutine (g_door g) true (match g_cmd g with Started _ => Started false | c => c end) (g_pc g) (g_backoff g).

Definition Stop (name : bytes) (s : state) : state :=
  match procs s !! name with
  | None => s
  | Some i => State (delete name (procs s)) (alter end_door i (gos s)) (next_id s)
  end.

Definition StopAll (s : state) : state :=
  State ∅ (map_imap (λ i g, Some (if bool_decide (i ∈ (map_to_list (procs s)).*2) then end_door g else g)) (gos s)) (next_id s).

(** The next step of a goroutine; [starts]: whether the binary starts, [ran] how
    long it ran, [early] whether the last select sees the stop. *)
Definition supervise (starts : bool) (ran : Z) (early : bool) (g : goroutine) : goroutine :=
  match g_pc g with
  | AtTop => if g_stop g then at_ Done g else at_ BeforeStart (with_cmd Made g)
  | BeforeStart => if starts then at_ InWait (with_cmd (Started true) g) else at_ AfterWait g
  | InWait => match g_cmd g with Started true => g | _ => at_ AfterWait g end
  | AfterWait =>
      if g_stop g then at_ Done g
      else let '(sleep, b) := relaunch ran (g_backoff g) in
           Goroutine (g_door g) false (g_cmd g) (Sleeping sleep) b
  | Sleeping _ => if g_stop g && early then at_ Done g else at_ AtTop g
  | Done => g
  end.

(** The process ends by itself. *)
Definition dies (g : goroutine) : goroutine :=
  match g_cmd g with Started _ => with_cmd (Started false) g | _ => g end.

Inductive step : state -> state -> Prop :=
  | step_launch b n d s : step s (Launch b n d s).2
  | step_stop n s : step s (Stop n s)
  | step_stop_all s : step s (StopAll s)
  | step_supervise i b r e s : step s (set_gos (alter (supervise b r e) i (gos s)) s)
  | step_dies i s : step s (set_gos (alter dies i (gos s)) s).

Definition reachable (s : state) : Prop := rtc step NewSupervisor s.

Definition alive (i : Z) (s : state) : Prop := exists g, gos s !! i = Some g /\ g_cmd g = Started true.

(** ** Lemmas *)

(** The command fits the place; a goroutine that has returned was stopped. *)
Definition fits (g : goroutine) : Prop :=
  match g_pc g with
  | BeforeStart => g_cmd g = Made
  | InWait => exists b, g_cmd g = Started b
  | Done => g_stop g = true /\ g_cmd g <> Started true
  | _ => g_cmd g <> Started true
  end.

(** Every name has the one goroutine that is not stopped, and no other. *)
Record inv (s : state) : Prop := {
  i_fits : forall i g, gos s !! i = Some g -> fits g;
  i_table : forall n i, procs s !! n = Some i -> exists g, gos s !! i = Some g /\ g_stop g = false;
  i_named : forall i g, gos s !! i = Some g -> g_stop g = false -> exists n, procs s !! n = Some i;
  i_apart : forall n m i, procs s !! n = Some i -> procs s !! m = Some i -> n = m;
  i_next : forall i g, gos s !! i = Some g -> i < next_id s
}.

Lemma fits_supervise b r e g : fits g -> fits (supervise b r e g) /\ g_stop (supervise b r e g) = g_stop g.
Proof.
  unfold supervise, relaunch. destruct g as [d st c pc bo]. destruct pc; cbn; intros F.
  - by destruct st.
  - subst c. destruct b; cbn; [split; [by eexists|done]|done].
  - destruct F as [[] ->]; cbn; [split; [by eexists|done]|done].
  - by destruct st.
  - destruct (st && e) eqn:E; [|done]. by apply andb_true_iff in E as [-> _].
  - done.
Qed.

Lemma fits_dies g : fits g -> fits (dies g) /\ g_stop (dies g) = g_stop g.
Proof. unfold dies, fits. destruct g as [d st c pc bo]. destruct c; cbn; [done..|]. destruct pc; cbn; try done; naive_solver. Qed.

Lemma fits_end g : fits g -> fits (end_door g).
Proof. unfold fits, end_door. destruct g as [d st c pc bo]; destruct c, pc; cbn; naive_solver. Qed.

Lemma inv_alter f i s : (forall g, fits g -> fits (f g) /\ g_stop (f g) = g_stop g) -> inv s -> inv (set_gos (alter f i (gos s)) s).
Proof.
  intros Hf [I1 I2 I3 I4 I5].
  assert (F : forall j g', alter f i (gos s) !! j = Some g' -> exists g, gos s !! j = Some g /\ fits g' /\ g_stop g' = g_stop g).
  { intros j g'. rewrite lookup_alter. case_decide as E; [|intros Hj; exists g'; eauto].
    intros (g & Hg & ->)%fmap_Some. subst j. exists g. destruct (Hf g); eauto. }
  split; cbn; try done.
  - intros j g' (g & _ & ? & _)%F. done.
  - intros n j Hn. destruct (I2 n j Hn) as (g & Hg & Hs). rewrite lookup_alter. case_decide; subst; [|eauto].
    rewrite Hg. exists (f g). split; [done|]. destruct (Hf g) as [_ ->]; eauto.
  - intros j g' (g & Hg & _ & E)%F Hs. apply (I3 j g Hg). congruence.
  - intros j g' (g & Hg & _)%F. eauto.
Qed.

Lemma inv_Stop n s : inv s -> inv (Stop n s).
Proof.
  intros [I1 I2 I3 I4 I5]. unfold Stop. destruct (procs s !! n) as [i|] eqn:E; [|by split].
  assert (F : forall j g', alter end_door i (gos s) !! j = Some g' ->
    exists g, gos s !! j = Some g /\ fits g' /\ (j = i \/ g' = g) /\ (j = i -> g_stop g' = true)).
  { intros j g'. rewrite lookup_alter. case_decide as D; [|intros Hj; exists g'; naive_solver].
    intros (g & Hg & ->)%fmap_Some. subst j. exists g. split_and!; [done|by apply fits_end, (I1 i)|by left|done]. }
  split; cbn.
  - intros j g' (g & _ & ? & _)%F. done.
  - intros m j. rewrite lookup_delete_Some. intros [Hm Hj]. destruct (I2 m j Hj) as (g & Hg & Hs). exists g.
    rewrite lookup_alter, decide_False; [done|]. intros ->. by apply Hm, (I4 _ _ j).
  - intros j g' (g & Hg & _ & Ho & Hi)%F Hs. destruct Ho as [->| ->]; [by rewrite Hi in Hs|].
    destruct (I3 j g Hg Hs) as [m Hm]. exists m. apply lookup_delete_Some. split; [|done]. intros ->. rewrite E in Hm. injection Hm as ->.
    by rewrite Hi in Hs.
  - intros a b j [_ ?]%lookup_delete_Some [_ ?]%lookup_delete_Some. eauto.
  - intros j g' (g & Hg & _)%F. eauto.
Qed.

Lemma inv_StopAll s : inv s -> inv (StopAll s).
Proof.
  intros [I1 I2 I3 I4 I5]. unfold StopAll.
  assert (F : forall j g', gos (StopAll s) !! j = Some g' -> exists g, gos s !! j = Some g /\ fits g' /\ g_stop g' = true).
  { intros j g'. cbn. rewrite map_lookup_imap. intros (g & Hg & [= <-])%bind_Some. exists g. split; [done|].
    case_bool_decide as D; [split; [by apply fits_end, (I1 j)|done]|]. split; [by apply (I1 j)|].
    destruct (g_stop g) eqn:Hs; [done|]. exfalso. apply D. destruct (I3 j g Hg Hs) as [n Hn].
    apply list_elem_of_fmap. exists (n, j). split; [done|]. by apply elem_of_map_to_list. }
  split; cbn.
  - intros j g' (g & _ & ? & _)%F. done.
  - intros n i. by rewrite lookup_empty.
  - intros j g' (g & _ & _ & Ht)%F Hs. congruence.
  - intros n m i. by rewrite lookup_empty.
  - intros j g' (g & Hg & _)%F. eauto.
Qed.

Lemma inv_Launch b n d s : inv s -> inv (Launch b n d s).2.
Proof.
  intros I. unfold Launch. destruct (procs s !! n) as [i|] eqn:E; [done|]. destruct b; [|done]. cbn [snd].
  destruct I as [I1 I2 I3 I4 I5].
  assert (Hf : gos s !! next_id s = None). { destruct (gos s !! next_id s) eqn:G; [apply I5 in G; lia|done]. }
  assert (Hp : forall m, procs s !! m = Some (next_id s) -> False).
  { intros m Hm. destruct (I2 _ _ Hm) as (g & Hg & _). congruence. }
  split; cbn.
  - intros j g [[<- <-]|[_ ?]]%lookup_insert_Some; [done|eauto].
  - intros m j [[<- <-]|[_ Hm]]%lookup_insert_Some; [eexists; by rewrite lookup_insert_eq|].
    destruct (I2 m j Hm) as (g & Hg & Hs). exists g. rewrite lookup_insert_ne; [done|congruence].
  - intros j g [[<- <-]|[_ Hg]]%lookup_insert_Some Hs; [exists n; by rewrite lookup_insert_eq|].
    destruct (I3 j g Hg Hs) as [m Hm]. exists m. rewrite lookup_insert_ne; [done|congruence].
  - intros a c j [[<- <-]|[_ ?]]%lookup_insert_Some [[<- E2]|[_ ?]]%lookup_insert_Some; try done; try (subst; by exfalso; eauto).
    eauto.
  - intros j g [[<- <-]|[_ Hg]]%lookup_insert_Some; [lia|]. specialize (I5 j g Hg). lia.
Qed.

Lemma inv_step s s' : step s s' -> inv s -> inv s'.
Proof.
  destruct 1; [apply inv_Launch|apply inv_Stop|apply inv_StopAll|apply inv_alter; apply fits_supervise|apply inv_alter; apply fits_dies].
Qed.

Lemma supervisor_inv s : reachable s -> inv s.
Proof.
  assert (forall s1 s2, rtc step s1 s2 -> inv s1 -> inv s2) as R.
  { induction 1; [done|]. intros. eauto using inv_step. }
  intros Hr. apply (R _ _ Hr). split; cbn; intros *; by rewrite ?lookup_empty.
Qed.

(** A goroutine that is stopped, has no process and will start none. *)
Definition over (g : goroutine) : Prop := g_stop g = true /\ g_cmd g <> Started true /\ g_pc g <> BeforeStart.

Lemma over_end g : g_pc g <> BeforeStart -> over (end_door g).
Proof. intros Hp. split_and!; [done|unfold end_door; cbn; by destruct (g_cmd g)|done]. Qed.

Lemma over_step i s s' : inv s -> step s s' -> (exists g, gos s !! i = Some g /\ over g) -> exists g, gos s' !! i = Some g /\ over g.
Proof.
  intros I St (g & Hg & Hs & Hc & Hp).
  assert (A : forall f j, (over (f g)) -> exists g', alter f j (gos s) !! i = Some g' /\ over g').
  { intros f j Hf. rewrite lookup_alter. case_decide; subst; [|by exists g]. exists (f g). by rewrite Hg. }
  destruct St as [b n d s|n s|s|j b r e s|j s]; cbn.
  - exists g. split; [|done]. unfold Launch. destruct (procs s !! n); [done|]. destruct b; [|done]. cbn.
    rewrite lookup_insert_ne; [done|]. intros <-. apply (i_next _ I) in Hg. lia.
  - unfold Stop. destruct (procs s !! n); [|by exists g]. by apply A, over_end.
  - rewrite map_lookup_imap, Hg. cbn. eexists. split; [done|]. case_bool_decide; [by apply over_end|done].
  - apply A. unfold supervise, over. destruct g as [d st c pc bo]. cbn in *. subst st. destruct pc; cbn; try done.
    + destruct c as [| |[]]; done.
    + by destruct e.
  - apply A. unfold dies, over. destruct g as [d st c pc bo]. by destruct c.
Qed.

Lemma over_rtc i s s' : inv s -> rtc step s s' -> (exists g, gos s !! i = Some g /\ over g) -> exists g, gos s' !! i = Some g /\ over g.
Proof. intros I R. induction R as [|s1 s2 s3 St R IH]; [done|]. intros G. apply IH; [by eapply inv_step|by eapply over_step]. Qed.

(** ** Properties *)

(** Whatever happens to the supervisor, a supervised name has one goroutine that
    keeps it running and no other goroutine is left unstopped; each has at most
    the process it waits for. *)
Theorem supervised_once (s : state) (Hr : reachable s) :
  (forall i g, gos s !! i = Some g ->
     (g_stop g = false <-> exists n, procs s !! n = Some i) /\ (g_cmd g = Started true -> g_pc g = InWait)) /\
  (forall n m i, procs s !! n = Some i -> procs s !! m = Some i -> n = m).
Proof.
  apply supervisor_inv in Hr as [I1 I2 I3 I4 I5]. split; [|done]. intros i g Hg. split; [split; [eauto|]|].
  - intros [n Hn]. destruct (I2 n i Hn) as (g' & Hg' & Hs). congruence.
  - intros Hc. specialize (I1 i g Hg). unfold fits in I1.
    destruct (g_pc g); try done; [by rewrite Hc in I1|by destruct I1].
Qed.

(** C34: Stopping a door ends it for good, whatever follows, unless its goroutine is
    just about to start the process: then the process is started after the stop,
    and no later Stop or StopAll reaches it. *)
Theorem stop_ends_door (s : state) (name : bytes) (i : Z) (g : goroutine)
    (Hr : reachable s) (Hn : procs s !! name = Some i) (Hg : gos s !! i = Some g) :
  (g_pc g <> BeforeStart -> forall s', rtc step (Stop name s) s' -> ~ alive i s') /\
  (g_pc g = BeforeStart -> forall r e,
     let s1 := set_gos (alter (supervise true r e) i (gos (Stop name s))) (Stop name s) in
     step (Stop name s) s1 /\ alive i s1 /\ (forall n, alive i (Stop n s1)) /\ alive i (StopAll s1)).
Proof.
  pose proof (supervisor_inv s Hr) as I. pose proof (i_fits _ I i g Hg) as F.
  assert (E : gos (Stop name s) !! i = Some (end_door g)).
  { unfold Stop. rewrite Hn. cbn. rewrite lookup_alter, decide_True by done. by rewrite Hg. }
  split.
  - intros Hp s' R (g' & Hg' & Ha).
    destruct (over_rtc i (Stop name s) s') as (g2 & Hg2 & _ & Hc & _); [by apply inv_Stop|done| |congruence].
    exists (end_door g). split; [done|by apply over_end].
  - intros Hp r e. cbv zeta. set (s1 := set_gos _ _). assert (I1 : inv s1).
    { apply inv_alter; [apply fits_supervise|by apply inv_Stop]. }
    assert (G : gos s1 !! i = Some (supervise true r e (end_door g))).
    { unfold s1. cbn. rewrite lookup_alter, decide_True by done. by rewrite E. }
    assert (Hs : g_stop (supervise true r e (end_door g)) = true /\ g_cmd (supervise true r e (end_door g)) = Started true).
    { unfold supervise, end_door. cbn. by rewrite Hp. }
    destruct Hs as [Hs Hc]. assert (Hno : forall n, procs s1 !! n <> Some i).
    { intros n Hi. destruct (i_table _ I1 n i Hi) as (g' & Hg' & ?). congruence. }
    split_and!; [apply step_supervise|by eexists| |].
    + intros n. eexists. split; [|exact Hc]. unfold Stop. destruct (procs s1 !! n) as [j|] eqn:Ej; [|done].
      cbn. rewrite lookup_alter, decide_False; [done|]. intros ->. by apply (Hno n).
    + eexists. split; [|exact Hc]. unfold StopAll. cbn [gos]. rewrite map_lookup_imap, G. cbn. rewrite bool_decide_false; [done|].
      intros ((n & j) & -> & Hj)%list_elem_of_fmap. apply elem_of_map_to_list in Hj. by apply (Hno n).
Qed.

(** ** Witnesses *)

Definition a_door : superProc := SuperProc (str "bin") (str "dir") (str "127.0.0.1:4000").
Definition one_door : state :=
  let s := (Launch true (str "door") a_door NewSupervisor).2 in set_gos (alter (supervise true 0 false) 0 (gos s)) s.

Lemma one_door_reachable : reachable one_door.
Proof.
  unfold one_door, reachable. cbv zeta. eapply rtc_l; [apply (step_launch true (str "door") a_door)|]. apply rtc_once, step_supervise.
Defined.

Lemma supervised_once_witness : g_stop (Goroutine a_door false Made BeforeStart (10 ^ 9)) = false.
Proof.
  apply (supervised_once one_door one_door_reachable) with (i := 0); [vm_compute; reflexivity|].
  exists (str "door"). vm_compute. reflexivity.
Defined.

Lemma stop_ends_door_witness :
  alive 0 (set_gos (alter (supervise true 0 false) 0 (gos (Stop (str "door") one_door))) (Stop (str "door") one_door)).
Proof.
  destruct (stop_ends_door one_door (str "door") 0 (Goroutine a_door false Made BeforeStart (10 ^ 9)) one_door_reachable)
    as [_ B]; [vm_compute; reflexivity|vm_compute; reflexivity|]. by destruct (B eq_refl 0 false) as (_ & A & _).
Defined.
