(* ===== verification/Front.v ===== *)
(** * The front door (src/transport/conn.go, mkSession and the wiring in main of src/cmd/admiralbbs/main.go)

    How a connection becomes a session: its id, its caller, its idle timeout; and
    everything between the SSH port and the member's menu together, on any
    database the board can have come to. *)

From S2P Require Import Prelude Doors Wire Xmodem GoStrings GoNet Base64 GoTime Vault Sql Users Credentials Boards Mail Files AuditLog.
From S2P Require Import SessionLog Bans DoorStore Limits Telnet Registry Input Screen Terminal Login World Widgets DoorScreens Menu.
From S2P Require Import Confine Gates Server Ssh Sysopctl Migrate Startup Tool Watchdog Sound Integrity.

(** What a transport tells of a connection. *)
Record Conn := MkConn { RemoteAddr : option bytes; Transport : bytes; TermType : bytes; Window : WindowSize; Username : bytes }.

Definition ssh_conn (addr : bytes) (c : sshConn) : Conn := MkConn (Some addr) (str "ssh") (c_termType c) (c_win c) (c_user c).

Definition telnet_conn (addr : bytes) (c : telnetConn) : Conn := MkConn (Some addr) (str "telnet") (termType c) (win c) [].

(** [fmt.Sprintf("s-%06d", n)]; [n]: what the process's counter gives. *)
Definition session_id (n : Z) : bytes := str "s-" ++ replicate (6 - length (Itoa n)) 48 ++ Itoa n.

(** The caller of a new session. *)
Definition caller_of (n : Z) (c : Conn) : caller :=
  Caller (session_id n) (hostOf (RemoteAddr c)) (Transport c) (Username c) (DetectCapability (TermType c) (Window c)) false.

(** A 64-bit product wraps. *)
Definition i64 (x : Z) : Z := (x + 2 ^ 63) mod 2 ^ 64 - 2 ^ 63.

(** [time.Duration(IdleMinutes(...)) * time.Minute] *)
Definition idle_duration (defaultMinutes : Z) (b : bbs) : Z := i64 (IdleMinutes defaultMinutes (db_settings b) * Minute).

(** [mkSession]: the caller, and the watchdogs as the session starts. *)
Definition mkSession (n defaultIdle now : Z) (c : Conn) (b : bbs) : caller * watch :=
  (caller_of n c, WatchIdle (idle_duration defaultIdle b) now new_watch).

(** The environment of one session. *)
Definition at_conn (c : caller) (E : Env) : Env := {|
  vault := @vault E; conn := c; clock := @clock E; rnd := @rnd E; World.disk := @World.disk E; err_text := @err_text E;
  xerr_text := @xerr_text E; base64_text := @base64_text E; lower := @lower E; to_upper := @to_upper E; quote := @quote E
|}.

(** ** Lemmas *)

Lemma undec_zeros k l : undec 0 (replicate k 48 ++ l) = undec 0 l.
Proof. induction k as [|k IH]; [done|exact IH]. Qed.

(** The sessions of one process have different ids, up to the counter's end. *)
Lemma session_id_inj m n : 0 <= m < 2 ^ 64 -> 0 <= n < 2 ^ 64 -> session_id m = session_id n -> m = n.
Proof.
  intros Hm Hn E. unfold session_id in E. apply app_inv_head, (f_equal (undec 0)) in E. rewrite !undec_zeros in E. unfold Itoa in E.
  rewrite (proj2 (Z.ltb_ge m 0)), (proj2 (Z.ltb_ge n 0)), !undec_dec in E by lia. congruence.
Qed.

Lemma i64_id x : int64_ok x -> i64 x = x.
Proof. unfold int64_ok, i64. intros Hx. rewrite Z.mod_small; lia. Qed.

(** The setting in minutes is the timeout as long as its nanoseconds fit 64 bits;
    the next larger settings leave the session without a watchdog, and then they
    come round: the screen accepts each of them. *)
Lemma idle_setting d m now b : DoorStore.IdleMinutes d (db_settings b) = m ->
  (0 < m <= 153722867 -> WatchIdle (idle_duration d b) now new_watch = Watch (m * Minute) (Pending (now + m * Minute)) Nil None) /\
  (153722867 < m <= 307445734 -> WatchIdle (idle_duration d b) now new_watch = new_watch) /\
  (m = 307445735 -> WatchIdle (idle_duration d b) now new_watch = Watch 26290448384 (Pending (now + 26290448384)) Nil None).
Proof.
  intros Hm. unfold idle_duration. rewrite Hm. assert (EM : Minute = 60000000000) by done. split_and!; intros Hr.
  - rewrite EM. assert (Hp : 0 < m * 60000000000 <= 9223372036854775807) by lia. rewrite i64_id by (unfold int64_ok; lia).
    unfold WatchIdle. by rewrite (proj2 (Z.leb_gt _ 0) (proj1 Hp)).
  - unfold WatchIdle. rewrite (proj2 (Z.leb_le _ _)); [done|]. unfold i64. rewrite EM. zdiv.
  - rewrite Hr. unfold WatchIdle. by vm_compute.
Qed.

(** The account of a handle is a row of that handle. *)
Lemma ByHandle_row `{Crypto} v h t u : Users_ByHandle v h t = Ok u ->
  exists r, (ID u, r) ∈ rows t /\ lower_ascii (c_handle r) = lower_ascii h.
Proof.
  unfold Users_ByHandle. destruct (select (same_handle h) t) as [|[i r] l] eqn:E; [done|]. cbn [first_user].
  assert (Hin : (i, r) ∈ select (same_handle h) t) by (rewrite E; left). apply elem_of_select in Hin as [Hin Hh%beq_true].
  intros Hu. exists r. split; [|exact Hh]. unfold Users_scan in Hu. destruct (scan_int _); [|done].
  destruct (open v (c_real_name r)), (open v (c_email r)); try done. by injection Hu as <-.
Qed.

(** An account keeps its handle, so a handle its account. *)
Lemma same_account `{Crypto} v v' h b b' u u' : sound (db_users b) b' ->
  Users_ByHandle v h (db_users b) = Ok u -> Users_ByHandle v' h (db_users b') = Ok u' -> ID u' = ID u.
Proof.
  intros Hs (r & Hr & E)%ByHandle_row (r' & Hr' & E')%ByHandle_row.
  destruct (so_since _ _ Hs _ _ Hr) as (r1 & Hr1 & E1).
  eapply (it_unique _ _ _ (so_users _ _ Hs)); [exact Hr'|exact Hr1|done|]. unfold handle_key. rewrite E1. congruence.
Qed.

Section Door.
Context `{Crypto, SshKeys, E : Env, DoorHost, EventJson}.
Variable exec : bytes -> bbs -> result bytes bbs.
Context (Hexec : forall us n b b', exec n b = Ok b' -> sound us b -> sound us b').

Abbreviation rows_of h := (Migrate.schema (Startup.disk h)).

(** C6: From the SSH port to the menu, on any database the board can have come to: a
    handler runs only past the ban list and the limits of the address, for a user
    name that is the handle of an approved account with an active key that the
    client proved to hold.  Whatever else happens before the session is served, and
    whatever is then typed in it, either nobody gets in, and nothing but tokens
    and the log changes; or that same account does, approved at that moment too
    and after a second factor, and below the SysOp level changes nothing but what
    is its own.  The database is as sound as before. *)
Theorem front_door {wire : Type} (unmarshal_pty : bytes -> option ptyReq) (unmarshal_win : bytes -> option winChReq)
    (NewServerConn : (bytes -> bytes -> bool) -> wire -> option (bytes * list newChannel))
    (h0 h1 h2 : Startup.host) (addr : bytes) (raw : wire) (lm lm' : limiter) (hs : list sshConn) (c : sshConn)
    (n minutes : Z) (cfg : Menu.config) (acquired : nat -> Z) (buffered : nat -> nat) (w : state)
    (Hhs : forall auth raw user chans, NewServerConn auth raw = Some (user, chans) -> exists key, auth user key = true)
    (Hstart : sound empty_table (rows_of h0)) (Hbefore : rtc (life exec) h0 h1)
    (Haccept : accept unmarshal_pty unmarshal_win NewServerConn
       (λ u k, authenticator vault u k (db_users (rows_of h1)) (db_keys (rows_of h1))) (λ i, IsBanned i (db_bans (rows_of h1)))
       (hostOf (Some addr)) raw lm = Some (lm', hs))
    (Hc : c ∈ hs) (Hbetween : rtc (life exec) h1 h2) (Hw : finds w h2) :
  let session := at_conn (caller_of n (ssh_conn addr c)) E in
  let b' := db (sshHandle (H1 := session) buffered minutes cfg acquired w).2 in
  IsBanned (hostOf (Some addr)) (db_bans (rows_of h1)) = false /\ Limits.acquire (hostOf (Some addr)) lm = Some (true, lm') /\
  (exists u key, Users_ByHandle vault (c_user c) (db_users (rows_of h1)) = Ok u /\ Status u = StatusApproved /\
     Keys_Authorizes (ID u) key (db_keys (rows_of h1)) = true /\
     ((exists l t, b' = put_log l (put_tokens t (db w))) \/
      (exists u' r y b1, ID u' = ID u /\ Users_ByHandle vault (c_user c) (db_users (db w)) = Ok u' /\ Status u' = StatusApproved /\
         second_factor vault (@conn session) clock r u' (login_world (Session_New (H1 := session) w).2) y /\
         only_account (ID u) (db_users (db w)) (db_users b1) /\
         b1 = put_log (db_log b1) (put_anomalies (db_anomalies b1) (put_tokens (w_tokens y) (put_users (w_users y) (db w)))) /\
         (AccessLevel u' < CoSysOpLevel -> allowed (ID u) b1 b')))) /\
  sound (db_users (rows_of h1)) b'.
Proof.
  intros session b'.
  assert (S1 : sound (db_users (rows_of h1)) (rows_of h1)) by (eapply sound_now, (history_keeps exec); [done|exact Hbefore|exact Hstart]).
  assert (S2 : sound (db_users (rows_of h1)) (rows_of h2)) by (eapply (history_keeps exec); [done|exact Hbetween|exact S1]).
  assert (Sw : sound (db_users (rows_of h1)) (db w)) by by rewrite Hw.
  destruct (handler_authenticated unmarshal_pty unmarshal_win NewServerConn vault (db_users (rows_of h1)) (db_keys (rows_of h1))
    (db_bans (rows_of h1)) (hostOf (Some addr)) raw lm lm' hs c Hhs Haccept Hc) as (Hban & Hacq & u & key & Hu & Hst & Hk).
  split_and!; [done|done| |apply (steady_sshHandle (H1 := session) _ buffered minutes cfg acquired w Sw)].
  exists u, key. split_and!; [done..|].
  destruct (ssh_session (H2 := session) buffered minutes cfg acquired w (sound_tables_ok _ _ Sw)) as [R|(u' & y & b1 & Hu' & Hs' & Hf & Hon & Hb1 & Hal)].
  - by left.
  - right. assert (Hid : ID u' = ID u) by (eapply same_account; [exact Sw|exact Hu|exact Hu']).
    eexists u', _, y, b1. rewrite <-Hid. split_and!; [done|exact Hu'|done|exact Hf|done..].
Qed.
End Door.

(** ** Witness *)

(** The SysOp of [by_daemon] calls from 10.0.0.1 and types the password. *)
Definition its_env : Env := with_vault (sv_vault (listening by_daemon.1)) toy_env.
Definition its_rows : bbs := Migrate.schema (Startup.disk by_daemon.2).
Definition a_call : bytes * bytes * list newChannel := (str "trinity", str "key", [NewChannel (str "session") true [a_shell]]).
Definition a_conn : sshConn := set_started (newSshConn (str "trinity")).
Definition a_session : Env := at_conn (caller_of 1 (ssh_conn (str "10.0.0.1:5000") a_conn)) its_env.
Definition at_door : state := with_db its_rows (at_keys trinity (typing [a_password])).

Lemma front_door_witness :
  sound (db_users its_rows) (db (sshHandle (H := toy) (H0 := toy_ssh) (H1 := a_session) (H2 := toy_host) (H3 := toy_json)
    (λ _, 0%nat) 60 a_config (λ _, 0) at_door).2) /\
  exists u, Users_ByHandle (H := toy) (@vault a_session) (c_user a_conn) (db_users its_rows) = Ok u /\ Status u = StatusApproved.
Proof.
  assert (L : rtc (life (H := toy) (H0 := toy_ssh) (H1 := toy_json) just_apply) new_host by_daemon.2).
  { eapply rtc_l; [apply (l_tool (H := toy) (H0 := toy_ssh) (H1 := toy_json) just_apply tool_env (calm Startup.a_salt) call)|].
    apply rtc_once, (l_start (H := toy) (H0 := toy_ssh) (H1 := toy_json) just_apply its_options (calm [])). }
  destruct (accept pty_bytes size_bytes toy_handshake
    (λ u k, authenticator (H := toy) (H0 := toy_ssh) (@vault its_env) u k (db_users its_rows) (db_keys its_rows))
    (λ i, IsBanned i (db_bans its_rows)) (hostOf (Some (str "10.0.0.1:5000"))) a_call (newLimiter DefaultLimits)) as [[lm' hs]|] eqn:E;
    [|vm_compute in E; discriminate E].
  assert (Hh : hs = [a_conn]) by (vm_compute in E; injection E as <- <-; reflexivity).
  destruct (front_door (H := toy) (H0 := toy_ssh) (E := its_env) (H1 := toy_host) (H2 := toy_json) just_apply
    ltac:(by intros us n b b' [= <-]) pty_bytes size_bytes toy_handshake new_host by_daemon.2 by_daemon.2 (str "10.0.0.1:5000") a_call
    (newLimiter DefaultLimits) lm' hs a_conn 1 60 a_config (λ _, 0) (λ _, 0%nat) at_door)
    as (_ & _ & (u & key & Hu & Hst & _) & S).
  - intros auth [[u k] chans] user chans'. cbn. destruct (auth u k) eqn:A; [|done]. intros [= <- <-]. by exists k.
  - apply sound_no_rows.
  - exact L.
  - exact E.
  - rewrite Hh. by left.
  - done.
  - done.
  - split; [exact S|]. exists u. split; [exact Hu|exact Hst].
Defined.
